(** * Metabolite-prediction clean-up and model comparison ([model_comp.py])

    A shallow embedding of the pandas code of [src/data/model_comp.py]:
    the metric functions [calcSensitivity], [calcPrecision] and
    [sumMarkParents], the aggregators [aggregate_DFs] and
    [aggregate_DFs_extended], the helper [SMILES_to_MW] and the adapter
    [TIMES_cleanup].

    Conventions of the embedding.
    - A pandas [DataFrame] is a list of column names and a list of rows,
      every row carrying its index label; a [Series] is a list of labelled
      values.  Binary operations on two Series align them on their labels
      as pandas does.
    - A Python function returns [Ok v] or raises ([Raise e]).
    - A Python [float] is an IEEE-754 binary64 number, here the
      [spec_float] of the standard library with [prec = 53] and
      [emax = 1024].
    - RDKit is an external library: its functions are parameters of the
      sections that use them. *)

From Stdlib Require Import ZArith List String Bool Lia QArith Permutation.
From Stdlib Require Import Floats.SpecFloat.
Import ListNotations.

Local Open Scope string_scope.
Local Open Scope list_scope.
Local Open Scope Z_scope.

Set Implicit Arguments.

(* ================================================================= *)
(** ** Python results and exceptions *)

Inductive exn : Type :=
| KeyError (key : string)
| IndexError
| ZeroDivisionError
| UnboundLocalError (var : string)
| ArgumentError.

Inductive result (A : Type) : Type :=
| Ok (a : A)
| Raise (e : exn).

Arguments Ok {A} a.
Arguments Raise {A} e.

Definition bind {A B : Type} (r : result A) (k : A -> result B) : result B :=
  match r with
  | Ok a => k a
  | Raise e => Raise e
  end.

Notation "x <- r ;; k" := (bind r (fun x => k))
  (at level 61, r at next level, right associativity).

(** [for x in xs: acc = body(acc, x)], where the body may raise. *)
Fixpoint foldM {A B : Type} (body : B -> A -> result B) (xs : list A) (acc : B)
  : result B :=
  match xs with
  | [] => Ok acc
  | x :: xs' => acc' <- body acc x ;; foldM body xs' acc'
  end.

(** [series.apply(f)], where [f] may raise. *)
Fixpoint mapM {A B : Type} (f : A -> result B) (xs : list A) : result (list B) :=
  match xs with
  | [] => Ok []
  | x :: xs' => y <- f x ;; ys <- mapM f xs' ;; Ok (y :: ys)
  end.

(* ================================================================= *)
(** ** Python floats *)

Module PyFloat.

Definition prec : Z := 53.
Definition emax : Z := 1024.

Definition float : Type := spec_float.

(** [float(z)] for an integer of magnitude below [2^53] (exact). *)
Definition of_int (z : Z) : float := binary_normalize prec emax z 0 false.

Definition add : float -> float -> float := SFadd prec emax.
Definition div : float -> float -> float := SFdiv prec emax.
Definition eqb : float -> float -> bool := SFeqb.

Definition zero : float := S754_zero false.

(** [a / b] on two Python ints: true division, correctly rounded; the
    operands are counts of rows, far below [2^53]. *)
Definition truediv (a b : Z) : result float :=
  if b =? 0 then Raise ZeroDivisionError
  else Ok (div (of_int a) (of_int b)).

(** The integer nearest to [num / den] ([den > 0]), ties to even. *)
Definition round_half_even (num den : Z) : Z :=
  let q := num / den in
  let r := num mod den in
  match 2 * r ?= den with
  | Lt => q
  | Gt => q + 1
  | Eq => if Z.even q then q else q + 1
  end.

(** The integer nearest to [m * 2^e * 10^ndigits], ties to even. *)
Definition scaled (m : positive) (e : Z) (ndigits : Z) : Z :=
  if 0 <=? e then Zpos m * 2 ^ e * 10 ^ ndigits
  else round_half_even (Zpos m * 10 ^ ndigits) (2 ^ (- e)).

(** [round(x, ndigits)] on a float, [ndigits >= 0]: the exact value of
    [x] is rounded to [ndigits] decimals, ties to even, and the decimal
    is converted back to the nearest float.  Zeros, infinities and NaN
    round to themselves. *)
Definition round (x : float) (ndigits : Z) : float :=
  match x with
  | S754_finite s m e =>
      let k := scaled m e ndigits in
      if k =? 0 then S754_zero s
      else div (of_int (cond_Zopp s k)) (of_int (10 ^ ndigits))
  | _ => x
  end.

(** The exact value of a finite float. *)
Definition value (x : float) : option Q :=
  match x with
  | S754_zero _ => Some 0%Q
  | S754_finite s m e => Some (inject_Z (cond_Zopp s (Zpos m)) * Qpower 2 e)%Q
  | _ => None
  end.

End PyFloat.

(* ================================================================= *)
(** ** Cells of a data frame *)

(** The values the code stores in a column: strings (identifiers, SMILES,
    formulas), ints (flags), bools (the Markush column) and floats
    (masses, flags after an outer join, and [np.NaN]). *)
Inductive cell : Type :=
| Str (s : string)
| Num (z : Z)
| Bool (b : bool)
| Flt (f : PyFloat.float).

Definition NaN : cell := Flt S754_nan.

(** [pd.isna] *)
Definition isna (c : cell) : bool :=
  match c with
  | Flt S754_nan => true
  | _ => false
  end.

(** What a cell is for Python's comparison: a string, an exact number
    (bools are the ints 0 and 1; ints and floats compare by value), an
    infinity or NaN. *)
Inductive pyval : Type :=
| VStr (s : string)
| VNum (q : Q)
| VInf (neg : bool)
| VNaN.

Definition classify (c : cell) : pyval :=
  match c with
  | Str s => VStr s
  | Num z => VNum (inject_Z z)
  | Bool b => VNum (inject_Z (Z.b2z b))
  | Flt (S754_zero _) => VNum 0%Q
  | Flt (S754_finite s m e) =>
      VNum (inject_Z (cond_Zopp s (Zpos m)) * Qpower 2 e)%Q
  | Flt (S754_infinity s) => VInf s
  | Flt S754_nan => VNaN
  end.

Definition pyval_eqb (nan_eq : bool) (a b : pyval) : bool :=
  match a, b with
  | VStr s, VStr t => String.eqb s t
  | VNum p, VNum q => Qeq_bool p q
  | VInf s, VInf t => Bool.eqb s t
  | VNaN, VNaN => nan_eq
  | _, _ => false
  end.

(** Python's [==] on two scalars, as pandas applies it element by element
    in [series == value]: NaN equals nothing. *)
Definition py_eq (a b : cell) : bool := pyval_eqb false (classify a) (classify b).

(** Equality of the keys of a merge and of the rows that
    [drop_duplicates] compares.  It is [==], and one missing value is
    the same as another. *)
Definition same (a b : cell) : bool := pyval_eqb true (classify a) (classify b).

(** [bool(x)] as pandas casts the right operand of [|] on a boolean
    Series: a missing value is False, a number is True unless zero, a
    string is True unless empty. *)
Definition truthy (c : cell) : bool :=
  match classify c with
  | VStr s => negb (String.eqb s "")
  | VNum q => negb (Qeq_bool q 0)
  | VInf _ => true
  | VNaN => false
  end.

(* ================================================================= *)
(** ** Series *)

Definition Series (A : Type) : Type := list (nat * A).

Definition index {A : Type} (s : Series A) : list nat := map fst s.
Definition values {A : Type} (s : Series A) : list A := map snd s.

(** [s.get(i)]: the value at label [i] (the first one, if any). *)
Fixpoint loc {A : Type} (s : Series A) (i : nat) : option A :=
  match s with
  | [] => None
  | (j, a) :: s' => if Nat.eqb j i then Some a else loc s' i
  end.

Definition index_equals (a b : list nat) : bool :=
  if list_eq_dec Nat.eq_dec a b then true else false.

(** The labels of [b] that [a] does not have. *)
Definition index_difference (b a : list nat) : list nat :=
  filter (fun i => negb (existsb (Nat.eqb i) a)) b.

(** Element-wise operation on two Series.  On identical indexes pandas
    works position by position; otherwise it first aligns both on the
    union of the labels, and [fill] stands for the value of a label
    that a side does not have. *)
Definition align2 {A B C : Type} (op : A -> B -> C) (fillA : A) (fillB : B)
  (a : Series A) (b : Series B) : Series C :=
  if index_equals (index a) (index b) then
    map (fun p => (fst (fst p), op (snd (fst p)) (snd (snd p)))) (combine a b)
  else
    map (fun i => (i, op (match loc a i with Some x => x | None => fillA end)
                         (match loc b i with Some y => y | None => fillB end)))
        (index a ++ index_difference (index b) (index a)).

(** [a & b] on boolean Series: a label missing on one side is NaN there,
    which the logical operators read as False. *)
Definition series_and (a b : Series bool) : Series bool :=
  align2 andb false false a b.

(** [a | b] with [a] boolean and [b] a column: the column is cast to
    bool. *)
Definition series_or_cast (a : Series bool) (b : Series cell) : Series bool :=
  align2 (fun x c => x || truthy c) false NaN a b.

(** [~a] *)
Definition series_not (a : Series bool) : Series bool :=
  map (fun p => (fst p, negb (snd p))) a.

(** [s == v] for a column [s] and a scalar [v]. *)
Definition series_eq (s : Series cell) (v : cell) : Series bool :=
  map (fun p => (fst p, py_eq (snd p) v)) s.

(** [b == v] for a boolean Series [b]. *)
Definition bools_eq (b : Series bool) (v : cell) : Series bool :=
  map (fun p => (fst p, py_eq (Bool (snd p)) v)) b.

(** [sum(s)] on a boolean Series: the number of True values, an int. *)
Definition series_sum (s : Series bool) : Z :=
  Z.of_nat (List.length (filter (fun p => snd p) s)).

Infix "&&&" := series_and (at level 40, left associativity).

(* ================================================================= *)
(** ** Data frames *)

Record DataFrame : Type := mkDF {
  columns : list string;
  body : list (nat * list cell)   (* index label, cells in column order *)
}.

Fixpoint position (c : string) (cols : list string) : option nat :=
  match cols with
  | [] => None
  | c' :: cols' =>
      if String.eqb c' c then Some O
      else match position c cols' with
           | Some j => Some (S j)
           | None => None
           end
  end.

(** The cell of a row under the [j]-th column. *)
Definition cell_at (j : nat) (r : nat * list cell) : cell := nth j (snd r) NaN.

(** [df[c]]: a column, or KeyError.  The names of the columns of a
    frame are taken to be different from one another; were a name
    repeated, its first column is the one meant. *)
Definition getitem (df : DataFrame) (c : string) : result (Series cell) :=
  match position c (columns df) with
  | Some j => Ok (map (fun r => (fst r, cell_at j r)) (body df))
  | None => Raise (KeyError c)
  end.

(** [df[mask]]: the rows whose label the boolean Series marks. *)
Definition select (df : DataFrame) (mask : Series bool) : DataFrame :=
  mkDF (columns df)
       (filter (fun r => match loc mask (fst r) with
                         | Some b => b
                         | None => false
                         end) (body df)).

(** [df.loc[mask, c]] *)
Definition loc_column (df : DataFrame) (mask : Series bool) (c : string)
  : result (Series cell) :=
  getitem (select df mask) c.

(** [len(df)] *)
Definition nrows (df : DataFrame) : nat := List.length (body df).

(* ================================================================= *)
(** ** Sets of pairs *)

(** Two pairs of identifiers are the same pair. *)
Definition pair_same (p q : cell * cell) : bool :=
  same (fst p) (fst q) && same (snd p) (snd q).

(** Two tuples are the same element of a [set]: they are equal, component
    by component.  Iterating a column of numbers makes a new Python
    float of every cell, and NaN is equal to no other float: a tuple
    that holds a missing number is an element by itself, however many
    rows hold such a tuple.  (A column of Python objects yields the
    objects it stores, and a missing value that is one object in two
    rows gives two tuples that are one element.  A frame of cells does
    not tell which objects its cells are: the theorems below that count
    the elements of a set take a missing identifier to be missing from
    a column of numbers, and say so.) *)
Definition tuple_same (p q : cell * cell) : bool :=
  py_eq (fst p) (fst q) && py_eq (snd p) (snd q).

(** The distinct elements of a list, each at its first occurrence;
    [seen] are the elements already met. *)
Fixpoint distinct_from {A : Type} (eqb : A -> A -> bool) (seen l : list A)
  : list A :=
  match l with
  | [] => []
  | p :: l' =>
      if existsb (eqb p) seen then distinct_from eqb seen l'
      else p :: distinct_from eqb (p :: seen) l'
  end.

Definition distinct {A : Type} (eqb : A -> A -> bool) (l : list A) : list A :=
  distinct_from eqb [] l.

(** [list(set(zip(a, b)))].  The order in which Python lists a set is
    not specified; the callers only count. *)
Definition set_of_zip (a b : Series cell) : list (cell * cell) :=
  distinct tuple_same (combine (values a) (values b)).

(* ================================================================= *)
(** ** The metric functions *)

(** [modelName] is a column name or a list of column names. *)
Inductive selector : Type :=
| Name (s : string)
| Names (l : list string).

(** The first statements of [calcSensitivity] and of [calcPrecision],
    which are the same in both:
<<
    if isinstance(modelName, list):
        modelFilter = data[modelName[0]] == 1
        if len(modelName) > 1:
            for model in modelName[1:]:
                modelFilter = modelFilter | data[model] == 1
    else:
        modelFilter = data[modelName] == 1
>>
    [|] binds tighter than [==], so the loop body computes
    [(modelFilter | data[model]) == 1]. *)
Definition model_filter (data : DataFrame) (modelName : selector)
  : result (Series bool) :=
  match modelName with
  | Names names =>
      match names with
      | [] => Raise IndexError
      | first :: rest =>
          c0 <- getitem data first ;;
          foldM (fun modelFilter model =>
                   c <- getitem data model ;;
                   Ok (bools_eq (series_or_cast modelFilter c) (Num 1)))
                rest (series_eq c0 (Num 1))
      end
  | Name name =>
      c <- getitem data name ;;
      Ok (series_eq c (Num 1))
  end.

(** [sum(parFilter & metabFilter & modelFilter)] for one pair of the
    loop of [sumMarkParents]. *)
Definition sumPredicted (dtxsid metab : Series cell) (modelFilter : Series bool)
  (pm : cell * cell) : Z :=
  let parFilter := series_eq dtxsid (fst pm) in
  let metabFilter := series_eq metab (snd pm) in
  series_sum (parFilter &&& metabFilter &&& modelFilter).

Definition sumMarkParents (dataFrame : DataFrame) (modelFilter : Series bool)
  : result Z :=
  mark <- getitem dataFrame "Markush" ;;
  let markDF := select dataFrame (series_eq mark (Bool true)) in
  dtxsid <- getitem markDF "DTXSID" ;;
  metab <- getitem markDF "Metabolite DTXSID" ;;
  let uniqueMatch := set_of_zip dtxsid metab in
  Ok (fold_left (fun sumReducedMark pm =>
                   if sumPredicted dtxsid metab modelFilter pm >? 0
                   then sumReducedMark + 1
                   else sumReducedMark)
                uniqueMatch 0).

Definition calcSensitivity (data : DataFrame) (modelName : selector)
  : result PyFloat.float :=
  modelFilter <- model_filter data modelName ;;
  reported <- getitem data "Reported" ;;
  let reportFilter := series_eq reported (Num 1) in
  mark <- getitem data "Markush" ;;
  let markFilter := series_eq mark (Bool true) in
  let trueNonMark :=
    series_sum (modelFilter &&& reportFilter &&& series_not markFilter) in
  trueMarkParent <- sumMarkParents data modelFilter ;;
  let reportNonMark := series_sum (reportFilter &&& series_not markFilter) in
  d <- loc_column data (reportFilter &&& markFilter) "DTXSID" ;;
  m <- loc_column data (reportFilter &&& markFilter) "Metabolite DTXSID" ;;
  let reportMarkParent := Z.of_nat (List.length (set_of_zip d m)) in
  x <- PyFloat.truediv (trueNonMark + trueMarkParent)
                       (reportNonMark + reportMarkParent) ;;
  Ok (PyFloat.round x 3).

(** The guard of the second branch is [allPred == 0 & truePred == 0]:
    [&] binds tighter than [==], and the comparison chains, so it is
    [allPred == (0 & truePred) and (0 & truePred) == 0].  When neither
    branch is taken [Precision] is unbound at the [return]. *)
Definition calcPrecision (data : DataFrame) (modelName : selector)
  : result PyFloat.float :=
  modelFilter <- model_filter data modelName ;;
  reported <- getitem data "Reported" ;;
  let reportFilter := series_eq reported (Num 1) in
  let truePred := series_sum (modelFilter &&& reportFilter) in
  let allPred := series_sum modelFilter in
  if allPred >? 0 then
    x <- PyFloat.truediv truePred allPred ;;
    Ok (PyFloat.round x 3)
  else if (allPred =? Z.land 0 truePred) && (Z.land 0 truePred =? 0) then
    Ok PyFloat.zero
  else
    Raise (UnboundLocalError "Precision").

(* ================================================================= *)
(** ** The aggregator *)

Definition has_column (df : DataFrame) (c : string) : bool :=
  existsb (String.eqb c) (columns df).

Definition mem (c : string) (l : list string) : bool := existsb (String.eqb c) l.

(** The cells of a row under the columns whose name satisfies [keep]. *)
Fixpoint pick (keep : string -> bool) (cols : list string) (r : list cell)
  : list cell :=
  match cols with
  | [] => []
  | c :: cols' =>
      let rest := pick keep cols' (tl r) in
      if keep c then hd NaN r :: rest else rest
  end.

(** [df.drop(labels, axis = 1)]: KeyError when a label is not a column. *)
Definition drop (df : DataFrame) (labels : list string) : result DataFrame :=
  match find (fun c => negb (has_column df c)) labels with
  | Some c => Raise (KeyError c)
  | None =>
      let keep := fun c => negb (mem c labels) in
      Ok (mkDF (filter keep (columns df))
               (map (fun r => (fst r, pick keep (columns df) (snd r))) (body df)))
  end.

(**
<<
    try:    d = DF.drop(excludedColumns, axis = 1)
    except: d = DF
>> *)
Definition excludedColumns : list string := ["Clean_SMILES"].

Definition drop_excluded (df : DataFrame) : DataFrame :=
  match drop df excludedColumns with
  | Ok d => d
  | Raise _ => df
  end.

(** The key of a row: its cells under the columns [on], in the order of
    [on]. *)
Definition key_of (cols on : list string) (r : list cell) : list cell :=
  map (fun k => match position k cols with
                | Some j => nth j r NaN
                | None => NaN
                end) on.

Fixpoint row_same (r1 r2 : list cell) : bool :=
  match r1, r2 with
  | [], [] => true
  | a :: r1', b :: r2' => same a b && row_same r1' r2'
  | _, _ => false
  end.

(** The suffix pandas gives to a column that is not a key and has the
    same name on both sides of a merge. *)
Definition suffixed (on others : list string) (suffix : string) (c : string)
  : string :=
  if negb (mem c on) && mem c others then c ++ suffix else c.

(** A row of the right frame whose key no left row has: the key cells go
    under the key columns of the left frame, and the other left columns
    are missing. *)
Definition right_only (lcols rcols on : list string) (r : list cell)
  : list cell :=
  map (fun c => match position c rcols with
                | Some j => if mem c on then nth j r NaN else NaN
                | None => NaN
                end) lcols
  ++ pick (fun c => negb (mem c on)) rcols r.

(** The rows of [pd.merge(left, right, on = on, how = 'outer')] when the
    left frame has rows.  A left row is joined with every right row of
    the same key, or padded with missing values when there is none; the
    right rows that no left row matches follow.  (pandas groups the rows
    of equal key together; the order of the rows of a merge is not
    otherwise relied upon below.) *)
Definition merge_rows (lcols rcols on : list string)
  (lrows rrows : list (list cell)) : list (list cell) :=
  let nonkey := fun c => negb (mem c on) in
  let width := List.length (filter nonkey rcols) in
  flat_map (fun l =>
              match filter (fun r => row_same (key_of lcols on l)
                                              (key_of rcols on r)) rrows with
              | [] => [l ++ repeat NaN width]
              | matches => map (fun r => l ++ pick nonkey rcols r) matches
              end) lrows
  ++ map (right_only lcols rcols on)
         (filter (fun r => negb (existsb (fun l => row_same (key_of lcols on l)
                                                           (key_of rcols on r))
                                         lrows)) rrows).

(** A row of the right frame when the left frame has no rows: the
    columns of the left frame that are not keys are missing, and the row
    follows as it is. *)
Definition right_alone (lcols on : list string) (r : list cell) : list cell :=
  repeat NaN (List.length (filter (fun c => negb (mem c on)) lcols)) ++ r.

Definition reset_index (rows : list (list cell)) : list (nat * list cell) :=
  combine (seq 0 (List.length rows)) rows.

(** [pd.merge(left, right, on = on, how = 'outer')].  pandas reads the
    first key before anything else and raises IndexError when [on] is
    empty; it raises KeyError for a key that one of the frames does not
    have.  It keeps one copy of the key columns: that of the left frame,
    in its place, when the left frame has rows, and that of the right
    frame when it has none ([len(left) > 0] in [_get_merge_keys]), so
    that the keys then come after the other columns of the left frame.
    The result has a fresh RangeIndex. *)
Definition merge (left right : DataFrame) (on : list string) : result DataFrame :=
  match on with
  | [] => Raise IndexError
  | _ :: _ =>
      match find (fun k => negb (has_column left k && has_column right k)) on with
      | Some k => Raise (KeyError k)
      | None =>
          match body left with
          | [] =>
              Ok (mkDF (map (suffixed on (columns right) "_x")
                            (filter (fun c => negb (mem c on)) (columns left))
                        ++ map (suffixed on (columns left) "_y") (columns right))
                       (reset_index (map (right_alone (columns left) on)
                                         (map snd (body right)))))
          | _ :: _ =>
              Ok (mkDF (map (suffixed on (columns right) "_x") (columns left)
                        ++ map (suffixed on (columns left) "_y")
                               (filter (fun c => negb (mem c on)) (columns right)))
                       (reset_index (merge_rows (columns left) (columns right) on
                                                (map snd (body left))
                                                (map snd (body right)))))
          end
      end
  end.

(** [df.replace(np.NaN, 0)] *)
Definition fill0 (c : cell) : cell := if isna c then Num 0 else c.

Definition replace_nan_0 (df : DataFrame) : DataFrame :=
  mkDF (columns df) (map (fun r => (fst r, map fill0 (snd r))) (body df)).

(** [df.drop_duplicates(inplace = True, ignore_index = True)] *)
Definition drop_duplicates (df : DataFrame) : DataFrame :=
  mkDF (columns df) (reset_index (distinct row_same (map snd (body df)))).

Definition default_on : list string := ["DTXSID"; "Metabolite_INCHIKEY"].

(** [aggregate_DFs(DF_List, arg_on)], with [arg_how = 'outer'].  A Python
    function that executes a bare [return] returns [None]. *)
Definition aggregate_DFs (DF_List : list DataFrame) (arg_on : list string)
  : result (option DataFrame) :=
  match DF_List with
  | first :: ((_ :: _) as comp_DF) =>
      agg_DF <- foldM (fun agg_DF addDF =>
                         m <- merge agg_DF (drop_excluded addDF) arg_on ;;
                         Ok (replace_nan_0 m))
                      comp_DF (drop_excluded first) ;;
      Ok (Some (drop_duplicates agg_DF))
  | _ => Ok None
  end.

(* ================================================================= *)
(** ** Columns of a frame: further pandas operations *)

(** [df.rename(columns = {old: new})] *)
Definition rename (df : DataFrame) (old new : string) : DataFrame :=
  mkDF (map (fun c => if String.eqb c old then new else c) (columns df)) (body df).

(** [df[[c1; ...; cn]]]: the listed columns, or KeyError. *)
Definition project (df : DataFrame) (cols : list string) : result DataFrame :=
  js <- mapM (fun c => match position c (columns df) with
                       | Some j => Ok j
                       | None => Raise (KeyError c)
                       end) cols ;;
  Ok (mkDF cols (map (fun r => (fst r, map (fun j => cell_at j r) js)) (body df))).

(** [df[start:-2]] *)
Definition slice_rows (df : DataFrame) (start : nat) : DataFrame :=
  mkDF (columns df)
       (firstn (List.length (body df) - 2 - start) (skipn start (body df))).

Fixpoint set_nth (j : nat) (v : cell) (r : list cell) : list cell :=
  match j, r with
  | O, _ :: r' => v :: r'
  | S j', a :: r' => a :: set_nth j' v r'
  | _, [] => []
  end.

(** [df[c] = f(row)]: the column [c] is overwritten, or added on the
    right when the frame does not have it. *)
Definition setitem_with (df : DataFrame) (c : string)
  (f : nat * list cell -> cell) : DataFrame :=
  match position c (columns df) with
  | Some j => mkDF (columns df)
                   (map (fun r => (fst r, set_nth j (f r) (snd r))) (body df))
  | None => mkDF (columns df ++ [c])
                 (map (fun r => (fst r, snd r ++ [f r])) (body df))
  end.

(** [df[c] = v] for a scalar [v]. *)
Definition setitem_const (df : DataFrame) (c : string) (v : cell) : DataFrame :=
  setitem_with df c (fun _ => v).

(** [df[c] = s] for a Series [s]: aligned on the index of the frame, a
    label that [s] does not have is missing. *)
Definition setitem (df : DataFrame) (c : string) (s : Series cell) : DataFrame :=
  setitem_with df c (fun r => match loc s (fst r) with
                              | Some v => v
                              | None => NaN
                              end).

(** [s[mask]] on Series of the same index. *)
Definition series_select {A : Type} (s : Series A) (mask : Series bool) : Series A :=
  filter (fun p => match loc mask (fst p) with
                   | Some b => b
                   | None => false
                   end) s.

Definition series_isnull (s : Series cell) : Series bool :=
  map (fun p => (fst p, isna (snd p))) s.

Definition series_notnull (s : Series cell) : Series bool :=
  map (fun p => (fst p, negb (isna (snd p)))) s.

(** [s.replace({old: new})] *)
Definition series_replace (s : Series cell) (old new : cell) : Series cell :=
  map (fun p => (fst p, if py_eq (snd p) old then new else snd p)) s.

(** [s.fillna(method = 'ffill')]: a fold over the rows in order that
    carries the last value seen; a missing value before any value stays
    missing. *)
Fixpoint ffill_from (last : cell) (s : Series cell) : Series cell :=
  match s with
  | [] => []
  | (i, c) :: s' =>
      if isna c then (i, last) :: ffill_from last s'
      else (i, c) :: ffill_from c s'
  end.

Definition ffill (s : Series cell) : Series cell := ffill_from NaN s.

(** [s.apply(f)] *)
Definition series_apply {A B : Type} (f : A -> result B) (s : Series A)
  : result (Series B) :=
  mapM (fun p => b <- f (snd p) ;; Ok (fst p, b)) s.

(** [df.drop_duplicates()]: the first of equal rows is kept, with its
    label. *)
Definition drop_duplicates_keep_index (df : DataFrame) : DataFrame :=
  mkDF (columns df)
       (distinct (fun r1 r2 => row_same (snd r1) (snd r2)) (body df)).

(* ================================================================= *)
(** ** The functions that call RDKit *)

Section RDKit.

(** The part of RDKit the code uses.  [MolFromSmiles] returns [None]
    on a string it cannot parse; the other functions take a molecule,
    and raise when they are given [None] or a float. *)
Variable Mol : Type.
Variable MolFromSmiles : string -> option Mol.
Variable MolToInchi : Mol -> string.
Variable InchiToInchiKey : string -> string.
Variable MolToSmiles : Mol -> bool -> string.   (* isomericSmiles *)
Variable ExactMolWt : Mol -> PyFloat.float.
Variable CalcMolFormula : Mol -> string.

(** [Chem.MolFromSmiles(x)] on a cell. *)
Definition mol_of_cell (x : cell) : result (option Mol) :=
  match x with
  | Str s => Ok (MolFromSmiles s)
  | _ => Raise ArgumentError
  end.

(** [f(x)] for an RDKit function [f] on molecules. *)
Definition on_mol {B : Type} (f : Mol -> B) (x : option Mol) : result B :=
  match x with
  | Some m => Ok (f m)
  | None => Raise ArgumentError
  end.

Definition SMILES_to_InchiKey (smile_List : Series cell) (stereoisomer : bool)
  : result (Series cell) :=
  if negb stereoisomer then
    molList <- series_apply mol_of_cell smile_List ;;
    clean <- series_apply (on_mol (fun m => MolToSmiles m false)) molList ;;
    molList <- series_apply (fun s => Ok (MolFromSmiles s)) clean ;;
    InchiList <- series_apply (on_mol MolToInchi) molList ;;
    series_apply (fun i => Ok (Str (InchiToInchiKey i))) InchiList
  else
    molList <- series_apply mol_of_cell smile_List ;;
    InchiList <- series_apply (on_mol MolToInchi) molList ;;
    series_apply (fun i => Ok (Str (InchiToInchiKey i))) InchiList.

(** [clean_SMILES(series_List)] with [source = 'SMILES']. *)
Definition clean_SMILES (series_List : Series cell) : result (Series cell) :=
  mol_list <- series_apply mol_of_cell series_List ;;
  series_apply (on_mol (fun m => Str (MolToSmiles m false))) mol_list.

(** [Descriptors.ExactMolWt(Chem.MolFromSmiles('[H+]'))] *)
Definition mass_H : result PyFloat.float :=
  on_mol ExactMolWt (MolFromSmiles "[H+]").

(** [SMILES_to_MW(smile_List)]: the frame of the columns [Formula] and
    [[M+H]], given here as its two columns. *)
Definition SMILES_to_MW (smile_List : Series cell)
  : result (Series cell * Series cell) :=
  mH <- mass_H ;;
  molList <- series_apply mol_of_cell smile_List ;;
  MH_list <- series_apply
               (on_mol (fun m => Flt (PyFloat.add (ExactMolWt m) mH))) molList ;;
  molForm_list <- series_apply (on_mol (fun m => Str (CalcMolFormula m))) molList ;;
  Ok (molForm_list, MH_list).

(** [TIMES_cleanup(file, Model_Module, delim, header)], from the frame
    that [pd.read_csv] returns. *)
Definition TIMES_cleanup (file : DataFrame) (Model_Module : string)
  (header : nat) : result DataFrame :=
  let df := rename file "Chem. Name" "DTXSID" in
  df <- project df ["DTXSID"; "Smiles"] ;;
  let df := slice_rows df header in
  let df := setitem_const df Model_Module (Num 1) in
  dtxsid <- getitem df "DTXSID" ;;
  let df := setitem df "DTXSID" (series_replace dtxsid (Str " ") NaN) in
  let df := setitem_const df "Metabolite_INCHIKEY" NaN in
  smiles <- getitem df "Smiles" ;;
  dtxsid <- getitem df "DTXSID" ;;
  let metabList := series_select smiles (series_isnull dtxsid) in
  keys <- SMILES_to_InchiKey metabList true ;;
  let df := setitem df "Metabolite_INCHIKEY" keys in
  dtxsid <- getitem df "DTXSID" ;;
  let df := setitem df "DTXSID" (ffill dtxsid) in
  keys <- getitem df "Metabolite_INCHIKEY" ;;
  let df := select df (series_notnull keys) in
  let df := drop_duplicates_keep_index df in
  smiles <- getitem df "Smiles" ;;
  mw <- SMILES_to_MW smiles ;;
  let df := setitem df "Formula" (fst mw) in
  let df := setitem df "[M+H]" (snd mw) in
  smiles <- getitem df "Smiles" ;;
  clean <- clean_SMILES smiles ;;
  let df := setitem df "Clean_SMILES" clean in
  project df ["DTXSID"; "Metabolite_INCHIKEY"; "Clean_SMILES"; "Formula";
              "[M+H]"; Model_Module].

End RDKit.

(* ================================================================= *)
(** ** The extended aggregator *)

(** [sub in s] on strings. *)
Fixpoint contains (sub s : string) : bool :=
  String.prefix sub s
  || match s with
     | EmptyString => false
     | String _ s' => contains sub s'
     end.

(** The order in which pandas sorts the modes of a row of strings. *)
Definition cell_ltb (a b : cell) : bool :=
  match a, b with
  | Str s, Str t => String.ltb s t
  | _, _ => false
  end.

(** One row of [all_smiles.mode(axis = 1, dropna = True)[0]]: among the
    values that are not missing, the most frequent one, and the smallest
    of them when several are as frequent. *)
Definition row_mode (cells : list cell) : cell :=
  let present := filter (fun c => negb (isna c)) cells in
  let count := fun c => List.length (filter (same c) present) in
  let best := fold_right Nat.max O (map count present) in
  let modes := filter (fun c => Nat.eqb (count c) best) present in
  fold_right (fun c acc => if isna acc then c
                           else if cell_ltb c acc then c else acc) NaN modes.

(** [s.sort_index()] *)
Fixpoint insert_by_label {A : Type} (p : nat * A) (s : Series A) : Series A :=
  match s with
  | [] => [p]
  | q :: s' => if Nat.leb (fst p) (fst q) then p :: q :: s'
               else q :: insert_by_label p s'
  end.

Definition sort_index {A : Type} (s : Series A) : Series A :=
  fold_right insert_by_label [] s.

Definition incompatible : cell := Str "Incompatible SMILES".

Section RDKitExtended.

Variable Mol : Type.
Variable MolFromSmiles : string -> option Mol.
Variable ExactMolWt : Mol -> PyFloat.float.
Variable CalcMolFormula : Mol -> string.

Definition is_null (p : nat * option Mol) : bool :=
  match snd p with
  | None => true
  | Some _ => false
  end.

(** The last statements of [aggregate_DFs_extended]: the columns
    [[M+H]] and [Formula] computed from the column [SMILES]. *)
Definition molecular_columns (agg_DF : DataFrame) : result DataFrame :=
  smiles <- getitem agg_DF "SMILES" ;;
  molList <- series_apply (mol_of_cell MolFromSmiles) smiles ;;
  Null_values <- series_apply (fun _ => Ok incompatible)
                              (filter is_null molList) ;;
  mH <- mass_H MolFromSmiles ExactMolWt ;;
  MH_list <- series_apply (on_mol (fun m => Flt (PyFloat.add (ExactMolWt m) mH)))
                          (filter (fun p => negb (is_null p)) molList) ;;
  let MH_series_for_DF := sort_index (MH_list ++ Null_values) in
  let agg_DF := setitem agg_DF "[M+H]" MH_series_for_DF in
  Formula_list <- series_apply (on_mol (fun m => Str (CalcMolFormula m)))
                               (filter (fun p => negb (is_null p)) molList) ;;
  let Formula_series_for_DF := sort_index (Formula_list ++ Null_values) in
  Ok (setitem agg_DF "Formula" Formula_series_for_DF).

(** [aggregate_DFs_extended(DF_list, arg_on)], with [arg_how = 'outer']. *)
Definition aggregate_DFs_extended (DF_list : list DataFrame)
  (arg_on : list string) : result (option DataFrame) :=
  match DF_list with
  | first :: ((_ :: _) as comp_DF) =>
      agg_DF <- foldM (fun agg_DF addDF =>
                         m <- merge agg_DF addDF arg_on ;;
                         Ok (replace_nan_0 m))
                      comp_DF first ;;
      let tmp_SMILES_cols :=
        filter (contains "Clean_SMILES") (columns agg_DF) in
      let all_smiles :=
        map (fun r => (fst r,
                       map (fun c => if py_eq c (Num 0) then NaN else c)
                           (pick (fun c => mem c tmp_SMILES_cols)
                                 (columns agg_DF) (snd r))))
            (body agg_DF) in
      let mode_smiles := map (fun r => (fst r, row_mode (snd r))) all_smiles in
      if forallb (fun p => isna (snd p)) mode_smiles then Raise (KeyError "0")
      else
        let agg_DF := setitem agg_DF "SMILES" mode_smiles in
        agg_DF <- drop agg_DF tmp_SMILES_cols ;;
        let agg_DF := drop_duplicates agg_DF in
        r <- molecular_columns agg_DF ;;
        Ok (Some r)
  | _ => Ok None
  end.

End RDKitExtended.

Unset Implicit Arguments.

(* ================================================================= *)
(** ** The metrics in the words of the specification *)

(** The definitions of this part follow the text of the specification,
    row by row; the theorems below compare them with the functions
    above. *)

(** The cell of a row under the column [c]. *)
Definition field (df : DataFrame) (c : string) (r : nat * list cell) : cell :=
  match position c (columns df) with
  | Some j => cell_at j r
  | None => NaN
  end.

(** A flag is set on a row: the cell equals 1. *)
Definition flag_set (df : DataFrame) (c : string) (r : nat * list cell) : bool :=
  py_eq (field df c r) (Num 1).

Definition selector_names (modelName : selector) : list string :=
  match modelName with
  | Name s => [s]
  | Names l => l
  end.

(** The modelSelector-flag of a row: the flag of the named source, or
    the logical OR of the flags of the named sources. *)
Definition model_flag (df : DataFrame) (modelName : selector)
  (r : nat * list cell) : bool :=
  existsb (fun c => flag_set df c r) (selector_names modelName).

Definition reported (df : DataFrame) (r : nat * list cell) : bool :=
  flag_set df "Reported" r.

Definition markush (df : DataFrame) (r : nat * list cell) : bool :=
  py_eq (field df "Markush" r) (Bool true).

(** The (ParentID, MetaboliteGroupID) pair of a row. *)
Definition pair_of (df : DataFrame) (r : nat * list cell) : cell * cell :=
  (field df "DTXSID" r, field df "Metabolite DTXSID" r).

(** A row has the pair [pm]. *)
Definition has_pair (df : DataFrame) (pm : cell * cell) (r : nat * list cell)
  : bool :=
  py_eq (field df "DTXSID" r) (fst pm)
  && py_eq (field df "Metabolite DTXSID" r) (snd pm).

Definition count_rows (df : DataFrame) (p : nat * list cell -> bool) : Z :=
  Z.of_nat (List.length (filter p (body df))).

(** The unique pairs among the rows that satisfy [p]. *)
Definition unique_pairs (df : DataFrame) (p : nat * list cell -> bool)
  : list (cell * cell) :=
  distinct pair_same (map (pair_of df) (filter p (body df))).

(** A pair is hit under the flag [flag]: some Markush row with that pair
    has the flag set. *)
Definition group_hit (df : DataFrame) (flag : nat * list cell -> bool)
  (pm : cell * cell) : bool :=
  existsb (fun r => markush df r && has_pair df pm r && flag r) (body df).

Definition nonAmbigTP (df : DataFrame) (modelName : selector) : Z :=
  count_rows df (fun r => model_flag df modelName r && reported df r
                          && negb (markush df r)).

Definition ambigTP (df : DataFrame) (modelName : selector) : Z :=
  Z.of_nat (List.length (filter (group_hit df (model_flag df modelName))
                                (unique_pairs df (markush df)))).

Definition reportedNonAmbig (df : DataFrame) : Z :=
  count_rows df (fun r => reported df r && negb (markush df r)).

(** A pair that names a parent and a group: neither identifier is
    missing. *)
Definition named_pair (pm : cell * cell) : bool :=
  negb (isna (fst pm)) && negb (isna (snd pm)).

(** A row names its pair. *)
Definition identified (df : DataFrame) (r : nat * list cell) : bool :=
  named_pair (pair_of df r).

(** The pairs of the reported Markush rows: the unique pairs of the rows
    that name one, and one more for every row that lacks an identifier,
    which shares its pair with no other row. *)
Definition reportedAmbig (df : DataFrame) : Z :=
  Z.of_nat (List.length
              (unique_pairs df (fun r => reported df r && markush df r
                                         && identified df r)))
  + count_rows df (fun r => reported df r && markush df r
                            && negb (identified df r)).

Definition truePositive (df : DataFrame) (modelName : selector) : Z :=
  count_rows df (fun r => model_flag df modelName r && reported df r).

Definition allPredicted (df : DataFrame) (modelName : selector) : Z :=
  count_rows df (model_flag df modelName).

(** The flag columns hold only 0 and 1. *)
Definition zero_one (c : cell) : bool := py_eq c (Num 0) || py_eq c (Num 1).

Definition flag_column (df : DataFrame) (c : string) : bool :=
  has_column df c && forallb (fun r => zero_one (field df c r)) (body df).

(** A selector is the name of a column of the table, or a non-empty
    list of names of flag columns of the table. *)
Definition valid_selector (df : DataFrame) (modelName : selector) : bool :=
  match modelName with
  | Name c => has_column df c
  | Names [] => false
  | Names names => forallb (flag_column df) names
  end.

(** A column of numbers, which pandas holds as a float64 (or int64)
    array. *)
Definition is_number (c : cell) : bool :=
  match c with
  | Num _ | Flt _ => true
  | _ => false
  end.

Definition number_column (df : DataFrame) (c : string) : bool :=
  forallb (fun r => is_number (field df c r)) (body df).

(** Where a reported Markush row lacks an identifier, it lacks one in a
    column of numbers. *)
Definition missing_numbers (df : DataFrame) : bool :=
  forallb (fun r =>
             implb (reported df r && markush df r && negb (identified df r))
                   ((isna (field df "DTXSID" r) && number_column df "DTXSID")
                    || (isna (field df "Metabolite DTXSID" r)
                        && number_column df "Metabolite DTXSID")))
          (body df).

(** The index labels of a frame are pairwise different, as in a
    RangeIndex. *)
Fixpoint distinct_labels (l : list nat) : bool :=
  match l with
  | [] => true
  | i :: l' => negb (existsb (Nat.eqb i) l') && distinct_labels l'
  end.

Definition unique_index (df : DataFrame) : bool :=
  distinct_labels (map fst (body df)).

(** The model filter as a Series: the modelSelector-flag of every row. *)
Definition flag_series (df : DataFrame) (flag : nat * list cell -> bool)
  : Series bool :=
  map (fun r => (fst r, flag r)) (body df).

(** The table with the column [Reported] overwritten by [v]. *)
Definition with_reported (df : DataFrame) (v : nat * list cell -> cell)
  : DataFrame :=
  setitem_with df "Reported" v.

(* ----------------------------------------------------------------- *)
(** *** The sensitivity scenario *)

(** Two reported, predicted metabolites; one reported metabolite that
    the model misses; and one Markush group of three reported rows, of
    which the model predicts one. *)
Definition scenario_table (p1 p2 p3 m1 m2 m3 q g : string) : DataFrame :=
  mkDF ["DTXSID"; "Metabolite DTXSID"; "Markush"; "Reported"; "Model"]
       (reset_index
          [ [Str p1; Str m1; Bool false; Num 1; Num 1];
            [Str p2; Str m2; Bool false; Num 1; Num 1];
            [Str p3; Str m3; Bool false; Num 1; Num 0];
            [Str q; Str g; Bool true; Num 1; Num 1];
            [Str q; Str g; Bool true; Num 1; Num 0];
            [Str q; Str g; Bool true; Num 1; Num 0] ]).

(** A table whose identifiers are numbers: one reported metabolite that
    the model predicts, and two reported Markush rows without
    identifiers, neither of which it predicts. *)
Definition numbered_table : DataFrame :=
  mkDF ["DTXSID"; "Metabolite DTXSID"; "Markush"; "Reported"; "Model"]
       (reset_index
          [ [Num 1; Num 10; Bool false; Num 1; Num 1];
            [NaN; NaN; Bool true; Num 1; Num 0];
            [NaN; NaN; Bool true; Num 1; Num 0] ]).

(** 0.75 as a float. *)
Definition three_quarters : PyFloat.float := S754_finite false 6755399441055744 (-53).

Definition example_table : DataFrame :=
  scenario_table "P1" "P1" "P1" "M1" "M2" "M3" "P2" "G1".

(** A table with two sources; the flags of the second source are floats,
    as they are after an outer join. *)
Definition one_float : PyFloat.float := S754_finite false 4503599627370496 (-52).

Definition two_source_table : DataFrame :=
  mkDF ["DTXSID"; "Metabolite_INCHIKEY"; "Reported"; "ToolBox"; "Meteor"]
       (reset_index
          [ [Str "P1"; Str "K1"; Num 1; Num 1; Flt (S754_zero false)];
            [Str "P1"; Str "K2"; Num 1; Num 0; Flt one_float];
            [Str "P1"; Str "K3"; Num 0; Num 1; Flt one_float];
            [Str "P2"; Str "K4"; Num 1; Num 0; Flt (S754_zero false)] ]).

(* ----------------------------------------------------------------- *)
(** *** A stand-in for RDKit *)

(** To run the functions that call RDKit on concrete inputs: a parser
    that knows a few SMILES strings and fails on the others.  A molecule
    is its canonical SMILES string. *)
Module Toy.

Definition Mol : Type := string.

Definition MolFromSmiles (s : string) : option Mol :=
  if String.eqb s "C" then Some "C"
  else if String.eqb s "CC" then Some "CC"
  else if String.eqb s "CCO" then Some "CCO"
  else if String.eqb s "OCC" then Some "CCO"
  else if String.eqb s "[H+]" then Some "[H+]"
  else None.

Definition MolToInchi (m : Mol) : string := "InChI=" ++ m.
Definition InchiToInchiKey (i : string) : string := "KEY:" ++ i.
Definition MolToSmiles (m : Mol) (isomericSmiles : bool) : string := m.
Definition ExactMolWt (m : Mol) : PyFloat.float :=
  PyFloat.of_int (Z.of_nat (String.length m)).
Definition CalcMolFormula (m : Mol) : string := m.

Definition TIMES_cleanup : DataFrame -> string -> nat -> result DataFrame :=
  TIMES_cleanup MolFromSmiles MolToInchi InchiToInchiKey MolToSmiles
                ExactMolWt CalcMolFormula.

Definition SMILES_to_MW : Series cell -> result (Series cell * Series cell) :=
  SMILES_to_MW MolFromSmiles ExactMolWt CalcMolFormula.

Definition aggregate_DFs_extended
  : list DataFrame -> list string -> result (option DataFrame) :=
  aggregate_DFs_extended MolFromSmiles ExactMolWt CalcMolFormula.

Definition molecular_columns : DataFrame -> result DataFrame :=
  molecular_columns MolFromSmiles ExactMolWt CalcMolFormula.

End Toy.

(** Two adapter outputs with different keys. *)
Definition toolbox_output : DataFrame :=
  mkDF ["DTXSID"; "Metabolite_INCHIKEY"; "Clean_SMILES"; "ToolBox"]
       (reset_index [ [Str "P1"; Str "K1"; Str "C"; Num 1];
                      [Str "P1"; Str "K2"; Str "CC"; Num 1] ]).

Definition meteor_output : DataFrame :=
  mkDF ["DTXSID"; "Metabolite_INCHIKEY"; "Clean_SMILES"; "Meteor"]
       (reset_index [ [Str "P1"; Str "K3"; Str "c1ccccc1X"; Num 1];
                      [Str "P2"; Str "K1"; Str "C"; Num 1] ]).

(* ----------------------------------------------------------------- *)
(** *** The forward-fill scenario *)

(** The row sequence of the scenario: a parent row, two metabolite rows
    and the next parent row. *)
Definition scenario_rows (P1 P2 s0 s1 s2 s3 : string) : list (list cell) :=
  [ [Str P1; Str s0]; [NaN; Str s1]; [NaN; Str s2]; [Str P2; Str s3] ].

(** A TIMES export as [pd.read_csv] returns it: the leading rows that
    [header] counts, the rows of the scenario and the trailing rows. *)
Definition times_file (leading trailing : list (list cell))
  (P1 P2 s0 s1 s2 s3 : string) : DataFrame :=
  mkDF ["Chem. Name"; "Smiles"]
       (reset_index (leading ++ scenario_rows P1 P2 s0 s1 s2 s3 ++ trailing)).

(** The names of the columns that [TIMES_cleanup] creates. *)
Definition times_columns : list string :=
  ["DTXSID"; "Smiles"; "Metabolite_INCHIKEY"; "Formula"; "[M+H]"; "Clean_SMILES"].

(** The output that the scenario names: the two metabolite rows, each
    under the parent [P1], with the columns the adapter derives from the
    structure. *)
Section ScenarioOutput.

Variable Mol : Type.
Variable MolToInchi : Mol -> string.
Variable InchiToInchiKey : string -> string.
Variable MolToSmiles : Mol -> bool -> string.
Variable ExactMolWt : Mol -> PyFloat.float.
Variable CalcMolFormula : Mol -> string.

Definition metabolite_row (parent : cell) (m proton : Mol) : list cell :=
  [ parent; Str (InchiToInchiKey (MolToInchi m)); Str (MolToSmiles m false);
    Str (CalcMolFormula m); Flt (PyFloat.add (ExactMolWt m) (ExactMolWt proton));
    Num 1 ].

Definition scenario_output (Model_Module : string) (first : nat)
  (P1 : string) (m1 m2 proton : Mol) : DataFrame :=
  mkDF ["DTXSID"; "Metabolite_INCHIKEY"; "Clean_SMILES"; "Formula"; "[M+H]";
        Model_Module]
       [ (first, metabolite_row (Str P1) m1 proton);
         (S first, metabolite_row (Str P1) m2 proton) ].

End ScenarioOutput.

(* ----------------------------------------------------------------- *)
(** *** Well-formed frames *)

(** Every row has one cell per column. *)
Definition well_formed (df : DataFrame) : bool :=
  forallb (fun r => Nat.eqb (List.length (snd r)) (List.length (columns df)))
          (body df).

Definition is_string (c : cell) : bool :=
  match c with
  | Str _ => true
  | _ => false
  end.

(** The cells of a row under the columns whose name contains
    [Clean_SMILES]. *)
Definition structures (df : DataFrame) (r : list cell) : list cell :=
  pick (contains "Clean_SMILES") (columns df) r.

(** Every row of the table holds a structure, and holds strings only
    under the columns whose name contains [Clean_SMILES]. *)
Definition has_structures (df : DataFrame) : bool :=
  forallb (fun r => match structures df (snd r) with
                    | [] => false
                    | cells => forallb is_string cells
                    end) (body df).

(** Cells that are strings or missing. *)
Definition string_or_missing (c : cell) : bool := is_string c || isna c.

(** No key column is a structure column. *)
Definition plain_keys (on : list string) : bool :=
  forallb (fun k => negb (contains "Clean_SMILES" k)) on.

(** Every cell of the column [c] is a string. *)
Definition string_column (df : DataFrame) (c : string) : bool :=
  has_column df c && forallb (fun r => is_string (field df c r)) (body df).

(** The row that [setitem_with df c f] makes of the row [r]. *)
Definition updated_row (df : DataFrame) (c : string)
  (f : nat * list cell -> cell) (r : nat * list cell) : nat * list cell :=
  match position c (columns df) with
  | Some j => (fst r, set_nth j (f r) (snd r))
  | None => (fst r, snd r ++ [f r])
  end.

(** A frame whose column [SMILES] holds a string that does not parse. *)
Definition consensus_table : DataFrame :=
  mkDF ["DTXSID"; "Metabolite_INCHIKEY"; "ToolBox"; "SMILES"]
       (reset_index [ [Str "P1"; Str "K1"; Num 1; Str "CC"];
                      [Str "P1"; Str "K3"; Num 1; Str "c1ccccc1X"] ]).

(* ----------------------------------------------------------------- *)
(** *** Keys of a table *)

(** The keys of the rows of a table, in the order of the rows. *)
Definition keys (df : DataFrame) (on : list string) : list (list cell) :=
  map (fun r => key_of (columns df) on (snd r)) (body df).

(** The names of a list of columns are pairwise different. *)
Fixpoint unique_names (l : list string) : bool :=
  match l with
  | [] => true
  | c :: l' => negb (mem c l') && unique_names l'
  end.

(** The names of the columns of the merge of [L] and [R]: the columns of
    [L], then the columns of [R] that are not keys; and, when [L] has no
    rows, the columns of [L] that are not keys, then the columns of
    [R]. *)
Definition merge_names (L R : DataFrame) (on : list string) : list string :=
  match body L with
  | [] => map (suffixed on (columns R) "_x")
              (filter (fun c => negb (mem c on)) (columns L))
          ++ map (suffixed on (columns L) "_y") (columns R)
  | _ :: _ => map (suffixed on (columns R) "_x") (columns L)
              ++ map (suffixed on (columns L) "_y")
                     (filter (fun c => negb (mem c on)) (columns R))
  end.

(** An adapter output without rows. *)
Definition no_predictions : DataFrame :=
  mkDF ["DTXSID"; "Metabolite_INCHIKEY"; "Clean_SMILES"; "Formula"; "[M+H]";
        "TIMES_InVivo"] [].

(** No key cell is missing. *)
Definition keys_present (df : DataFrame) (on : list string) : bool :=
  forallb (forallb (fun c => negb (isna c))) (keys df on).

(** No two keys of the list are the same. *)
Fixpoint all_different (ks : list (list cell)) : bool :=
  match ks with
  | [] => true
  | k :: ks' => negb (existsb (row_same k) ks') && all_different ks'
  end.

(** A table that the aggregator can join on [on]: its rows have one
    cell per column, it has the key columns, and no key is missing or
    repeated. *)
Definition keyed (df : DataFrame) (on : list string) : bool :=
  well_formed df && forallb (has_column df) on
  && keys_present df on && all_different (keys df on).

(** No key of [A] is a key of [B]. *)
Definition keys_disjoint (A B : DataFrame) (on : list string) : bool :=
  forallb (fun a => negb (existsb (row_same a) (keys B on))) (keys A on).

(** Two lists of rows hold the same rows, whatever their order and
    their repetitions. *)
Definition rows_included (l1 l2 : list (list cell)) : Prop :=
  forall x, In x l1 -> exists y, In y l2 /\ row_same x y = true.

Definition same_rows (l1 l2 : list (list cell)) : Prop :=
  rows_included l1 l2 /\ rows_included l2 l1.

(** Two outcomes of the aggregator agree: the same exception, or no
    table, or two tables with the same columns and the same rows. *)
Definition agree (r1 r2 : result (option DataFrame)) : Prop :=
  match r1, r2 with
  | Raise e1, Raise e2 => e1 = e2
  | Ok None, Ok None => True
  | Ok (Some d1), Ok (Some d2) =>
      columns d1 = columns d2
      /\ same_rows (map snd (body d1)) (map snd (body d2))
  | _, _ => False
  end.

(** [aggregate([aggregate(tables), C])] *)
Definition aggregate_again (first : result (option DataFrame)) (C : DataFrame)
  (on : list string) : result (option DataFrame) :=
  ab <- first ;;
  match ab with
  | Some AB => aggregate_DFs [AB; C] on
  | None => Ok None
  end.

(** An adapter output with a row that holds no structure. *)
Definition unstructured_output : DataFrame :=
  mkDF ["DTXSID"; "Metabolite_INCHIKEY"; "Clean_SMILES"; "Meteor"]
       (reset_index [ [Str "P1"; Str "K3"; Str "c1ccccc1X"; Num 1];
                      [Str "P5"; Str "K9"; NaN; Num 1] ]).

(** A third adapter output. *)
Definition times_output : DataFrame :=
  mkDF ["DTXSID"; "Metabolite_INCHIKEY"; "Clean_SMILES"; "TIMES_InVivo"]
       (reset_index [ [Str "P1"; Str "K1"; Str "C"; Num 1];
                      [Str "P3"; Str "K5"; Str "CCO"; Num 1] ]).

(** A TIMES export in which two metabolite rows of one parent spell the
    same structure in two ways, and what the adapter returns for it. *)
Definition times_export : DataFrame :=
  mkDF ["Chem. Name"; "Smiles"]
       (reset_index [ [Str "Chem. Name"; Str "Smiles"];
                      [Str "P9"; Str "CC"];
                      [NaN; Str "CCO"];
                      [NaN; Str "OCC"];
                      [NaN; NaN]; [NaN; NaN] ]).

Definition repeated_output : DataFrame :=
  mkDF ["DTXSID"; "Metabolite_INCHIKEY"; "Clean_SMILES"; "Formula"; "[M+H]";
        "TIMES_InVivo"]
       [ (2%nat, [Str "P9"; Str "KEY:InChI=CCO"; Str "CCO"; Str "CCO";
                  Flt (PyFloat.of_int 7); Num 1]);
         (3%nat, [Str "P9"; Str "KEY:InChI=CCO"; Str "CCO"; Str "CCO";
                  Flt (PyFloat.of_int 7); Num 1]) ].

(** An adapter output with a parent that was not resolved. *)
Definition unresolved_output : DataFrame :=
  mkDF ["DTXSID"; "Metabolite_INCHIKEY"; "Clean_SMILES"; "ToolBox"]
       (reset_index [ [NaN; Str "K7"; Str "CC"; Num 1] ]).

(* ================================================================= *)
(** ** Further notions: the metrics outside their intended inputs *)

(** What a list selector marks when the cells are not restricted to 0
    and 1: the first column is compared with 1, and every later column
    is cast to bool before the comparison. *)
Definition cast_flag (df : DataFrame) (first : string) (rest : list string)
  (r : nat * list cell) : bool :=
  flag_set df first r || existsb (fun c => truthy (field df c r)) rest.

(** A table whose source columns count predictions instead of flagging
    them. *)
Definition counting_table : DataFrame :=
  mkDF ["Reported"; "ToolBox"; "Meteor"]
       (reset_index [ [Num 1; Num 2; Num 0];
                      [Num 1; Num 0; Num 2];
                      [Num 0; Num 1; Num 0] ]).

(** A table of predictions none of which is reported. *)
Definition unreported_table : DataFrame :=
  mkDF ["DTXSID"; "Metabolite DTXSID"; "Markush"; "Reported"; "Model"]
       (reset_index [ [Str "P1"; Str "M1"; Bool false; Num 0; Num 1];
                      [Str "P2"; Str "G1"; Bool true; Num 0; Num 1] ]).

(** Every Markush row is a reported row, as in the table that
    [genLiteratureDF] makes. *)
Definition markush_reported (df : DataFrame) : bool :=
  forallb (fun r => implb (markush df r) (reported df r)) (body df).

(** The two counts that [calcSensitivity] divides: the statements of the
    function up to the division. *)
Definition sensitivity_counts (data : DataFrame) (modelName : selector)
  : result (Z * Z) :=
  modelFilter <- model_filter data modelName ;;
  column <- getitem data "Reported" ;;
  let reportFilter := series_eq column (Num 1) in
  mark <- getitem data "Markush" ;;
  let markFilter := series_eq mark (Bool true) in
  let trueNonMark :=
    series_sum (modelFilter &&& reportFilter &&& series_not markFilter) in
  trueMarkParent <- sumMarkParents data modelFilter ;;
  let reportNonMark := series_sum (reportFilter &&& series_not markFilter) in
  d <- loc_column data (reportFilter &&& markFilter) "DTXSID" ;;
  m <- loc_column data (reportFilter &&& markFilter) "Metabolite DTXSID" ;;
  let reportMarkParent := Z.of_nat (List.length (set_of_zip d m)) in
  Ok (trueNonMark + trueMarkParent, reportNonMark + reportMarkParent).

(** The numerator and the denominator of the sensitivity, row by row. *)
Definition sensitivity_hits (df : DataFrame) (modelName : selector) : Z :=
  nonAmbigTP df modelName + ambigTP df modelName.

Definition sensitivity_total (df : DataFrame) : Z :=
  reportedNonAmbig df + reportedAmbig df.

(** The rows of [example_table] in another order, each with its label. *)
Definition shuffled_table : DataFrame :=
  mkDF (columns example_table) (rev (body example_table)).

(** A table without the columns of the Markush groups. *)
Definition flat_table : DataFrame :=
  mkDF ["DTXSID"; "Metabolite_INCHIKEY"; "Reported"; "ToolBox"]
       (reset_index [ [Str "P1"; Str "K1"; Num 1; Num 1];
                      [Str "P1"; Str "K2"; Num 1; Num 0] ]).

(* ----------------------------------------------------------------- *)
(** *** The join of two keyed tables *)

(** No cell of the table is missing. *)
Definition complete (df : DataFrame) : bool :=
  forallb (fun r => forallb (fun c => negb (isna c)) (snd r)) (body df).

(** The rows of a table without their labels. *)
Definition rows_of (df : DataFrame) : list (list cell) := map snd (body df).

(** The row of [R], if any, that has the key of the row [l] of [L]. *)
Definition partner (L R : DataFrame) (on : list string) (l : list cell)
  : option (list cell) :=
  find (fun r => row_same (key_of (columns L) on l) (key_of (columns R) on r))
       (rows_of R).

(** What the aggregator makes of the row [l] of [L]: the row, followed
    by the other cells of its partner, or by zeros when it has none. *)
Definition joined (L R : DataFrame) (on : list string) (l : list cell)
  : list cell :=
  map fill0
      (l ++ match partner L R on l with
            | Some r => pick (fun c => negb (mem c on)) (columns R) r
            | None =>
                repeat NaN
                       (List.length (filter (fun c => negb (mem c on)) (columns R)))
            end).

(** The rows of [R] whose key is the key of no row of [L]. *)
Definition unmatched (L R : DataFrame) (on : list string) : list (list cell) :=
  filter (fun r => negb (existsb (fun l => row_same (key_of (columns L) on l)
                                                    (key_of (columns R) on r))
                                 (rows_of L)))
         (rows_of R).

(** What the aggregator makes of such a row. *)
Definition appended (L R : DataFrame) (on : list string) (r : list cell)
  : list cell :=
  map fill0 (right_only (columns L) (columns R) on r).

(** The columns of the merge of [L] and [R]. *)
Definition merged_columns (L R : DataFrame) (on : list string) : list string :=
  map (suffixed on (columns R) "_x") (columns L)
  ++ map (suffixed on (columns L) "_y")
         (filter (fun c => negb (mem c on)) (columns R)).

(** Every key column is a column of both tables. *)
Definition shared_keys (L R : DataFrame) (on : list string) : bool :=
  forallb (fun k => has_column L k && has_column R k) on.

(** An adapter output without the column of the parents. *)
Definition keyless_output : DataFrame :=
  mkDF ["Metabolite_INCHIKEY"; "Clean_SMILES"; "SyGMa"]
       (reset_index [ [Str "K1"; Str "C"; Num 1] ]).

(** One turn of the loop of [aggregate_DFs]. *)
Definition aggregate_turn (on : list string) (agg_DF addDF : DataFrame)
  : result DataFrame :=
  m <- merge agg_DF (drop_excluded addDF) on ;; Ok (replace_nan_0 m).

(* ----------------------------------------------------------------- *)
(** *** What RDKit makes of a cell *)

Section Conversions.

Variable Mol : Type.
Variable MolFromSmiles : string -> option Mol.
Variable MolToInchi : Mol -> string.
Variable InchiToInchiKey : string -> string.
Variable MolToSmiles : Mol -> bool -> string.
Variable ExactMolWt : Mol -> PyFloat.float.
Variable CalcMolFormula : Mol -> string.

(** The molecule of a cell: the cell is a string, and RDKit parses
    it. *)
Definition molecule (c : cell) : option Mol :=
  match c with
  | Str s => MolFromSmiles s
  | _ => None
  end.

Definition parses (c : cell) : bool :=
  match molecule c with
  | Some _ => true
  | None => false
  end.

(** The molecule of a cell, written without stereochemistry and read
    again. *)
Definition flattened (c : cell) : option Mol :=
  match molecule c with
  | Some m => MolFromSmiles (MolToSmiles m false)
  | None => None
  end.

Definition flattens (c : cell) : bool :=
  match flattened c with
  | Some _ => true
  | None => false
  end.

(** A cell computed from a molecule; missing where there is none. *)
Definition of_molecule (f : Mol -> cell) (x : option Mol) : cell :=
  match x with
  | Some m => f m
  | None => NaN
  end.

Definition key_cell (c : cell) : cell :=
  of_molecule (fun m => Str (InchiToInchiKey (MolToInchi m))) (molecule c).

Definition flat_key_cell (c : cell) : cell :=
  of_molecule (fun m => Str (InchiToInchiKey (MolToInchi m))) (flattened c).

Definition clean_cell (c : cell) : cell :=
  of_molecule (fun m => Str (MolToSmiles m false)) (molecule c).

Definition formula_cell (c : cell) : cell :=
  of_molecule (fun m => Str (CalcMolFormula m)) (molecule c).

Definition mass_cell (mH : PyFloat.float) (c : cell) : cell :=
  of_molecule (fun m => Flt (PyFloat.add (ExactMolWt m) mH)) (molecule c).

End Conversions.

Arguments molecule {Mol} MolFromSmiles c.
Arguments parses {Mol} MolFromSmiles c.
Arguments flattened {Mol} MolFromSmiles MolToSmiles c.
Arguments flattens {Mol} MolFromSmiles MolToSmiles c.
Arguments of_molecule {Mol} f x.
Arguments key_cell {Mol} MolFromSmiles MolToInchi InchiToInchiKey c.
Arguments flat_key_cell {Mol} MolFromSmiles MolToInchi InchiToInchiKey
  MolToSmiles c.
Arguments clean_cell {Mol} MolFromSmiles MolToSmiles c.
Arguments formula_cell {Mol} MolFromSmiles CalcMolFormula c.
Arguments mass_cell {Mol} MolFromSmiles ExactMolWt mH c.

(** A Series with the same labels, the values computed one by one. *)
Definition series_map {A B : Type} (g : A -> B) (s : Series A) : Series B :=
  map (fun p => (fst p, g (snd p))) s.

(** Every value of the Series passes the test. *)
Definition series_all {A : Type} (ok : A -> bool) (s : Series A) : bool :=
  forallb (fun p => ok (snd p)) s.

(* ----------------------------------------------------------------- *)
(** *** Frames given row by row *)

(** The frame whose rows are computed from the entries of a list, each
    under the label of its entry. *)
Definition frame_of {X : Type} (cols : list string)
  (cells : nat * X -> list cell) (entries : list (nat * X)) : DataFrame :=
  mkDF cols (map (fun e => (fst e, cells e)) entries).

(** The columns and the cells of a row after [df[c] = x]. *)
Definition with_column (cols : list string) (c : string) : list string :=
  match position c cols with
  | Some _ => cols
  | None => cols ++ [c]
  end.

Definition put (cols : list string) (c : string) (x : cell) (row : list cell)
  : list cell :=
  match position c cols with
  | Some j => set_nth j x row
  | None => row ++ [x]
  end.

(* ----------------------------------------------------------------- *)
(** *** The rows of a TIMES export *)

(** A row of the export between the header rows and the two trailing
    rows: the name of the chemical as the file gives it, the SMILES, and
    the name that the forward fill leaves on the row. *)
Record times_entry : Type := mk_entry {
  raw_name : cell;
  structure : cell;
  carried : cell
}.

(** [replace({' ': np.NaN})] on one cell. *)
Definition blank_to_missing (c : cell) : cell :=
  if py_eq c (Str " ") then NaN else c.

Definition times_slice (file : DataFrame) (header : nat)
  : list (nat * list cell) :=
  firstn (List.length (body file) - 2 - header) (skipn header (body file)).

Fixpoint carry (last : cell) (rows : list (nat * (cell * cell)))
  : list (nat * times_entry) :=
  match rows with
  | [] => []
  | (i, (name, smiles)) :: rows' =>
      let filled := if isna (blank_to_missing name) then last
                    else blank_to_missing name in
      (i, mk_entry name smiles filled) :: carry filled rows'
  end.

Definition times_entries (file : DataFrame) (header : nat)
  : list (nat * times_entry) :=
  let named := rename file "Chem. Name" "DTXSID" in
  carry NaN (map (fun r => (fst r, (field named "DTXSID" r, field named "Smiles" r)))
                 (times_slice file header)).

(** A metabolite row: its name is blank or missing. *)
Definition is_metabolite (e : nat * times_entry) : bool :=
  isna (blank_to_missing (raw_name (snd e))).

Section TimesRows.

Variable Mol : Type.
Variable MolFromSmiles : string -> option Mol.
Variable MolToInchi : Mol -> string.
Variable InchiToInchiKey : string -> string.
Variable MolToSmiles : Mol -> bool -> string.
Variable ExactMolWt : Mol -> PyFloat.float.
Variable CalcMolFormula : Mol -> string.

(** The cells of a metabolite row when the duplicates are dropped,
    under the columns [DTXSID], [Smiles], [Model_Module] and
    [Metabolite_INCHIKEY]. *)
Definition times_compared (e : nat * times_entry) : list cell :=
  [ carried (snd e); structure (snd e); Num 1;
    key_cell MolFromSmiles MolToInchi InchiToInchiKey (structure (snd e)) ].

(** The metabolite rows that are kept: the first of those that are the
    same. *)
Definition times_kept (file : DataFrame) (header : nat)
  : list (nat * times_entry) :=
  distinct (fun a b => row_same (times_compared a) (times_compared b))
           (filter is_metabolite (times_entries file header)).

(** The row that the adapter returns for a metabolite row. *)
Definition times_row (mH : PyFloat.float) (e : nat * times_entry) : list cell :=
  [ carried (snd e);
    key_cell MolFromSmiles MolToInchi InchiToInchiKey (structure (snd e));
    clean_cell MolFromSmiles MolToSmiles (structure (snd e));
    formula_cell MolFromSmiles CalcMolFormula (structure (snd e));
    mass_cell MolFromSmiles ExactMolWt mH (structure (snd e));
    Num 1 ].

(** RDKit parses the SMILES of every metabolite row. *)
Definition metabolites_parse (file : DataFrame) (header : nat) : bool :=
  forallb (fun e => parses MolFromSmiles (structure (snd e)))
          (filter is_metabolite (times_entries file header)).

End TimesRows.

Arguments times_compared {Mol} MolFromSmiles MolToInchi InchiToInchiKey e.
Arguments times_kept {Mol} MolFromSmiles MolToInchi InchiToInchiKey file header.
Arguments times_row {Mol} MolFromSmiles MolToInchi InchiToInchiKey MolToSmiles
  ExactMolWt CalcMolFormula mH e.
Arguments metabolites_parse {Mol} MolFromSmiles file header.

(** The columns of what [TIMES_cleanup] returns. *)
Definition times_header (Model_Module : string) : list string :=
  ["DTXSID"; "Metabolite_INCHIKEY"; "Clean_SMILES"; "Formula"; "[M+H]";
   Model_Module].

(** A TIMES export with a metabolite row that RDKit does not parse. *)
Definition broken_export : DataFrame :=
  mkDF ["Chem. Name"; "Smiles"]
       (reset_index [ [Str "Chem. Name"; Str "Smiles"];
                      [Str "P9"; Str "CC"];
                      [NaN; Str "CCO"];
                      [Str "P8"; Str "C"];
                      [Str " "; Str "c1ccccc1X"];
                      [NaN; NaN]; [NaN; NaN] ]).

(** A TIMES export without rows between its header and its trailing
    rows, and one without the column of the structures. *)
Definition empty_export : DataFrame :=
  mkDF ["Chem. Name"; "Smiles"]
       (reset_index [ [Str "Chem. Name"; Str "Smiles"]; [NaN; NaN]; [NaN; NaN] ]).

Definition nameless_export : DataFrame :=
  mkDF ["Chem. Name"; "Structure"]
       (reset_index [ [Str "P9"; Str "CC"]; [NaN; Str "CCO"] ]).

(** The names and the SMILES of the rows of the slice, as the file gives
    them. *)
Definition times_named (file : DataFrame) (header : nat)
  : list (nat * (cell * cell)) :=
  let named := rename file "Chem. Name" "DTXSID" in
  map (fun r => (fst r, (field named "DTXSID" r, field named "Smiles" r)))
      (times_slice file header).

(** The name of a row of the slice is blank or missing. *)
Definition unnamed (r : nat * (cell * cell)) : bool :=
  isna (blank_to_missing (fst (snd r))).

(* ================================================================= *)
(** ** The adapter of the reported metabolites *)

(** [df[c] = values] for a Python list: the values are taken in the
    order of the rows.  (pandas raises when there are not as many values
    as rows; the lists below are computed from a column of the frame
    itself.) *)
Definition setitem_list (df : DataFrame) (c : string) (vs : list cell)
  : DataFrame :=
  match position c (columns df) with
  | Some j =>
      mkDF (columns df)
           (map (fun p => (fst (fst p), set_nth j (snd p) (snd (fst p))))
                (combine (body df) vs))
  | None =>
      mkDF (columns df ++ [c])
           (map (fun p => (fst (fst p), snd (fst p) ++ [snd p]))
                (combine (body df) vs))
  end.

Section ChemReg.

Variable Mol : Type.
Variable MolFromSmiles : string -> option Mol.
Variable MolToSmiles : Mol -> bool -> string.
Variable MolToInchiKey : Mol -> string.

(** [ChemReg_cleanup(file)], from the frame that [pd.read_csv] returns
    for the columns [Parent], [Query] and [Structure_SMILES], a frame
    with one row or more (the mask that [apply] makes of a frame
    without rows is not a boolean one).  The column [Mols] holds RDKit
    molecules and is not returned: it is the list [Mols] here. *)
Definition ChemReg_cleanup (file : DataFrame) : result DataFrame :=
  let df := rename file "Parent" "DTXSID" in
  structures <- getitem df "Structure_SMILES" ;;
  let df := select df (series_map is_string structures) in
  structures <- getitem df "Structure_SMILES" ;;
  Mols <- mapM (mol_of_cell MolFromSmiles) (values structures) ;;
  structures <- getitem df "Structure_SMILES" ;;
  clean <- clean_SMILES MolFromSmiles MolToSmiles structures ;;
  let df := setitem df "Clean_SMILES" clean in
  keys <- mapM (on_mol (fun m => Str (MolToInchiKey m))) Mols ;;
  let df := setitem_list df "Metabolite_INCHIKEY" keys in
  let df := setitem_const df "Reported" (Num 1) in
  project df ["DTXSID"; "Metabolite_INCHIKEY"; "Clean_SMILES"; "Reported"].

(** The rows of the file that hold a structure, and the row that the
    adapter returns for each. *)
Definition structure_of (file : DataFrame) (r : nat * list cell) : cell :=
  field file "Structure_SMILES" r.

Definition with_structure (file : DataFrame) : list (nat * list cell) :=
  filter (fun r => is_string (structure_of file r)) (body file).

Definition reported_row (file : DataFrame) (r : nat * list cell) : list cell :=
  [ field file "Parent" r;
    of_molecule (fun m => Str (MolToInchiKey m))
                (molecule MolFromSmiles (structure_of file r));
    clean_cell MolFromSmiles MolToSmiles (structure_of file r);
    Num 1 ].

Definition structures_parse (file : DataFrame) : bool :=
  forallb (fun r => parses MolFromSmiles (structure_of file r))
          (with_structure file).

End ChemReg.

Arguments ChemReg_cleanup {Mol} MolFromSmiles MolToSmiles MolToInchiKey file.
Arguments reported_row {Mol} MolFromSmiles MolToSmiles MolToInchiKey file r.
Arguments structures_parse {Mol} MolFromSmiles file.

(** The columns of the file that the adapter reads, and the columns it
    makes. *)
Definition chemreg_made : list string :=
  ["DTXSID"; "Clean_SMILES"; "Metabolite_INCHIKEY"; "Reported"].

Definition chemreg_header : list string :=
  ["DTXSID"; "Metabolite_INCHIKEY"; "Clean_SMILES"; "Reported"].

(** A file of the reported metabolites: one of them has no structure,
    and one is listed twice. *)
Definition chemreg_file : DataFrame :=
  mkDF ["Parent"; "Query"; "Structure_SMILES"]
       (reset_index [ [Str "P1"; Str "Q1"; Str "CC"];
                      [Str "P1"; Str "Q2"; NaN];
                      [Str "P2"; Str "Q3"; Str "OCC"];
                      [Str "P1"; Str "Q1"; Str "CC"] ]).

Definition chemreg_broken : DataFrame :=
  mkDF ["Parent"; "Query"; "Structure_SMILES"]
       (reset_index [ [Str "P1"; Str "Q1"; Str "CC"];
                      [Str "P2"; Str "Q3"; Str "c1ccccc1X"] ]).

(** RDKit's [MolToInchiKey] for the stand-in. *)
Definition Toy_MolToInchiKey (m : Toy.Mol) : string :=
  Toy.InchiToInchiKey (Toy.MolToInchi m).

(** The number of the values of a row that are the same as [c], the
    missing ones set aside. *)
Definition occurrences (c : cell) (cells : list cell) : nat :=
  List.length (filter (same c) (filter (fun x => negb (isna x)) cells)).

(* ================================================================= *)
(** ** The adapter of the CTS predictions *)

(** What a function returns or raises, for a function that reads
    columns as attributes: [df.name] raises [AttributeError] when the
    frame has no column [name]. *)
Inductive outcome (A : Type) : Type :=
| Returned (r : result A)
| AttributeError (name : string).

Arguments Returned {A} r.
Arguments AttributeError {A} name.

(** [df.name] *)
Definition getattr (df : DataFrame) (name : string) : option (Series cell) :=
  match position name (columns df) with
  | Some j => Some (map (fun r => (fst r, cell_at j r)) (body df))
  | None => None
  end.

(** [df.dropna()]: the rows without a missing cell. *)
Definition dropna (df : DataFrame) : DataFrame :=
  mkDF (columns df)
       (filter (fun r => forallb (fun c => negb (isna c)) (snd r)) (body df)).

(** [d[key]] on a dict whose keys are strings. *)
Definition dict_getitem (d : string -> option cell) (key : string) : result cell :=
  match d key with
  | Some v => Ok v
  | None => Raise (KeyError key)
  end.

Section CTS.

Variable Mol : Type.
Variable MolFromSmiles : string -> option Mol.
Variable MolToInchi : Mol -> string.
Variable InchiToInchiKey : string -> string.
Variable MolToSmiles : Mol -> bool -> string.

(** [CTS_cleanup(filePath, dictDTXSID)], from the frame that
    [pd.read_csv] returns. *)
Definition CTS_cleanup (ctsData : DataFrame) (dictDTXSID : string -> option cell)
  : outcome DataFrame :=
  match getattr ctsData "routes" with
  | None => AttributeError "routes"
  | Some routes =>
      let isParent := series_isnull routes in
      match getattr ctsData "smiles" with
      | None => AttributeError "smiles"
      | Some smiles =>
          Returned
            (let parentSMILES := series_select smiles isParent in
             parentInchi <-
               series_apply (fun x => m <- mol_of_cell MolFromSmiles x ;;
                                      on_mol MolToInchi m) parentSMILES ;;
             parentInchiKey <-
               series_apply (fun x => Ok (InchiToInchiKey x)) parentInchi ;;
             parentDTXSID <-
               series_apply (dict_getitem dictDTXSID) parentInchiKey ;;
             let ctsData := setitem ctsData "Parent_SMILES" parentSMILES in
             let ctsData := setitem ctsData "DTXSID" parentDTXSID in
             parents <- getitem ctsData "Parent_SMILES" ;;
             names <- getitem ctsData "DTXSID" ;;
             let ctsData := setitem ctsData "Parent_SMILES" (ffill parents) in
             let ctsData := setitem ctsData "DTXSID" (ffill names) in
             let ctsData := dropna ctsData in
             smiles <- getitem ctsData "smiles" ;;
             keys <- SMILES_to_InchiKey MolFromSmiles MolToInchi InchiToInchiKey
                                        MolToSmiles smiles true ;;
             let ctsData := setitem ctsData "Metabolite_INCHIKEY" keys in
             smiles <- getitem ctsData "smiles" ;;
             clean <- clean_SMILES MolFromSmiles MolToSmiles smiles ;;
             let ctsData := setitem ctsData "Clean_SMILES" clean in
             let ctsData := setitem_const ctsData "CTS" (Num 1) in
             project ctsData ["DTXSID"; "Metabolite_INCHIKEY"; "Clean_SMILES";
                              "CTS"])
      end
  end.

End CTS.

Arguments CTS_cleanup {Mol} MolFromSmiles MolToInchi InchiToInchiKey MolToSmiles
  ctsData dictDTXSID.

(** A row of the CTS file: its cells, what the two added columns hold
    before the forward fill, and what they hold after it. *)
Record cts_entry : Type := mk_cts {
  cts_cells : list cell;
  parent_raw : cell;
  name_raw : cell;
  parent_smiles : cell;
  parent_name : cell
}.

Fixpoint cts_carry (lastP lastD : cell)
  (rows : list (nat * (list cell * cell * cell))) : list (nat * cts_entry) :=
  match rows with
  | [] => []
  | (i, (cells, p, d)) :: rows' =>
      let p' := if isna p then lastP else p in
      let d' := if isna d then lastD else d in
      (i, mk_cts cells p d p' d') :: cts_carry p' d' rows'
  end.

(** A parent row: its cell under [routes] is missing. *)
Definition is_parent (file : DataFrame) (r : nat * list cell) : bool :=
  isna (field file "routes" r).

Definition cts_parents (file : DataFrame) : list (nat * list cell) :=
  filter (is_parent file) (body file).

Section CTSRows.

Variable Mol : Type.
Variable MolFromSmiles : string -> option Mol.
Variable MolToInchi : Mol -> string.
Variable InchiToInchiKey : string -> string.
Variable MolToSmiles : Mol -> bool -> string.

Variable file : DataFrame.
Variable dictDTXSID : string -> option cell.

(** The key under which a parent is looked up, and what the dict has
    for it. *)
Definition parent_key (c : cell) : string :=
  match molecule MolFromSmiles c with
  | Some m => InchiToInchiKey (MolToInchi m)
  | None => ""
  end.

Definition name_of (c : cell) : cell :=
  match dictDTXSID (parent_key c) with
  | Some v => v
  | None => NaN
  end.

Definition cts_entries : list (nat * cts_entry) :=
  cts_carry NaN NaN
    (map (fun r => (fst r,
                    (snd r,
                     if is_parent file r then field file "smiles" r else NaN,
                     if is_parent file r then name_of (field file "smiles" r)
                     else NaN)))
         (body file)).

(** The rows that [dropna] keeps. *)
Definition cts_complete (e : nat * cts_entry) : bool :=
  forallb (fun c => negb (isna c))
          (cts_cells (snd e) ++ [parent_smiles (snd e); parent_name (snd e)]).

Definition cts_kept : list (nat * cts_entry) := filter cts_complete cts_entries.

Definition entry_smiles (e : nat * cts_entry) : cell :=
  field file "smiles" (fst e, cts_cells (snd e)).

(** The row that the adapter returns for a row that is kept. *)
Definition cts_row (e : nat * cts_entry) : list cell :=
  [ parent_name (snd e);
    key_cell MolFromSmiles MolToInchi InchiToInchiKey (entry_smiles e);
    clean_cell MolFromSmiles MolToSmiles (entry_smiles e);
    Num 1 ].

Definition parents_parse : bool :=
  forallb (fun r => parses MolFromSmiles (field file "smiles" r))
          (cts_parents file).

(** The key of the first parent that the dict does not have. *)
Definition unknown_parent : option string :=
  find (fun k => match dictDTXSID k with
                 | Some _ => false
                 | None => true
                 end)
       (map (fun r => parent_key (field file "smiles" r)) (cts_parents file)).

Definition kept_parse : bool :=
  forallb (fun e => parses MolFromSmiles (entry_smiles e)) cts_kept.

End CTSRows.

Arguments parent_key {Mol} MolFromSmiles MolToInchi InchiToInchiKey c.
Arguments name_of {Mol} MolFromSmiles MolToInchi InchiToInchiKey dictDTXSID c.
Arguments cts_entries {Mol} MolFromSmiles MolToInchi InchiToInchiKey file dictDTXSID.
Arguments cts_kept {Mol} MolFromSmiles MolToInchi InchiToInchiKey file dictDTXSID.
Arguments cts_row {Mol} MolFromSmiles MolToInchi InchiToInchiKey MolToSmiles file e.
Arguments parents_parse {Mol} MolFromSmiles file.
Arguments unknown_parent {Mol} MolFromSmiles MolToInchi InchiToInchiKey file
  dictDTXSID.
Arguments kept_parse {Mol} MolFromSmiles MolToInchi InchiToInchiKey file dictDTXSID.

Definition cts_made : list string :=
  ["Parent_SMILES"; "DTXSID"; "Metabolite_INCHIKEY"; "Clean_SMILES"; "CTS"].

Definition cts_header : list string :=
  ["DTXSID"; "Metabolite_INCHIKEY"; "Clean_SMILES"; "CTS"].

(** A CTS file of two parents; a metabolite row comes before the first
    parent, and one has no likelihood.  The dict knows the two
    parents. *)
Definition cts_file : DataFrame :=
  mkDF ["smiles"; "routes"; "likelihood"]
       (reset_index [ [Str "C"; Str "hydrolysis"; Str "LIKELY"];
                      [Str "CC"; NaN; NaN];
                      [Str "CCO"; Str "hydrolysis"; Str "LIKELY"];
                      [Str "OCC"; Str "oxidation"; NaN];
                      [Str "CCO"; NaN; NaN];
                      [Str "C"; Str "reduction"; Str "UNLIKELY"] ]).

Definition cts_dict (key : string) : option cell :=
  if String.eqb key "KEY:InChI=CC" then Some (Str "DTXSID_A")
  else if String.eqb key "KEY:InChI=CCO" then Some (Str "DTXSID_B")
  else None.

Definition cts_short_dict (key : string) : option cell :=
  if String.eqb key "KEY:InChI=CC" then Some (Str "DTXSID_A") else None.

Definition cts_nameless : DataFrame :=
  mkDF ["SMILES"; "routes"] (reset_index [ [Str "CC"; NaN] ]).

(* ================================================================= *)
(** ** From the adapters to the metrics *)

(** The columns of the aggregate of a TIMES table and the table of the
    reported metabolites. *)
Definition pipeline_columns (Model_Module : string) : list string :=
  ["DTXSID"; "Metabolite_INCHIKEY"; "Formula"; "[M+H]"; Model_Module; "Reported"].

(** The same columns when the TIMES table has no rows: the keys are
    those of the table of the reported metabolites, and come after the
    other columns of the TIMES table. *)
Definition pipeline_columns_bare (Model_Module : string) : list string :=
  ["Formula"; "[M+H]"; Model_Module; "DTXSID"; "Metabolite_INCHIKEY"; "Reported"].

(** What [TIMES_cleanup] returns for an export without metabolites. *)
Definition times_nothing : DataFrame := mkDF (times_header "TIMES_InVivo") [].

(** What [ChemReg_cleanup] returns for a file of three metabolites. *)
Definition reported_output : DataFrame :=
  mkDF chemreg_header
       [ (0%nat, [Str "P9"; Str "KEY:InChI=CCO"; Str "CCO"; Num 1]);
         (2%nat, [Str "P9"; Str "KEY:InChI=CC"; Str "CC"; Num 1]);
         (3%nat, [Str "P1"; Str "KEY:InChI=CC"; Str "CC"; Num 1]) ].

(** A table without Markush rows. *)
Definition flat_reported_table : DataFrame :=
  mkDF ["DTXSID"; "Metabolite DTXSID"; "Markush"; "Reported"; "Model"]
       (reset_index [ [Str "P1"; Str "M1"; Bool false; Num 1; Num 1];
                      [Str "P1"; Str "M2"; Bool false; Num 1; Num 0];
                      [Str "P2"; Str "M3"; Num 0; Num 0; Num 1] ]).

(* ================================================================= *)
(** * Properties *)

(** ** Comparison of cells *)

Lemma pyval_eqb_sym (n : bool) (a b : pyval) : pyval_eqb n a b = pyval_eqb n b a.
Proof.
  destruct a, b; simpl; try reflexivity.
  - apply String.eqb_sym.
  - destruct (Qeq_bool q q0) eqn:E, (Qeq_bool q0 q) eqn:F; try reflexivity.
    + apply Qeq_bool_iff in E. symmetry in E. apply Qeq_bool_iff in E. congruence.
    + apply Qeq_bool_iff in F. symmetry in F. apply Qeq_bool_iff in F. congruence.
  - destruct neg, neg0; reflexivity.
Qed.

Lemma pyval_eqb_trans (n : bool) (a b c : pyval) :
  pyval_eqb n a b = true -> pyval_eqb n b c = true -> pyval_eqb n a c = true.
Proof.
  destruct a, b, c; simpl; try discriminate; try tauto.
  - rewrite !String.eqb_eq. congruence.
  - rewrite !Qeq_bool_iff. intros H1 H2. now rewrite H1.
  - destruct neg, neg0, neg1; simpl; congruence.
Qed.

Lemma same_refl (a : cell) : same a a = true.
Proof.
  unfold same. destruct (classify a); simpl.
  - apply String.eqb_refl.
  - apply Qeq_bool_iff. reflexivity.
  - destruct neg; reflexivity.
  - reflexivity.
Qed.

Lemma same_sym (a b : cell) : same a b = same b a.
Proof. apply pyval_eqb_sym. Qed.

Lemma same_trans (a b c : cell) :
  same a b = true -> same b c = true -> same a c = true.
Proof. apply pyval_eqb_trans. Qed.

Lemma py_eq_same (a b : cell) : py_eq a b = true -> same a b = true.
Proof.
  unfold py_eq, same. destruct (classify a), (classify b); simpl; congruence.
Qed.

Lemma py_eq_Bool_1 (b : bool) : py_eq (Bool b) (Num 1) = b.
Proof. destruct b; reflexivity. Qed.

(** On a cell that is 0 or 1 the cast to bool is the test [== 1]. *)
Lemma truthy_zero_one (c : cell) :
  zero_one c = true -> truthy c = py_eq c (Num 1).
Proof.
  unfold zero_one, truthy, py_eq.
  destruct (classify c) as [s|q|s|]; simpl; try discriminate.
  change (inject_Z 0) with 0%Q. change (inject_Z 1) with 1%Q.
  destruct (Qeq_bool q 0) eqn:E0, (Qeq_bool q 1) eqn:E1; simpl;
    try reflexivity; try discriminate.
  apply Qeq_bool_iff in E0. apply Qeq_bool_iff in E1.
  rewrite E0 in E1. discriminate.
Qed.

Lemma row_same_refl (r : list cell) : row_same r r = true.
Proof. induction r; simpl; [reflexivity | now rewrite same_refl]. Qed.

Lemma row_same_sym (r1 r2 : list cell) : row_same r1 r2 = row_same r2 r1.
Proof.
  revert r2. induction r1 as [|a r1 IH]; intros [|b r2]; simpl; try reflexivity.
  now rewrite same_sym, IH.
Qed.

Lemma row_same_trans (r1 r2 r3 : list cell) :
  row_same r1 r2 = true -> row_same r2 r3 = true -> row_same r1 r3 = true.
Proof.
  revert r2 r3. induction r1 as [|a r1 IH]; intros [|b r2] [|c r3]; simpl;
    try discriminate; try tauto.
  rewrite !andb_true_iff. intros [H1 H2] [H3 H4]. split.
  - eapply same_trans; eassumption.
  - eapply IH; eassumption.
Qed.

Lemma row_same_length (r1 r2 : list cell) :
  row_same r1 r2 = true -> List.length r1 = List.length r2.
Proof.
  revert r2. induction r1 as [|a r1 IH]; intros [|b r2]; simpl;
    try discriminate; try reflexivity.
  rewrite andb_true_iff. intros [_ H]. f_equal. now apply IH.
Qed.

(* ----------------------------------------------------------------- *)
(** ** Results *)

Lemma bind_Ok {A B : Type} (r : result A) (k : A -> result B) (b : B) :
  bind r k = Ok b -> exists a, r = Ok a /\ k a = Ok b.
Proof. destruct r; simpl; [eauto | discriminate]. Qed.

(* ----------------------------------------------------------------- *)
(** ** Series over the rows of a frame *)

Lemma position_has_column (df : DataFrame) (c : string) :
  has_column df c = true -> exists j, position c (columns df) = Some j.
Proof.
  unfold has_column. induction (columns df) as [|c' cols IH]; simpl.
  - discriminate.
  - rewrite String.eqb_sym. destruct (String.eqb c' c).
    + eauto.
    + simpl. intros H. destruct (IH H) as [j ->]. eauto.
Qed.

Lemma getitem_field (df : DataFrame) (c : string) :
  has_column df c = true ->
  getitem df c = Ok (map (fun r => (fst r, field df c r)) (body df)).
Proof.
  intros H. destruct (position_has_column df c H) as [j Hj].
  unfold getitem, field. now rewrite Hj.
Qed.

Lemma index_equals_refl (l : list nat) : index_equals l l = true.
Proof. unfold index_equals. destruct (list_eq_dec Nat.eq_dec l l); congruence. Qed.

Lemma combine_map_same {A B C : Type} (f : A -> B) (g : A -> C) (l : list A) :
  combine (map f l) (map g l) = map (fun x => (f x, g x)) l.
Proof. induction l; simpl; congruence. Qed.

(** Two Series computed from the rows of one frame have the same index,
    and are combined row by row. *)
Lemma align2_rows {R A B C : Type} (op : A -> B -> C) (fa : A) (fb : B)
  (f : nat * R -> A) (g : nat * R -> B) (l : list (nat * R)) :
  align2 op fa fb (map (fun r => (fst r, f r)) l) (map (fun r => (fst r, g r)) l)
  = map (fun r => (fst r, op (f r) (g r))) l.
Proof.
  unfold align2, index. rewrite !map_map. simpl.
  rewrite index_equals_refl, combine_map_same, map_map. reflexivity.
Qed.

Lemma series_and_rows {R : Type} (f g : nat * R -> bool) (l : list (nat * R)) :
  map (fun r => (fst r, f r)) l &&& map (fun r => (fst r, g r)) l
  = map (fun r => (fst r, f r && g r)) l.
Proof. apply align2_rows. Qed.

Lemma series_not_rows {R : Type} (f : nat * R -> bool) (l : list (nat * R)) :
  series_not (map (fun r => (fst r, f r)) l) = map (fun r => (fst r, negb (f r))) l.
Proof. unfold series_not. now rewrite map_map. Qed.

Lemma series_eq_rows {R : Type} (f : nat * R -> cell) (v : cell) (l : list (nat * R)) :
  series_eq (map (fun r => (fst r, f r)) l) v
  = map (fun r => (fst r, py_eq (f r) v)) l.
Proof. unfold series_eq. now rewrite map_map. Qed.

Lemma filter_map_comm {A B : Type} (f : A -> B) (p : B -> bool) (l : list A) :
  filter p (map f l) = map f (filter (fun x => p (f x)) l).
Proof. induction l; simpl; [reflexivity|]. destruct (p (f a)); simpl; congruence. Qed.

Lemma series_sum_rows {R : Type} (f : nat * R -> bool) (l : list (nat * R)) :
  series_sum (map (fun r => (fst r, f r)) l) = Z.of_nat (List.length (filter f l)).
Proof.
  unfold series_sum. rewrite filter_map_comm, length_map. reflexivity.
Qed.

Lemma loc_rows {R A : Type} (f : nat * R -> A) (l : list (nat * R)) (r : nat * R) :
  NoDup (map fst l) -> In r l ->
  loc (map (fun r => (fst r, f r)) l) (fst r) = Some (f r).
Proof.
  induction l as [|x l IH]; simpl; intros ND HIn; [contradiction|].
  inversion ND as [|? ? Hx ND']; subst.
  destruct HIn as [->|HIn].
  - now rewrite Nat.eqb_refl.
  - destruct (Nat.eqb (fst x) (fst r)) eqn:E.
    + apply Nat.eqb_eq in E. exfalso. apply Hx. rewrite E. now apply in_map.
    + now apply IH.
Qed.

Lemma loc_not_in {A : Type} (s : Series A) (i : nat) :
  ~ In i (index s) -> loc s i = None.
Proof.
  induction s as [|[j a] s IH]; simpl; intros H; [reflexivity|].
  destruct (Nat.eqb j i) eqn:E.
  - apply Nat.eqb_eq in E. tauto.
  - apply IH. tauto.
Qed.

Lemma distinct_labels_NoDup (l : list nat) : distinct_labels l = true -> NoDup l.
Proof.
  induction l as [|i l IH]; simpl; [constructor|].
  rewrite andb_true_iff, negb_true_iff. intros [H1 H2].
  constructor; [|now apply IH].
  intros Hi.
  assert (E : existsb (Nat.eqb i) l = true).
  { apply existsb_exists. exists i. split; [assumption | apply Nat.eqb_refl]. }
  congruence.
Qed.

Lemma unique_index_NoDup (df : DataFrame) :
  unique_index df = true -> NoDup (map fst (body df)).
Proof. apply distinct_labels_NoDup. Qed.

(** [df[mask]] for a mask computed from the rows of [df]. *)
Lemma select_rows (df : DataFrame) (f : nat * list cell -> bool) :
  unique_index df = true ->
  select df (flag_series df f) = mkDF (columns df) (filter f (body df)).
Proof.
  intros U. apply unique_index_NoDup in U. unfold select, flag_series. f_equal.
  apply filter_ext_in. intros r Hr. now rewrite loc_rows.
Qed.

(* ----------------------------------------------------------------- *)
(** ** The model filter *)

Lemma flag_column_has (df : DataFrame) (c : string) :
  flag_column df c = true -> has_column df c = true.
Proof. unfold flag_column. now rewrite andb_true_iff. Qed.

Lemma flag_column_zero_one (df : DataFrame) (c : string) (r : nat * list cell) :
  flag_column df c = true -> In r (body df) -> zero_one (field df c r) = true.
Proof.
  unfold flag_column. rewrite andb_true_iff, forallb_forall. intros [_ H]. apply H.
Qed.

Lemma flag_series_ext (df : DataFrame) (f g : nat * list cell -> bool) :
  (forall r, In r (body df) -> f r = g r) -> flag_series df f = flag_series df g.
Proof.
  intros H. unfold flag_series. apply map_ext_in. intros r Hr. now rewrite H.
Qed.

(** One turn of the loop [modelFilter = modelFilter | data[model] == 1]. *)
Lemma model_filter_step (df : DataFrame) (seen : list string) (model : string) :
  flag_column df model = true ->
  (c <- getitem df model ;;
   Ok (bools_eq (series_or_cast
                   (flag_series df (fun r => existsb (fun c => flag_set df c r) seen))
                   c) (Num 1)))
  = Ok (flag_series df (fun r => existsb (fun c => flag_set df c r) (seen ++ [model]))).
Proof.
  intros F. rewrite (getitem_field df model (flag_column_has _ _ F)). simpl.
  f_equal. unfold series_or_cast, flag_series. rewrite align2_rows.
  unfold bools_eq. rewrite map_map. simpl.
  apply map_ext_in. intros r Hr. f_equal.
  rewrite py_eq_Bool_1, existsb_app. simpl. rewrite orb_false_r.
  f_equal. unfold flag_set. apply truthy_zero_one.
  now apply flag_column_zero_one.
Qed.

Lemma model_filter_loop (df : DataFrame) (rest seen : list string) :
  forallb (flag_column df) rest = true ->
  foldM (fun modelFilter model =>
           c <- getitem df model ;;
           Ok (bools_eq (series_or_cast modelFilter c) (Num 1)))
        rest (flag_series df (fun r => existsb (fun c => flag_set df c r) seen))
  = Ok (flag_series df (fun r => existsb (fun c => flag_set df c r) (seen ++ rest))).
Proof.
  revert seen. induction rest as [|model rest IH]; intros seen H; simpl.
  - now rewrite app_nil_r.
  - simpl in H. apply andb_true_iff in H. destruct H as [F H].
    rewrite (model_filter_step df seen model F). simpl.
    rewrite (IH (seen ++ [model]) H). now rewrite <- app_assoc.
Qed.

(** Under a valid selector the model filter of the code marks the rows
    whose modelSelector-flag is set. *)
Lemma model_filter_rows (df : DataFrame) (modelName : selector) :
  valid_selector df modelName = true ->
  model_filter df modelName = Ok (flag_series df (model_flag df modelName)).
Proof.
  unfold valid_selector, model_flag.
  destruct modelName as [name | [|first rest]]; try discriminate.
  - intros F. cbn [model_filter selector_names].
    rewrite (getitem_field df name F). cbn [bind].
    rewrite series_eq_rows. f_equal. apply map_ext. intros r.
    unfold flag_set. simpl. now rewrite orb_false_r.
  - cbn [forallb model_filter selector_names].
    rewrite andb_true_iff. intros [F H].
    rewrite (getitem_field df first (flag_column_has _ _ F)). cbn [bind].
    rewrite series_eq_rows.
    change (map (fun r => (fst r, py_eq (field df first r) (Num 1))) (body df))
      with (flag_series df (fun r => flag_set df first r)).
    rewrite (flag_series_ext df (fun r => flag_set df first r)
               (fun r => existsb (fun c => flag_set df c r) [first])).
    + now rewrite (model_filter_loop df rest [first] H).
    + intros r _. simpl. now rewrite orb_false_r.
Qed.

(* ----------------------------------------------------------------- *)
(** ** Counting *)

Lemma count_positive {A : Type} (p : A -> bool) (l : list A) :
  (Z.of_nat (List.length (filter p l)) >? 0) = existsb p l.
Proof.
  induction l as [|a l IH]; simpl; [reflexivity|].
  destruct (p a); simpl; [|exact IH].
  apply Z.gtb_lt. lia.
Qed.

Lemma filter_filter {A : Type} (p q : A -> bool) (l : list A) :
  filter q (filter p l) = filter (fun x => p x && q x) l.
Proof.
  induction l as [|a l IH]; simpl; [reflexivity|].
  destruct (p a); simpl; [destruct (q a)|]; congruence.
Qed.

Lemma filter_all {A : Type} (p : A -> bool) (l : list A) :
  List.length (filter p l) = List.length l -> filter p l = l.
Proof.
  induction l as [|a l IH]; simpl; [reflexivity|].
  destruct (p a); simpl; intros H.
  - f_equal. apply IH. lia.
  - pose proof (filter_length_le p l). lia.
Qed.

Lemma filter_all_true {A : Type} (p : A -> bool) (l : list A) (x : A) :
  filter p l = l -> In x l -> p x = true.
Proof. intros E H. rewrite <- E in H. now apply filter_In in H. Qed.

(** The labels of the rows that pass a test are still pairwise
    different. *)
Lemma labels_filter_NoDup {R : Type} (keep : nat * R -> bool)
  (rows : list (nat * R)) :
  NoDup (map fst rows) -> NoDup (map fst (filter keep rows)).
Proof.
  intros ND. induction rows as [|r rows IH]; simpl; [constructor|].
  simpl in ND. apply NoDup_cons_iff in ND. destruct ND as [Hr ND].
  destruct (keep r); simpl; [|now apply IH].
  apply NoDup_cons; [|now apply IH].
  intros H. apply Hr. apply in_map_iff in H. destruct H as [x [E Hx]].
  apply filter_In in Hx. rewrite <- E. apply in_map. tauto.
Qed.

(** The loop of [sumMarkParents] counts the pairs that pass its test. *)
Lemma count_loop {A : Type} (test : A -> bool) (l : list A) (start : Z) :
  fold_left (fun acc x => if test x then acc + 1 else acc) l start
  = start + Z.of_nat (List.length (filter test l)).
Proof.
  revert start. induction l as [|a l IH]; intros start; simpl; [lia|].
  rewrite IH. destruct (test a); simpl; lia.
Qed.

Lemma existsb_false {A : Type} (p : A -> bool) (l : list A) (x : A) :
  existsb p l = false -> In x l -> p x = false.
Proof.
  intros H Hx. destruct (p x) eqn:E; [|reflexivity].
  assert (existsb p l = true) by (apply existsb_exists; eauto). congruence.
Qed.

Lemma existsb_false_intro {A : Type} (p : A -> bool) (l : list A) :
  (forall x, In x l -> p x = false) -> existsb p l = false.
Proof.
  induction l as [|a l IH]; simpl; intros H; [reflexivity|].
  rewrite (H a (or_introl eq_refl)). apply IH. intros x Hx. apply H. now right.
Qed.

Lemma index_difference_not_in (b a : list nat) (i : nat) :
  In i (index_difference b a) -> ~ In i a.
Proof.
  unfold index_difference. rewrite filter_In, negb_true_iff.
  intros [_ H] Hi.
  assert (E : existsb (Nat.eqb i) a = true).
  { apply existsb_exists. exists i. split; [assumption | apply Nat.eqb_refl]. }
  congruence.
Qed.

Lemma filter_none {A : Type} (p : A -> bool) (l : list A) :
  (forall x, In x l -> p x = false) -> filter p l = [].
Proof.
  induction l as [|a l IH]; simpl; intros H; [reflexivity|].
  rewrite (H a (or_introl eq_refl)). apply IH. intros x Hx. apply H. now right.
Qed.

(** A Series over some rows of a frame, combined with a Series over all
    its rows: pandas aligns the two on the labels, and a row outside the
    first Series counts as False. *)
Lemma series_and_sub {R : Type} (p f g : nat * R -> bool) (l : list (nat * R)) :
  NoDup (map fst l) ->
  series_sum (map (fun r => (fst r, f r)) (filter p l)
              &&& map (fun r => (fst r, g r)) l)
  = Z.of_nat (List.length (filter (fun r => p r && f r && g r) l)).
Proof.
  intros ND. unfold series_and, align2, index. rewrite !map_map. simpl.
  destruct (index_equals (map fst (filter p l)) (map fst l)) eqn:E.
  - assert (F : filter p l = l).
    { apply filter_all. unfold index_equals in E.
      destruct (list_eq_dec Nat.eq_dec (map fst (filter p l)) (map fst l)) as [e|];
        [|discriminate].
      apply (f_equal (@List.length nat)) in e. now rewrite !length_map in e. }
    rewrite F, combine_map_same, map_map. simpl.
    rewrite (series_sum_rows (fun r => f r && g r)). do 2 f_equal.
    apply filter_ext_in. intros r Hr. now rewrite (filter_all_true p l r F Hr).
  - unfold series_sum. rewrite map_app, filter_app, length_app.
    set (a := map (fun r => (fst r, f r)) (filter p l)).
    set (b := map (fun r => (fst r, g r)) l).
    rewrite (filter_none (fun q : nat * bool => snd q)
               (map _ (index_difference (map fst l) (map fst (filter p l))))).
    + simpl. rewrite Nat.add_0_r.
      rewrite map_map, filter_map_comm, length_map. simpl.
      rewrite filter_filter. do 2 f_equal.
      apply filter_ext_in. intros r Hr.
      destruct (p r) eqn:P; simpl; [|reflexivity].
      assert (Hr' : In r (filter p l)) by (apply filter_In; tauto).
      subst a b.
      rewrite (loc_rows f (filter p l) r (labels_filter_NoDup p l ND) Hr').
      now rewrite (loc_rows g l r ND Hr).
    + intros [i v] Hi. apply in_map_iff in Hi. destruct Hi as [j [Ej Hj]].
      injection Ej as <- <-. simpl.
      apply index_difference_not_in in Hj.
      rewrite (loc_not_in a j); [reflexivity|].
      subst a. unfold index. now rewrite map_map.
Qed.

(* ----------------------------------------------------------------- *)
(** ** The metric functions, row by row *)

Lemma getitem_sub (df : DataFrame) (c : string) (rows : list (nat * list cell)) :
  has_column df c = true ->
  getitem (mkDF (columns df) rows) c
  = Ok (map (fun r => (fst r, field df c r)) rows).
Proof.
  intros H. destruct (position_has_column df c H) as [j Hj].
  unfold getitem, field. simpl. now rewrite Hj.
Qed.

Lemma set_of_zip_rows (df : DataFrame) (rows : list (nat * list cell)) :
  set_of_zip (map (fun r => (fst r, field df "DTXSID" r)) rows)
             (map (fun r => (fst r, field df "Metabolite DTXSID" r)) rows)
  = distinct tuple_same (map (pair_of df) rows).
Proof.
  unfold set_of_zip, values. rewrite !map_map. simpl.
  now rewrite combine_map_same.
Qed.

(* ----------------------------------------------------------------- *)
(** ** Tuples that hold a missing identifier *)

Lemma isna_classify (c : cell) : isna c = false -> classify c <> VNaN.
Proof.
  destruct c as [s|z|b|[s|s| |s m e]]; simpl; intros H; try discriminate.
Qed.

Lemma classify_isna (c : cell) : isna c = true -> classify c = VNaN.
Proof.
  destruct c as [s|z|b|[s|s| |s m e]]; simpl; intros H; try discriminate.
  reflexivity.
Qed.

(** On a value that is not missing, [==] and the equality of keys
    agree. *)
Lemma py_eq_not_missing (a b : cell) : isna a = false -> py_eq a b = same a b.
Proof.
  intros H. apply isna_classify in H. unfold py_eq, same.
  destruct (classify a), (classify b); try reflexivity. congruence.
Qed.

Lemma py_eq_missing_l (a b : cell) : isna a = true -> py_eq a b = false.
Proof.
  intros H. unfold py_eq. rewrite (classify_isna a H).
  now destruct (classify b).
Qed.

Lemma py_eq_missing_r (a b : cell) : isna b = true -> py_eq a b = false.
Proof.
  intros H. unfold py_eq. rewrite (classify_isna b H).
  now destruct (classify a).
Qed.

Lemma same_missing_r (a b : cell) :
  isna a = false -> isna b = true -> same a b = false.
Proof.
  intros Ha Hb. apply isna_classify in Ha. unfold same.
  rewrite (classify_isna b Hb). destruct (classify a); try reflexivity.
  congruence.
Qed.

Lemma tuple_same_named (p q : cell * cell) :
  named_pair p = true -> tuple_same p q = pair_same p q.
Proof.
  unfold named_pair, tuple_same, pair_same. rewrite andb_true_iff, !negb_true_iff.
  intros [H1 H2]. now rewrite !py_eq_not_missing.
Qed.

Lemma tuple_same_unnamed_l (p q : cell * cell) :
  named_pair p = false -> tuple_same p q = false.
Proof.
  unfold named_pair, tuple_same. rewrite andb_false_iff, !negb_false_iff.
  intros [H|H].
  - now rewrite (py_eq_missing_l _ _ H).
  - now rewrite (py_eq_missing_l _ _ H), andb_false_r.
Qed.

Lemma tuple_same_unnamed_r (p q : cell * cell) :
  named_pair q = false -> tuple_same p q = false.
Proof.
  unfold named_pair, tuple_same. rewrite andb_false_iff, !negb_false_iff.
  intros [H|H].
  - now rewrite (py_eq_missing_r _ _ H).
  - now rewrite (py_eq_missing_r _ _ H), andb_false_r.
Qed.

Lemma pair_same_unnamed_r (p q : cell * cell) :
  named_pair p = true -> named_pair q = false -> pair_same p q = false.
Proof.
  unfold named_pair, pair_same. rewrite andb_true_iff, andb_false_iff,
    !negb_true_iff, !negb_false_iff.
  intros [H1 H2] [H|H].
  - now rewrite (same_missing_r _ _ H1 H).
  - now rewrite (same_missing_r _ _ H2 H), andb_false_r.
Qed.

(** The named pairs of a set of tuples are the unique named pairs,
    whichever of the two equalities makes the set. *)
Lemma named_elements (eqb : cell * cell -> cell * cell -> bool) :
  (forall p q, named_pair p = true -> eqb p q = pair_same p q) ->
  forall (l seen1 seen2 : list (cell * cell)),
    (forall p, named_pair p = true ->
               existsb (eqb p) seen1 = existsb (pair_same p) seen2) ->
    filter named_pair (distinct_from eqb seen1 l)
    = distinct_from pair_same seen2 (filter named_pair l).
Proof.
  intros E. induction l as [|p l IH]; intros seen1 seen2 S; simpl;
    [reflexivity|].
  destruct (named_pair p) eqn:N.
  - simpl. rewrite <- (S p N).
    destruct (existsb (eqb p) seen1); [now apply IH|].
    simpl. rewrite N. f_equal. apply IH.
    intros q Hq. simpl. now rewrite (E q p Hq), (S q Hq).
  - destruct (existsb (eqb p) seen1); [now apply IH|].
    simpl. rewrite N. apply IH.
    intros q Hq. simpl.
    now rewrite (E q p Hq), (pair_same_unnamed_r q p Hq N), (S q Hq).
Qed.

Lemma named_tuples (l : list (cell * cell)) :
  filter named_pair (distinct tuple_same l)
  = distinct pair_same (filter named_pair l).
Proof.
  apply (named_elements tuple_same tuple_same_named). reflexivity.
Qed.

Lemma named_pairs (l : list (cell * cell)) :
  filter named_pair (distinct pair_same l)
  = distinct pair_same (filter named_pair l).
Proof. apply (named_elements pair_same); reflexivity. Qed.

(** A tuple that holds a missing identifier is an element by itself. *)
Lemma unnamed_tuples (l seen : list (cell * cell)) :
  filter (fun p => negb (named_pair p)) (distinct_from tuple_same seen l)
  = filter (fun p => negb (named_pair p)) l.
Proof.
  revert seen. induction l as [|p l IH]; intros seen; simpl; [reflexivity|].
  destruct (named_pair p) eqn:N; simpl.
  - destruct (existsb (tuple_same p) seen); [apply IH|].
    simpl. rewrite N. apply IH.
  - rewrite (existsb_false_intro (tuple_same p) seen)
      by (intros q _; now apply tuple_same_unnamed_l).
    simpl. rewrite N. simpl. f_equal. apply IH.
Qed.

(** The size of a set of tuples: the unique named pairs, and one element
    for every tuple that holds a missing identifier. *)
Lemma set_size (l : list (cell * cell)) :
  List.length (distinct tuple_same l)
  = (List.length (distinct pair_same (filter named_pair l))
     + List.length (filter (fun p => negb (named_pair p)) l))%nat.
Proof.
  rewrite <- (filter_length named_pair (distinct tuple_same l)).
  rewrite named_tuples. f_equal.
  exact (f_equal (@List.length (cell * cell)) (unnamed_tuples l [])).
Qed.

Lemma filter_implied {A : Type} (p q : A -> bool) (l : list A) :
  (forall x, p x = true -> q x = true) -> filter p l = filter p (filter q l).
Proof.
  intros H. rewrite filter_filter. apply filter_ext. intros x.
  destruct (p x) eqn:P; [now rewrite (H x P), andb_true_r | now rewrite andb_false_r].
Qed.

(** [calcSensitivity] divides its two counts and rounds the quotient. *)
Lemma calcSensitivity_divides (data : DataFrame) (modelName : selector) :
  calcSensitivity data modelName
  = (counts <- sensitivity_counts data modelName ;;
     x <- PyFloat.truediv (fst counts) (snd counts) ;;
     Ok (PyFloat.round x 3)).
Proof.
  unfold calcSensitivity, sensitivity_counts.
  destruct (model_filter data modelName) as [modelFilter|e]; [|reflexivity].
  cbn [bind].
  destruct (getitem data "Reported") as [column|e]; [|reflexivity]. cbn [bind].
  destruct (getitem data "Markush") as [mark|e]; [|reflexivity]. cbn [bind].
  destruct (sumMarkParents data modelFilter) as [trueMarkParent|e];
    [|reflexivity].
  cbn [bind].
  destruct (loc_column data _ "DTXSID") as [d|e]; [|reflexivity]. cbn [bind].
  destruct (loc_column data _ "Metabolite DTXSID") as [m|e]; reflexivity.
Qed.

Section MetricRows.

Variable df : DataFrame.
Hypothesis Hindex : unique_index df = true.
Hypothesis Hmark : has_column df "Markush" = true.
Hypothesis Hparent : has_column df "DTXSID" = true.
Hypothesis Hgroup : has_column df "Metabolite DTXSID" = true.

Lemma sumPredicted_rows (flag : nat * list cell -> bool) (pm : cell * cell) :
  (sumPredicted
     (map (fun r => (fst r, field df "DTXSID" r)) (filter (markush df) (body df)))
     (map (fun r => (fst r, field df "Metabolite DTXSID" r))
          (filter (markush df) (body df)))
     (flag_series df flag) pm >? 0)
  = group_hit df flag pm.
Proof.
  unfold sumPredicted. rewrite !series_eq_rows, series_and_rows.
  unfold flag_series.
  rewrite (series_and_sub (markush df)
             (fun r => py_eq (field df "DTXSID" r) (fst pm)
                       && py_eq (field df "Metabolite DTXSID" r) (snd pm))
             flag (body df) (unique_index_NoDup df Hindex)).
  now rewrite count_positive.
Qed.

(** A pair that is hit names a parent and a group: a missing
    identifier is equal to none. *)
Lemma group_hit_named (flag : nat * list cell -> bool) (pm : cell * cell) :
  group_hit df flag pm = true -> named_pair pm = true.
Proof.
  unfold group_hit, has_pair, named_pair. rewrite existsb_exists.
  intros [r [_ H]]. rewrite !andb_true_iff in H.
  destruct H as [[_ [H1 H2]] _].
  destruct (isna (fst pm)) eqn:N1;
    [now rewrite (py_eq_missing_r _ _ N1) in H1|].
  destruct (isna (snd pm)) eqn:N2;
    [now rewrite (py_eq_missing_r _ _ N2) in H2|].
  reflexivity.
Qed.

(** [sumMarkParents] counts the unique pairs of the Markush rows that
    are hit. *)
Lemma sumMarkParents_rows (flag : nat * list cell -> bool) :
  sumMarkParents df (flag_series df flag)
  = Ok (Z.of_nat (List.length (filter (group_hit df flag)
                                      (unique_pairs df (markush df))))).
Proof.
  unfold sumMarkParents.
  rewrite (getitem_field df "Markush" Hmark). cbn [bind].
  rewrite series_eq_rows.
  change (map (fun r => (fst r, py_eq (field df "Markush" r) (Bool true))) (body df))
    with (flag_series df (markush df)).
  rewrite (select_rows df (markush df) Hindex).
  rewrite (getitem_sub df "DTXSID" _ Hparent). cbn [bind].
  rewrite (getitem_sub df "Metabolite DTXSID" _ Hgroup). cbn [bind].
  rewrite set_of_zip_rows, count_loop. f_equal. simpl (0 + _).
  do 2 f_equal. unfold unique_pairs.
  rewrite (filter_ext _ _ (sumPredicted_rows flag)).
  rewrite (filter_implied (group_hit df flag) named_pair
             (distinct tuple_same _) (group_hit_named flag)).
  rewrite (filter_implied (group_hit df flag) named_pair
             (distinct pair_same _) (group_hit_named flag)).
  now rewrite named_tuples, named_pairs.
Qed.

Hypothesis Hreported : has_column df "Reported" = true.

Lemma sensitivity_counts_rows (modelName : selector) :
  valid_selector df modelName = true ->
  sensitivity_counts df modelName
  = Ok (nonAmbigTP df modelName + ambigTP df modelName,
        reportedNonAmbig df + reportedAmbig df).
Proof.
  intros V. unfold sensitivity_counts.
  rewrite (model_filter_rows df modelName V). cbn [bind].
  rewrite (getitem_field df "Reported" Hreported). cbn [bind].
  rewrite (getitem_field df "Markush" Hmark). cbn [bind].
  rewrite (sumMarkParents_rows (model_flag df modelName)). cbn [bind].
  rewrite !series_eq_rows. unfold flag_series, loc_column.
  rewrite !series_not_rows, !series_and_rows, !series_sum_rows.
  change (map (fun r => (fst r, py_eq (field df "Reported" r) (Num 1)
                                && py_eq (field df "Markush" r) (Bool true)))
              (body df))
    with (flag_series df (fun r => reported df r && markush df r)).
  rewrite (select_rows df _ Hindex).
  rewrite (getitem_sub df "DTXSID" _ Hparent). cbn [bind].
  rewrite (getitem_sub df "Metabolite DTXSID" _ Hgroup). cbn [bind].
  rewrite set_of_zip_rows, set_size.
  rewrite !filter_map_comm, !length_map, !filter_filter, Nat2Z.inj_add.
  reflexivity.
Qed.

Lemma calcSensitivity_rows (modelName : selector) :
  valid_selector df modelName = true ->
  calcSensitivity df modelName
  = (x <- PyFloat.truediv (nonAmbigTP df modelName + ambigTP df modelName)
                          (reportedNonAmbig df + reportedAmbig df) ;;
     Ok (PyFloat.round x 3)).
Proof.
  intros V. unfold calcSensitivity.
  rewrite (model_filter_rows df modelName V). cbn [bind].
  rewrite (getitem_field df "Reported" Hreported). cbn [bind].
  rewrite (getitem_field df "Markush" Hmark). cbn [bind].
  rewrite (sumMarkParents_rows (model_flag df modelName)). cbn [bind].
  rewrite !series_eq_rows. unfold flag_series, loc_column.
  rewrite !series_not_rows, !series_and_rows, !series_sum_rows.
  change (map (fun r => (fst r, py_eq (field df "Reported" r) (Num 1)
                                && py_eq (field df "Markush" r) (Bool true)))
              (body df))
    with (flag_series df (fun r => reported df r && markush df r)).
  rewrite (select_rows df _ Hindex).
  rewrite (getitem_sub df "DTXSID" _ Hparent). cbn [bind].
  rewrite (getitem_sub df "Metabolite DTXSID" _ Hgroup). cbn [bind].
  rewrite set_of_zip_rows, set_size.
  rewrite !filter_map_comm, !length_map, !filter_filter, Nat2Z.inj_add.
  reflexivity.
Qed.

End MetricRows.

Lemma count_rows_nonneg (df : DataFrame) (p : nat * list cell -> bool) :
  0 <= count_rows df p.
Proof. unfold count_rows. lia. Qed.

Lemma count_rows_and_le (df : DataFrame) (p q : nat * list cell -> bool) :
  count_rows df (fun r => p r && q r) <= count_rows df p.
Proof.
  unfold count_rows. rewrite <- filter_filter.
  pose proof (filter_length_le q (filter p (body df))). lia.
Qed.

(** [calcPrecision] in terms of the counts of the specification, the
    guards of its two branches left as they are in the code. *)
Lemma calcPrecision_rows (df : DataFrame) (modelName : selector) :
  valid_selector df modelName = true ->
  has_column df "Reported" = true ->
  calcPrecision df modelName
  = (if allPredicted df modelName >? 0 then
       x <- PyFloat.truediv (truePositive df modelName) (allPredicted df modelName) ;;
       Ok (PyFloat.round x 3)
     else if (allPredicted df modelName =? Z.land 0 (truePositive df modelName))
             && (Z.land 0 (truePositive df modelName) =? 0)
          then Ok PyFloat.zero
          else Raise (UnboundLocalError "Precision")).
Proof.
  intros V HR. unfold calcPrecision.
  rewrite (model_filter_rows df modelName V). cbn [bind].
  rewrite (getitem_field df "Reported" HR). cbn [bind].
  rewrite series_eq_rows. unfold flag_series.
  rewrite series_and_rows, !series_sum_rows. reflexivity.
Qed.

(** The two guards of [calcPrecision] cover every count. *)
Lemma calcPrecision_cases (df : DataFrame) (modelName : selector) :
  valid_selector df modelName = true ->
  has_column df "Reported" = true ->
  calcPrecision df modelName
  = (if allPredicted df modelName =? 0 then Ok PyFloat.zero
     else Ok (PyFloat.round
                (PyFloat.div (PyFloat.of_int (truePositive df modelName))
                             (PyFloat.of_int (allPredicted df modelName))) 3)).
Proof.
  intros V HR. rewrite (calcPrecision_rows df modelName V HR).
  pose proof (count_rows_nonneg df (model_flag df modelName)) as Hnn.
  fold (allPredicted df modelName) in Hnn.
  rewrite Z.land_0_l.
  destruct (allPredicted df modelName =? 0) eqn:E.
  - apply Z.eqb_eq in E. rewrite E. reflexivity.
  - apply Z.eqb_neq in E.
    assert (G : (allPredicted df modelName >? 0) = true) by (apply Z.gtb_lt; lia).
    rewrite G. unfold PyFloat.truediv.
    apply Z.eqb_neq in E. rewrite E. reflexivity.
Qed.

(* ----------------------------------------------------------------- *)
(** ** Sets of pairs *)

Lemma distinct_from_In {A : Type} (eqb : A -> A -> bool) (l seen : list A) (x : A) :
  In x (distinct_from eqb seen l) ->
  In x l /\ existsb (eqb x) seen = false.
Proof.
  revert seen. induction l as [|p l IH]; simpl; intros seen H; [contradiction|].
  destruct (existsb (eqb p) seen) eqn:E.
  - destruct (IH seen H). tauto.
  - destruct H as [<-|H]; [tauto|].
    destruct (IH (p :: seen) H) as [H1 H2]. simpl in H2.
    apply orb_false_iff in H2. tauto.
Qed.

(** No element of the set is listed twice. *)
Lemma distinct_from_pairwise {A : Type} (eqb : A -> A -> bool) (l seen : list A) :
  ForallOrdPairs (fun a b => eqb b a = false) (distinct_from eqb seen l).
Proof.
  revert seen. induction l as [|p l IH]; simpl; intros seen; [constructor|].
  destruct (existsb (eqb p) seen); [apply IH|].
  constructor; [|apply IH].
  apply Forall_forall. intros x Hx.
  apply distinct_from_In in Hx. destruct Hx as [_ Hx]. simpl in Hx.
  apply orb_false_iff in Hx. tauto.
Qed.

(** Every element of the list is in the set. *)
Lemma distinct_from_covers {A : Type} (eqb : A -> A -> bool) (l seen : list A) (x : A) :
  (forall a, eqb a a = true) ->
  In x l ->
  existsb (eqb x) seen = true
  \/ exists y, In y (distinct_from eqb seen l) /\ eqb x y = true.
Proof.
  intros R. revert seen. induction l as [|p l IH]; simpl; intros seen H; [contradiction|].
  destruct H as [->|H].
  - destruct (existsb (eqb x) seen) eqn:E; [tauto|].
    right. exists x. simpl. auto.
  - destruct (existsb (eqb p) seen) eqn:E; [now apply IH|].
    destruct (IH (p :: seen) H) as [H1|[y [H1 H2]]].
    + simpl in H1. apply orb_true_iff in H1. destruct H1 as [H1|H1]; [|tauto].
      right. exists p. simpl. auto.
    + right. exists y. simpl. auto.
Qed.

Lemma pair_same_refl (p : cell * cell) : pair_same p p = true.
Proof. unfold pair_same. now rewrite !same_refl. Qed.

Lemma existsb_map_ext_in {A B : Type} (g : A -> B) (p : B -> bool) (q : A -> bool)
  (l : list A) :
  (forall x, In x l -> p (g x) = q x) -> existsb p (map g l) = existsb q l.
Proof.
  induction l as [|a l IH]; simpl; intros H; [reflexivity|].
  rewrite (H a (or_introl eq_refl)), IH; [reflexivity|].
  intros x Hx. apply H. now right.
Qed.

(* ----------------------------------------------------------------- *)
(** ** Overwriting the column [Reported] *)

Lemma position_inj (cols : list string) (c1 c2 : string) (j : nat) :
  position c1 cols = Some j -> position c2 cols = Some j -> c1 = c2.
Proof.
  revert j. induction cols as [|c cols IH]; simpl; intros j; [discriminate|].
  destruct (String.eqb c c1) eqn:E1, (String.eqb c c2) eqn:E2.
  - apply String.eqb_eq in E1, E2. congruence.
  - destruct (position c2 cols); intros H1 H2; congruence.
  - destruct (position c1 cols); intros H1 H2; congruence.
  - destruct (position c1 cols) as [j1|], (position c2 cols) as [j2|];
      try discriminate.
    intros H1 H2. apply (IH j1); congruence.
Qed.

Lemma nth_set_nth_other (j j' : nat) (v d : cell) (l : list cell) :
  j' <> j -> nth j' (set_nth j v l) d = nth j' l d.
Proof.
  revert j j'. induction l as [|a l IH]; intros [|j] [|j'] H; simpl;
    try reflexivity; try congruence.
  apply IH. congruence.
Qed.

Section Reported.

Variable df : DataFrame.
Variable v : nat * list cell -> cell.
Variable j : nat.
Hypothesis Hj : position "Reported" (columns df) = Some j.

Let overwrite (r : nat * list cell) : nat * list cell :=
  (fst r, set_nth j (v r) (snd r)).

Lemma with_reported_body :
  with_reported df v = mkDF (columns df) (map overwrite (body df)).
Proof. unfold with_reported, setitem_with. now rewrite Hj. Qed.

Lemma field_with_reported (c : string) (r : nat * list cell) :
  c <> "Reported" ->
  field (with_reported df v) c (overwrite r) = field df c r.
Proof.
  intros Hc. rewrite with_reported_body. unfold field. simpl.
  destruct (position c (columns df)) as [j'|] eqn:E; [|reflexivity].
  unfold cell_at. simpl. apply nth_set_nth_other.
  intros ->. apply Hc. now apply (position_inj (columns df) c "Reported" j).
Qed.

Lemma markush_with_reported (r : nat * list cell) :
  markush (with_reported df v) (overwrite r) = markush df r.
Proof. unfold markush. now rewrite field_with_reported. Qed.

Lemma pair_of_with_reported (r : nat * list cell) :
  pair_of (with_reported df v) (overwrite r) = pair_of df r.
Proof. unfold pair_of. now rewrite !field_with_reported. Qed.

Lemma has_pair_with_reported (pm : cell * cell) (r : nat * list cell) :
  has_pair (with_reported df v) pm (overwrite r) = has_pair df pm r.
Proof. unfold has_pair. now rewrite !field_with_reported. Qed.

Hypothesis Hindex : unique_index df = true.
Hypothesis Hmark : has_column df "Markush" = true.
Hypothesis Hparent : has_column df "DTXSID" = true.
Hypothesis Hgroup : has_column df "Metabolite DTXSID" = true.

(** [sumMarkParents] does not read the column [Reported]. *)
Lemma sumMarkParents_with_reported (flag : nat * list cell -> bool) :
  sumMarkParents (with_reported df v) (flag_series df flag)
  = sumMarkParents df (flag_series df flag).
Proof.
  pose proof (unique_index_NoDup df Hindex) as ND.
  set (flag' := fun r' : nat * list cell =>
                  match loc (flag_series df flag) (fst r') with
                  | Some b => b
                  | None => false
                  end).
  assert (Hflag : forall r, In r (body df) -> flag' (overwrite r) = flag r).
  { intros r Hr. unfold flag', flag_series. simpl. now rewrite loc_rows. }
  assert (Hseries : flag_series df flag = flag_series (with_reported df v) flag').
  { rewrite with_reported_body. unfold flag_series at 2. simpl. rewrite map_map.
    apply map_ext_in. intros r Hr. simpl. now rewrite Hflag. }
  rewrite Hseries at 1.
  rewrite (sumMarkParents_rows (with_reported df v)).
  - rewrite (sumMarkParents_rows df Hindex Hmark Hparent Hgroup).
    do 3 f_equal. unfold unique_pairs.
    replace (body (with_reported df v)) with (map overwrite (body df))
      by (now rewrite with_reported_body).
    rewrite filter_map_comm, map_map.
    rewrite (filter_ext _ (markush df) markush_with_reported).
    rewrite (map_ext _ (pair_of df) pair_of_with_reported).
    apply filter_ext. intros pm. unfold group_hit.
    replace (body (with_reported df v)) with (map overwrite (body df))
      by (now rewrite with_reported_body).
    apply existsb_map_ext_in. intros r Hr.
    now rewrite markush_with_reported, has_pair_with_reported, Hflag.
  - rewrite with_reported_body. unfold unique_index. simpl.
    rewrite map_map. exact Hindex.
  - rewrite with_reported_body. exact Hmark.
  - rewrite with_reported_body. exact Hparent.
  - rewrite with_reported_body. exact Hgroup.
Qed.

End Reported.

(* ----------------------------------------------------------------- *)
(** ** Sensitivity *)

Lemma scenario_counts (p1 p2 p3 m1 m2 m3 q g : string) :
  let t := scenario_table p1 p2 p3 m1 m2 m3 q g in
  nonAmbigTP t (Name "Model") = 2
  /\ ambigTP t (Name "Model") = 1
  /\ reportedNonAmbig t = 3
  /\ reportedAmbig t = 1.
Proof.
  cbv zeta. repeat split; try reflexivity.
  - unfold ambigTP, unique_pairs, group_hit, distinct, pair_same, has_pair,
      pair_of, markush, model_flag, flag_set, field, same, py_eq.
    cbn. rewrite !String.eqb_refl. reflexivity.
  - unfold reportedAmbig, unique_pairs, distinct, pair_same, pair_of, reported,
      markush, flag_set, field, same, py_eq.
    cbn. rewrite !String.eqb_refl. reflexivity.
Qed.

(** C1.  On a table with two non-ambiguous reported true positives, one
    non-ambiguous reported false negative and one Markush group of three
    reported rows sharing one (ParentID, GroupID) pair, of which exactly
    one carries the model flag, [calcSensitivity] returns
    [round((2 + 1)/(3 + 1), 3)], which is the float 0.75.  In general, on
    a table with a unique index and the columns the function reads, and a
    valid selector, [calcSensitivity] evaluates
    [round((nonAmbigTP + ambigTP) / (reportedNonAmbig + reportedAmbig), 3)],
    the division raising ZeroDivisionError when nothing is reported.  A
    reported Markush row without an identifier shares its pair with no
    row and adds one to [reportedAmbig]; the formula is stated for the
    tables in which such a row lacks an identifier in a column of
    numbers (a float64 column, of which every missing cell is a NaN of
    its own), as in the table of numbers given last, where two such
    rows make the sensitivity [round(1/(1 + 2), 3)]. *)
Theorem calcSensitivity_formula :
  (forall p1 p2 p3 m1 m2 m3 q g : string,
      let t := scenario_table p1 p2 p3 m1 m2 m3 q g in
      nonAmbigTP t (Name "Model") = 2
      /\ ambigTP t (Name "Model") = 1
      /\ reportedNonAmbig t = 3
      /\ reportedAmbig t = 1
      /\ calcSensitivity t (Name "Model")
         = Ok (PyFloat.round
                 (PyFloat.div (PyFloat.of_int (2 + 1)) (PyFloat.of_int (3 + 1))) 3)
      /\ PyFloat.round
           (PyFloat.div (PyFloat.of_int (2 + 1)) (PyFloat.of_int (3 + 1))) 3
         = three_quarters)
  /\ (exists q, PyFloat.value three_quarters = Some q /\ (q == 3 # 4)%Q)
  /\ (forall (data : DataFrame) (modelName : selector),
         unique_index data = true ->
         has_column data "Reported" = true ->
         has_column data "Markush" = true ->
         has_column data "DTXSID" = true ->
         has_column data "Metabolite DTXSID" = true ->
         valid_selector data modelName = true ->
         missing_numbers data = true ->
         calcSensitivity data modelName
         = (x <- PyFloat.truediv
                   (nonAmbigTP data modelName + ambigTP data modelName)
                   (reportedNonAmbig data + reportedAmbig data) ;;
            Ok (PyFloat.round x 3)))
  /\ (nonAmbigTP numbered_table (Name "Model") = 1
      /\ ambigTP numbered_table (Name "Model") = 0
      /\ reportedNonAmbig numbered_table = 1
      /\ reportedAmbig numbered_table = 2
      /\ calcSensitivity numbered_table (Name "Model")
         = Ok (PyFloat.round
                 (PyFloat.div (PyFloat.of_int 1) (PyFloat.of_int (1 + 2))) 3)).
Proof.
  split.
  - intros p1 p2 p3 m1 m2 m3 q g t.
    destruct (scenario_counts p1 p2 p3 m1 m2 m3 q g) as [H1 [H2 [H3 H4]]].
    fold t in H1, H2, H3, H4.
    repeat (split; [assumption|]). split; [|reflexivity].
    rewrite (calcSensitivity_rows t eq_refl eq_refl eq_refl eq_refl eq_refl
               (Name "Model") eq_refl).
    rewrite H1, H2, H3, H4. reflexivity.
  - split; [|split].
    + eexists. split; [reflexivity|]. reflexivity.
    + intros data modelName U HR HM HD HG V _.
      now apply calcSensitivity_rows.
    + repeat split; vm_compute; reflexivity.
Qed.

Lemma calcSensitivity_formula_witness :
  missing_numbers example_table = true
  /\ missing_numbers numbered_table = true
  /\ calcSensitivity example_table (Name "Model")
     = (x <- PyFloat.truediv
               (nonAmbigTP example_table (Name "Model")
                + ambigTP example_table (Name "Model"))
               (reportedNonAmbig example_table + reportedAmbig example_table) ;;
        Ok (PyFloat.round x 3))
  /\ calcSensitivity numbered_table (Name "Model")
     = (x <- PyFloat.truediv
               (nonAmbigTP numbered_table (Name "Model")
                + ambigTP numbered_table (Name "Model"))
               (reportedNonAmbig numbered_table + reportedAmbig numbered_table) ;;
        Ok (PyFloat.round x 3)).
Proof.
  split; [reflexivity|]. split; [reflexivity|]. split.
  - apply (proj1 (proj2 (proj2 calcSensitivity_formula))
             example_table (Name "Model")); reflexivity.
  - apply (proj1 (proj2 (proj2 calcSensitivity_formula))
             numbered_table (Name "Model")); reflexivity.
Defined.

(** C2.  [sumMarkParents] counts every unique (ParentID,
    MetaboliteGroupID) pair of the Markush rows once, and counts it
    exactly when some Markush row with that pair has the model flag set;
    the column [Reported] plays no part. *)
Theorem sumMarkParents_groups (data : DataFrame)
  (flag : nat * list cell -> bool) :
  unique_index data = true ->
  has_column data "Markush" = true ->
  has_column data "DTXSID" = true ->
  has_column data "Metabolite DTXSID" = true ->
  let pairs := unique_pairs data (markush data) in
  (* the pairs of the Markush rows, each listed once *)
  (forall pm, In pm pairs ->
     exists r, In r (body data) /\ markush data r = true /\ pair_of data r = pm)
  /\ (forall r, In r (body data) -> markush data r = true ->
        exists pm, In pm pairs /\ pair_same (pair_of data r) pm = true)
  /\ ForallOrdPairs (fun pm pm' => pair_same pm' pm = false) pairs
  (* a pair adds one to the sum when it is hit, and nothing otherwise *)
  /\ sumMarkParents data (flag_series data flag)
     = Ok (fold_right Z.add 0
             (map (fun pm => if group_hit data flag pm then 1 else 0) pairs))
  /\ (forall pm,
        group_hit data flag pm = true
        <-> exists r, In r (body data) /\ markush data r = true
                      /\ has_pair data pm r = true /\ flag r = true)
  (* whatever the column Reported holds *)
  /\ (forall v, has_column data "Reported" = true ->
        sumMarkParents (with_reported data v) (flag_series data flag)
        = sumMarkParents data (flag_series data flag)).
Proof.
  intros U HM HD HG pairs. subst pairs. unfold unique_pairs.
  repeat split.
  - intros pm H. apply distinct_from_In in H. destruct H as [H _].
    apply in_map_iff in H. destruct H as [r [E H]].
    apply filter_In in H. exists r. tauto.
  - intros r Hr Hm.
    destruct (distinct_from_covers pair_same
                (map (pair_of data) (filter (markush data) (body data)))
                [] (pair_of data r) pair_same_refl) as [H|H].
    + apply in_map. apply filter_In. tauto.
    + discriminate.
    + exact H.
  - apply distinct_from_pairwise.
  - rewrite (sumMarkParents_rows data U HM HD HG). f_equal.
    unfold unique_pairs.
    induction (distinct pair_same
                 (map (pair_of data) (filter (markush data) (body data))))
      as [|pm l IH]; [reflexivity|].
    simpl. destruct (group_hit data flag pm); simpl List.length; lia.
  - unfold group_hit. rewrite existsb_exists.
    intros [r [Hr H]]. exists r. rewrite !andb_true_iff in H. tauto.
  - unfold group_hit. rewrite existsb_exists.
    intros [r [Hr H]]. exists r. rewrite !andb_true_iff. tauto.
  - intros v HR. destruct (position_has_column data "Reported" HR) as [j Hj].
    now apply (sumMarkParents_with_reported data v j).
Qed.

Lemma sumMarkParents_groups_witness :
  sumMarkParents example_table
    (flag_series example_table (flag_set example_table "Model"))
  = Ok 1.
Proof.
  refine (proj1 (proj2 (proj2 (proj2
            (sumMarkParents_groups example_table
               (flag_set example_table "Model") _ _ _ _))))); reflexivity.
Defined.

(* ----------------------------------------------------------------- *)
(** ** Precision *)

(** C3.  For every table with a column [Reported] and every selector
    that names a column, or a non-empty list of 0/1 columns,
    [calcPrecision] returns exactly 0.0 when no row has the model flag
    set, whatever the column [Reported] holds, and otherwise
    [round(truePositive / allPredicted, 3)]. *)
Theorem calcPrecision_formula (data : DataFrame) (modelName : selector) :
  valid_selector data modelName = true ->
  has_column data "Reported" = true ->
  (allPredicted data modelName = 0 ->
   calcPrecision data modelName = Ok PyFloat.zero)
  /\ (allPredicted data modelName <> 0 ->
      calcPrecision data modelName
      = Ok (PyFloat.round
              (PyFloat.div (PyFloat.of_int (truePositive data modelName))
                           (PyFloat.of_int (allPredicted data modelName))) 3)).
Proof.
  intros V HR. rewrite (calcPrecision_cases data modelName V HR). split.
  - intros ->. reflexivity.
  - intros H. apply Z.eqb_neq in H. now rewrite H.
Qed.

Lemma calcPrecision_formula_witness :
  calcPrecision example_table (Name "Model")
  = Ok (PyFloat.round
          (PyFloat.div (PyFloat.of_int (truePositive example_table (Name "Model")))
                       (PyFloat.of_int (allPredicted example_table (Name "Model"))))
          3).
Proof.
  apply (proj2 (calcPrecision_formula example_table (Name "Model")
                  eq_refl eq_refl)).
  vm_compute. discriminate.
Defined.

(** C10.  On a table of 0/1 flags and a selector that is a column name
    or a non-empty list of column names, [calcPrecision] returns a
    value: [allPred] is a count, so one of the two guards holds, and the
    path on which [Precision] is unbound is not taken. *)
Theorem calcPrecision_returns (data : DataFrame) (modelName : selector) :
  valid_selector data modelName = true ->
  has_column data "Reported" = true ->
  (exists p, calcPrecision data modelName = Ok p)
  /\ calcPrecision data modelName <> Raise (UnboundLocalError "Precision")
  /\ 0 <= truePositive data modelName <= allPredicted data modelName
  /\ ((allPredicted data modelName >? 0) = false ->
      (allPredicted data modelName =? Z.land 0 (truePositive data modelName))
      && (Z.land 0 (truePositive data modelName) =? 0) = true).
Proof.
  intros V HR.
  pose proof (count_rows_nonneg data (model_flag data modelName)) as Hnn.
  fold (allPredicted data modelName) in Hnn.
  assert (E : exists p, calcPrecision data modelName = Ok p).
  { rewrite (calcPrecision_cases data modelName V HR).
    destruct (allPredicted data modelName =? 0); eauto. }
  repeat split.
  - exact E.
  - destruct E as [p E]. rewrite E. discriminate.
  - apply count_rows_nonneg.
  - apply (count_rows_and_le data (model_flag data modelName) (reported data)).
  - intros G. rewrite Z.land_0_l. simpl. rewrite andb_true_r.
    apply Z.eqb_eq. rewrite Z.gtb_ltb in G. apply Z.ltb_ge in G. lia.
Qed.

Lemma calcPrecision_returns_witness :
  exists p, calcPrecision two_source_table (Names ["ToolBox"; "Meteor"]) = Ok p.
Proof.
  apply (calcPrecision_returns two_source_table (Names ["ToolBox"; "Meteor"]));
    reflexivity.
Defined.

(* ----------------------------------------------------------------- *)
(** ** List selectors *)

(** C9.  With a list of flag columns that hold only 0 and 1, the model
    filter that [calcSensitivity] and [calcPrecision] compute marks a row
    exactly when the flag of one of the named sources is 1: it is the
    union of the filters of the single columns. *)
Theorem model_filter_union (data : DataFrame) (names : list string) :
  valid_selector data (Names names) = true ->
  model_filter data (Names names)
  = Ok (flag_series data (fun r => existsb (fun c => flag_set data c r) names))
  /\ (forall c, In c names ->
        model_filter data (Name c) = Ok (flag_series data (flag_set data c))).
Proof.
  intros V. split.
  - exact (model_filter_rows data (Names names) V).
  - intros c Hc.
    assert (F : flag_column data c = true).
    { unfold valid_selector in V.
      destruct names as [|first rest]; [discriminate|].
      rewrite forallb_forall in V. now apply V. }
    rewrite (model_filter_rows data (Name c)).
    + f_equal. apply flag_series_ext. intros r _.
      unfold model_flag. simpl. now rewrite orb_false_r.
    + exact (flag_column_has data c F).
Qed.

Lemma model_filter_union_witness :
  model_filter two_source_table (Names ["ToolBox"; "Meteor"])
  = Ok [(0%nat, true); (1%nat, true); (2%nat, true); (3%nat, false)].
Proof.
  apply (proj1 (model_filter_union two_source_table ["ToolBox"; "Meteor"] eq_refl)).
Defined.

(* ----------------------------------------------------------------- *)
(** ** Too few tables *)

(** C5.  Given fewer than two tables, [aggregate_DFs] and
    [aggregate_DFs_extended] return [None]; they do not raise. *)
Theorem aggregate_too_few (DF_List : list DataFrame) (arg_on : list string) :
  (List.length DF_List < 2)%nat ->
  aggregate_DFs DF_List arg_on = Ok None
  /\ forall (Mol : Type) (MolFromSmiles : string -> option Mol)
            (ExactMolWt : Mol -> PyFloat.float) (CalcMolFormula : Mol -> string),
       aggregate_DFs_extended MolFromSmiles ExactMolWt CalcMolFormula
                              DF_List arg_on = Ok None.
Proof.
  intros H. destruct DF_List as [|first [|second rest]]; simpl in H.
  - split; reflexivity.
  - split; reflexivity.
  - lia.
Qed.

Lemma aggregate_too_few_witness :
  aggregate_DFs [toolbox_output] default_on = Ok None.
Proof.
  apply (aggregate_too_few [toolbox_output] default_on). simpl. lia.
Defined.

(* ----------------------------------------------------------------- *)
(** ** The TIMES adapter *)

Lemma combine_seq_app {A : Type} (a b : list A) (start : nat) :
  combine (seq start (List.length (a ++ b))) (a ++ b)
  = combine (seq start (List.length a)) a
    ++ combine (seq (start + List.length a) (List.length b)) b.
Proof.
  revert start. induction a as [|x a IH]; intros start; simpl.
  - now rewrite Nat.add_0_r.
  - rewrite IH. now rewrite Nat.add_succ_r.
Qed.

Lemma slice_middle {A : Type} (pre mid post : list A) :
  List.length post = 2%nat ->
  firstn (List.length (pre ++ mid ++ post) - 2 - List.length pre)
         (skipn (List.length pre) (pre ++ mid ++ post)) = mid.
Proof.
  intros H. rewrite skipn_app, skipn_all, Nat.sub_diag. simpl.
  rewrite !length_app, H.
  replace (List.length pre + (List.length mid + 2) - 2 - List.length pre)%nat
    with (List.length mid + 0)%nat by lia.
  rewrite firstn_app_2. simpl. now rewrite app_nil_r.
Qed.

(** [df[header:-2]] keeps the rows between the leading rows and the two
    trailing rows, with their labels. *)
Lemma slice_rows_middle (cols : list string)
  (g : nat * list cell -> nat * list cell)
  (leading mid trailing : list (list cell)) :
  List.length trailing = 2%nat ->
  slice_rows (mkDF cols (map g (reset_index (leading ++ mid ++ trailing))))
             (List.length leading)
  = mkDF cols (map g (combine (seq (List.length leading) (List.length mid)) mid)).
Proof.
  intros H. unfold slice_rows, reset_index. simpl. f_equal.
  rewrite combine_seq_app, combine_seq_app, !map_app. simpl.
  set (pre := map g (combine (seq 0 (List.length leading)) leading)).
  set (post := map g (combine (seq (List.length leading + List.length mid)
                                   (List.length trailing)) trailing)).
  assert (Lpre : List.length pre = List.length leading).
  { subst pre. rewrite length_map, length_combine, length_seq. lia. }
  assert (Lpost : List.length post = 2%nat).
  { subst post. rewrite length_map, length_combine, length_seq. lia. }
  rewrite <- Lpre. now apply slice_middle.
Qed.

(** Symbolic evaluation of a pipeline of pandas statements, one
    statement at a time: comparisons of known strings and labels are
    computed, the others are rewritten with the facts at hand. *)
Ltac eval_eqb :=
  repeat match goal with
         | |- context [String.eqb ?a ?b] =>
             let v := eval vm_compute in (String.eqb a b) in
             match v with
             | true => change (String.eqb a b) with true
             | false => change (String.eqb a b) with false
             end
         end.

Ltac eval_nat_eqb :=
  repeat match goal with
         | |- context [Nat.eqb ?a ?b] =>
             first [ replace (Nat.eqb a b) with true
                       by (symmetry; apply Nat.eqb_eq; lia)
                   | replace (Nat.eqb a b) with false
                       by (symmetry; apply Nat.eqb_neq; lia) ]
         end.

Ltac simp_with facts :=
  repeat (progress
            (unfold setitem_const, setitem, setitem_with, getitem, series_replace,
               series_select, series_isnull, series_notnull, select,
               drop_duplicates_keep_index, distinct, SMILES_to_InchiKey,
               SMILES_to_MW, clean_SMILES, series_apply, mass_H, project, rename,
               py_eq, same, ffill, cell_at, times_file;
             cbn -[String.eqb PyFloat.add Nat.eqb slice_rows reset_index
                   scenario_rows];
             eval_eqb; eval_nat_eqb; facts)).

Ltac norm_with facts v :=
  let E := fresh "E" in
  eassert (E : v = _) by (simp_with facts; reflexivity);
  try rewrite E; clear E.

Ltac step_with facts :=
  lazymatch goal with
  | |- (let x := ?v in @?b x) = ?r =>
      norm_with facts v;
      lazymatch goal with
      | |- (let x := ?v' in @?b' x) = ?r' => change (b' v' = r'); cbv beta
      end
  | |- bind ?c ?k = ?r =>
      norm_with facts c;
      lazymatch goal with
      | |- bind (Ok ?a) ?k' = ?r' => change (k' a = r'); cbv beta
      end
  end.

Lemma fresh_column_l (c Model_Module : string) :
  mem Model_Module times_columns = false ->
  In c times_columns -> String.eqb c Model_Module = false.
Proof.
  intros HM Hc. apply String.eqb_neq. intros ->.
  assert (E : mem Model_Module times_columns = true).
  { apply existsb_exists. exists Model_Module.
    split; [assumption | apply String.eqb_refl]. }
  congruence.
Qed.

Lemma fresh_column_r (c Model_Module : string) :
  mem Model_Module times_columns = false ->
  In c times_columns -> String.eqb Model_Module c = false.
Proof. intros HM Hc. rewrite String.eqb_sym. now apply fresh_column_l. Qed.

Section TimesScenario.

Variable Mol : Type.
Variable MolFromSmiles : string -> option Mol.
Variable MolToInchi : Mol -> string.
Variable InchiToInchiKey : string -> string.
Variable MolToSmiles : Mol -> bool -> string.
Variable ExactMolWt : Mol -> PyFloat.float.
Variable CalcMolFormula : Mol -> string.

Variables P1 P2 s0 s1 s2 s3 Model_Module : string.
Variables m1 m2 proton : Mol.
Variables leading trailing : list (list cell).

Hypothesis Htrailing : List.length trailing = 2%nat.
Hypothesis HP1 : P1 <> " ".
Hypothesis HP2 : P2 <> " ".
Hypothesis Hs : s1 <> s2.
Hypothesis H1 : MolFromSmiles s1 = Some m1.
Hypothesis H2 : MolFromSmiles s2 = Some m2.
Hypothesis Hproton : MolFromSmiles "[H+]" = Some proton.
Hypothesis Hmodule : mem Model_Module times_columns = false.

Lemma TIMES_cleanup_framed :
  TIMES_cleanup MolFromSmiles MolToInchi InchiToInchiKey MolToSmiles
                ExactMolWt CalcMolFormula
                (times_file leading trailing P1 P2 s0 s1 s2 s3)
                Model_Module (List.length leading)
  = Ok (scenario_output Mol MolToInchi InchiToInchiKey MolToSmiles ExactMolWt
                        CalcMolFormula Model_Module
                        (S (List.length leading)) P1 m1 m2 proton).
Proof.
  cbv delta [TIMES_cleanup] beta.
  do 2 step_with idtac.
  rewrite (slice_rows_middle ["DTXSID"; "Smiles"] _ leading
             (scenario_rows P1 P2 s0 s1 s2 s3) trailing Htrailing).
  cbv delta [scenario_rows].
  generalize (List.length leading) as n. intros n.
  assert (F1 : String.eqb "DTXSID" Model_Module = false)
    by (apply fresh_column_l; [assumption | simpl; tauto]).
  assert (F2 : String.eqb "Smiles" Model_Module = false)
    by (apply fresh_column_l; [assumption | simpl; tauto]).
  assert (F3 : String.eqb Model_Module "Metabolite_INCHIKEY" = false)
    by (apply fresh_column_r; [assumption | simpl; tauto]).
  assert (F4 : String.eqb Model_Module "Formula" = false)
    by (apply fresh_column_r; [assumption | simpl; tauto]).
  assert (F5 : String.eqb Model_Module "[M+H]" = false)
    by (apply fresh_column_r; [assumption | simpl; tauto]).
  assert (F6 : String.eqb Model_Module "Clean_SMILES" = false)
    by (apply fresh_column_r; [assumption | simpl; tauto]).
  assert (F7 : String.eqb Model_Module "DTXSID" = false)
    by (apply fresh_column_r; [assumption | simpl; tauto]).
  assert (F8 : String.eqb Model_Module "Smiles" = false)
    by (apply fresh_column_r; [assumption | simpl; tauto]).
  assert (G1 : String.eqb P1 " " = false) by (now apply String.eqb_neq).
  assert (G2 : String.eqb P2 " " = false) by (now apply String.eqb_neq).
  assert (G3 : String.eqb s2 s1 = false) by (apply String.eqb_neq; congruence).
  assert (G4 : String.eqb s1 s2 = false) by (apply String.eqb_neq; congruence).
  repeat (step_with ltac:(rewrite ?F1, ?F2, ?F3, ?F4, ?F5, ?F6, ?F7, ?F8,
                                  ?G1, ?G2, ?G3, ?G4, ?H1, ?H2, ?Hproton,
                                  ?String.eqb_refl)).
  lazymatch goal with
  | |- ?c = _ =>
      norm_with ltac:(rewrite ?F1, ?F2, ?F3, ?F4, ?F5, ?F6, ?F7, ?F8,
                              ?String.eqb_refl) c
  end.
  reflexivity.
Qed.

End TimesScenario.

(** C7, as amended.  [TIMES_cleanup] slices the frame it reads with
    [df[header:-2]].  When the row sequence
    [(P1, s0), (NaN, s1), (NaN, s2), (P2, s3)] stands between the
    [header] leading rows and the two trailing rows of the export, with
    [P1] and [P2] not the blank placeholder and [s1], [s2] two different
    structures that parse, the adapter fills [P1] forward and returns
    exactly the two metabolite rows, [s1] under [P1] and [s2] under
    [P1]; the parent rows are not in the output. *)
Theorem TIMES_cleanup_forward_fill
  (Mol : Type) (MolFromSmiles : string -> option Mol)
  (MolToInchi : Mol -> string) (InchiToInchiKey : string -> string)
  (MolToSmiles : Mol -> bool -> string) (ExactMolWt : Mol -> PyFloat.float)
  (CalcMolFormula : Mol -> string)
  (P1 P2 s0 s1 s2 s3 Model_Module : string) (m1 m2 proton : Mol)
  (leading trailing : list (list cell)) (header : nat) :
  List.length leading = header ->
  List.length trailing = 2%nat ->
  P1 <> " " -> P2 <> " " -> s1 <> s2 ->
  MolFromSmiles s1 = Some m1 ->
  MolFromSmiles s2 = Some m2 ->
  MolFromSmiles "[H+]" = Some proton ->
  mem Model_Module times_columns = false ->
  TIMES_cleanup MolFromSmiles MolToInchi InchiToInchiKey MolToSmiles
                ExactMolWt CalcMolFormula
                (times_file leading trailing P1 P2 s0 s1 s2 s3)
                Model_Module header
  = Ok (scenario_output Mol MolToInchi InchiToInchiKey MolToSmiles ExactMolWt
                        CalcMolFormula Model_Module (S header) P1 m1 m2 proton).
Proof.
  intros <- Ht HP1 HP2 Hs H1 H2 Hp HM.
  now apply TIMES_cleanup_framed.
Qed.

Lemma TIMES_cleanup_forward_fill_witness :
  Toy.TIMES_cleanup
    (times_file [[Str "Chem. Name"; Str "Smiles"]] [[NaN; NaN]; [NaN; NaN]]
                "P1" "P2" "C" "CC" "OCC" "C")
    "TIMES_InVivo" 1
  = Ok (scenario_output Toy.Mol Toy.MolToInchi Toy.InchiToInchiKey
                        Toy.MolToSmiles Toy.ExactMolWt Toy.CalcMolFormula
                        "TIMES_InVivo" 2 "P1" "CC" "CCO" "[H+]").
Proof.
  apply (TIMES_cleanup_forward_fill Toy.Mol Toy.MolFromSmiles Toy.MolToInchi
           Toy.InchiToInchiKey Toy.MolToSmiles Toy.ExactMolWt Toy.CalcMolFormula
           "P1" "P2" "C" "CC" "OCC" "C" "TIMES_InVivo" "CC" "CCO" "[H+]"
           [[Str "Chem. Name"; Str "Smiles"]] [[NaN; NaN]; [NaN; NaN]] 1);
    try reflexivity; discriminate.
Defined.

(** On the bare row sequence of the scenario the default [header = 1]
    drops the first parent row and the slice drops the last two rows:
    the output is the single row of [s1], with no parent. *)
Lemma TIMES_cleanup_bare_scenario :
  Toy.TIMES_cleanup (times_file [] [] "P1" "P2" "C" "CC" "OCC" "C")
                    "TIMES_InVivo" 1
  = Ok (mkDF ["DTXSID"; "Metabolite_INCHIKEY"; "Clean_SMILES"; "Formula";
              "[M+H]"; "TIMES_InVivo"]
             [ (1%nat, metabolite_row Toy.Mol Toy.MolToInchi Toy.InchiToInchiKey
                         Toy.MolToSmiles Toy.ExactMolWt Toy.CalcMolFormula
                         NaN "CC" "[H+]") ])
  /\ Toy.TIMES_cleanup (times_file [] [] "P1" "P2" "C" "CC" "OCC" "C")
                       "TIMES_InVivo" 1
     <> Ok (scenario_output Toy.Mol Toy.MolToInchi Toy.InchiToInchiKey
                            Toy.MolToSmiles Toy.ExactMolWt Toy.CalcMolFormula
                            "TIMES_InVivo" 1 "P1" "CC" "CCO" "[H+]").
Proof.
  assert (E : Toy.TIMES_cleanup (times_file [] [] "P1" "P2" "C" "CC" "OCC" "C")
                                "TIMES_InVivo" 1
              = Ok (mkDF ["DTXSID"; "Metabolite_INCHIKEY"; "Clean_SMILES";
                          "Formula"; "[M+H]"; "TIMES_InVivo"]
                         [ (1%nat, metabolite_row Toy.Mol Toy.MolToInchi
                                     Toy.InchiToInchiKey Toy.MolToSmiles
                                     Toy.ExactMolWt Toy.CalcMolFormula
                                     NaN "CC" "[H+]") ]))
    by (vm_compute; reflexivity).
  split; [exact E|].
  rewrite E. intros H.
  apply (f_equal (fun r => match r with Ok d => nrows d | Raise _ => O end)) in H.
  vm_compute in H. discriminate H.
Qed.

(* ----------------------------------------------------------------- *)
(** ** Setting a column *)

Lemma setitem_with_body (df : DataFrame) (c : string)
  (f : nat * list cell -> cell) :
  body (setitem_with df c f) = map (updated_row df c f) (body df).
Proof.
  unfold setitem_with, updated_row.
  destruct (position c (columns df)); reflexivity.
Qed.

Lemma updated_row_label (df : DataFrame) (c : string)
  (f : nat * list cell -> cell) (r : nat * list cell) :
  fst (updated_row df c f r) = fst r.
Proof. unfold updated_row. destruct (position c (columns df)); reflexivity. Qed.

Lemma position_bound (cols : list string) (c : string) (j : nat) :
  position c cols = Some j -> (j < List.length cols)%nat.
Proof.
  revert j. induction cols as [|c' cols IH]; simpl; intros j; [discriminate|].
  destruct (String.eqb c' c).
  - intros H. injection H as <-. lia.
  - destruct (position c cols) as [j'|]; [|discriminate].
    intros H. injection H as <-. specialize (IH j' eq_refl). lia.
Qed.

Lemma position_app_new (cols : list string) (c : string) :
  position c cols = None -> position c (cols ++ [c]) = Some (List.length cols).
Proof.
  induction cols as [|c' cols IH]; simpl.
  - now rewrite String.eqb_refl.
  - destruct (String.eqb c' c); [discriminate|].
    destruct (position c cols); [discriminate|].
    intros _. now rewrite IH.
Qed.

Lemma position_app_other (cols : list string) (c c' : string) :
  c' <> c -> position c' (cols ++ [c]) = position c' cols.
Proof.
  intros H. induction cols as [|x cols IH]; simpl.
  - destruct (String.eqb c c') eqn:E; [|reflexivity].
    apply String.eqb_eq in E. congruence.
  - now rewrite IH.
Qed.

Lemma nth_set_nth_same (j : nat) (v d : cell) (l : list cell) :
  (j < List.length l)%nat -> nth j (set_nth j v l) d = v.
Proof.
  revert j. induction l as [|a l IH]; intros [|j] H; simpl in *;
    try lia; try reflexivity.
  apply IH. lia.
Qed.

Lemma set_nth_length (j : nat) (v : cell) (l : list cell) :
  List.length (set_nth j v l) = List.length l.
Proof.
  revert j. induction l as [|a l IH]; intros [|j]; simpl; try reflexivity.
  now rewrite IH.
Qed.

Lemma well_formed_row (df : DataFrame) (r : nat * list cell) :
  well_formed df = true -> In r (body df) ->
  List.length (snd r) = List.length (columns df).
Proof.
  unfold well_formed. rewrite forallb_forall. intros H Hr.
  apply Nat.eqb_eq. now apply H.
Qed.

Section SetItem.

Variable df : DataFrame.
Variable c : string.
Variable f : nat * list cell -> cell.
Hypothesis Hwf : well_formed df = true.

Lemma field_setitem_with_same (r : nat * list cell) :
  In r (body df) ->
  field (setitem_with df c f) c (updated_row df c f r) = f r.
Proof.
  intros Hr. pose proof (well_formed_row df r Hwf Hr) as L.
  unfold field, setitem_with, updated_row, cell_at.
  destruct (position c (columns df)) as [j|] eqn:E; simpl.
  - rewrite E. simpl. apply nth_set_nth_same.
    rewrite L. now apply (position_bound (columns df) c).
  - rewrite (position_app_new _ _ E). simpl.
    rewrite <- L. rewrite nth_middle. reflexivity.
Qed.

Lemma field_setitem_with_other (c' : string) (r : nat * list cell) :
  c' <> c -> In r (body df) ->
  field (setitem_with df c f) c' (updated_row df c f r) = field df c' r.
Proof.
  intros Hc Hr. pose proof (well_formed_row df r Hwf Hr) as L.
  unfold field, setitem_with, updated_row, cell_at.
  destruct (position c (columns df)) as [j|] eqn:E; simpl.
  - destruct (position c' (columns df)) as [j'|] eqn:E'; [|reflexivity].
    simpl. apply nth_set_nth_other. intros ->.
    apply Hc. now apply (position_inj (columns df) c' c j).
  - rewrite (position_app_other _ _ _ Hc).
    destruct (position c' (columns df)) as [j'|] eqn:E'; [|reflexivity].
    simpl. apply app_nth1. rewrite L.
    now apply (position_bound (columns df) c').
Qed.

Lemma well_formed_setitem_with : well_formed (setitem_with df c f) = true.
Proof.
  unfold well_formed. rewrite setitem_with_body, forallb_forall.
  intros r' Hr'. apply in_map_iff in Hr'. destruct Hr' as [r [<- Hr]].
  pose proof (well_formed_row df r Hwf Hr) as L.
  apply Nat.eqb_eq. unfold setitem_with, updated_row.
  destruct (position c (columns df)); simpl.
  - now rewrite set_nth_length.
  - rewrite !length_app. simpl. lia.
Qed.

End SetItem.

(* ----------------------------------------------------------------- *)
(** ** Labelled lookups *)

Lemma loc_insert_by_label {A : Type} (p : nat * A) (s : Series A) (i : nat) :
  loc (insert_by_label p s) i = loc (p :: s) i.
Proof.
  induction s as [|q s IH]; simpl; [reflexivity|].
  destruct (Nat.leb (fst p) (fst q)) eqn:E; [reflexivity|].
  apply Nat.leb_gt in E.
  destruct p as [pi pa], q as [qi qa]. simpl in *.
  rewrite IH. simpl.
  destruct (Nat.eqb qi i) eqn:Q, (Nat.eqb pi i) eqn:P; try reflexivity.
  apply Nat.eqb_eq in Q, P. lia.
Qed.

(** Sorting a Series by label does not change what a label finds. *)
Lemma loc_sort_index {A : Type} (s : Series A) (i : nat) :
  loc (sort_index s) i = loc s i.
Proof.
  induction s as [|[j a] s IH]; simpl; [reflexivity|].
  rewrite loc_insert_by_label. simpl. now rewrite IH.
Qed.

Lemma loc_app {A : Type} (a b : Series A) (i : nat) :
  loc (a ++ b) i = match loc a i with
                   | Some v => Some v
                   | None => loc b i
                   end.
Proof.
  induction a as [|[j x] a IH]; simpl; [reflexivity|].
  destruct (Nat.eqb j i); [reflexivity | exact IH].
Qed.

Lemma label_inj {R : Type} (l : list (nat * R)) (r r' : nat * R) :
  NoDup (map fst l) -> In r l -> In r' l -> fst r = fst r' -> r = r'.
Proof.
  induction l as [|x l IH]; simpl; intros ND H H' E; [contradiction|].
  inversion ND as [|? ? Hx ND']; subst.
  destruct H as [->|H], H' as [->|H'].
  - reflexivity.
  - exfalso. apply Hx. rewrite E. now apply in_map.
  - exfalso. apply Hx. rewrite <- E. now apply in_map.
  - now apply IH.
Qed.

(** A Series computed from the rows that pass a test: the label of a row
    finds its value when the row passes, and nothing otherwise. *)
Lemma loc_filter_rows {R A : Type} (q : nat * R -> bool) (g : nat * R -> A)
  (l : list (nat * R)) (r : nat * R) :
  NoDup (map fst l) -> In r l ->
  loc (map (fun r => (fst r, g r)) (filter q l)) (fst r)
  = if q r then Some (g r) else None.
Proof.
  intros ND Hr. destruct (q r) eqn:Q.
  - apply loc_rows.
    + now apply labels_filter_NoDup.
    + apply filter_In. tauto.
  - apply loc_not_in. unfold index. rewrite map_map. simpl.
    intros H. apply in_map_iff in H. destruct H as [r' [E H]].
    apply filter_In in H. destruct H as [H Q'].
    rewrite (label_inj l r' r ND H Hr E) in Q'. congruence.
Qed.

Lemma mapM_ok {A B : Type} (f : A -> result B) (g : A -> B) (l : list A) :
  (forall x, In x l -> f x = Ok (g x)) -> mapM f l = Ok (map g l).
Proof.
  induction l as [|a l IH]; simpl; intros H; [reflexivity|].
  rewrite (H a (or_introl eq_refl)). simpl.
  rewrite IH; [reflexivity|]. intros x Hx. apply H. now right.
Qed.

(** [s.apply(f)] when [f] raises on no element of [s]. *)
Lemma series_apply_ok {A B : Type} (f : A -> result B) (g : A -> B) (s : Series A) :
  (forall p, In p s -> f (snd p) = Ok (g (snd p))) ->
  series_apply f s = Ok (map (fun p => (fst p, g (snd p))) s).
Proof.
  intros H. unfold series_apply. apply mapM_ok.
  intros p Hp. now rewrite (H p Hp).
Qed.

Lemma setitem_with_ext (df : DataFrame) (c : string)
  (f g : nat * list cell -> cell) :
  (forall r, In r (body df) -> f r = g r) ->
  setitem_with df c f = setitem_with df c g.
Proof.
  intros H. unfold setitem_with.
  destruct (position c (columns df)); f_equal; apply map_ext_in;
    intros r Hr; now rewrite (H r Hr).
Qed.

(* ----------------------------------------------------------------- *)
(** ** The molecular columns of the extended aggregator *)

Section MolecularColumns.

Variable Mol : Type.
Variable MolFromSmiles : string -> option Mol.
Variable ExactMolWt : Mol -> PyFloat.float.
Variable CalcMolFormula : Mol -> string.
Variable proton : Mol.
Variable agg_DF : DataFrame.

Hypothesis Hindex : unique_index agg_DF = true.
Hypothesis Hwf : well_formed agg_DF = true.
Hypothesis Hsmiles : string_column agg_DF "SMILES" = true.
Hypothesis Hproton : MolFromSmiles "[H+]" = Some proton.

Let parse (c : cell) : option Mol :=
  match c with
  | Str s => MolFromSmiles s
  | _ => None
  end.

Let mol (r : nat * list cell) : option Mol := parse (field agg_DF "SMILES" r).

Let mass (r : nat * list cell) : cell :=
  match mol r with
  | Some m => Flt (PyFloat.add (ExactMolWt m) (ExactMolWt proton))
  | None => incompatible
  end.

Let formula (r : nat * list cell) : cell :=
  match mol r with
  | Some m => Str (CalcMolFormula m)
  | None => incompatible
  end.

(** The Series that the code assembles from the molecules that parsed
    and from the sentinel: a label finds the value of its row. *)
Lemma loc_assembled (g : Mol -> cell) (r : nat * list cell) :
  In r (body agg_DF) ->
  loc (sort_index
         (map (fun p : nat * option Mol =>
                 (fst p, match snd p with Some m => g m | None => NaN end))
              (filter (fun p => negb (is_null p))
                      (map (fun r => (fst r, mol r)) (body agg_DF)))
          ++ map (fun p : nat * option Mol => (fst p, incompatible))
                 (filter (@is_null Mol)
                         (map (fun r => (fst r, mol r)) (body agg_DF)))))
      (fst r)
  = Some (match mol r with Some m => g m | None => incompatible end).
Proof.
  intros Hr. pose proof (unique_index_NoDup agg_DF Hindex) as ND.
  rewrite loc_sort_index, loc_app.
  rewrite !filter_map_comm, !map_map. simpl.
  rewrite (loc_filter_rows
             (fun r => negb (is_null (fst r, mol r)))
             (fun r => match mol r with Some m => g m | None => NaN end)
             (body agg_DF) r ND Hr).
  rewrite (loc_filter_rows
             (fun r => is_null (fst r, mol r))
             (fun _ => incompatible)
             (body agg_DF) r ND Hr).
  unfold is_null. simpl. destruct (mol r); reflexivity.
Qed.

Lemma parse_smiles (r : nat * list cell) :
  In r (body agg_DF) ->
  mol_of_cell MolFromSmiles (field agg_DF "SMILES" r) = Ok (mol r).
Proof.
  intros Hr. unfold string_column in Hsmiles.
  apply andb_true_iff in Hsmiles. destruct Hsmiles as [_ H].
  rewrite forallb_forall in H. specialize (H r Hr).
  unfold mol, parse. destruct (field agg_DF "SMILES" r); try discriminate.
  reflexivity.
Qed.

Lemma molecular_columns_rows :
  exists R,
    molecular_columns MolFromSmiles ExactMolWt CalcMolFormula agg_DF = Ok R
    /\ map fst (body R) = map fst (body agg_DF)
    /\ forall r', In r' (body R) ->
         exists r, In r (body agg_DF) /\ fst r' = fst r
                   /\ field R "SMILES" r' = field agg_DF "SMILES" r
                   /\ field R "[M+H]" r' = mass r
                   /\ field R "Formula" r' = formula r.
Proof.
  assert (HS : has_column agg_DF "SMILES" = true).
  { unfold string_column in Hsmiles. now apply andb_true_iff in Hsmiles. }
  set (df1 := setitem_with agg_DF "[M+H]" mass).
  eassert (E : molecular_columns MolFromSmiles ExactMolWt CalcMolFormula agg_DF
               = Ok (setitem df1 "Formula" _)).
  { unfold molecular_columns.
    rewrite (getitem_field agg_DF "SMILES" HS). cbn [bind].
    rewrite (series_apply_ok (mol_of_cell MolFromSmiles) parse).
    2:{ intros p Hp. apply in_map_iff in Hp. destruct Hp as [r [<- Hr]].
        simpl. now apply parse_smiles. }
    cbn [bind]. rewrite map_map. simpl.
    change (map (fun x : nat * list cell =>
                   (fst x, parse (field agg_DF "SMILES" x))) (body agg_DF))
      with (map (fun r => (fst r, mol r)) (body agg_DF)).
    rewrite (series_apply_ok (fun _ : option Mol => Ok incompatible)
                             (fun _ => incompatible)) by reflexivity.
    cbn [bind]. unfold mass_H. rewrite Hproton. cbn [bind on_mol].
    rewrite (series_apply_ok
               (on_mol (fun m => Flt (PyFloat.add (ExactMolWt m) (ExactMolWt proton))))
               (fun o => match o with
                         | Some m => Flt (PyFloat.add (ExactMolWt m)
                                                      (ExactMolWt proton))
                         | None => NaN
                         end)).
    2:{ intros p Hp. apply filter_In in Hp. destruct Hp as [_ Hp].
        unfold is_null in Hp. destruct (snd p); [reflexivity | discriminate]. }
    cbn [bind].
    rewrite (series_apply_ok
               (on_mol (fun m => Str (CalcMolFormula m)))
               (fun o => match o with
                         | Some m => Str (CalcMolFormula m)
                         | None => NaN
                         end)).
    2:{ intros p Hp. apply filter_In in Hp. destruct Hp as [_ Hp].
        unfold is_null in Hp. destruct (snd p); [reflexivity | discriminate]. }
    cbn [bind].
    unfold setitem at 2.
    rewrite (setitem_with_ext agg_DF "[M+H]" _ mass).
    2:{ intros r Hr.
        rewrite (loc_assembled
                   (fun m => Flt (PyFloat.add (ExactMolWt m) (ExactMolWt proton)))
                   r Hr).
        reflexivity. }
    reflexivity. }
  eexists. split; [exact E|]. clear E.
  unfold setitem.
  match goal with
  | |- context [setitem_with df1 "Formula" ?f] => set (f2 := f)
  end.
  assert (W1 : well_formed df1 = true) by (now apply well_formed_setitem_with).
  split.
  - rewrite setitem_with_body, map_map.
    unfold df1. rewrite setitem_with_body, map_map.
    apply map_ext. intros r. now rewrite !updated_row_label.
  - intros r' Hr'. rewrite setitem_with_body in Hr'.
    apply in_map_iff in Hr'. destruct Hr' as [r1 [<- Hr1]].
    assert (Hr1' := Hr1). unfold df1 in Hr1'.
    rewrite setitem_with_body in Hr1'.
    apply in_map_iff in Hr1'. destruct Hr1' as [r [E1 Hr]].
    exists r. split; [exact Hr|].
    split; [rewrite <- E1; now rewrite !updated_row_label|].
    split; [|split].
    + rewrite (field_setitem_with_other df1 "Formula" f2 W1 "SMILES" r1);
        [|discriminate | assumption].
      rewrite <- E1. unfold df1.
      apply (field_setitem_with_other agg_DF "[M+H]" mass Hwf "SMILES" r);
        [discriminate | assumption].
    + rewrite (field_setitem_with_other df1 "Formula" f2 W1 "[M+H]" r1);
        [|discriminate | assumption].
      rewrite <- E1. unfold df1. now apply field_setitem_with_same.
    + rewrite (field_setitem_with_same df1 "Formula" f2 W1 r1 Hr1).
      unfold f2. rewrite <- E1, updated_row_label.
      now rewrite (loc_assembled (fun m => Str (CalcMolFormula m)) r Hr).
Qed.

End MolecularColumns.

Lemma map_fst_combine_seq {A : Type} (l : list A) (start : nat) :
  map fst (combine (seq start (List.length l)) l) = seq start (List.length l).
Proof.
  revert start. induction l as [|a l IH]; intros start; simpl; [reflexivity|].
  now rewrite IH.
Qed.

(** [drop_duplicates] gives the table a RangeIndex, which is what the
    last statements of [aggregate_DFs_extended] work on. *)
Lemma distinct_labels_seq (start n : nat) : distinct_labels (seq start n) = true.
Proof.
  revert start. induction n as [|n IH]; intros start; simpl; [reflexivity|].
  rewrite IH, andb_true_r. apply negb_true_iff. apply existsb_false_intro.
  intros i Hi. apply in_seq in Hi. apply Nat.eqb_neq. lia.
Qed.

Lemma drop_duplicates_unique_index (df : DataFrame) :
  unique_index (drop_duplicates df) = true.
Proof.
  unfold unique_index, drop_duplicates, reset_index. cbn [body].
  rewrite (map_fst_combine_seq _ O). apply distinct_labels_seq.
Qed.


(* ----------------------------------------------------------------- *)
(** ** Keys and rows *)

Lemma mem_In (c : string) (l : list string) : mem c l = true <-> In c l.
Proof.
  unfold mem. rewrite existsb_exists. split.
  - intros [x [Hx E]]. apply String.eqb_eq in E. now subst.
  - intros H. exists c. split; [assumption | apply String.eqb_refl].
Qed.

Lemma position_nth (cols : list string) (c : string) (j : nat) :
  position c cols = Some j -> nth j cols "" = c.
Proof.
  revert j. induction cols as [|c' cols IH]; simpl; intros j; [discriminate|].
  destruct (String.eqb c' c) eqn:E.
  - intros H. injection H as <-. now apply String.eqb_eq.
  - destruct (position c cols) as [j'|]; [|discriminate].
    intros H. injection H as <-. now apply IH.
Qed.

Lemma find_none {A : Type} (p : A -> bool) (l : list A) :
  forallb p l = true -> find (fun x => negb (p x)) l = None.
Proof.
  induction l as [|a l IH]; simpl; [reflexivity|].
  rewrite andb_true_iff. intros [H1 H2]. rewrite H1. simpl. now apply IH.
Qed.

Lemma row_same_nth (x y : list cell) (j : nat) :
  row_same x y = true -> same (nth j x NaN) (nth j y NaN) = true.
Proof.
  revert y j. induction x as [|a x IH]; intros [|b y] j H; simpl in H;
    try discriminate.
  - destruct j; reflexivity.
  - apply andb_true_iff in H. destruct H as [H1 H2].
    destruct j as [|j]; simpl; [assumption | now apply IH].
Qed.

(** Rows that are the same have the same key. *)
Lemma key_of_same (cols on : list string) (x y : list cell) :
  row_same x y = true ->
  row_same (key_of cols on x) (key_of cols on y) = true.
Proof.
  intros H. unfold key_of. induction on as [|k on IH]; simpl; [reflexivity|].
  rewrite IH, andb_true_r.
  destruct (position k cols); [now apply row_same_nth | reflexivity].
Qed.

Lemma row_same_app (x x' y y' : list cell) :
  row_same x x' = true -> row_same y y' = true ->
  row_same (x ++ y) (x' ++ y') = true.
Proof.
  revert x'. induction x as [|a x IH]; intros [|b x'] H1 H2; simpl in *;
    try discriminate; [assumption|].
  apply andb_true_iff in H1. destruct H1 as [Ha Hx].
  rewrite Ha. simpl. now apply IH.
Qed.

Lemma same_fill0 (a b : cell) : same a b = true -> same (fill0 a) (fill0 b) = true.
Proof.
  unfold fill0, same.
  destruct a as [s|z|b0|[s|s| |s m e]], b as [t|w|b1|[t|t| |t n e']]; simpl;
    try discriminate; try tauto.
Qed.

Lemma row_same_fill0 (x y : list cell) :
  row_same x y = true -> row_same (map fill0 x) (map fill0 y) = true.
Proof.
  revert y. induction x as [|a x IH]; intros [|b y] H; simpl in *;
    try discriminate; [reflexivity|].
  apply andb_true_iff in H. destruct H as [H1 H2].
  rewrite (same_fill0 a b H1). simpl. now apply IH.
Qed.

Lemma fill0_present (c : cell) : isna c = false -> fill0 c = c.
Proof. unfold fill0. now intros ->. Qed.

Lemma map_snd_reset_index (rows : list (list cell)) :
  map snd (reset_index rows) = rows.
Proof.
  unfold reset_index. generalize 0%nat as start.
  induction rows as [|r rows IH]; intros start; simpl; [reflexivity|].
  now rewrite IH.
Qed.

Lemma reset_index_length (rows : list (list cell)) :
  List.length (reset_index rows) = List.length rows.
Proof. rewrite <- (map_snd_reset_index rows) at 2. now rewrite length_map. Qed.

Lemma filter_snd_length {A B : Type} (p : B -> bool) (l : list (A * B)) :
  List.length (filter (fun r => p (snd r)) l)
  = List.length (filter p (map snd l)).
Proof. now rewrite filter_map_comm, length_map. Qed.

(* ----------------------------------------------------------------- *)
(** ** Lists of different keys *)

Lemma all_different_app (ks1 ks2 : list (list cell)) :
  all_different ks1 = true -> all_different ks2 = true ->
  (forall a b, In a ks1 -> In b ks2 -> row_same a b = false) ->
  all_different (ks1 ++ ks2) = true.
Proof.
  induction ks1 as [|k ks1 IH]; simpl; intros H1 H2 H; [assumption|].
  apply andb_true_iff in H1. destruct H1 as [Hk H1].
  apply negb_true_iff in Hk.
  rewrite existsb_app, Hk. simpl.
  rewrite (existsb_false_intro (row_same k) ks2); [|intros b Hb; apply H; auto].
  simpl. apply IH; auto.
Qed.

(** In a list of different keys a key is found once. *)
Lemma count_unique (ks : list (list cell)) (k : list cell) :
  all_different ks = true -> In k ks ->
  List.length (filter (fun k' => row_same k' k) ks) = 1%nat.
Proof.
  induction ks as [|k0 ks IH]; simpl; intros H Hk; [contradiction|].
  apply andb_true_iff in H. destruct H as [H0 H].
  apply negb_true_iff in H0.
  destruct Hk as [->|Hk].
  - rewrite row_same_refl. simpl. f_equal.
    rewrite filter_none; [reflexivity|].
    intros x Hx. rewrite row_same_sym. now apply (existsb_false _ ks).
  - rewrite (existsb_false _ ks k H0 Hk). now apply IH.
Qed.

(** Rows of different keys are different rows: [drop_duplicates] keeps
    them all. *)
Lemma distinct_from_keys (key : list cell -> list cell)
  (rows seen : list (list cell)) :
  (forall x y, row_same x y = true -> row_same (key x) (key y) = true) ->
  all_different (map key rows) = true ->
  (forall x s, In x rows -> In s seen -> row_same (key x) (key s) = false) ->
  distinct_from row_same seen rows = rows.
Proof.
  intros K. revert seen. induction rows as [|p rows IH]; simpl; intros seen D S;
    [reflexivity|].
  apply andb_true_iff in D. destruct D as [Dp D]. apply negb_true_iff in Dp.
  rewrite (existsb_false_intro (row_same p) seen).
  - f_equal. apply IH; [assumption|].
    intros x s Hx [<-|Hs]; [|apply S; auto].
    rewrite row_same_sym. apply (existsb_false _ (map key rows)); [assumption|].
    now apply in_map.
  - intros s Hs. destruct (row_same p s) eqn:E; [|reflexivity].
    apply K in E. rewrite S in E; auto.
Qed.

(* ----------------------------------------------------------------- *)
(** ** Columns read by their name *)

Lemma unique_names_tail (c : string) (l : list string) :
  unique_names (c :: l) = true -> mem c l = false /\ unique_names l = true.
Proof.
  simpl. rewrite andb_true_iff, negb_true_iff. tauto.
Qed.

(** Where the names are different, a name is found at its place. *)
Lemma position_at (l : list string) (j : nat) (c : string) :
  unique_names l = true -> nth_error l j = Some c -> position c l = Some j.
Proof.
  revert j. induction l as [|a l IH]; intros [|j] U H; simpl in H;
    try discriminate.
  - injection H as ->. simpl. now rewrite String.eqb_refl.
  - destruct (unique_names_tail a l U) as [Ha Ul]. simpl.
    assert (N : String.eqb a c = false).
    { apply String.eqb_neq. intros ->.
      apply nth_error_In in H. apply mem_In in H. congruence. }
    now rewrite N, (IH j Ul H).
Qed.

Lemma position_nth_error (cols : list string) (c : string) (j : nat) :
  position c cols = Some j -> nth_error cols j = Some c.
Proof.
  revert j. induction cols as [|c' cols IH]; simpl; intros j; [discriminate|].
  destruct (String.eqb c' c) eqn:E.
  - intros H. injection H as <-. apply String.eqb_eq in E. now subst.
  - destruct (position c cols) as [j'|]; [|discriminate].
    intros H. injection H as <-. now apply IH.
Qed.

Lemma field_at (df : DataFrame) (c : string) (j : nat) (r : nat * list cell) :
  unique_names (columns df) = true -> nth_error (columns df) j = Some c ->
  field df c r = nth j (snd r) NaN.
Proof.
  intros U H. unfold field. now rewrite (position_at (columns df) j c U H).
Qed.

Lemma nth_error_first {A : Type} (l l' : list A) (j : nat) (a : A) :
  nth_error l j = Some a -> nth_error (l ++ l') j = Some a.
Proof.
  intros H. rewrite nth_error_app1; [exact H|].
  apply nth_error_Some. congruence.
Qed.

Lemma nth_error_second {A : Type} (l l' : list A) (j : nat) (a : A) :
  nth_error l' j = Some a -> nth_error (l ++ l') (List.length l + j) = Some a.
Proof.
  intros H. rewrite nth_error_app2 by lia.
  now replace (List.length l + j - List.length l)%nat with j by lia.
Qed.

Lemma nth_error_named {A : Type} (f : string -> A) (l : list string) (j : nat)
  (c : string) :
  nth_error l j = Some c -> nth_error (map f l) j = Some (f c).
Proof. intros H. now rewrite nth_error_map, H. Qed.

Lemma key_not_suffixed (on others : list string) (suffix k : string) :
  In k on -> suffixed on others suffix k = k.
Proof.
  intros H. unfold suffixed.
  replace (mem k on) with true by (symmetry; now apply mem_In). reflexivity.
Qed.

(* ----------------------------------------------------------------- *)
(** ** Merging two tables of disjoint keys *)

Lemma merge_ok (left right : DataFrame) (on : list string) :
  on <> [] -> body left <> [] ->
  forallb (has_column left) on = true ->
  forallb (has_column right) on = true ->
  merge left right on
  = Ok (mkDF (map (suffixed on (columns right) "_x") (columns left)
              ++ map (suffixed on (columns left) "_y")
                     (filter (fun c => negb (mem c on)) (columns right)))
             (reset_index (merge_rows (columns left) (columns right) on
                                      (map snd (body left))
                                      (map snd (body right))))).
Proof.
  intros Hon Hrows HL HR. unfold merge.
  destruct on as [|k0 on']; [congruence|].
  rewrite (find_none (fun k => has_column left k && has_column right k)).
  - destruct (body left) as [|r rows] eqn:E; [congruence | reflexivity].
  - rewrite forallb_forall in *. intros k Hk. now rewrite HL, HR.
Qed.

(** The merge with a left table that has no rows. *)
Lemma merge_ok_empty (left right : DataFrame) (on : list string) :
  on <> [] -> body left = [] ->
  forallb (has_column left) on = true ->
  forallb (has_column right) on = true ->
  merge left right on
  = Ok (mkDF (map (suffixed on (columns right) "_x")
                  (filter (fun c => negb (mem c on)) (columns left))
              ++ map (suffixed on (columns left) "_y") (columns right))
             (reset_index (map (right_alone (columns left) on)
                               (map snd (body right))))).
Proof.
  intros Hon Hrows HL HR. unfold merge.
  destruct on as [|k0 on']; [congruence|].
  rewrite (find_none (fun k => has_column left k && has_column right k)).
  - now rewrite Hrows.
  - rewrite forallb_forall in *. intros k Hk. now rewrite HL, HR.
Qed.

Lemma flat_map_singleton {A B : Type} (f : A -> list B) (g : A -> B) (l : list A) :
  (forall x, In x l -> f x = [g x]) -> flat_map f l = map g l.
Proof.
  induction l as [|a l IH]; simpl; intros H; [reflexivity|].
  rewrite (H a (or_introl eq_refl)), IH; [reflexivity|].
  intros x Hx. apply H. now right.
Qed.

Lemma filter_id {A : Type} (p : A -> bool) (l : list A) :
  (forall x, In x l -> p x = true) -> filter p l = l.
Proof.
  induction l as [|a l IH]; simpl; intros H; [reflexivity|].
  rewrite (H a (or_introl eq_refl)). f_equal. apply IH.
  intros x Hx. apply H. now right.
Qed.

Lemma nth_map_in_range {A B : Type} (f : A -> B) (l : list A) (j : nat)
  (d : B) (d' : A) :
  (j < List.length l)%nat -> nth j (map f l) d = f (nth j l d').
Proof.
  intros H. rewrite (nth_indep _ d (f d')) by (now rewrite length_map).
  apply map_nth.
Qed.

Lemma nth_map_fill0 (j : nat) (x : list cell) :
  (j < List.length x)%nat -> nth j (map fill0 x) NaN = fill0 (nth j x NaN).
Proof.
  intros H. now apply nth_map_in_range.
Qed.

Section KeyedTables.

Variable on : list string.

Lemma keyed_parts (df : DataFrame) :
  keyed df on = true ->
  well_formed df = true /\ forallb (has_column df) on = true
  /\ keys_present df on = true /\ all_different (keys df on) = true.
Proof. unfold keyed. rewrite !andb_true_iff. tauto. Qed.

Lemma keys_rows (df : DataFrame) :
  keys df on = map (key_of (columns df) on) (map snd (body df)).
Proof. unfold keys. now rewrite map_map. Qed.

Lemma row_width (df : DataFrame) (x : list cell) :
  well_formed df = true -> In x (map snd (body df)) ->
  List.length x = List.length (columns df).
Proof.
  intros W Hx. apply in_map_iff in Hx. destruct Hx as [r [<- Hr]].
  now apply well_formed_row.
Qed.

Lemma key_cell_present (df : DataFrame) (x : list cell) (k : string) (j : nat) :
  keys_present df on = true -> In x (map snd (body df)) -> In k on ->
  position k (columns df) = Some j ->
  isna (nth j x NaN) = false.
Proof.
  intros P Hx Hk Hj. unfold keys_present in P.
  rewrite forallb_forall in P.
  specialize (P (key_of (columns df) on x)).
  rewrite keys_rows in P. specialize (P (in_map _ _ _ Hx)).
  rewrite forallb_forall in P.
  apply negb_true_iff. apply P. unfold key_of.
  apply in_map_iff. exists k. now rewrite Hj.
Qed.

Lemma key_column (df : DataFrame) (k : string) :
  forallb (has_column df) on = true -> In k on ->
  exists j, position k (columns df) = Some j.
Proof.
  intros H Hk. rewrite forallb_forall in H.
  apply position_has_column. now apply H.
Qed.

End KeyedTables.

Section DisjointMerge.

Variables L R : DataFrame.
Variable on : list string.

Hypothesis HL : keyed L on = true.
Hypothesis HR : keyed R on = true.
Hypothesis Hdisjoint : keys_disjoint L R on = true.

Let lcols := columns L.
Let rcols := columns R.
Let lrows := map snd (body L).
Let rrows := map snd (body R).
Let width := List.length (filter (fun c => negb (mem c on)) rcols).
Let padded (l : list cell) : list cell := map fill0 (l ++ repeat NaN width).
Let added (r : list cell) : list cell := map fill0 (right_only lcols rcols on r).

Lemma disjoint_rows (l r : list cell) :
  In l lrows -> In r rrows ->
  row_same (key_of lcols on l) (key_of rcols on r) = false.
Proof.
  intros Hl Hr. unfold keys_disjoint in Hdisjoint.
  rewrite forallb_forall in Hdisjoint.
  specialize (Hdisjoint (key_of lcols on l)).
  rewrite negb_true_iff in Hdisjoint.
  apply (existsb_false _ (keys R on)).
  - apply Hdisjoint. rewrite keys_rows. now apply in_map.
  - rewrite keys_rows. now apply in_map.
Qed.

(** With disjoint keys no row meets a row of the other table: the
    merge is the rows of the left table, padded, then the rows of the
    right table under the columns of the left one. *)
Lemma merge_rows_disjoint :
  map (map fill0) (merge_rows lcols rcols on lrows rrows)
  = map padded lrows ++ map added rrows.
Proof.
  unfold merge_rows. rewrite map_app. f_equal.
  - rewrite (flat_map_singleton _ (fun l => l ++ repeat NaN width)).
    + now rewrite map_map.
    + intros l Hl. rewrite filter_none; [reflexivity|].
      intros r Hr. now apply disjoint_rows.
  - rewrite filter_id.
    + now rewrite map_map.
    + intros r Hr. apply negb_true_iff. apply existsb_false_intro.
      intros l Hl. now apply disjoint_rows.
Qed.

(** The key of a padded left row is the key of the row. *)
Lemma key_of_padded (l : list cell) :
  In l lrows -> key_of lcols on (padded l) = key_of lcols on l.
Proof.
  intros Hl. destruct (keyed_parts on L HL) as [W [C [P _]]].
  unfold key_of. apply map_ext_in. intros k Hk.
  destruct (key_column on L k C Hk) as [j Hj]. fold lcols in Hj. rewrite Hj.
  pose proof (position_bound lcols k j Hj) as B.
  pose proof (row_width L l W Hl) as LW. fold lcols in LW.
  unfold padded. rewrite nth_map_fill0 by (rewrite length_app; lia).
  rewrite app_nth1 by lia.
  apply fill0_present. now apply (key_cell_present on L l k j).
Qed.

(** The key of an added right row is the key of the row. *)
Lemma key_of_added (r : list cell) :
  In r rrows -> key_of lcols on (added r) = key_of rcols on r.
Proof.
  intros Hr. destruct (keyed_parts on L HL) as [_ [CL _]].
  destruct (keyed_parts on R HR) as [_ [CR [P _]]].
  unfold key_of. apply map_ext_in. intros k Hk.
  destruct (key_column on L k CL Hk) as [j Hj]. fold lcols in Hj. rewrite Hj.
  destruct (key_column on R k CR Hk) as [j' Hj']. fold rcols in Hj'. rewrite Hj'.
  pose proof (position_bound lcols k j Hj) as B.
  unfold added, right_only.
  rewrite nth_map_fill0 by (rewrite length_app, length_map; lia).
  rewrite app_nth1 by (now rewrite length_map).
  rewrite (nth_map_in_range _ lcols j NaN "" B).
  rewrite (position_nth lcols k j Hj), Hj'.
  replace (mem k on) with true by (symmetry; now apply mem_In).
  apply fill0_present. now apply (key_cell_present on R r k j').
Qed.

Lemma result_keys :
  map (key_of lcols on) (map padded lrows ++ map added rrows)
  = keys L on ++ keys R on.
Proof.
  rewrite map_app, !map_map, !keys_rows. f_equal.
  - apply map_ext_in. intros l Hl. now apply key_of_padded.
  - apply map_ext_in. intros r Hr. now apply key_of_added.
Qed.

Lemma result_keys_different : all_different (keys L on ++ keys R on) = true.
Proof.
  destruct (keyed_parts on L HL) as [_ [_ [_ DL]]].
  destruct (keyed_parts on R HR) as [_ [_ [_ DR]]].
  apply all_different_app; try assumption.
  intros a b Ha Hb. rewrite keys_rows in Ha, Hb.
  apply in_map_iff in Ha, Hb.
  destruct Ha as [l [<- Hl]], Hb as [r [<- Hr]].
  now apply disjoint_rows.
Qed.

Hypothesis Hon : on <> [].
Hypothesis Hrows : body L <> [].

Lemma merge_names_rows :
  merge_names L R on
  = map (suffixed on rcols "_x") lcols
    ++ map (suffixed on lcols "_y") (filter (fun c => negb (mem c on)) rcols).
Proof.
  unfold merge_names. destruct (body L); [congruence | reflexivity].
Qed.

(** The aggregate of the two tables. *)
Lemma aggregate_rows :
  (m <- merge L R on ;; Ok (drop_duplicates (replace_nan_0 m)))
  = Ok (mkDF (merge_names L R on)
             (reset_index (map padded lrows ++ map added rrows))).
Proof.
  destruct (keyed_parts on L HL) as [_ [CL _]].
  destruct (keyed_parts on R HR) as [_ [CR _]].
  rewrite (merge_ok L R on Hon Hrows CL CR). cbn [bind].
  rewrite merge_names_rows.
  unfold drop_duplicates, replace_nan_0. simpl. do 3 f_equal.
  rewrite map_map. simpl.
  rewrite <- (map_map snd (map fill0)), map_snd_reset_index.
  fold lcols rcols lrows rrows. rewrite merge_rows_disjoint.
  unfold distinct. apply (distinct_from_keys (key_of lcols on)).
  - intros x y. apply key_of_same.
  - rewrite result_keys. apply result_keys_different.
  - intros x s _ [].
Qed.

Hypothesis Hnames : unique_names (merge_names L R on) = true.

Let result : DataFrame :=
  mkDF (merge_names L R on) (reset_index (map padded lrows ++ map added rrows)).

(** The key columns of the result are those of the left table, in
    their place. *)
Lemma key_of_result (x : list cell) :
  key_of (columns result) on x = key_of lcols on x.
Proof.
  destruct (keyed_parts on L HL) as [_ [CL _]].
  unfold key_of. apply map_ext_in. intros k Hk.
  destruct (key_column on L k CL Hk) as [j Hj]. fold lcols in Hj. rewrite Hj.
  rewrite (position_at (columns result) j k); [reflexivity | exact Hnames |].
  cbn [result columns]. rewrite merge_names_rows.
  apply nth_error_first.
  pose proof (nth_error_named (suffixed on rcols "_x") lcols j k
                (position_nth_error lcols k j Hj)) as N.
  now rewrite (key_not_suffixed on rcols "_x" k Hk) in N.
Qed.

Lemma result_has (x : list cell) :
  In x (map padded lrows ++ map added rrows) ->
  exists r, In r (body result) /\ snd r = x.
Proof.
  intros H. cbn [result body].
  rewrite <- (map_snd_reset_index (map padded lrows ++ map added rrows)) in H.
  apply in_map_iff in H. destruct H as [r [E H]]. eauto.
Qed.

Lemma result_length :
  nrows result = (nrows L + nrows R)%nat.
Proof.
  unfold nrows. cbn [result body]. unfold lrows, rrows.
  now rewrite reset_index_length, length_app, !length_map.
Qed.

(** Every key of the two tables is the key of one row of the result. *)
Lemma result_key_once (k : list cell) :
  In k (keys L on ++ keys R on) ->
  List.length (filter (fun r => row_same (key_of (columns result) on (snd r)) k)
                      (body result))
  = 1%nat.
Proof.
  intros Hk.
  rewrite (filter_ext _ (fun r => row_same (key_of lcols on (snd r)) k))
    by (intros r; now rewrite key_of_result).
  cbn [result body].
  rewrite (filter_snd_length (fun x => row_same (key_of lcols on x) k)).
  rewrite map_snd_reset_index.
  rewrite <- (length_map (key_of lcols on)).
  rewrite <- (filter_map_comm (key_of lcols on) (fun k' => row_same k' k)).
  rewrite result_keys.
  apply count_unique; [apply result_keys_different | assumption].
Qed.

(** The row of a left row: its key, and 0 under the columns that the
    right table adds. *)
Lemma result_left (a : nat * list cell) :
  In a (body L) ->
  exists r, In r (body result)
    /\ key_of (columns result) on (snd r) = key_of lcols on (snd a)
    /\ forall c, In c rcols -> mem c on = false ->
                 field result (suffixed on lcols "_y" c) r = Num 0.
Proof.
  intros Ha. destruct (keyed_parts on L HL) as [W _].
  assert (Hl : In (snd a) lrows) by (now apply in_map).
  destruct (result_has (padded (snd a))) as [r [Hr E]].
  { apply in_or_app. left. now apply in_map. }
  exists r. split; [assumption|]. split.
  - rewrite key_of_result, E. now apply key_of_padded.
  - intros c Hc Nc.
    assert (Hin : In c (filter (fun c => negb (mem c on)) rcols)).
    { apply filter_In. split; [exact Hc | now rewrite Nc]. }
    destruct (In_nth_error _ _ Hin) as [i Hi].
    assert (Bi : (i < width)%nat).
    { unfold width. apply nth_error_Some. congruence. }
    rewrite (field_at result _ (List.length lcols + i) r Hnames).
    + rewrite E. pose proof (row_width L (snd a) W Hl) as LW. fold lcols in LW.
      unfold padded.
      rewrite nth_map_fill0 by (rewrite length_app, repeat_length; lia).
      rewrite app_nth2 by lia. now rewrite nth_repeat.
    + cbn [result columns]. rewrite merge_names_rows.
      rewrite <- (length_map (suffixed on rcols "_x") lcols).
      apply nth_error_second. now apply nth_error_named.
Qed.

(** The row of a right row: its key, and 0 under the columns of the
    left table that are not keys. *)
Lemma result_right (b : nat * list cell) :
  In b (body R) ->
  exists r, In r (body result)
    /\ key_of (columns result) on (snd r) = key_of rcols on (snd b)
    /\ forall c, In c lcols -> mem c on = false ->
                 field result (suffixed on rcols "_x" c) r = Num 0.
Proof.
  intros Hb.
  assert (Hr0 : In (snd b) rrows) by (now apply in_map).
  destruct (result_has (added (snd b))) as [r [Hr E]].
  { apply in_or_app. right. now apply in_map. }
  exists r. split; [assumption|]. split.
  - rewrite key_of_result, E. now apply key_of_added.
  - intros c Hc Nc.
    destruct (In_nth_error _ _ Hc) as [j Hj].
    assert (B : (j < List.length lcols)%nat).
    { apply nth_error_Some. congruence. }
    rewrite (field_at result _ j r Hnames).
    + rewrite E. unfold added, right_only.
      rewrite nth_map_fill0 by (rewrite length_app, length_map; lia).
      rewrite app_nth1 by (now rewrite length_map).
      rewrite (nth_map_in_range _ lcols j NaN "" B).
      rewrite (nth_error_nth lcols j "" Hj), Nc.
      destruct (position c rcols); reflexivity.
    + cbn [result columns]. rewrite merge_names_rows.
      apply nth_error_first. now apply nth_error_named.
Qed.

End DisjointMerge.

(* ----------------------------------------------------------------- *)
(** ** Merging with a table that has no rows *)

Section EmptyLeft.

Variables L R : DataFrame.
Variable on : list string.

Hypothesis HL : forallb (has_column L) on = true.
Hypothesis HR : keyed R on = true.
Hypothesis Hon : on <> [].
Hypothesis Hrows : body L = [].
Hypothesis Hnames : unique_names (merge_names L R on) = true.

Let lcols := columns L.
Let rcols := columns R.
Let rrows := map snd (body R).
Let others := filter (fun c => negb (mem c on)) lcols.
Let alone (r : list cell) : list cell := map fill0 (right_alone lcols on r).

Let result : DataFrame :=
  mkDF (merge_names L R on) (reset_index (map alone rrows)).

Lemma merge_names_bare :
  merge_names L R on
  = map (suffixed on rcols "_x") others ++ map (suffixed on lcols "_y") rcols.
Proof. unfold merge_names. now rewrite Hrows. Qed.

(** The key columns of the result are those of the right table, after
    the other columns of the left table. *)
Lemma key_of_alone (r : list cell) :
  In r rrows -> key_of (columns result) on (alone r) = key_of rcols on r.
Proof.
  intros Hr. destruct (keyed_parts on R HR) as [W [CR [P _]]].
  unfold key_of. apply map_ext_in. intros k Hk.
  destruct (key_column on R k CR Hk) as [j Hj]. fold rcols in Hj. rewrite Hj.
  pose proof (position_bound rcols k j Hj) as B.
  pose proof (row_width R r W Hr) as RW. fold rcols in RW.
  rewrite (position_at (columns result) (List.length others + j) k).
  - unfold alone, right_alone. fold lcols others.
    rewrite nth_map_fill0 by (rewrite length_app, repeat_length; lia).
    rewrite app_nth2 by (rewrite repeat_length; lia).
    rewrite repeat_length.
    replace (List.length others + j - List.length others)%nat with j by lia.
    apply fill0_present. now apply (key_cell_present on R r k j).
  - exact Hnames.
  - cbn [result columns]. rewrite merge_names_bare.
    rewrite <- (length_map (suffixed on rcols "_x") others).
    apply nth_error_second.
    pose proof (nth_error_named (suffixed on lcols "_y") rcols j k
                  (position_nth_error rcols k j Hj)) as N.
    now rewrite (key_not_suffixed on lcols "_y" k Hk) in N.
Qed.

Lemma alone_keys :
  map (key_of (columns result) on) (map alone rrows) = keys R on.
Proof.
  rewrite map_map, keys_rows. apply map_ext_in. intros r Hr.
  now apply key_of_alone.
Qed.

(** The aggregate of the two tables. *)
Lemma aggregate_rows_empty :
  (m <- merge L R on ;; Ok (drop_duplicates (replace_nan_0 m))) = Ok result.
Proof.
  destruct (keyed_parts on R HR) as [_ [CR [_ DR]]].
  rewrite (merge_ok_empty L R on Hon Hrows HL CR). cbn [bind].
  unfold result. rewrite merge_names_bare.
  unfold drop_duplicates, replace_nan_0. cbn [columns body]. do 3 f_equal.
  rewrite map_map. simpl.
  rewrite <- (map_map snd (map fill0)), map_snd_reset_index.
  rewrite map_map. fold lcols rrows.
  change (map (fun x => map fill0 (right_alone lcols on x)) rrows)
    with (map alone rrows).
  unfold distinct. apply (distinct_from_keys (key_of (columns result) on)).
  - intros x y. apply key_of_same.
  - now rewrite alone_keys.
  - intros x s _ [].
Qed.

Lemma result_length_empty : nrows result = (nrows L + nrows R)%nat.
Proof.
  unfold nrows. cbn [result body]. unfold rrows.
  now rewrite Hrows, reset_index_length, !length_map.
Qed.

Lemma result_key_once_empty (k : list cell) :
  In k (keys L on ++ keys R on) ->
  List.length (filter (fun r => row_same (key_of (columns result) on (snd r)) k)
                      (body result))
  = 1%nat.
Proof.
  intros Hk. destruct (keyed_parts on R HR) as [_ [_ [_ DR]]].
  unfold keys at 1 in Hk. rewrite Hrows in Hk. simpl in Hk.
  cbn [body]. unfold result at 2. cbn [body].
  rewrite (filter_snd_length
             (fun x => row_same (key_of (columns result) on x) k)).
  rewrite map_snd_reset_index.
  rewrite <- (length_map (key_of (columns result) on)).
  rewrite <- (filter_map_comm (key_of (columns result) on)
                              (fun k' => row_same k' k)).
  rewrite alone_keys.
  now apply count_unique.
Qed.

(** The row of a right row: its key, and 0 under the columns of the
    left table that are not keys. *)
Lemma result_right_empty (b : nat * list cell) :
  In b (body R) ->
  exists r, In r (body result)
    /\ key_of (columns result) on (snd r) = key_of rcols on (snd b)
    /\ forall c, In c lcols -> mem c on = false ->
                 field result (suffixed on rcols "_x" c) r = Num 0.
Proof.
  intros Hb.
  assert (Hr0 : In (snd b) rrows) by (now apply in_map).
  assert (Hx : In (alone (snd b)) (map snd (body result))).
  { cbn [result body]. rewrite map_snd_reset_index. now apply in_map. }
  apply in_map_iff in Hx. destruct Hx as [r [E Hr]].
  exists r. split; [assumption|]. split.
  - rewrite E. now apply key_of_alone.
  - intros c Hc Nc.
    assert (Hin : In c others).
    { apply filter_In. split; [exact Hc | now rewrite Nc]. }
    destruct (In_nth_error _ _ Hin) as [i Hi].
    assert (Bi : (i < List.length others)%nat).
    { apply nth_error_Some. congruence. }
    rewrite (field_at result _ i r Hnames).
    + rewrite E. unfold alone, right_alone. fold lcols others.
      rewrite nth_map_fill0 by (rewrite length_app, repeat_length; lia).
      rewrite app_nth1 by (now rewrite repeat_length).
      now rewrite nth_repeat_lt.
    + cbn [result columns]. rewrite merge_names_bare.
      apply nth_error_first. now apply nth_error_named.
Qed.

End EmptyLeft.

Lemma drop_excluded_nrows (df : DataFrame) : nrows (drop_excluded df) = nrows df.
Proof.
  unfold drop_excluded, drop, nrows.
  destruct (find _ excludedColumns); [reflexivity|]. simpl. apply length_map.
Qed.

Lemma aggregate_two (A B : DataFrame) (on : list string) :
  aggregate_DFs [A; B] on
  = (x <- (m <- merge (drop_excluded A) (drop_excluded B) on ;;
           Ok (drop_duplicates (replace_nan_0 m))) ;;
     Ok (Some x)).
Proof.
  unfold aggregate_DFs. cbn [foldM].
  destruct (merge (drop_excluded A) (drop_excluded B) on); reflexivity.
Qed.

(** C4, as amended.  For two tables of disjoint keys, in neither of
    which (the column [Clean_SMILES] set aside) a key is repeated or
    missing, joined on one key column or more, [aggregate_DFs] returns a
    table of [|A| + |B|] rows in which every key of [A] and of [B] is the
    key of exactly one row; on the row of a key of [A] the columns that
    [B] adds are 0, and on the row of a key of [B] the columns of [A]
    that are not keys are 0.  The columns of the result are read by
    their names, which the merge does not repeat: the key columns keep
    their names, and stand where they stand in [A], or after the other
    columns of [A] when [A] has no rows. *)
Theorem aggregate_disjoint_keys (A B : DataFrame) (on : list string) :
  on <> [] ->
  keyed (drop_excluded A) on = true ->
  keyed (drop_excluded B) on = true ->
  keys_disjoint (drop_excluded A) (drop_excluded B) on = true ->
  unique_names (merge_names (drop_excluded A) (drop_excluded B) on) = true ->
  exists R,
    aggregate_DFs [A; B] on = Ok (Some R)
    /\ nrows R = (nrows A + nrows B)%nat
    /\ columns R = merge_names (drop_excluded A) (drop_excluded B) on
    /\ (forall k,
          In k (keys (drop_excluded A) on ++ keys (drop_excluded B) on) ->
          List.length
            (filter (fun r => row_same (key_of (columns R) on (snd r)) k)
                    (body R)) = 1%nat)
    /\ (forall a, In a (body (drop_excluded A)) ->
          exists r, In r (body R)
            /\ key_of (columns R) on (snd r)
               = key_of (columns (drop_excluded A)) on (snd a)
            /\ forall c,
                 In c (columns (drop_excluded B)) -> mem c on = false ->
                 field R (suffixed on (columns (drop_excluded A)) "_y" c) r
                 = Num 0)
    /\ (forall b, In b (body (drop_excluded B)) ->
          exists r, In r (body R)
            /\ key_of (columns R) on (snd r)
               = key_of (columns (drop_excluded B)) on (snd b)
            /\ forall c,
                 In c (columns (drop_excluded A)) -> mem c on = false ->
                 field R (suffixed on (columns (drop_excluded B)) "_x" c) r
                 = Num 0).
Proof.
  intros Hon HA HB HD HU.
  set (L := drop_excluded A) in *. set (R := drop_excluded B) in *.
  destruct (body L) as [|a0 rows0] eqn:E.
  - assert (CL : forallb (has_column L) on = true).
    { unfold keyed in HA. rewrite !andb_true_iff in HA. tauto. }
    eexists. split.
    + rewrite (aggregate_two A B on). fold L R.
      rewrite aggregate_rows_empty by assumption. reflexivity.
    + split; [|split; [reflexivity|split; [|split]]].
      * rewrite result_length_empty by assumption.
        unfold L, R. now rewrite !drop_excluded_nrows.
      * intros k Hk. apply result_key_once_empty; assumption.
      * intros a Ha. destruct Ha.
      * intros b Hb. apply result_right_empty; assumption.
  - assert (N : body L <> []) by (rewrite E; discriminate).
    eexists. split.
    + rewrite (aggregate_two A B on). fold L R.
      rewrite aggregate_rows by assumption. reflexivity.
    + split; [|split; [reflexivity|split; [|split]]].
      * rewrite result_length.
        unfold L, R. now rewrite !drop_excluded_nrows.
      * intros k Hk. apply result_key_once; assumption.
      * intros a Ha. rewrite <- E in Ha. apply result_left; assumption.
      * intros b Hb. apply result_right; assumption.
Qed.

Lemma aggregate_disjoint_keys_witness :
  (exists R, aggregate_DFs [toolbox_output; meteor_output] default_on = Ok (Some R)
             /\ nrows R = 4%nat
             /\ columns R = ["DTXSID"; "Metabolite_INCHIKEY"; "ToolBox"; "Meteor"])
  /\ (exists R, aggregate_DFs [no_predictions; toolbox_output] default_on
                = Ok (Some R)
                /\ nrows R = 2%nat
                /\ columns R = ["Formula"; "[M+H]"; "TIMES_InVivo"; "DTXSID";
                                "Metabolite_INCHIKEY"; "ToolBox"]).
Proof.
  split.
  - destruct (aggregate_disjoint_keys toolbox_output meteor_output default_on
                ltac:(discriminate) eq_refl eq_refl eq_refl eq_refl)
      as [R [E [N [C _]]]].
    exists R. split; [exact E|]. split; [exact N | exact C].
  - destruct (aggregate_disjoint_keys no_predictions toolbox_output default_on
                ltac:(discriminate) eq_refl eq_refl eq_refl eq_refl)
      as [R [E [N [C _]]]].
    exists R. split; [exact E|]. split; [exact N | exact C].
Defined.

(** The TIMES adapter returns a repeated row for a structure that the
    export spells in two ways; with the output of another adapter, of
    different keys, the aggregate has three rows, not four. *)
Lemma aggregate_repeated_key :
  Toy.TIMES_cleanup times_export "TIMES_InVivo" 1 = Ok repeated_output
  /\ keys_disjoint (drop_excluded repeated_output) (drop_excluded toolbox_output)
                   default_on = true
  /\ nrows repeated_output = 2%nat
  /\ nrows toolbox_output = 2%nat
  /\ aggregate_DFs [repeated_output; toolbox_output] default_on
     = Ok (Some (mkDF ["DTXSID"; "Metabolite_INCHIKEY"; "Formula"; "[M+H]";
                       "TIMES_InVivo"; "ToolBox"]
                      [ (0%nat, [Str "P9"; Str "KEY:InChI=CCO"; Str "CCO";
                                 Flt (PyFloat.of_int 7); Num 1; Num 0]);
                        (1%nat, [Str "P1"; Str "K1"; Num 0; Num 0; Num 0; Num 1]);
                        (2%nat, [Str "P1"; Str "K2"; Num 0; Num 0; Num 0; Num 1]) ])).
Proof.
  repeat split; vm_compute; reflexivity.
Qed.

(** A missing key does not stay a key: [replace(np.NaN, 0)] turns it
    into 0 with the rest of the table. *)
Lemma aggregate_missing_key :
  keys (drop_excluded unresolved_output) default_on = [[NaN; Str "K7"]]
  /\ aggregate_DFs [unresolved_output; meteor_output] default_on
     = Ok (Some (mkDF ["DTXSID"; "Metabolite_INCHIKEY"; "ToolBox"; "Meteor"]
                      [ (0%nat, [Num 0; Str "K7"; Num 1; Num 0]);
                        (1%nat, [Str "P1"; Str "K3"; Num 0; Num 1]);
                        (2%nat, [Str "P2"; Str "K1"; Num 0; Num 1]) ])).
Proof.
  split; vm_compute; reflexivity.
Qed.

(* ----------------------------------------------------------------- *)
(** ** The same rows *)

Lemma rows_included_refl (l : list (list cell)) : rows_included l l.
Proof. intros x Hx. exists x. split; [assumption | apply row_same_refl]. Qed.

Lemma rows_included_trans (l1 l2 l3 : list (list cell)) :
  rows_included l1 l2 -> rows_included l2 l3 -> rows_included l1 l3.
Proof.
  intros H12 H23 x Hx. destruct (H12 x Hx) as [y [Hy E1]].
  destruct (H23 y Hy) as [z [Hz E2]]. exists z. split; [assumption|].
  now apply (row_same_trans x y z).
Qed.

Lemma same_rows_trans (l1 l2 l3 : list (list cell)) :
  same_rows l1 l2 -> same_rows l2 l3 -> same_rows l1 l3.
Proof.
  intros [H12 H21] [H23 H32]. split.
  - now apply (rows_included_trans l1 l2 l3).
  - now apply (rows_included_trans l3 l2 l1).
Qed.

Lemma same_rows_sym (l1 l2 : list (list cell)) : same_rows l1 l2 -> same_rows l2 l1.
Proof. intros [H1 H2]. now split. Qed.

(** [drop_duplicates] keeps the same rows. *)
Lemma same_rows_distinct (l : list (list cell)) :
  same_rows (distinct row_same l) l.
Proof.
  split.
  - intros x Hx. apply distinct_from_In in Hx. destruct Hx as [Hx _].
    exists x. split; [assumption | apply row_same_refl].
  - intros x Hx.
    destruct (distinct_from_covers row_same l [] x row_same_refl Hx) as [H|H];
      [discriminate | exact H].
Qed.

Lemma same_rows_fill0 (l1 l2 : list (list cell)) :
  same_rows l1 l2 -> same_rows (map (map fill0) l1) (map (map fill0) l2).
Proof.
  assert (G : forall a b, rows_included a b ->
                          rows_included (map (map fill0) a) (map (map fill0) b)).
  { intros a b H x Hx. apply in_map_iff in Hx. destruct Hx as [x0 [<- Hx0]].
    destruct (H x0 Hx0) as [y0 [Hy0 E]]. exists (map fill0 y0).
    split; [now apply in_map | now apply row_same_fill0]. }
  intros [H1 H2]. split; now apply G.
Qed.

Lemma row_same_left (a a' b : list cell) :
  row_same a a' = true -> row_same a b = row_same a' b.
Proof.
  intros H. destruct (row_same a b) eqn:E1, (row_same a' b) eqn:E2;
    try reflexivity.
  - rewrite row_same_sym in H.
    rewrite (row_same_trans a' a b H E1) in E2. discriminate.
  - rewrite (row_same_trans a a' b H E2) in E1. discriminate.
Qed.

(* ----------------------------------------------------------------- *)
(** ** Merging the same rows *)

Section MergeSameRows.

Variables lcols rcols on : list string.
Variable rrows : list (list cell).

Let meets (l r : list cell) : bool :=
  row_same (key_of lcols on l) (key_of rcols on r).

Lemma meets_left (l l' r : list cell) :
  row_same l l' = true -> meets l r = meets l' r.
Proof.
  intros H. unfold meets. apply row_same_left. now apply key_of_same.
Qed.

Lemma merge_rows_included (L1 L2 : list (list cell)) :
  same_rows L1 L2 ->
  rows_included (merge_rows lcols rcols on L1 rrows)
                (merge_rows lcols rcols on L2 rrows).
Proof.
  intros [H12 H21] x Hx. unfold merge_rows in *.
  apply in_app_or in Hx. destruct Hx as [Hx|Hx].
  - apply in_flat_map in Hx. destruct Hx as [l [Hl Hx]].
    destruct (H12 l Hl) as [l' [Hl' E]].
    assert (F : filter (fun r => row_same (key_of lcols on l') (key_of rcols on r))
                       rrows
                = filter (fun r => row_same (key_of lcols on l) (key_of rcols on r))
                         rrows).
    { apply filter_ext. intros r. symmetry. now apply (meets_left l l' r). }
    destruct (filter (fun r => row_same (key_of lcols on l) (key_of rcols on r))
                     rrows) as [|r0 matches] eqn:M.
    + destruct Hx as [<-|[]].
      exists (l' ++ repeat NaN
                (List.length (filter (fun c => negb (mem c on)) rcols))).
      split.
      * apply in_or_app. left. apply in_flat_map. exists l'.
        split; [assumption|]. rewrite F. now left.
      * apply row_same_app; [assumption | apply row_same_refl].
    + apply in_map_iff in Hx. destruct Hx as [r [<- Hr]].
      exists (l' ++ pick (fun c => negb (mem c on)) rcols r).
      split.
      * apply in_or_app. left. apply in_flat_map. exists l'.
        split; [assumption|]. rewrite F.
        apply in_map_iff. exists r. split; [reflexivity | assumption].
      * apply row_same_app; [assumption | apply row_same_refl].
  - apply in_map_iff in Hx. destruct Hx as [r [<- Hr]].
    apply filter_In in Hr. destruct Hr as [Hr U].
    exists (right_only lcols rcols on r).
    split; [|apply row_same_refl].
    apply in_or_app. right. apply in_map. apply filter_In.
    split; [assumption|].
    apply negb_true_iff in U. apply negb_true_iff.
    apply existsb_false_intro. intros l' Hl'.
    destruct (H21 l' Hl') as [l [Hl E]].
    change (meets l' r = false). rewrite (meets_left l' l r E).
    exact (existsb_false _ L1 l U Hl).
Qed.

Lemma merge_rows_same (L1 L2 : list (list cell)) :
  same_rows L1 L2 ->
  same_rows (merge_rows lcols rcols on L1 rrows)
            (merge_rows lcols rcols on L2 rrows).
Proof.
  intros H. split; apply merge_rows_included; [assumption|].
  now apply same_rows_sym.
Qed.

End MergeSameRows.

(* ----------------------------------------------------------------- *)
(** ** The column [Clean_SMILES] *)

Lemma append_x_not_excluded (c : string) : (c ++ "_x")%string <> "Clean_SMILES".
Proof.
  intros H.
  repeat (destruct c as [|? c]; simpl in H; [discriminate H | injection H as _ H]).
  destruct c; discriminate H.
Qed.

Lemma append_y_not_excluded (c : string) : (c ++ "_y")%string <> "Clean_SMILES".
Proof.
  intros H.
  repeat (destruct c as [|? c]; simpl in H; [discriminate H | injection H as _ H]).
  destruct c; discriminate H.
Qed.

Lemma mem_false (c : string) (l : list string) :
  mem c l = false <-> ~ In c l.
Proof.
  rewrite <- mem_In. destruct (mem c l); split; congruence.
Qed.

Lemma has_column_mem (df : DataFrame) (c : string) :
  has_column df c = mem c (columns df).
Proof. reflexivity. Qed.

(** After [drop_excluded] a table has no column [Clean_SMILES]. *)
Lemma drop_excluded_columns (df : DataFrame) :
  mem "Clean_SMILES" (columns (drop_excluded df)) = false.
Proof.
  unfold drop_excluded, drop, excludedColumns. cbn [find].
  destruct (has_column df "Clean_SMILES") eqn:E; cbn [negb].
  - cbn [columns]. apply mem_false. intros H. apply filter_In in H.
    destruct H as [_ H]. vm_compute in H. discriminate.
  - exact E.
Qed.

Lemma mem_kept (c : string) (keep : string -> bool) (l : list string) :
  mem c l = false -> mem c (filter keep l) = false.
Proof.
  rewrite !mem_false. intros H K. apply filter_In in K. tauto.
Qed.

Lemma suffixed_x_not_excluded (on others cols : list string) :
  mem "Clean_SMILES" cols = false ->
  mem "Clean_SMILES" (map (suffixed on others "_x") cols) = false.
Proof.
  rewrite !mem_false. intros H K. apply in_map_iff in K.
  destruct K as [c [E K]]. unfold suffixed in E.
  destruct (negb (mem c on) && mem c others).
  - now apply (append_x_not_excluded c).
  - subst c. contradiction.
Qed.

Lemma suffixed_y_not_excluded (on others cols : list string) :
  mem "Clean_SMILES" cols = false ->
  mem "Clean_SMILES" (map (suffixed on others "_y") cols) = false.
Proof.
  rewrite !mem_false. intros H K. apply in_map_iff in K.
  destruct K as [c [E K]]. unfold suffixed in E.
  destruct (negb (mem c on) && mem c others).
  - now apply (append_y_not_excluded c).
  - subst c. contradiction.
Qed.

(** Nor has the merge of two such tables. *)
Lemma merge_not_excluded (left right m : DataFrame) (on : list string) :
  merge left right on = Ok m ->
  mem "Clean_SMILES" (columns left) = false ->
  mem "Clean_SMILES" (columns right) = false ->
  mem "Clean_SMILES" (columns m) = false.
Proof.
  unfold merge. destruct on as [|k0 on']; [discriminate|].
  destruct (find _ (k0 :: on')); [discriminate|].
  intros E HL HR.
  destruct (body left); injection E as <-; cbn [columns]; unfold mem;
    rewrite existsb_app; apply orb_false_iff; split.
  - apply suffixed_x_not_excluded. now apply mem_kept.
  - now apply suffixed_y_not_excluded.
  - now apply suffixed_x_not_excluded.
  - apply suffixed_y_not_excluded. now apply mem_kept.
Qed.

(** A table without the column [Clean_SMILES] is left as it is. *)
Lemma drop_excluded_id (df : DataFrame) :
  mem "Clean_SMILES" (columns df) = false -> drop_excluded df = df.
Proof.
  intros H. unfold drop_excluded, drop, excludedColumns. cbn [find].
  rewrite has_column_mem, H. reflexivity.
Qed.

(* ----------------------------------------------------------------- *)
(** ** Aggregating in two steps *)

Lemma no_rows_same (rows : list (list cell)) : same_rows rows [] -> rows = [].
Proof.
  intros [H _]. destruct rows as [|x rows]; [reflexivity|].
  destruct (H x (or_introl eq_refl)) as [y [[] _]].
Qed.

Lemma merge_same_columns (X X' C : DataFrame) (on : list string) :
  columns X' = columns X ->
  same_rows (map snd (body X')) (map snd (body X)) ->
  match merge X C on, merge X' C on with
  | Ok m, Ok m' =>
      columns m' = columns m
      /\ same_rows (map snd (body m')) (map snd (body m))
  | Raise e, Raise e' => e = e'
  | _, _ => False
  end.
Proof.
  intros EC ER. unfold merge, has_column. rewrite EC.
  destruct on as [|k0 on']; [reflexivity|].
  destruct (find _ (k0 :: on')); [reflexivity|].
  destruct (body X) as [|x rows] eqn:EX.
  - apply no_rows_same in ER. apply map_eq_nil in ER. rewrite ER.
    cbn [columns body]. split; [reflexivity|].
    split; apply rows_included_refl.
  - destruct (body X') as [|x' rows'] eqn:EX'.
    + apply same_rows_sym in ER. apply no_rows_same in ER. discriminate.
    + cbn [columns body]. split; [reflexivity|].
      rewrite !map_snd_reset_index. now apply merge_rows_same.
Qed.

(** C6.  [aggregate_DFs] is associative up to the order of the rows:
    aggregating [A], [B] and [C] at once, and aggregating the aggregate
    of [A] and [B] with [C], on the same keys, raise the same exception
    or return tables with the same columns and the same set of rows. *)
Theorem aggregate_associative (A B C : DataFrame) (on : list string) :
  agree (aggregate_DFs [A; B; C] on)
        (aggregate_again (aggregate_DFs [A; B] on) C on).
Proof.
  unfold aggregate_again. rewrite (aggregate_two A B on).
  unfold aggregate_DFs at 1. cbn [foldM].
  destruct (merge (drop_excluded A) (drop_excluded B) on) as [m|e] eqn:M;
    cbn [bind]; [|reflexivity].
  set (X := replace_nan_0 m).
  assert (NX : mem "Clean_SMILES" (columns X) = false).
  { cbn [X replace_nan_0 columns].
    apply (merge_not_excluded _ _ _ _ M); apply drop_excluded_columns. }
  rewrite (aggregate_two (drop_duplicates X) C on).
  rewrite (drop_excluded_id (drop_duplicates X)) by exact NX.
  pose proof (merge_same_columns X (drop_duplicates X) (drop_excluded C) on
                eq_refl) as H.
  cbn [drop_duplicates body] in H. rewrite map_snd_reset_index in H.
  specialize (H (same_rows_distinct (map snd (body X)))).
  destruct (merge X (drop_excluded C) on) as [m1|e1],
           (merge (drop_duplicates X) (drop_excluded C) on) as [m2|e2];
    cbn [bind agree]; try contradiction; [|now f_equal].
  destruct H as [HC HR]. cbn [drop_duplicates replace_nan_0 columns body].
  split; [now rewrite HC|].
  rewrite !map_snd_reset_index, !map_map. cbn [snd].
  rewrite <- !(map_map snd (map fill0)).
  apply (same_rows_trans _ (map (map fill0) (map snd (body m1)))).
  - apply same_rows_distinct.
  - apply (same_rows_trans _ (map (map fill0) (map snd (body m2)))).
    + apply same_rows_fill0. now apply same_rows_sym.
    + apply same_rows_sym. apply same_rows_distinct.
Qed.

(* ================================================================= *)
(** * Further properties of the metric functions *)

(* ----------------------------------------------------------------- *)
(** ** Selectors outside the flag columns *)

Lemma position_absent (cols : list string) (c : string) :
  mem c cols = false -> position c cols = None.
Proof.
  unfold mem. induction cols as [|c' cols IH]; simpl; [reflexivity|].
  intros H. apply orb_false_iff in H. destruct H as [H1 H2].
  rewrite String.eqb_sym, H1. now rewrite (IH H2).
Qed.

Lemma getitem_absent (df : DataFrame) (c : string) :
  has_column df c = false -> getitem df c = Raise (KeyError c).
Proof. intros H. unfold getitem. now rewrite (position_absent _ _ H). Qed.

(** One turn of the loop over [modelName[1:]], whatever the column
    holds. *)
Lemma cast_step (df : DataFrame) (f : nat * list cell -> bool) (model : string) :
  has_column df model = true ->
  (c <- getitem df model ;;
   Ok (bools_eq (series_or_cast (flag_series df f) c) (Num 1)))
  = Ok (flag_series df (fun r => f r || truthy (field df model r))).
Proof.
  intros H. rewrite (getitem_field df model H). simpl.
  f_equal. unfold series_or_cast, flag_series. rewrite align2_rows.
  unfold bools_eq. rewrite map_map. simpl.
  apply map_ext. intros r. f_equal. apply py_eq_Bool_1.
Qed.

Lemma cast_loop (df : DataFrame) (rest : list string)
  (f : nat * list cell -> bool) :
  forallb (has_column df) rest = true ->
  foldM (fun modelFilter model =>
           c <- getitem df model ;;
           Ok (bools_eq (series_or_cast modelFilter c) (Num 1)))
        rest (flag_series df f)
  = Ok (flag_series df
          (fun r => f r || existsb (fun c => truthy (field df c r)) rest)).
Proof.
  revert f. induction rest as [|model rest IH]; intros f H; simpl.
  - f_equal. apply flag_series_ext. intros r _. now rewrite orb_false_r.
  - simpl in H. apply andb_true_iff in H. destruct H as [Hm H].
    rewrite (cast_step df f model Hm). simpl. rewrite (IH _ H).
    f_equal. apply flag_series_ext. intros r _. now rewrite orb_assoc.
Qed.

(** X1.  A list selector, whatever the cells of the columns hold: a row is
    marked when its cell under the first column equals 1, or its cell
    under a later column is true as a bool (a number other than zero, a
    non-empty string).  So a later column that counts 2 predictions marks
    the row and the first column does not: the order of the list matters
    as soon as a column holds something else than 0 and 1. *)
Theorem model_filter_casts_later_columns (data : DataFrame) (first : string)
  (rest : list string) :
  has_column data first = true ->
  forallb (has_column data) rest = true ->
  model_filter data (Names (first :: rest))
  = Ok (flag_series data (cast_flag data first rest)).
Proof.
  intros Hf Hr. cbn [model_filter].
  rewrite (getitem_field data first Hf). cbn [bind].
  rewrite series_eq_rows.
  change (map (fun r => (fst r, py_eq (field data first r) (Num 1))) (body data))
    with (flag_series data (flag_set data first)).
  now rewrite (cast_loop data rest (flag_set data first) Hr).
Qed.

Lemma model_filter_casts_later_columns_witness :
  model_filter counting_table (Names ["ToolBox"; "Meteor"])
  = Ok [(0%nat, false); (1%nat, true); (2%nat, true)]
  /\ model_filter counting_table (Names ["Meteor"; "ToolBox"])
     = Ok [(0%nat, true); (1%nat, false); (2%nat, true)].
Proof.
  split.
  - rewrite (model_filter_casts_later_columns counting_table "ToolBox" ["Meteor"]);
      reflexivity.
  - rewrite (model_filter_casts_later_columns counting_table "Meteor" ["ToolBox"]);
      reflexivity.
Defined.

(* ----------------------------------------------------------------- *)
(** ** Columns that the table does not have *)

Lemma loop_unknown_column (df : DataFrame) (known others : list string)
  (c : string) (start : Series bool) :
  forallb (has_column df) known = true ->
  has_column df c = false ->
  foldM (fun modelFilter model =>
           col <- getitem df model ;;
           Ok (bools_eq (series_or_cast modelFilter col) (Num 1)))
        (known ++ c :: others) start
  = Raise (KeyError c).
Proof.
  intros Hk Hc. revert start.
  induction known as [|k known IH]; intros start; simpl.
  - now rewrite (getitem_absent df c Hc).
  - simpl in Hk. apply andb_true_iff in Hk. destruct Hk as [H1 H2].
    rewrite (getitem_field df k H1). simpl. apply (IH H2).
Qed.

Lemma model_filter_unknown_column (df : DataFrame) (known others : list string)
  (c : string) :
  forallb (has_column df) known = true ->
  has_column df c = false ->
  model_filter df (Names (known ++ c :: others)) = Raise (KeyError c)
  /\ model_filter df (Name c) = Raise (KeyError c).
Proof.
  intros Hk Hc. split.
  - destruct known as [|k known]; cbn [model_filter app].
    + now rewrite (getitem_absent df c Hc).
    + simpl in Hk. apply andb_true_iff in Hk. destruct Hk as [H1 H2].
      rewrite (getitem_field df k H1). cbn [bind].
      now apply loop_unknown_column.
  - cbn [model_filter]. now rewrite (getitem_absent df c Hc).
Qed.

(** X2.  Both metrics raise [KeyError] on a selector that names a column the
    table does not have, and the error names the first such column of
    the list; on the empty list they raise [IndexError]. *)
Theorem metrics_unknown_column (data : DataFrame) (known others : list string)
  (c : string) :
  forallb (has_column data) known = true ->
  has_column data c = false ->
  calcPrecision data (Names (known ++ c :: others)) = Raise (KeyError c)
  /\ calcSensitivity data (Names (known ++ c :: others)) = Raise (KeyError c)
  /\ calcPrecision data (Name c) = Raise (KeyError c)
  /\ calcSensitivity data (Name c) = Raise (KeyError c)
  /\ calcPrecision data (Names []) = Raise IndexError
  /\ calcSensitivity data (Names []) = Raise IndexError.
Proof.
  intros Hk Hc.
  destruct (model_filter_unknown_column data known others c Hk Hc) as [E1 E2].
  unfold calcPrecision, calcSensitivity. rewrite E1, E2.
  repeat split; reflexivity.
Qed.

Lemma metrics_unknown_column_witness :
  calcPrecision two_source_table (Names ["ToolBox"; "SyGMa"; "Meteor"])
  = Raise (KeyError "SyGMa").
Proof.
  apply (metrics_unknown_column two_source_table ["ToolBox"] ["Meteor"] "SyGMa");
    reflexivity.
Defined.

(** X3.  [calcPrecision] needs the column [Reported] and no other;
    [calcSensitivity] needs the columns [Reported], [Markush], [DTXSID]
    and [Metabolite DTXSID], and names the first of them, in this order,
    that the table does not have. *)
Theorem metrics_missing_bookkeeping (data : DataFrame) (modelName : selector) :
  valid_selector data modelName = true ->
  (has_column data "Reported" = false ->
   calcPrecision data modelName = Raise (KeyError "Reported")
   /\ calcSensitivity data modelName = Raise (KeyError "Reported"))
  /\ (has_column data "Reported" = true ->
      (exists p, calcPrecision data modelName = Ok p)
      /\ (has_column data "Markush" = false ->
          calcSensitivity data modelName = Raise (KeyError "Markush"))
      /\ (has_column data "Markush" = true ->
          has_column data "DTXSID" = false ->
          calcSensitivity data modelName = Raise (KeyError "DTXSID"))
      /\ (has_column data "Markush" = true ->
          has_column data "DTXSID" = true ->
          has_column data "Metabolite DTXSID" = false ->
          calcSensitivity data modelName
          = Raise (KeyError "Metabolite DTXSID"))).
Proof.
  intros V. split.
  - intros H. unfold calcPrecision, calcSensitivity.
    rewrite (model_filter_rows data modelName V). cbn [bind].
    rewrite (getitem_absent data "Reported" H). split; reflexivity.
  - intros Hr. split; [|split; [|split]].
    + rewrite (calcPrecision_cases data modelName V Hr).
      destruct (allPredicted data modelName =? 0); eexists; reflexivity.
    + intros H. unfold calcSensitivity.
      rewrite (model_filter_rows data modelName V). cbn [bind].
      rewrite (getitem_field data "Reported" Hr). cbn [bind].
      now rewrite (getitem_absent data "Markush" H).
    + intros Hm H. unfold calcSensitivity.
      rewrite (model_filter_rows data modelName V). cbn [bind].
      rewrite (getitem_field data "Reported" Hr). cbn [bind].
      rewrite (getitem_field data "Markush" Hm). cbn [bind].
      unfold sumMarkParents.
      rewrite (getitem_field data "Markush" Hm). cbn [bind].
      rewrite (getitem_absent (select data _) "DTXSID" H). reflexivity.
    + intros Hm Hd H. unfold calcSensitivity.
      rewrite (model_filter_rows data modelName V). cbn [bind].
      rewrite (getitem_field data "Reported" Hr). cbn [bind].
      rewrite (getitem_field data "Markush" Hm). cbn [bind].
      unfold sumMarkParents.
      rewrite (getitem_field data "Markush" Hm). cbn [bind].
      unfold select at 1. rewrite (getitem_sub data "DTXSID" _ Hd). cbn [bind].
      rewrite (getitem_absent (select data _) "Metabolite DTXSID" H).
      reflexivity.
Qed.

Lemma metrics_missing_bookkeeping_witness :
  (exists p, calcPrecision flat_table (Name "ToolBox") = Ok p)
  /\ calcSensitivity flat_table (Name "ToolBox") = Raise (KeyError "Markush").
Proof.
  destruct (metrics_missing_bookkeeping flat_table (Name "ToolBox") eq_refl)
    as [_ H].
  destruct (H eq_refl) as [Hp [Hm _]].
  split; [exact Hp | exact (Hm eq_refl)].
Defined.

(* ----------------------------------------------------------------- *)
(** ** The denominator of the sensitivity *)

Lemma filter_nil_none {A : Type} (keep : A -> bool) (rows : list A) (x : A) :
  filter keep rows = [] -> In x rows -> keep x = false.
Proof.
  intros E Hx. destruct (keep x) eqn:K; [|reflexivity].
  assert (Hin : In x (filter keep rows)) by (apply filter_In; now split).
  rewrite E in Hin. destruct Hin.
Qed.

Lemma distinct_none {A : Type} (eqb : A -> A -> bool) (l : list A) :
  List.length (distinct eqb l) = O -> l = [].
Proof. destruct l as [|p l]; [reflexivity|]. unfold distinct. simpl. discriminate. Qed.

(** The denominator is zero exactly when no row is reported. *)
Lemma sensitivity_total_zero (df : DataFrame) :
  (sensitivity_total df =? 0) = negb (existsb (reported df) (body df)).
Proof.
  unfold sensitivity_total, reportedNonAmbig, reportedAmbig, count_rows,
    unique_pairs.
  destruct (existsb (reported df) (body df)) eqn:E; simpl.
  - apply Z.eqb_neq. intros H.
    apply existsb_exists in E. destruct E as [r [Hr Rr]].
    assert (H1 : filter (fun r => reported df r && negb (markush df r)) (body df)
                 = []) by (apply length_zero_iff_nil; lia).
    assert (H2 : filter (fun r => reported df r && markush df r
                                  && identified df r) (body df) = []).
    { apply (map_eq_nil (pair_of df)). apply (distinct_none pair_same). lia. }
    assert (H3 : filter (fun r => reported df r && markush df r
                                  && negb (identified df r)) (body df) = [])
      by (apply length_zero_iff_nil; lia).
    pose proof (filter_nil_none _ _ r H1 Hr) as K1.
    pose proof (filter_nil_none _ _ r H2 Hr) as K2.
    pose proof (filter_nil_none _ _ r H3 Hr) as K3.
    simpl in K1, K2, K3. rewrite Rr in K1, K2, K3. simpl in K1, K2, K3.
    destruct (markush df r), (identified df r); discriminate.
  - apply Z.eqb_eq.
    rewrite (filter_none (fun r => reported df r && negb (markush df r)) (body df)).
    + rewrite (filter_none (fun r => reported df r && markush df r
                                     && identified df r) (body df)).
      * rewrite (filter_none (fun r => reported df r && markush df r
                                       && negb (identified df r)) (body df)).
        -- reflexivity.
        -- intros r Hr. now rewrite (existsb_false _ _ r E Hr).
      * intros r Hr. now rewrite (existsb_false _ _ r E Hr).
    + intros r Hr. now rewrite (existsb_false _ _ r E Hr).
Qed.

Lemma sensitivity_hits_nonneg (df : DataFrame) (modelName : selector) :
  0 <= sensitivity_hits df modelName.
Proof. unfold sensitivity_hits, nonAmbigTP, ambigTP, count_rows. lia. Qed.

Lemma sensitivity_total_nonneg (df : DataFrame) : 0 <= sensitivity_total df.
Proof.
  unfold sensitivity_total, reportedNonAmbig, reportedAmbig, count_rows. lia.
Qed.

(** X4.  [calcSensitivity] has no guard against an empty denominator: on a
    table in which no row is reported it raises [ZeroDivisionError]
    (where [calcPrecision] returns 0.0 on a table without predictions);
    as soon as one row is reported its denominator is positive, and it
    returns the rounded quotient of its two counts. *)
Theorem calcSensitivity_nothing_reported (data : DataFrame)
  (modelName : selector) :
  unique_index data = true ->
  has_column data "Reported" = true ->
  has_column data "Markush" = true ->
  has_column data "DTXSID" = true ->
  has_column data "Metabolite DTXSID" = true ->
  valid_selector data modelName = true ->
  (existsb (reported data) (body data) = false ->
   (exists n, sensitivity_counts data modelName = Ok (n, 0))
   /\ calcSensitivity data modelName = Raise ZeroDivisionError)
  /\ (existsb (reported data) (body data) = true ->
      exists n d,
        sensitivity_counts data modelName = Ok (n, d)
        /\ 0 <= n /\ 0 < d
        /\ calcSensitivity data modelName
           = Ok (PyFloat.round
                   (PyFloat.div (PyFloat.of_int n) (PyFloat.of_int d)) 3)).
Proof.
  intros Hi Hr Hm Hd Hg V.
  rewrite calcSensitivity_divides.
  rewrite (sensitivity_counts_rows data Hi Hm Hd Hg Hr modelName V).
  fold (sensitivity_hits data modelName). fold (sensitivity_total data).
  cbn [bind fst snd].
  pose proof (sensitivity_total_zero data) as Z0.
  split; intros E; rewrite E in Z0; cbn [negb] in Z0.
  - apply Z.eqb_eq in Z0. rewrite Z0. split; [eauto | reflexivity].
  - exists (sensitivity_hits data modelName), (sensitivity_total data).
    split; [reflexivity|]. split; [apply sensitivity_hits_nonneg|].
    unfold PyFloat.truediv. rewrite Z0. cbn [bind].
    split; [|reflexivity].
    apply Z.eqb_neq in Z0. pose proof (sensitivity_total_nonneg data). lia.
Qed.

Lemma calcSensitivity_nothing_reported_witness :
  calcSensitivity unreported_table (Name "Model") = Raise ZeroDivisionError.
Proof.
  apply (calcSensitivity_nothing_reported unreported_table (Name "Model"));
    reflexivity.
Defined.

(* ----------------------------------------------------------------- *)
(** ** The numerator against the denominator *)

Lemma count_implied {A : Type} (p q : A -> bool) (rows : list A) :
  (forall x, In x rows -> p x = true -> q x = true) ->
  (List.length (filter p rows) <= List.length (filter q rows))%nat.
Proof.
  induction rows as [|x rows IH]; intros H; simpl; [lia|].
  assert (IH' : (List.length (filter p rows) <= List.length (filter q rows))%nat).
  { apply IH. intros y Hy. apply H. now right. }
  destruct (p x) eqn:P.
  - rewrite (H x (or_introl eq_refl) P). simpl. lia.
  - destruct (q x); simpl; lia.
Qed.

Lemma unique_pairs_ext (df : DataFrame) (p q : nat * list cell -> bool) :
  (forall r, In r (body df) -> p r = q r) ->
  unique_pairs df p = unique_pairs df q.
Proof.
  intros H. unfold unique_pairs. f_equal. f_equal. now apply filter_ext_in.
Qed.

(** X5.  When every Markush row is a reported row, the numerator that
    [calcSensitivity] computes is at most its denominator: the quotient
    it rounds is between 0 and 1. *)
Theorem calcSensitivity_counts_bounded (data : DataFrame) (modelName : selector) :
  unique_index data = true ->
  has_column data "Reported" = true ->
  has_column data "Markush" = true ->
  has_column data "DTXSID" = true ->
  has_column data "Metabolite DTXSID" = true ->
  valid_selector data modelName = true ->
  markush_reported data = true ->
  exists n d,
    sensitivity_counts data modelName = Ok (n, d)
    /\ 0 <= n <= d
    /\ calcSensitivity data modelName
       = (x <- PyFloat.truediv n d ;; Ok (PyFloat.round x 3)).
Proof.
  intros Hi Hr Hm Hd Hg V M.
  exists (sensitivity_hits data modelName), (sensitivity_total data).
  split; [now apply sensitivity_counts_rows|].
  split; [|now apply calcSensitivity_rows].
  split; [apply sensitivity_hits_nonneg|].
  unfold sensitivity_hits, sensitivity_total, nonAmbigTP, ambigTP,
    reportedNonAmbig, reportedAmbig, count_rows.
  assert (N : (List.length (filter (fun r => model_flag data modelName r
                                            && reported data r
                                            && negb (markush data r)) (body data))
               <= List.length (filter (fun r => reported data r
                                                && negb (markush data r))
                                      (body data)))%nat).
  { apply count_implied. intros r _ H.
    apply andb_true_iff in H. destruct H as [H H2].
    apply andb_true_iff in H. destruct H as [_ H1]. now rewrite H1, H2. }
  assert (A : filter named_pair (unique_pairs data (markush data))
              = unique_pairs data (fun r => reported data r && markush data r
                                            && identified data r)).
  { unfold unique_pairs. rewrite named_pairs. f_equal.
    rewrite filter_map_comm, filter_filter. f_equal.
    apply filter_ext_in. intros r Hin.
    unfold markush_reported in M. rewrite forallb_forall in M.
    specialize (M r Hin). unfold identified.
    destruct (markush data r), (reported data r); simpl in *; congruence. }
  rewrite (filter_implied (group_hit data (model_flag data modelName)) named_pair
             (unique_pairs data (markush data))
             (group_hit_named data (model_flag data modelName))).
  rewrite A.
  pose proof (filter_length_le (group_hit data (model_flag data modelName))
                (unique_pairs data (fun r => reported data r && markush data r
                                             && identified data r))).
  lia.
Qed.

Lemma calcSensitivity_counts_bounded_witness :
  exists n d,
    sensitivity_counts example_table (Name "Model") = Ok (n, d)
    /\ 0 <= n <= d.
Proof.
  destruct (calcSensitivity_counts_bounded example_table (Name "Model")
              eq_refl eq_refl eq_refl eq_refl eq_refl eq_refl eq_refl)
    as [n [d [E [B _]]]].
  exists n, d. split; [exact E | exact B].
Defined.

(* ----------------------------------------------------------------- *)
(** ** More sources in the selector *)

Lemma group_hit_implied (df : DataFrame) (f g : nat * list cell -> bool)
  (pm : cell * cell) :
  (forall r, f r = true -> g r = true) ->
  group_hit df f pm = true -> group_hit df g pm = true.
Proof.
  intros H. unfold group_hit. rewrite !existsb_exists.
  intros [r [Hr Hf]]. exists r. split; [exact Hr|].
  apply andb_true_iff in Hf. destruct Hf as [H1 H2].
  now rewrite H1, (H r H2).
Qed.

(** X6.  Adding sources to a list selector never lowers the numerator that
    [calcSensitivity] computes, and leaves its denominator as it is. *)
Theorem calcSensitivity_more_sources (data : DataFrame)
  (names more : list string) :
  unique_index data = true ->
  has_column data "Reported" = true ->
  has_column data "Markush" = true ->
  has_column data "DTXSID" = true ->
  has_column data "Metabolite DTXSID" = true ->
  valid_selector data (Names names) = true ->
  valid_selector data (Names (names ++ more)) = true ->
  exists n n' d,
    sensitivity_counts data (Names names) = Ok (n, d)
    /\ sensitivity_counts data (Names (names ++ more)) = Ok (n', d)
    /\ n <= n'.
Proof.
  intros Hi Hr Hm Hd Hg V V'.
  exists (sensitivity_hits data (Names names)),
         (sensitivity_hits data (Names (names ++ more))),
         (sensitivity_total data).
  split; [now apply sensitivity_counts_rows|].
  split; [now apply sensitivity_counts_rows|].
  assert (F : forall r, model_flag data (Names names) r = true ->
                        model_flag data (Names (names ++ more)) r = true).
  { intros r. unfold model_flag. cbn [selector_names].
    rewrite existsb_app. intros ->. reflexivity. }
  unfold sensitivity_hits, nonAmbigTP, ambigTP, count_rows.
  assert (N : (List.length
                 (filter (fun r => model_flag data (Names names) r
                                   && reported data r && negb (markush data r))
                         (body data))
               <= List.length
                    (filter (fun r => model_flag data (Names (names ++ more)) r
                                      && reported data r && negb (markush data r))
                            (body data)))%nat).
  { apply count_implied. intros r _ H.
    apply andb_true_iff in H. destruct H as [H H2].
    apply andb_true_iff in H. destruct H as [H0 H1].
    now rewrite (F r H0), H1, H2. }
  assert (G : (List.length
                 (filter (group_hit data (model_flag data (Names names)))
                         (unique_pairs data (markush data)))
               <= List.length
                    (filter (group_hit data
                               (model_flag data (Names (names ++ more))))
                            (unique_pairs data (markush data))))%nat).
  { apply count_implied. intros pm _. now apply group_hit_implied. }
  lia.
Qed.

Lemma calcSensitivity_more_sources_witness :
  exists n n' d,
    sensitivity_counts example_table (Names ["Model"]) = Ok (n, d)
    /\ sensitivity_counts example_table (Names (["Model"] ++ ["Reported"]))
       = Ok (n', d)
    /\ n <= n'.
Proof.
  apply (calcSensitivity_more_sources example_table ["Model"] ["Reported"]);
    reflexivity.
Defined.

(* ----------------------------------------------------------------- *)
(** ** The order of the rows *)

Lemma count_reordered {A : Type} (keep : A -> bool) (rows rows' : list A) :
  Permutation rows rows' ->
  List.length (filter keep rows) = List.length (filter keep rows').
Proof.
  induction 1 as [|x l l' _ IH|x y l|l l' l'' _ IH1 _ IH2]; simpl.
  - reflexivity.
  - destruct (keep x); simpl; congruence.
  - destruct (keep x), (keep y); reflexivity.
  - congruence.
Qed.

Lemma kept_reordered {A : Type} (keep : A -> bool) (rows rows' : list A) :
  Permutation rows rows' -> Permutation (filter keep rows) (filter keep rows').
Proof.
  induction 1 as [|x l l' _ IH|x y l|l l' l'' _ IH1 _ IH2]; simpl.
  - apply perm_nil.
  - destruct (keep x); [apply perm_skip|]; exact IH.
  - destruct (keep x), (keep y); try apply Permutation_refl. apply perm_swap.
  - exact (Permutation_trans IH1 IH2).
Qed.

Lemma existsb_reordered {A : Type} (p : A -> bool) (rows rows' : list A) :
  Permutation rows rows' -> existsb p rows = existsb p rows'.
Proof.
  induction 1 as [|x l l' _ IH|x y l|l l' l'' _ IH1 _ IH2]; simpl.
  - reflexivity.
  - now rewrite IH.
  - destruct (p x), (p y); reflexivity.
  - congruence.
Qed.

Lemma forallb_reordered {A : Type} (p : A -> bool) (rows rows' : list A) :
  Permutation rows rows' -> forallb p rows = forallb p rows'.
Proof.
  induction 1 as [|x l l' _ IH|x y l|l l' l'' _ IH1 _ IH2]; simpl.
  - reflexivity.
  - now rewrite IH.
  - destruct (p x), (p y); reflexivity.
  - congruence.
Qed.

Lemma NoDup_distinct_labels (l : list nat) : NoDup l -> distinct_labels l = true.
Proof.
  induction 1 as [|i l Hi _ IH]; simpl; [reflexivity|].
  rewrite IH, andb_true_r. apply negb_true_iff. apply existsb_false_intro.
  intros j Hj. apply Nat.eqb_neq. intros ->. contradiction.
Qed.

(** The number of classes of a list, and of the classes that a test
    holds on, does not depend on the order of the list. *)
Section Classes.

Variable A : Type.
Variable eqb : A -> A -> bool.
Hypothesis eqb_sym : forall a b, eqb a b = eqb b a.
Hypothesis eqb_trans :
  forall a b c, eqb a b = true -> eqb b c = true -> eqb a c = true.
Variable hit : A -> bool.
Hypothesis hit_same : forall a b, eqb a b = true -> hit a = hit b.

Lemma distinct_from_covered (l seen seen' : list A) :
  (forall z, existsb (eqb z) seen = existsb (eqb z) seen') ->
  distinct_from eqb seen l = distinct_from eqb seen' l.
Proof.
  revert seen seen'. induction l as [|p l IH]; intros seen seen' H; simpl.
  - reflexivity.
  - rewrite (H p). destruct (existsb (eqb p) seen').
    + now apply IH.
    + f_equal. apply IH. intros z. simpl. now rewrite (H z).
Qed.

Lemma eqb_same_class (x y z : A) : eqb x y = true -> eqb z x = eqb z y.
Proof.
  intros E. destruct (eqb z x) eqn:E1, (eqb z y) eqn:E2; try reflexivity.
  - rewrite (eqb_trans z x y E1 E) in E2. discriminate.
  - rewrite eqb_sym in E. rewrite (eqb_trans z y x E2 E) in E1. discriminate.
Qed.

Lemma classes_reordered (l l' : list A) :
  Permutation l l' ->
  forall seen,
    List.length (filter hit (distinct_from eqb seen l))
    = List.length (filter hit (distinct_from eqb seen l')).
Proof.
  induction 1 as [|x l l' _ IH|x y l|l l' l'' _ IH1 _ IH2]; intros seen.
  - reflexivity.
  - simpl. destruct (existsb (eqb x) seen); [apply IH|].
    simpl. destruct (hit x); simpl; now rewrite IH.
  - simpl. rewrite (eqb_sym y x).
    destruct (existsb (eqb y) seen) eqn:Ey, (existsb (eqb x) seen) eqn:Ex;
      simpl; rewrite ?orb_true_r, ?orb_false_r; try reflexivity.
    destruct (eqb x y) eqn:Exy.
    + simpl. rewrite (hit_same x y Exy).
      rewrite (distinct_from_covered l (y :: seen) (x :: seen)).
      * destruct (hit y); reflexivity.
      * intros z. simpl. now rewrite (eqb_same_class x y z Exy).
    + simpl.
      rewrite (distinct_from_covered l (x :: y :: seen) (y :: x :: seen)).
      * destruct (hit x), (hit y); reflexivity.
      * intros z. simpl. now rewrite !orb_assoc, (orb_comm (eqb z x)).
  - now rewrite IH1.
Qed.

End Classes.

Lemma py_eq_same_right (a b c : cell) : same b c = true -> py_eq a b = py_eq a c.
Proof.
  unfold same, py_eq.
  destruct (classify a) as [s|q|s|], (classify b) as [s1|q1|s1|],
    (classify c) as [s2|q2|s2|]; simpl; try reflexivity; try discriminate.
  - intros H. apply String.eqb_eq in H. now subst.
  - intros H. apply Qeq_bool_iff in H.
    destruct (Qeq_bool q q1) eqn:E1, (Qeq_bool q q2) eqn:E2; try reflexivity.
    + apply Qeq_bool_iff in E1. apply Qeq_bool_neq in E2.
      exfalso. apply E2. now rewrite E1.
    + apply Qeq_bool_iff in E2. apply Qeq_bool_neq in E1.
      exfalso. apply E1. now rewrite E2, H.
  - intros H. apply Bool.eqb_prop in H. now subst.
Qed.

Lemma pair_same_sym (p q : cell * cell) : pair_same p q = pair_same q p.
Proof. unfold pair_same. now rewrite (same_sym (fst p)), (same_sym (snd p)). Qed.

Lemma pair_same_trans (p q r : cell * cell) :
  pair_same p q = true -> pair_same q r = true -> pair_same p r = true.
Proof.
  unfold pair_same. rewrite !andb_true_iff. intros [H1 H2] [H3 H4].
  split; eapply same_trans; eassumption.
Qed.

Lemma group_hit_same (df : DataFrame) (flag : nat * list cell -> bool)
  (p q : cell * cell) :
  pair_same p q = true -> group_hit df flag p = group_hit df flag q.
Proof.
  unfold pair_same. rewrite andb_true_iff. intros [H1 H2].
  unfold group_hit, has_pair.
  induction (body df) as [|r rows IH]; simpl; [reflexivity|].
  now rewrite IH, (py_eq_same_right _ _ _ H1), (py_eq_same_right _ _ _ H2).
Qed.

(** X7.  Neither metric depends on the order of the rows of the table, nor
    does [calcSensitivity] on the order in which Python lists the set of
    the pairs: two tables with the same rows, each row under its label,
    get the same precision and the same sensitivity. *)
Theorem metrics_row_order (d1 d2 : DataFrame) (modelName : selector) :
  columns d2 = columns d1 ->
  Permutation (body d1) (body d2) ->
  unique_index d1 = true ->
  has_column d1 "Reported" = true ->
  has_column d1 "Markush" = true ->
  has_column d1 "DTXSID" = true ->
  has_column d1 "Metabolite DTXSID" = true ->
  valid_selector d1 modelName = true ->
  calcPrecision d2 modelName = calcPrecision d1 modelName
  /\ calcSensitivity d2 modelName = calcSensitivity d1 modelName.
Proof.
  destruct d1 as [cols b1], d2 as [cols' b2]. simpl.
  intros -> P Hi Hr Hm Hd Hg V.
  assert (Hi2 : unique_index (mkDF cols b2) = true).
  { apply NoDup_distinct_labels. simpl.
    apply (Permutation_NoDup (Permutation_map fst P)).
    now apply (unique_index_NoDup (mkDF cols b1)). }
  assert (V2 : valid_selector (mkDF cols b2) modelName = true).
  { destruct modelName as [c | [|first rest]]; [exact V | exact V |].
    unfold valid_selector in *. rewrite forallb_forall in *.
    intros c Hc. specialize (V c Hc). unfold flag_column in *. simpl in *.
    rewrite <- (forallb_reordered _ b1 b2 P). exact V. }
  assert (C : forall p, count_rows (mkDF cols b2) p = count_rows (mkDF cols b1) p).
  { intros p. unfold count_rows. simpl. f_equal. symmetry.
    now apply count_reordered. }
  assert (U : forall (hit : cell * cell -> bool) p,
             (forall a b, pair_same a b = true -> hit a = hit b) ->
             List.length (filter hit (unique_pairs (mkDF cols b2) p))
             = List.length (filter hit (unique_pairs (mkDF cols b1) p))).
  { intros hit p Hhit. unfold unique_pairs, distinct. simpl. symmetry.
    apply (classes_reordered _ pair_same pair_same_sym pair_same_trans hit Hhit).
    apply Permutation_map. now apply kept_reordered. }
  split.
  - rewrite (calcPrecision_cases (mkDF cols b2) modelName V2 Hr).
    rewrite (calcPrecision_cases (mkDF cols b1) modelName V Hr).
    unfold allPredicted, truePositive. now rewrite !C.
  - rewrite (calcSensitivity_rows (mkDF cols b2) Hi2 Hm Hd Hg Hr modelName V2).
    rewrite (calcSensitivity_rows (mkDF cols b1) Hi Hm Hd Hg Hr modelName V).
    unfold nonAmbigTP, ambigTP, reportedNonAmbig, reportedAmbig.
    rewrite !C.
    assert (G : forall pm,
               group_hit (mkDF cols b2) (model_flag (mkDF cols b2) modelName) pm
               = group_hit (mkDF cols b1) (model_flag (mkDF cols b1) modelName) pm).
    { intros pm. unfold group_hit. simpl. symmetry.
      now apply existsb_reordered. }
    rewrite (filter_ext _ _ G).
    rewrite (U (group_hit (mkDF cols b1) (model_flag (mkDF cols b1) modelName))
               (markush (mkDF cols b2))
               (group_hit_same (mkDF cols b1) _)).
    pose proof (U (fun _ => true) (fun r => reported (mkDF cols b2) r
                                            && markush (mkDF cols b2) r
                                            && identified (mkDF cols b2) r)
                  (fun _ _ _ => eq_refl)) as T.
    rewrite !filter_id in T by reflexivity.
    rewrite T. reflexivity.
Qed.

Lemma metrics_row_order_witness :
  calcPrecision shuffled_table (Name "Model")
  = calcPrecision example_table (Name "Model")
  /\ calcSensitivity shuffled_table (Name "Model")
     = calcSensitivity example_table (Name "Model").
Proof.
  apply (metrics_row_order example_table shuffled_table (Name "Model"));
    try reflexivity.
  apply Permutation_rev.
Defined.

(* ----------------------------------------------------------------- *)
(** ** Tables without Markush rows *)

(** X25.  On a table without Markush rows [calcSensitivity] is the number of
    the reported rows that the model predicts over the number of the
    reported rows: its numerator is the numerator of [calcPrecision]. *)
Theorem calcSensitivity_without_groups (data : DataFrame)
  (modelName : selector) :
  unique_index data = true ->
  has_column data "Reported" = true ->
  has_column data "Markush" = true ->
  has_column data "DTXSID" = true ->
  has_column data "Metabolite DTXSID" = true ->
  valid_selector data modelName = true ->
  existsb (markush data) (body data) = false ->
  calcSensitivity data modelName
  = (x <- PyFloat.truediv (truePositive data modelName)
                          (count_rows data (reported data)) ;;
     Ok (PyFloat.round x 3))
  /\ calcPrecision data modelName
     = (if allPredicted data modelName =? 0 then Ok PyFloat.zero
        else Ok (PyFloat.round
                   (PyFloat.div (PyFloat.of_int (truePositive data modelName))
                                (PyFloat.of_int (allPredicted data modelName)))
                   3)).
Proof.
  intros Hi Hr Hm Hd Hg V N. split; [|now apply calcPrecision_cases].
  rewrite (calcSensitivity_rows data Hi Hm Hd Hg Hr modelName V).
  assert (M : forall r, In r (body data) -> markush data r = false)
    by (intros r Hr'; now apply (existsb_false _ _ r N)).
  assert (A : ambigTP data modelName = 0).
  { unfold ambigTP, unique_pairs.
    rewrite (filter_none (markush data) (body data) M). reflexivity. }
  assert (B : reportedAmbig data = 0).
  { unfold reportedAmbig, unique_pairs, count_rows.
    rewrite (filter_none (fun r => reported data r && markush data r
                                   && identified data r) (body data)).
    - rewrite (filter_none (fun r => reported data r && markush data r
                                     && negb (identified data r)) (body data)).
      + reflexivity.
      + intros r Hr'. now rewrite (M r Hr'), andb_false_r.
    - intros r Hr'. now rewrite (M r Hr'), andb_false_r. }
  assert (C : nonAmbigTP data modelName = truePositive data modelName).
  { unfold nonAmbigTP, truePositive, count_rows. do 2 f_equal.
    apply filter_ext_in. intros r Hr'. now rewrite (M r Hr'), andb_true_r. }
  assert (D : reportedNonAmbig data = count_rows data (reported data)).
  { unfold reportedNonAmbig, count_rows. do 2 f_equal.
    apply filter_ext_in. intros r Hr'. now rewrite (M r Hr'), andb_true_r. }
  now rewrite A, B, C, D, !Z.add_0_r.
Qed.

Lemma calcSensitivity_without_groups_witness :
  calcSensitivity flat_reported_table (Name "Model")
  = (x <- PyFloat.truediv (truePositive flat_reported_table (Name "Model"))
                          (count_rows flat_reported_table
                                      (reported flat_reported_table)) ;;
     Ok (PyFloat.round x 3)).
Proof.
  apply (calcSensitivity_without_groups flat_reported_table (Name "Model"));
    reflexivity.
Defined.

(* ================================================================= *)
(** * Further properties of the aggregator *)

(* ----------------------------------------------------------------- *)
(** ** The loop over the tables *)

(** A property that every turn of a loop keeps holds when the loop
    ends. *)
Lemma loop_keeps {A B : Type} (turn : B -> A -> result B) (inv : B -> Prop)
  (xs : list A) (acc out : B) :
  (forall b x b', inv b -> turn b x = Ok b' -> inv b') ->
  inv acc -> foldM turn xs acc = Ok out -> inv out.
Proof.
  intros K. revert acc. induction xs as [|x xs IH]; intros acc I; simpl.
  - intros E. injection E as <-. exact I.
  - destruct (turn acc x) as [b'|e] eqn:T; simpl; [|discriminate].
    apply IH. now apply (K acc x b').
Qed.

(** The value of a loop of one turn or more is the value of its last
    turn. *)
Lemma loop_last_turn {A B : Type} (turn : B -> A -> result B)
  (xs : list A) (acc out : B) :
  xs <> [] -> foldM turn xs acc = Ok out ->
  exists b x, turn b x = Ok out.
Proof.
  revert acc. induction xs as [|x xs IH]; intros acc N; [congruence|]. simpl.
  destruct (turn acc x) as [b'|e] eqn:T; simpl; [|discriminate].
  destruct xs as [|y xs].
  - simpl. intros E. injection E as <-. now exists acc, x.
  - apply IH. discriminate.
Qed.

Lemma merge_shared_keys (left right m : DataFrame) (on : list string) :
  merge left right on = Ok m ->
  on <> [] /\ shared_keys left right on = true.
Proof.
  unfold merge, shared_keys. destruct on as [|k0 on']; [discriminate|].
  destruct (find _ (k0 :: on')) as [k|] eqn:F; [discriminate|].
  intros _. split; [discriminate|].
  apply forallb_forall. intros k Hk.
  pose proof (List.find_none _ _ F k Hk) as N. simpl in N.
  now apply negb_false_iff in N.
Qed.

Lemma merge_names_columns (left right m : DataFrame) (on : list string) :
  merge left right on = Ok m -> columns m = merge_names left right on.
Proof.
  unfold merge, merge_names. destruct on as [|k0 on']; [discriminate|].
  destruct (find _ (k0 :: on')); [discriminate|].
  destruct (body left); intros E; injection E as <-; reflexivity.
Qed.

(** A merge has the key columns. *)
Lemma merged_has_key (left right m : DataFrame) (on : list string) (k : string) :
  merge left right on = Ok m -> In k on -> has_column m k = true.
Proof.
  intros M Hk. destruct (merge_shared_keys _ _ _ _ M) as [_ S].
  unfold shared_keys in S. rewrite forallb_forall in S.
  specialize (S k Hk). apply andb_true_iff in S. destruct S as [SL SR].
  rewrite has_column_mem in *. apply mem_In in SL, SR. apply mem_In.
  rewrite (merge_names_columns _ _ _ _ M). unfold merge_names.
  destruct (body left); apply in_or_app.
  - right. apply in_map_iff. exists k. split; [|exact SR].
    now apply key_not_suffixed.
  - left. apply in_map_iff. exists k. split; [|exact SL].
    now apply key_not_suffixed.
Qed.

Lemma aggregate_turn_merge (on : list string) (agg addDF out : DataFrame) :
  aggregate_turn on agg addDF = Ok out ->
  exists m, merge agg (drop_excluded addDF) on = Ok m /\ out = replace_nan_0 m.
Proof.
  unfold aggregate_turn.
  destruct (merge agg (drop_excluded addDF) on) as [m|e]; [|discriminate].
  simpl. intros E. injection E as <-. now exists m.
Qed.

Lemma aggregate_loop (first second : DataFrame) (others : list DataFrame)
  (on : list string) (out : DataFrame) :
  aggregate_DFs (first :: second :: others) on = Ok (Some out) ->
  exists agg,
    foldM (aggregate_turn on) (second :: others) (drop_excluded first) = Ok agg
    /\ out = drop_duplicates agg.
Proof.
  cbn [aggregate_DFs]. fold (aggregate_turn on).
  destruct (foldM (aggregate_turn on) (second :: others) (drop_excluded first))
    as [agg|e]; [|discriminate].
  cbn [bind]. intros E. injection E as <-. now exists agg.
Qed.

(** X8.  The columns of what [aggregate_DFs] returns: never a column
    [Clean_SMILES], whatever the tables and the keys, and always the key
    columns. *)
Theorem aggregate_output_columns (DF_List : list DataFrame) (on : list string)
  (out : DataFrame) :
  aggregate_DFs DF_List on = Ok (Some out) ->
  mem "Clean_SMILES" (columns out) = false
  /\ forallb (has_column out) on = true.
Proof.
  destruct DF_List as [|first [|second others]]; try discriminate.
  intros E. destruct (aggregate_loop _ _ _ _ _ E) as [agg [L ->]].
  change (columns (drop_duplicates agg)) with (columns agg).
  split.
  - apply (loop_keeps (aggregate_turn on)
                      (fun d => mem "Clean_SMILES" (columns d) = false)
                      (second :: others) (drop_excluded first) agg).
    + intros b x b' I T.
      destruct (aggregate_turn_merge on b x b' T) as [m [M ->]].
      cbn [replace_nan_0 columns].
      apply (merge_not_excluded _ _ _ _ M); [exact I|apply drop_excluded_columns].
    + apply drop_excluded_columns.
    + exact L.
  - assert (N : second :: others <> []) by discriminate.
    destruct (loop_last_turn _ _ _ _ N L) as [b [x T]].
    destruct (aggregate_turn_merge on b x agg T) as [m [M ->]].
    apply forallb_forall. intros k Hk.
    change (has_column (drop_duplicates (replace_nan_0 m)) k)
      with (has_column m k).
    now apply (merged_has_key _ _ _ _ _ M).
Qed.

Lemma aggregate_output_columns_witness :
  exists out,
    aggregate_DFs [toolbox_output; meteor_output; times_output] default_on
    = Ok (Some out)
    /\ mem "Clean_SMILES" (columns out) = false
    /\ forallb (has_column out) default_on = true.
Proof.
  eexists. split; [vm_compute; reflexivity|].
  apply (aggregate_output_columns [toolbox_output; meteor_output; times_output]
                                  default_on).
  vm_compute. reflexivity.
Defined.

(* ----------------------------------------------------------------- *)
(** ** The rows of the result *)

Lemma fill0_not_missing (c : cell) : isna (fill0 c) = false.
Proof. unfold fill0. destruct (isna c) eqn:E; [reflexivity|exact E]. Qed.

(** X9.  The rows of what [aggregate_DFs] returns: no cell is missing, the
    labels are [0 .. n-1], and no two rows are the same. *)
Theorem aggregate_output_rows (DF_List : list DataFrame) (on : list string)
  (out : DataFrame) :
  aggregate_DFs DF_List on = Ok (Some out) ->
  complete out = true
  /\ map fst (body out) = seq 0 (nrows out)
  /\ ForallOrdPairs (fun a b => row_same b a = false) (rows_of out).
Proof.
  destruct DF_List as [|first [|second others]]; try discriminate.
  intros E. destruct (aggregate_loop _ _ _ _ _ E) as [agg [L ->]].
  assert (N : second :: others <> []) by discriminate.
  destruct (loop_last_turn _ _ _ _ N L) as [b [x T]].
  destruct (aggregate_turn_merge on b x agg T) as [m [_ B]].
  unfold complete, rows_of, nrows, drop_duplicates. simpl.
  rewrite map_snd_reset_index. split; [|split].
  - apply forallb_forall. intros r Hr.
    assert (Hs : In (snd r) (distinct row_same (map snd (body agg)))).
    { rewrite <- (map_snd_reset_index (distinct row_same (map snd (body agg)))).
      now apply in_map. }
    apply distinct_from_In in Hs. destruct Hs as [Hs _].
    rewrite B in Hs. cbn [replace_nan_0 body] in Hs.
    rewrite map_map in Hs. apply in_map_iff in Hs. destruct Hs as [y [<- _]].
    cbn [snd]. apply forallb_forall. intros c Hc.
    apply in_map_iff in Hc. destruct Hc as [c' [<- _]].
    now rewrite fill0_not_missing.
  - unfold reset_index. now rewrite map_fst_combine_seq, length_combine,
      length_seq, Nat.min_id.
  - apply distinct_from_pairwise.
Qed.

Lemma aggregate_output_rows_witness :
  exists out,
    aggregate_DFs [toolbox_output; meteor_output; times_output] default_on
    = Ok (Some out)
    /\ complete out = true
    /\ map fst (body out) = seq 0 (nrows out).
Proof.
  eexists. split; [vm_compute; reflexivity|].
  destruct (aggregate_output_rows
              [toolbox_output; meteor_output; times_output] default_on _
              ltac:(vm_compute; reflexivity)) as [C [I _]].
  split; [exact C | exact I].
Defined.

(* ----------------------------------------------------------------- *)
(** ** Key columns that a table does not have *)

Lemma first_failure {A : Type} (p : A -> bool) (l : list A) :
  forallb p l = false ->
  exists k, find (fun x => negb (p x)) l = Some k /\ In k l /\ p k = false.
Proof.
  induction l as [|x l IH]; simpl; [discriminate|].
  destruct (p x) eqn:P; simpl.
  - intros H. destruct (IH H) as [k [F [I K]]]. exists k. auto.
  - intros _. exists x. auto.
Qed.

(** X10.  [aggregate_DFs] raises [KeyError] when one of the first two tables
    does not have a key column, the column [Clean_SMILES] set aside; so
    it raises whenever [Clean_SMILES] is one of the keys, since that
    column is dropped before the tables are merged. *)
Theorem aggregate_key_errors (A B : DataFrame) (others : list DataFrame)
  (on : list string) :
  (shared_keys (drop_excluded A) (drop_excluded B) on = false ->
   exists k, In k on
     /\ has_column (drop_excluded A) k && has_column (drop_excluded B) k = false
     /\ aggregate_DFs (A :: B :: others) on = Raise (KeyError k))
  /\ (In "Clean_SMILES" on ->
      exists k, In k on
        /\ aggregate_DFs (A :: B :: others) on = Raise (KeyError k)).
Proof.
  assert (K : shared_keys (drop_excluded A) (drop_excluded B) on = false ->
              exists k, In k on
                /\ has_column (drop_excluded A) k
                   && has_column (drop_excluded B) k = false
                /\ aggregate_DFs (A :: B :: others) on = Raise (KeyError k)).
  { intros H. apply first_failure in H. destruct H as [k [F [I N]]].
    exists k. split; [exact I|]. split; [exact N|].
    cbn [aggregate_DFs foldM]. unfold merge.
    destruct on as [|k0 on']; [destruct I|]. now rewrite F. }
  split; [exact K|].
  intros H.
  destruct K as [k [I [_ E]]]; [|now exists k].
  unfold shared_keys. apply not_true_is_false. intros T.
  rewrite forallb_forall in T. specialize (T _ H).
  apply andb_true_iff in T. destruct T as [T _].
  rewrite has_column_mem, drop_excluded_columns in T. discriminate.
Qed.

Lemma aggregate_key_errors_witness :
  (exists k, In k default_on
     /\ aggregate_DFs [toolbox_output; keyless_output] default_on
        = Raise (KeyError k))
  /\ (exists k, In k ["Clean_SMILES"]
        /\ aggregate_DFs [toolbox_output; meteor_output] ["Clean_SMILES"]
           = Raise (KeyError k)).
Proof.
  split.
  - destruct (proj1 (aggregate_key_errors toolbox_output keyless_output []
                                          default_on) eq_refl)
      as [k [I [_ E]]].
    now exists k.
  - apply (proj2 (aggregate_key_errors toolbox_output meteor_output []
                                       ["Clean_SMILES"])).
    simpl. now left.
Defined.

(* ----------------------------------------------------------------- *)
(** ** Two tables that share keys *)

Lemma unique_match (key : list cell -> list cell) (k : list cell)
  (rows : list (list cell)) :
  all_different (map key rows) = true ->
  filter (fun r => row_same k (key r)) rows
  = match find (fun r => row_same k (key r)) rows with
    | Some r => [r]
    | None => []
    end.
Proof.
  induction rows as [|r rows IH]; simpl; [reflexivity|].
  intros D. apply andb_true_iff in D. destruct D as [D1 D2].
  apply negb_true_iff in D1.
  destruct (row_same k (key r)) eqn:E.
  - f_equal. apply filter_none. intros x Hx.
    destruct (row_same k (key x)) eqn:Ex; [|reflexivity].
    assert (S : row_same (key r) (key x) = true).
    { apply (row_same_trans _ k); [now rewrite row_same_sym | exact Ex]. }
    rewrite (existsb_false _ _ (key x) D1 (in_map key _ _ Hx)) in S.
    discriminate.
  - now apply IH.
Qed.

Lemma all_different_kept (key : list cell -> list cell)
  (keep : list cell -> bool) (rows : list (list cell)) :
  all_different (map key rows) = true ->
  all_different (map key (filter keep rows)) = true.
Proof.
  induction rows as [|r rows IH]; simpl; [reflexivity|].
  intros D. apply andb_true_iff in D. destruct D as [D1 D2].
  destruct (keep r); simpl; [|now apply IH].
  rewrite (IH D2), andb_true_r. apply negb_true_iff in D1.
  apply negb_true_iff. apply existsb_false_intro. intros k Hk.
  apply (existsb_false _ _ k D1).
  apply in_map_iff in Hk. destruct Hk as [x [<- Hx]].
  apply in_map. apply filter_In in Hx. tauto.
Qed.

Section KeyedMerge.

Variables L R : DataFrame.
Variable on : list string.
Hypothesis HL : keyed L on = true.
Hypothesis HR : keyed R on = true.
Hypothesis Hon : on <> [].
Hypothesis Hrows : body L <> [].

(** The key of a row of [L] that was extended on the right. *)
Lemma key_of_extended (l extension : list cell) :
  In l (rows_of L) ->
  key_of (columns L) on (map fill0 (l ++ extension)) = key_of (columns L) on l.
Proof.
  intros Hl. destruct (keyed_parts on L HL) as [W [C [P _]]].
  unfold key_of. apply map_ext_in. intros k Hk.
  destruct (key_column on L k C Hk) as [j Hj]. rewrite Hj.
  pose proof (position_bound (columns L) k j Hj) as B.
  pose proof (row_width L l W Hl) as LW.
  rewrite nth_map_fill0 by (rewrite length_app; lia).
  rewrite app_nth1 by lia.
  apply fill0_present. now apply (key_cell_present on L l k j).
Qed.

Lemma key_of_joined (l : list cell) :
  In l (rows_of L) -> key_of (columns L) on (joined L R on l)
                      = key_of (columns L) on l.
Proof. intros Hl. unfold joined. now apply key_of_extended. Qed.

Lemma key_of_appended (r : list cell) :
  In r (rows_of R) -> key_of (columns L) on (appended L R on r)
                      = key_of (columns R) on r.
Proof. intros Hr. unfold appended. now apply (key_of_added L R on HL HR). Qed.

Lemma merge_rows_keyed :
  map (map fill0)
      (merge_rows (columns L) (columns R) on (rows_of L) (rows_of R))
  = map (joined L R on) (rows_of L) ++ map (appended L R on) (unmatched L R on).
Proof.
  destruct (keyed_parts on R HR) as [_ [_ [_ DR]]]. rewrite keys_rows in DR.
  unfold merge_rows. rewrite map_app. f_equal.
  - rewrite (flat_map_singleton _
               (fun l => l ++ match partner L R on l with
                              | Some r => pick (fun c => negb (mem c on))
                                               (columns R) r
                              | None =>
                                  repeat NaN
                                    (List.length
                                       (filter (fun c => negb (mem c on))
                                               (columns R)))
                              end)).
    + now rewrite map_map.
    + intros l _.
      rewrite (unique_match (key_of (columns R) on)
                            (key_of (columns L) on l) (rows_of R) DR).
      unfold partner. now destruct (find _ (rows_of R)).
  - now rewrite map_map.
Qed.

Lemma joined_keys_different :
  all_different (map (key_of (columns L) on)
                     (map (joined L R on) (rows_of L)
                      ++ map (appended L R on) (unmatched L R on))) = true.
Proof.
  destruct (keyed_parts on L HL) as [_ [_ [_ DL]]]. rewrite keys_rows in DL.
  destruct (keyed_parts on R HR) as [_ [_ [_ DR]]]. rewrite keys_rows in DR.
  rewrite map_app, !map_map.
  rewrite (map_ext_in _ (key_of (columns L) on) (rows_of L))
    by (intros l Hl; now apply key_of_joined).
  rewrite (map_ext_in _ (key_of (columns R) on) (unmatched L R on)).
  - apply all_different_app.
    + exact DL.
    + now apply all_different_kept.
    + intros a b Ha Hb.
      apply in_map_iff in Ha, Hb.
      destruct Ha as [l [<- Hl]], Hb as [r [<- Hr]].
      apply filter_In in Hr. destruct Hr as [_ Hr].
      apply negb_true_iff in Hr.
      apply (existsb_false _ _ l Hr Hl).
  - intros r Hr. apply key_of_appended.
    apply filter_In in Hr. tauto.
Qed.

(** The aggregate of the two tables. *)
Lemma aggregate_keyed_rows :
  (m <- merge L R on ;; Ok (drop_duplicates (replace_nan_0 m)))
  = Ok (mkDF (merged_columns L R on)
             (reset_index (map (joined L R on) (rows_of L)
                           ++ map (appended L R on) (unmatched L R on)))).
Proof.
  destruct (keyed_parts on L HL) as [_ [CL _]].
  destruct (keyed_parts on R HR) as [_ [CR _]].
  rewrite (merge_ok L R on Hon Hrows CL CR). cbn [bind].
  unfold drop_duplicates, replace_nan_0, merged_columns. simpl. do 3 f_equal.
  rewrite map_map. simpl.
  rewrite <- (map_map snd (map fill0)), map_snd_reset_index.
  fold (rows_of L) (rows_of R). rewrite merge_rows_keyed.
  unfold distinct. apply (distinct_from_keys (key_of (columns L) on)).
  - intros x y. apply key_of_same.
  - apply joined_keys_different.
  - intros x s _ [].
Qed.

(** A row of [L] and a row of [R] with the same key are partners. *)
Lemma partner_found (l r : list cell) :
  In r (rows_of R) ->
  row_same (key_of (columns L) on l) (key_of (columns R) on r) = true ->
  partner L R on l = Some r.
Proof.
  intros Hr E.
  destruct (keyed_parts on R HR) as [_ [_ [_ DR]]]. rewrite keys_rows in DR.
  pose proof (unique_match (key_of (columns R) on) (key_of (columns L) on l)
                           (rows_of R) DR) as U.
  fold (partner L R on l) in U.
  assert (I : In r (filter (fun r => row_same (key_of (columns L) on l)
                                              (key_of (columns R) on r))
                           (rows_of R))) by (apply filter_In; now split).
  rewrite U in I. destruct (partner L R on l) as [r'|]; [|destruct I].
  destruct I as [-> | []]. reflexivity.
Qed.

End KeyedMerge.

(** X11.  Two tables neither of which repeats a key or lacks one, whatever
    keys they share, joined on one key column or more, the first table
    with a row or more.  The result holds, in some order, the rows of
    the first table, each followed by the other cells of the row of the
    second table that has its key, or by zeros when there is none, and
    the rows of the second table whose key the first does not have.  A
    key that both tables have gets one row, which carries the cells of
    both; no key is repeated, and nothing is removed as a duplicate. *)
Theorem aggregate_shared_keys (A B : DataFrame) (on : list string) :
  on <> [] ->
  (0 < nrows A)%nat ->
  keyed (drop_excluded A) on = true ->
  keyed (drop_excluded B) on = true ->
  let L := drop_excluded A in
  let R := drop_excluded B in
  exists out,
    aggregate_DFs [A; B] on = Ok (Some out)
    /\ columns out = merged_columns L R on
    /\ Permutation (rows_of out)
                   (map (joined L R on) (rows_of L)
                    ++ map (appended L R on) (unmatched L R on))
    /\ nrows out = (nrows A + List.length (unmatched L R on))%nat
    /\ all_different (map (key_of (columns L) on) (rows_of out)) = true
    /\ (forall l r,
          In l (rows_of L) -> In r (rows_of R) ->
          row_same (key_of (columns L) on l) (key_of (columns R) on r) = true ->
          joined L R on l
          = map fill0 (l ++ pick (fun c => negb (mem c on)) (columns R) r)).
Proof.
  intros Hon Hrows HA HB L R.
  assert (N : body L <> []).
  { intros E. rewrite <- (drop_excluded_nrows A) in Hrows. fold L in Hrows.
    unfold nrows in Hrows. rewrite E in Hrows. simpl in Hrows. lia. }
  exists (mkDF (merged_columns L R on)
               (reset_index (map (joined L R on) (rows_of L)
                             ++ map (appended L R on) (unmatched L R on)))).
  split; [|split; [|split; [|split; [|split]]]].
  - rewrite (aggregate_two A B on).
    fold L R. now rewrite (aggregate_keyed_rows L R on HA HB Hon N).
  - reflexivity.
  - unfold rows_of at 1. simpl. rewrite map_snd_reset_index.
    apply Permutation_refl.
  - unfold nrows at 1. simpl.
    rewrite reset_index_length, length_app, !length_map.
    unfold rows_of. rewrite length_map.
    fold (nrows L). unfold L. now rewrite drop_excluded_nrows.
  - unfold rows_of at 1. simpl. rewrite map_snd_reset_index.
    now apply joined_keys_different.
  - intros l r Hl Hr E. unfold joined.
    now rewrite (partner_found L R on HB l r Hr E).
Qed.

Lemma aggregate_shared_keys_witness :
  exists out,
    aggregate_DFs [toolbox_output; times_output] default_on = Ok (Some out)
    /\ columns out = ["DTXSID"; "Metabolite_INCHIKEY"; "ToolBox"; "TIMES_InVivo"]
    /\ nrows out = 3%nat
    /\ In [Str "P1"; Str "K1"; Num 1; Num 1] (rows_of out).
Proof.
  destruct (aggregate_shared_keys toolbox_output times_output default_on
              ltac:(discriminate) ltac:(unfold nrows; simpl; lia)
              eq_refl eq_refl) as [out [E [C [P [N _]]]]].
  exists out. split; [exact E|]. split; [exact C|]. split; [exact N|].
  apply (Permutation_in _ (Permutation_sym P)). simpl. now left.
Defined.

(* ================================================================= *)
(** * The conversions through RDKit *)

(** [series.apply(f)] for a function that returns on the values that
    pass a test and raises [ArgumentError] on the others: the call
    returns when every value passes, and raises as soon as one does
    not. *)
Lemma series_apply_checked {A B : Type} (f : A -> result B) (ok : A -> bool)
  (g : A -> B) (s : Series A) :
  (forall a, f a = if ok a then Ok (g a) else Raise ArgumentError) ->
  series_apply f s
  = if series_all ok s then Ok (series_map g s) else Raise ArgumentError.
Proof.
  intros H. unfold series_apply, series_all, series_map.
  induction s as [|[i a] s IH]; simpl; [reflexivity|].
  rewrite (H a). destruct (ok a); simpl; [|reflexivity].
  rewrite IH. now destruct (forallb _ s).
Qed.

Lemma series_all_map {A B : Type} (g : A -> B) (ok : B -> bool) (s : Series A) :
  series_all ok (series_map g s) = series_all (fun a => ok (g a)) s.
Proof.
  unfold series_all, series_map. induction s as [|p s IH]; simpl; [reflexivity|].
  now rewrite IH.
Qed.

Lemma series_map_map {A B C : Type} (g : A -> B) (h : B -> C) (s : Series A) :
  series_map h (series_map g s) = series_map (fun a => h (g a)) s.
Proof. unfold series_map. rewrite map_map. reflexivity. Qed.

Lemma series_all_and {A : Type} (p q : A -> bool) (s : Series A) :
  series_all p s && series_all q s = series_all (fun a => p a && q a) s.
Proof.
  unfold series_all. induction s as [|x s IH]; simpl; [reflexivity|].
  rewrite <- IH. destruct (p (snd x)), (q (snd x)); simpl;
    rewrite ?andb_false_r; reflexivity.
Qed.

Lemma series_all_ext {A : Type} (p q : A -> bool) (s : Series A) :
  (forall a, p a = q a) -> series_all p s = series_all q s.
Proof.
  intros H. unfold series_all. induction s as [|x s IH]; simpl; [reflexivity|].
  now rewrite (H (snd x)), IH.
Qed.

Lemma series_all_agree {A : Type} (p q : A -> bool) (s : Series A) :
  (forall x, In x s -> p (snd x) = q (snd x)) -> series_all p s = series_all q s.
Proof.
  unfold series_all. induction s as [|x s IH]; intros H; simpl; [reflexivity|].
  rewrite (H x (or_introl eq_refl)), IH; [reflexivity|].
  intros y Hy. apply H. now right.
Qed.

Lemma series_map_ext_all {A B : Type} (ok : A -> bool) (g h : A -> B)
  (s : Series A) :
  (forall a, ok a = true -> g a = h a) ->
  series_all ok s = true -> series_map g s = series_map h s.
Proof.
  intros H S. unfold series_map. apply map_ext_in. intros p Hp.
  unfold series_all in S. rewrite forallb_forall in S.
  now rewrite (H _ (S p Hp)).
Qed.

Lemma index_series_map {A B : Type} (g : A -> B) (s : Series A) :
  index (series_map g s) = index s.
Proof. unfold index, series_map. rewrite map_map. reflexivity. Qed.

Section ConversionFacts.

Variable Mol : Type.
Variable MolFromSmiles : string -> option Mol.
Variable MolToInchi : Mol -> string.
Variable InchiToInchiKey : string -> string.
Variable MolToSmiles : Mol -> bool -> string.
Variable ExactMolWt : Mol -> PyFloat.float.
Variable CalcMolFormula : Mol -> string.

Let is_some (x : option Mol) : bool :=
  match x with
  | Some _ => true
  | None => false
  end.

(** The two conversions in a row that all the helpers start with, or
    apply to what they parsed: [x -> MolFromSmiles(x) -> f(mol)]. *)
Lemma parse_then (f : Mol -> cell) (s : Series cell) :
  (molList <- series_apply (mol_of_cell MolFromSmiles) s ;;
   series_apply (on_mol (fun m => f m)) molList)
  = if series_all (parses MolFromSmiles) s
    then Ok (series_map (fun c => of_molecule f (molecule MolFromSmiles c)) s)
    else Raise ArgumentError.
Proof.
  rewrite (series_apply_checked (mol_of_cell MolFromSmiles) is_string
             (molecule MolFromSmiles)).
  - destruct (series_all is_string s) eqn:S; cbn [bind].
    + rewrite (series_apply_checked (on_mol (fun m => f m)) is_some
                 (of_molecule f)).
      * rewrite series_all_map, series_map_map. reflexivity.
      * intros [m|]; reflexivity.
    + replace (series_all (parses MolFromSmiles) s) with false; [reflexivity|].
      symmetry. apply not_true_is_false. intros T.
      apply not_true_iff_false in S. apply S.
      unfold series_all in *. rewrite forallb_forall in *.
      intros p Hp. specialize (T p Hp). now destruct (snd p).
  - intros [x|z|b|x]; reflexivity.
Qed.

Lemma parsed_molecules (s : Series cell) :
  series_apply (mol_of_cell MolFromSmiles) s
  = if series_all is_string s
    then Ok (series_map (molecule MolFromSmiles) s)
    else Raise ArgumentError.
Proof. apply series_apply_checked. intros [x|z|b|x]; reflexivity. Qed.

Lemma on_parsed (f : Mol -> cell) (s : Series cell) :
  series_all is_string s = true ->
  series_apply (on_mol (fun m => f m)) (series_map (molecule MolFromSmiles) s)
  = if series_all (parses MolFromSmiles) s
    then Ok (series_map (fun c => of_molecule f (molecule MolFromSmiles c)) s)
    else Raise ArgumentError.
Proof.
  intros S. pose proof (parse_then f s) as P.
  rewrite parsed_molecules, S in P. exact P.
Qed.

Lemma parses_string (s : Series cell) :
  series_all (parses MolFromSmiles) s = true -> series_all is_string s = true.
Proof.
  unfold series_all. rewrite !forallb_forall. intros H p Hp.
  specialize (H p Hp). now destruct (snd p).
Qed.

(** [SMILES_to_InchiKey(smile_List)] *)
Lemma SMILES_to_InchiKey_stereo (s : Series cell) :
  SMILES_to_InchiKey MolFromSmiles MolToInchi InchiToInchiKey MolToSmiles s true
  = if series_all (parses MolFromSmiles) s
    then Ok (series_map (key_cell MolFromSmiles MolToInchi InchiToInchiKey) s)
    else Raise ArgumentError.
Proof.
  unfold SMILES_to_InchiKey. cbn [negb].
  rewrite parsed_molecules.
  destruct (series_all is_string s) eqn:S; cbn [bind].
  - rewrite (series_apply_checked (on_mol MolToInchi) is_some
               (fun x => match x with Some m => MolToInchi m | None => "" end))
      by (intros [m|]; reflexivity).
    rewrite series_all_map.
    replace (series_all (fun a => is_some (molecule MolFromSmiles a)) s)
      with (series_all (parses MolFromSmiles) s) by reflexivity.
    destruct (series_all (parses MolFromSmiles) s) eqn:P; cbn [bind];
      [|reflexivity].
    rewrite (series_apply_ok _ (fun i => Str (InchiToInchiKey i)))
      by reflexivity.
    fold (series_map (fun i => Str (InchiToInchiKey i))
            (series_map (fun x : option Mol =>
                           match x with Some m => MolToInchi m | None => "" end)
                        (series_map (molecule MolFromSmiles) s))).
    rewrite !series_map_map. f_equal.
    apply (series_map_ext_all (parses MolFromSmiles)); [|exact P].
    intros a. unfold parses, key_cell.
    now destruct (molecule MolFromSmiles a).
  - replace (series_all (parses MolFromSmiles) s) with false; [reflexivity|].
    symmetry. apply not_true_is_false. intros T.
    rewrite (parses_string s T) in S. discriminate.
Qed.

(** [clean_SMILES(series_List)] *)
Lemma clean_SMILES_checked (s : Series cell) :
  clean_SMILES MolFromSmiles MolToSmiles s
  = if series_all (parses MolFromSmiles) s
    then Ok (series_map (clean_cell MolFromSmiles MolToSmiles) s)
    else Raise ArgumentError.
Proof. unfold clean_SMILES. apply parse_then. Qed.

(** [SMILES_to_MW(smile_List)] once the mass of the proton is known. *)
Lemma SMILES_to_MW_checked (s : Series cell) (proton : Mol) :
  MolFromSmiles "[H+]" = Some proton ->
  SMILES_to_MW MolFromSmiles ExactMolWt CalcMolFormula s
  = if series_all (parses MolFromSmiles) s
    then Ok (series_map (formula_cell MolFromSmiles CalcMolFormula) s,
             series_map (mass_cell MolFromSmiles ExactMolWt (ExactMolWt proton)) s)
    else Raise ArgumentError.
Proof.
  intros H. unfold SMILES_to_MW, mass_H. rewrite H. cbn [on_mol bind].
  rewrite parsed_molecules.
  destruct (series_all is_string s) eqn:S; cbn [bind].
  - rewrite (on_parsed (fun m => Flt (PyFloat.add (ExactMolWt m)
                                                  (ExactMolWt proton))) s S).
    destruct (series_all (parses MolFromSmiles) s) eqn:P; cbn [bind];
      [|reflexivity].
    rewrite (on_parsed (fun m => Str (CalcMolFormula m)) s S), P.
    reflexivity.
  - replace (series_all (parses MolFromSmiles) s) with false; [reflexivity|].
    symmetry. apply not_true_is_false. intros T.
    rewrite (parses_string s T) in S. discriminate.
Qed.

Lemma flattens_parses (s : Series cell) :
  series_all (flattens MolFromSmiles MolToSmiles) s = true ->
  series_all (parses MolFromSmiles) s = true.
Proof.
  unfold series_all. rewrite !forallb_forall. intros H p Hp.
  specialize (H p Hp). unfold flattens, flattened, parses in *.
  now destruct (molecule MolFromSmiles (snd p)).
Qed.

(** [SMILES_to_InchiKey(smile_List, stereoisomer = False)] *)
Lemma SMILES_to_InchiKey_flat (s : Series cell) :
  SMILES_to_InchiKey MolFromSmiles MolToInchi InchiToInchiKey MolToSmiles s false
  = if series_all (flattens MolFromSmiles MolToSmiles) s
    then Ok (series_map (flat_key_cell MolFromSmiles MolToInchi InchiToInchiKey
                                       MolToSmiles) s)
    else Raise ArgumentError.
Proof.
  unfold SMILES_to_InchiKey. cbn [negb].
  rewrite parsed_molecules.
  destruct (series_all (parses MolFromSmiles) s) eqn:P.
  - rewrite (parses_string s P). cbn [bind].
    rewrite (series_apply_checked (on_mol (fun m => MolToSmiles m false)) is_some
               (fun x => match x with
                         | Some m => MolToSmiles m false
                         | None => ""
                         end))
      by (intros [m|]; reflexivity).
    rewrite series_all_map.
    replace (series_all (fun a => is_some (molecule MolFromSmiles a)) s)
      with (series_all (parses MolFromSmiles) s) by reflexivity.
    rewrite P. cbn [bind].
    rewrite (series_apply_ok _ MolFromSmiles) by reflexivity. cbn [bind].
    fold (series_map MolFromSmiles
            (series_map (fun x : option Mol =>
                           match x with
                           | Some m => MolToSmiles m false
                           | None => ""
                           end)
                        (series_map (molecule MolFromSmiles) s))).
    rewrite !series_map_map.
    rewrite (series_apply_checked (on_mol MolToInchi) is_some
               (fun x => match x with Some m => MolToInchi m | None => "" end))
      by (intros [m|]; reflexivity).
    rewrite series_all_map.
    assert (F : series_all
                  (fun a => is_some
                              (MolFromSmiles
                                 match molecule MolFromSmiles a with
                                 | Some m => MolToSmiles m false
                                 | None => ""
                                 end)) s
                = series_all (flattens MolFromSmiles MolToSmiles) s).
    { apply series_all_agree. intros p Hp.
      unfold series_all in P. rewrite forallb_forall in P.
      specialize (P p Hp). unfold flattens, flattened, parses in *.
      now destruct (molecule MolFromSmiles (snd p)). }
    rewrite F.
    destruct (series_all (flattens MolFromSmiles MolToSmiles) s) eqn:T;
      cbn [bind]; [|reflexivity].
    rewrite (series_apply_ok _ (fun i => Str (InchiToInchiKey i)))
      by reflexivity.
    fold (series_map (fun i => Str (InchiToInchiKey i))
            (series_map (fun x : option Mol =>
                           match x with Some m => MolToInchi m | None => "" end)
                        (series_map
                           (fun a => MolFromSmiles
                                       match molecule MolFromSmiles a with
                                       | Some m => MolToSmiles m false
                                       | None => ""
                                       end) s))).
    rewrite !series_map_map. f_equal.
    apply (series_map_ext_all (flattens MolFromSmiles MolToSmiles)); [|exact T].
    intros a. unfold flattens, flat_key_cell, flattened.
    destruct (molecule MolFromSmiles a); [|discriminate].
    now destruct (MolFromSmiles (MolToSmiles m false)).
  - replace (series_all (flattens MolFromSmiles MolToSmiles) s) with false.
    + destruct (series_all is_string s) eqn:S; cbn [bind]; [|reflexivity].
      rewrite (series_apply_checked (on_mol (fun m => MolToSmiles m false))
                 is_some
                 (fun x => match x with
                           | Some m => MolToSmiles m false
                           | None => ""
                           end))
        by (intros [m|]; reflexivity).
      rewrite series_all_map.
      replace (series_all (fun a => is_some (molecule MolFromSmiles a)) s)
        with (series_all (parses MolFromSmiles) s) by reflexivity.
      now rewrite P.
    + symmetry. apply not_true_is_false. intros T.
      rewrite (flattens_parses s T) in P. discriminate.
Qed.

End ConversionFacts.

(** X12.  The three conversions of a Series of SMILES strings through RDKit
    are all-or-nothing.  Each returns a Series with the labels of its
    argument, the value at every label computed from the molecule of the
    cell, when every cell is a string that RDKit parses (and, without
    stereochemistry, whose stereo-free SMILES RDKit parses again);
    otherwise it raises, whatever the other cells hold. *)
Theorem conversions_all_or_nothing
  (Mol : Type) (MolFromSmiles : string -> option Mol)
  (MolToInchi : Mol -> string) (InchiToInchiKey : string -> string)
  (MolToSmiles : Mol -> bool -> string) (smile_List : Series cell) :
  SMILES_to_InchiKey MolFromSmiles MolToInchi InchiToInchiKey MolToSmiles
                     smile_List true
  = (if series_all (parses MolFromSmiles) smile_List
     then Ok (series_map (key_cell MolFromSmiles MolToInchi InchiToInchiKey)
                         smile_List)
     else Raise ArgumentError)
  /\ SMILES_to_InchiKey MolFromSmiles MolToInchi InchiToInchiKey MolToSmiles
                        smile_List false
     = (if series_all (flattens MolFromSmiles MolToSmiles) smile_List
        then Ok (series_map (flat_key_cell MolFromSmiles MolToInchi
                                           InchiToInchiKey MolToSmiles)
                            smile_List)
        else Raise ArgumentError)
  /\ clean_SMILES MolFromSmiles MolToSmiles smile_List
     = (if series_all (parses MolFromSmiles) smile_List
        then Ok (series_map (clean_cell MolFromSmiles MolToSmiles) smile_List)
        else Raise ArgumentError)
  /\ index (series_map (key_cell MolFromSmiles MolToInchi InchiToInchiKey)
                       smile_List) = index smile_List.
Proof.
  split; [apply SMILES_to_InchiKey_stereo|].
  split; [apply SMILES_to_InchiKey_flat|].
  split; [apply clean_SMILES_checked|apply index_series_map].
Qed.

(** X13.  [SMILES_to_MW] raises on a Series of which one cell is not a string
    that RDKit parses, and when RDKit does not parse the proton; it never
    marks a cell as incompatible.  Otherwise its two columns hold, label
    by label, the formula of the molecule and its mass plus the mass of
    the proton. *)
Theorem SMILES_to_MW_all_or_nothing
  (Mol : Type) (MolFromSmiles : string -> option Mol)
  (ExactMolWt : Mol -> PyFloat.float) (CalcMolFormula : Mol -> string)
  (smile_List : Series cell) :
  SMILES_to_MW MolFromSmiles ExactMolWt CalcMolFormula smile_List
  = match MolFromSmiles "[H+]" with
    | None => Raise ArgumentError
    | Some proton =>
        if series_all (parses MolFromSmiles) smile_List
        then Ok (series_map (formula_cell MolFromSmiles CalcMolFormula) smile_List,
                 series_map (mass_cell MolFromSmiles ExactMolWt (ExactMolWt proton))
                            smile_List)
        else Raise ArgumentError
    end.
Proof.
  destruct (MolFromSmiles "[H+]") as [proton|] eqn:H.
  - now apply SMILES_to_MW_checked.
  - unfold SMILES_to_MW, mass_H. now rewrite H.
Qed.

(* ================================================================= *)
(** * The pandas operations on a frame given row by row *)

Section FrameOf.

Variable X : Type.
Variable cols : list string.
Variable g : nat * X -> list cell.
Variable E : list (nat * X).

Lemma frame_ext (g' : nat * X -> list cell) :
  (forall e, In e E -> g e = g' e) -> frame_of cols g E = frame_of cols g' E.
Proof.
  intros H. unfold frame_of. f_equal. apply map_ext_in.
  intros e He. now rewrite (H e He).
Qed.

Lemma frame_setitem_with (c : string) (f : nat * list cell -> cell) :
  setitem_with (frame_of cols g E) c f
  = frame_of (with_column cols c)
             (fun e => put cols c (f (fst e, g e)) (g e)) E.
Proof.
  unfold setitem_with, frame_of, with_column, put. simpl.
  destruct (position c cols) as [j|]; f_equal; now rewrite map_map.
Qed.

Lemma frame_setitem_const (c : string) (v : cell) :
  setitem_const (frame_of cols g E) c v
  = frame_of (with_column cols c) (fun e => put cols c v (g e)) E.
Proof. unfold setitem_const. apply frame_setitem_with. Qed.

Lemma frame_getitem (c : string) (j : nat) :
  position c cols = Some j ->
  getitem (frame_of cols g E) c = Ok (map (fun e => (fst e, nth j (g e) NaN)) E).
Proof.
  intros P. unfold getitem, frame_of. simpl. rewrite P. f_equal.
  now rewrite map_map.
Qed.

Lemma frame_project (cs : list string) (js : list nat) :
  mapM (fun c => match position c cols with
                 | Some j => Ok j
                 | None => Raise (KeyError c)
                 end) cs = Ok js ->
  project (frame_of cols g E) cs
  = Ok (frame_of cs (fun e => map (fun j => nth j (g e) NaN) js) E).
Proof.
  intros P. unfold project, frame_of. simpl. rewrite P. cbn [bind].
  do 2 f_equal. now rewrite map_map.
Qed.

Lemma frame_drop_duplicates :
  drop_duplicates_keep_index (frame_of cols g E)
  = frame_of cols g (distinct (fun a b => row_same (g a) (g b)) E).
Proof.
  unfold drop_duplicates_keep_index, frame_of, distinct. simpl. f_equal.
  change (@nil (nat * list cell)) with (map (fun e => (fst e, g e)) []).
  generalize (@nil (nat * X)) as seen.
  induction E as [|e rows IH]; intros seen; simpl; [reflexivity|].
  assert (S : existsb (fun r2 => row_same (g e) (snd r2))
                      (map (fun e => (fst e, g e)) seen)
              = existsb (fun b => row_same (g e) (g b)) seen).
  { clear. induction seen as [|s seen IHs]; simpl; [reflexivity|].
    now rewrite IHs. }
  rewrite S. destruct (existsb _ seen).
  - apply IH.
  - simpl. f_equal. apply (IH (e :: seen)).
Qed.

Hypothesis Hlabels : NoDup (map fst E).

Lemma frame_setitem_all (c : string) (v : nat * X -> cell) :
  setitem (frame_of cols g E) c (map (fun e => (fst e, v e)) E)
  = frame_of (with_column cols c) (fun e => put cols c (v e) (g e)) E.
Proof.
  unfold setitem. rewrite frame_setitem_with. unfold frame_of. f_equal.
  apply map_ext_in. intros e He. cbn [fst].
  now rewrite (loc_rows v E e Hlabels He).
Qed.

Lemma frame_setitem_part (c : string) (v : nat * X -> cell)
  (q : nat * X -> bool) :
  setitem (frame_of cols g E) c (map (fun e => (fst e, v e)) (filter q E))
  = frame_of (with_column cols c)
             (fun e => put cols c (if q e then v e else NaN) (g e)) E.
Proof.
  unfold setitem. rewrite frame_setitem_with. unfold frame_of. f_equal.
  apply map_ext_in. intros e He. cbn [fst].
  rewrite (loc_filter_rows q v E e Hlabels He). now destruct (q e).
Qed.

Lemma frame_select (b : nat * X -> bool) :
  select (frame_of cols g E) (map (fun e => (fst e, b e)) E)
  = frame_of cols g (filter b E).
Proof.
  unfold select, frame_of. simpl. f_equal.
  rewrite filter_map_comm. f_equal. apply filter_ext_in.
  intros e He. cbn [fst]. now rewrite (loc_rows b E e Hlabels He).
Qed.

Lemma series_select_rows (v : nat * X -> cell) (b : nat * X -> bool) :
  series_select (map (fun e => (fst e, v e)) E) (map (fun e => (fst e, b e)) E)
  = map (fun e => (fst e, v e)) (filter b E).
Proof.
  unfold series_select. rewrite filter_map_comm. f_equal.
  apply filter_ext_in. intros e He. cbn [fst].
  now rewrite (loc_rows b E e Hlabels He).
Qed.

End FrameOf.

Lemma labels_distinct_NoDup {X : Type} (eqb : nat * X -> nat * X -> bool)
  (entries : list (nat * X)) :
  NoDup (map fst entries) -> NoDup (map fst (distinct eqb entries)).
Proof.
  unfold distinct. generalize (@nil (nat * X)) as seen.
  induction entries as [|e rows IH]; intros seen Hlabels; simpl; [constructor|].
  inversion Hlabels as [|i l Hi Hl]; subst.
  destruct (existsb (eqb e) seen); [now apply IH|].
  simpl. constructor; [|now apply IH].
  intros Hin. apply Hi. apply in_map_iff in Hin.
  destruct Hin as [x [Ex Hx]]. apply distinct_from_In in Hx.
  apply in_map_iff. exists x. tauto.
Qed.

Lemma series_isnull_rows {X : Type} (v : nat * X -> cell) (E : list (nat * X)) :
  series_isnull (map (fun e => (fst e, v e)) E)
  = map (fun e => (fst e, isna (v e))) E.
Proof. unfold series_isnull. now rewrite map_map. Qed.

Lemma series_notnull_rows {X : Type} (v : nat * X -> cell) (E : list (nat * X)) :
  series_notnull (map (fun e => (fst e, v e)) E)
  = map (fun e => (fst e, negb (isna (v e)))) E.
Proof. unfold series_notnull. now rewrite map_map. Qed.

Lemma series_replace_rows {X : Type} (v : nat * X -> cell) (old new : cell)
  (E : list (nat * X)) :
  series_replace (map (fun e => (fst e, v e)) E) old new
  = map (fun e => (fst e, if py_eq (v e) old then new else v e)) E.
Proof. unfold series_replace. now rewrite map_map. Qed.

Lemma series_map_rows {X A B : Type} (k : A -> B) (v : nat * X -> A)
  (E : list (nat * X)) :
  series_map k (map (fun e => (fst e, v e)) E)
  = map (fun e => (fst e, k (v e))) E.
Proof. unfold series_map. now rewrite map_map. Qed.

Lemma series_all_rows {X : Type} (ok : cell -> bool) (v : nat * X -> cell)
  (E : list (nat * X)) :
  series_all ok (map (fun e => (fst e, v e)) E) = forallb (fun e => ok (v e)) E.
Proof.
  unfold series_all. induction E as [|e E IH]; simpl; [reflexivity|].
  now rewrite IH.
Qed.

Lemma slice_rows_frame {X : Type} (cols : list string)
  (g : nat * X -> list cell) (E : list (nat * X)) (start : nat) :
  slice_rows (frame_of cols g E) start
  = frame_of cols g (firstn (List.length E - 2 - start) (skipn start E)).
Proof.
  unfold slice_rows, frame_of. simpl. f_equal.
  now rewrite length_map, skipn_map, firstn_map.
Qed.

Lemma forallb_agree {A : Type} (p q : A -> bool) (rows : list A) :
  (forall x, p x = q x) -> forallb p rows = forallb q rows.
Proof.
  intros H. induction rows as [|x rows IH]; simpl; [reflexivity|].
  now rewrite (H x), IH.
Qed.

(* ================================================================= *)
(** * [TIMES_cleanup] on any export *)

(* ----------------------------------------------------------------- *)
(** ** The forward fill *)

Lemma carry_labels (l : list (nat * (cell * cell))) (last : cell) :
  map fst (carry last l) = map fst l.
Proof.
  revert last. induction l as [|[i [n s]] l IH]; intros last; simpl;
    [reflexivity|].
  now rewrite IH.
Qed.

Lemma carry_raw (l : list (nat * (cell * cell))) (last : cell) :
  map (fun e => (fst e, [raw_name (snd e); structure (snd e)])) (carry last l)
  = map (fun p => (fst p, [fst (snd p); snd (snd p)])) l.
Proof.
  revert last. induction l as [|[i [n s]] l IH]; intros last; simpl;
    [reflexivity|].
  now rewrite IH.
Qed.

(** The forward fill of the column of the names leaves on every row the
    name that [carry] computes. *)
Lemma ffill_carry (l : list (nat * (cell * cell))) (last : cell) :
  ffill_from last
    (map (fun e => (fst e, blank_to_missing (raw_name (snd e)))) (carry last l))
  = map (fun e => (fst e, carried (snd e))) (carry last l).
Proof.
  revert last. induction l as [|[i [n s]] l IH]; intros last; simpl;
    [reflexivity|].
  destruct (isna (blank_to_missing n)); simpl; now rewrite IH.
Qed.

Lemma ffill_entries (file : DataFrame) (header : nat) :
  ffill (map (fun e => (fst e, blank_to_missing (raw_name (snd e))))
             (times_entries file header))
  = map (fun e => (fst e, carried (snd e))) (times_entries file header).
Proof. unfold ffill, times_entries. apply ffill_carry. Qed.

Lemma slice_labels (file : DataFrame) (header : nat) :
  unique_index file = true -> NoDup (map fst (times_slice file header)).
Proof.
  intros H. apply unique_index_NoDup in H. unfold times_slice.
  set (n := (List.length (body file) - 2 - header)%nat).
  rewrite <- (firstn_skipn header (body file)), map_app in H.
  apply NoDup_app_remove_l in H.
  rewrite <- (firstn_skipn n (skipn header (body file))), map_app in H.
  now apply NoDup_app_remove_r in H.
Qed.

Lemma entries_labels (file : DataFrame) (header : nat) :
  unique_index file = true -> NoDup (map fst (times_entries file header)).
Proof.
  intros H. unfold times_entries. rewrite carry_labels, map_map. simpl.
  now apply slice_labels.
Qed.

(* ----------------------------------------------------------------- *)
(** ** The statements of the adapter, one by one *)

Ltac bind_to a tac :=
  lazymatch goal with
  | |- bind (Ok ?a') ?k = ?r => change (k a' = r); cbv beta
  | |- bind ?c ?k = ?r =>
      let H := fresh "H" in
      assert (H : c = Ok a) by tac;
      rewrite H; clear H;
      lazymatch goal with
      | |- bind (Ok ?a') ?k' = ?r' => change (k' a' = r'); cbv beta
      end
  end.

Ltac let_to a tac :=
  lazymatch goal with
  | |- (let x := ?v in @?b x) = ?r =>
      let H := fresh "H" in
      assert (H : v = a) by tac;
      rewrite H; clear H;
      lazymatch goal with
      | |- (let x := ?v' in @?b' x) = ?r' => change (b' v' = r'); cbv beta
      end
  end.

Section TimesRowsFacts.

Variable Mol : Type.
Variable MolFromSmiles : string -> option Mol.
Variable MolToInchi : Mol -> string.
Variable InchiToInchiKey : string -> string.
Variable MolToSmiles : Mol -> bool -> string.
Variable ExactMolWt : Mol -> PyFloat.float.
Variable CalcMolFormula : Mol -> string.

Variable file : DataFrame.
Variable Model_Module : string.
Variable header : nat.
Variable proton : Mol.

Hypothesis Hindex : unique_index file = true.
Hypothesis Hname :
  has_column (rename file "Chem. Name" "DTXSID") "DTXSID" = true.
Hypothesis Hsmiles :
  has_column (rename file "Chem. Name" "DTXSID") "Smiles" = true.
Hypothesis Hmodule : mem Model_Module times_columns = false.
Hypothesis Hproton : MolFromSmiles "[H+]" = Some proton.

Local Abbreviation E := (times_entries file header).
Local Abbreviation kept :=
  (times_kept MolFromSmiles MolToInchi InchiToInchiKey file header).
Local Abbreviation key := (key_cell MolFromSmiles MolToInchi InchiToInchiKey).
Local Abbreviation named := (fun e : nat * times_entry =>
                           blank_to_missing (raw_name (snd e))).

Ltac fresh_eqb :=
  repeat match goal with
         | |- context [String.eqb ?a Model_Module] =>
             rewrite (fresh_column_l a Model_Module Hmodule)
               by (simpl; tauto)
         | |- context [String.eqb Model_Module ?b] =>
             rewrite (fresh_column_r b Model_Module Hmodule)
               by (simpl; tauto)
         end.

Ltac pos :=
  cbn [position]; rewrite ?String.eqb_refl; eval_eqb; fresh_eqb;
  cbn [position]; reflexivity.

Ltac place p :=
  unfold with_column, put; rewrite p; cbn [app set_nth]; reflexivity.

Lemma project_export :
  project (rename file "Chem. Name" "DTXSID") ["DTXSID"; "Smiles"]
  = Ok (frame_of ["DTXSID"; "Smiles"]
          (fun r => [field (rename file "Chem. Name" "DTXSID") "DTXSID" r;
                     field (rename file "Chem. Name" "DTXSID") "Smiles" r])
          (body file)).
Proof.
  destruct (position_has_column _ _ Hname) as [j Hj].
  destruct (position_has_column _ _ Hsmiles) as [j' Hj'].
  unfold project, frame_of, field. cbn [mapM]. rewrite Hj, Hj'. reflexivity.
Qed.

Lemma sliced_export :
  slice_rows
    (frame_of ["DTXSID"; "Smiles"]
       (fun r => [field (rename file "Chem. Name" "DTXSID") "DTXSID" r;
                  field (rename file "Chem. Name" "DTXSID") "Smiles" r])
       (body file)) header
  = frame_of ["DTXSID"; "Smiles"]
             (fun e => [raw_name (snd e); structure (snd e)]) E.
Proof.
  rewrite slice_rows_frame. unfold frame_of, times_entries. f_equal.
  rewrite carry_raw, map_map. reflexivity.
Qed.

Lemma kept_are_metabolites (e : nat * times_entry) :
  In e kept -> In e E /\ is_metabolite e = true.
Proof.
  intros H. unfold times_kept in H. apply distinct_from_In in H.
  destruct H as [H _]. now apply filter_In in H.
Qed.

Lemma kept_labels : NoDup (map fst kept).
Proof.
  unfold times_kept.
  apply labels_distinct_NoDup.
  apply labels_filter_NoDup. now apply entries_labels.
Qed.

Lemma key_not_missing (c : cell) :
  parses MolFromSmiles c = true -> isna (key c) = false.
Proof.
  unfold parses, key_cell. now destruct (molecule MolFromSmiles c).
Qed.

(** What [TIMES_cleanup] returns on an export, whatever its rows. *)
Lemma TIMES_cleanup_rows :
  TIMES_cleanup MolFromSmiles MolToInchi InchiToInchiKey MolToSmiles
                ExactMolWt CalcMolFormula file Model_Module header
  = if metabolites_parse MolFromSmiles file header
    then Ok (frame_of (times_header Model_Module)
                      (times_row MolFromSmiles MolToInchi InchiToInchiKey
                                 MolToSmiles ExactMolWt CalcMolFormula
                                 (ExactMolWt proton))
                      kept)
    else Raise ArgumentError.
Proof.
  pose proof (entries_labels file header Hindex) as HE.
  pose proof kept_labels as HK.
  cbv delta [TIMES_cleanup] beta.
  lazymatch goal with
  | |- (let x := ?v in @?b x) = ?r => change (b v = r); cbv beta
  end.
  bind_to (frame_of ["DTXSID"; "Smiles"]
             (fun r => [field (rename file "Chem. Name" "DTXSID") "DTXSID" r;
                        field (rename file "Chem. Name" "DTXSID") "Smiles" r])
             (body file))
          ltac:(apply project_export).
  let_to (frame_of ["DTXSID"; "Smiles"]
            (fun e : nat * times_entry => [raw_name (snd e); structure (snd e)])
            E)
         ltac:(apply sliced_export).
  (* df[Model_Module] = 1 *)
  let_to (frame_of ["DTXSID"; "Smiles"; Model_Module]
            (fun e : nat * times_entry =>
               [raw_name (snd e); structure (snd e); Num 1]) E)
         ltac:(rewrite frame_setitem_const;
               assert (P : position Model_Module ["DTXSID"; "Smiles"] = None)
                 by pos;
               place P).
  (* df['DTXSID'].replace({' ': np.NaN}, inplace = True) *)
  bind_to (map (fun e : nat * times_entry => (fst e, raw_name (snd e))) E)
          ltac:(rewrite (frame_getitem _ _ _ _ _ 0%nat) by pos; reflexivity).
  let_to (frame_of ["DTXSID"; "Smiles"; Model_Module]
            (fun e : nat * times_entry =>
               [named e; structure (snd e); Num 1]) E)
         ltac:(rewrite series_replace_rows;
               rewrite (frame_setitem_all _ _ _ E HE);
               assert (P : position "DTXSID" ["DTXSID"; "Smiles"; Model_Module]
                           = Some 0%nat) by pos;
               place P).
  (* df['Metabolite_INCHIKEY'] = np.NaN *)
  let_to (frame_of ["DTXSID"; "Smiles"; Model_Module; "Metabolite_INCHIKEY"]
            (fun e : nat * times_entry =>
               [named e; structure (snd e); Num 1; NaN]) E)
         ltac:(rewrite frame_setitem_const;
               assert (P : position "Metabolite_INCHIKEY"
                                    ["DTXSID"; "Smiles"; Model_Module] = None)
                 by pos;
               place P).
  (* metabList = df.Smiles[df['DTXSID'].isnull()] *)
  bind_to (map (fun e : nat * times_entry => (fst e, structure (snd e))) E)
          ltac:(rewrite (frame_getitem _ _ _ _ _ 1%nat) by pos; reflexivity).
  bind_to (map (fun e : nat * times_entry => (fst e, named e)) E)
          ltac:(rewrite (frame_getitem _ _ _ _ _ 0%nat) by pos; reflexivity).
  let_to (map (fun e : nat * times_entry => (fst e, structure (snd e)))
              (filter is_metabolite E))
         ltac:(rewrite series_isnull_rows;
               rewrite (series_select_rows _ E HE); reflexivity).
  (* df['Metabolite_INCHIKEY'] = SMILES_to_InchiKey(metabList) *)
  rewrite SMILES_to_InchiKey_stereo, series_all_rows.
  change (forallb (fun e : nat * times_entry =>
                     parses MolFromSmiles (structure (snd e)))
                  (filter is_metabolite E))
    with (metabolites_parse MolFromSmiles file header).
  destruct (metabolites_parse MolFromSmiles file header) eqn:Hparse;
    [|reflexivity].
  assert (Hp : forall e, In e E -> is_metabolite e = true ->
                         parses MolFromSmiles (structure (snd e)) = true).
  { intros e He Me. unfold metabolites_parse in Hparse.
    rewrite forallb_forall in Hparse. apply Hparse.
    apply filter_In. now split. }
  rewrite series_map_rows.
  bind_to (map (fun e : nat * times_entry => (fst e, key (structure (snd e))))
               (filter is_metabolite E))
          ltac:(reflexivity).
  let_to (frame_of ["DTXSID"; "Smiles"; Model_Module; "Metabolite_INCHIKEY"]
            (fun e : nat * times_entry =>
               [named e; structure (snd e); Num 1;
                if is_metabolite e then key (structure (snd e)) else NaN]) E)
         ltac:(rewrite (frame_setitem_part _ _ _ E HE);
               assert (P : position "Metabolite_INCHIKEY"
                             ["DTXSID"; "Smiles"; Model_Module;
                              "Metabolite_INCHIKEY"] = Some 3%nat) by pos;
               place P).
  (* df['DTXSID'] = df['DTXSID'].fillna(method = 'ffill') *)
  bind_to (map (fun e : nat * times_entry => (fst e, named e)) E)
          ltac:(rewrite (frame_getitem _ _ _ _ _ 0%nat) by pos; reflexivity).
  let_to (frame_of ["DTXSID"; "Smiles"; Model_Module; "Metabolite_INCHIKEY"]
            (fun e : nat * times_entry =>
               [carried (snd e); structure (snd e); Num 1;
                if is_metabolite e then key (structure (snd e)) else NaN]) E)
         ltac:(rewrite ffill_entries;
               rewrite (frame_setitem_all _ _ _ E HE);
               assert (P : position "DTXSID"
                             ["DTXSID"; "Smiles"; Model_Module;
                              "Metabolite_INCHIKEY"] = Some 0%nat) by pos;
               place P).
  (* df = df[df['Metabolite_INCHIKEY'].notnull()] *)
  bind_to (map (fun e : nat * times_entry =>
                  (fst e, if is_metabolite e then key (structure (snd e))
                          else NaN)) E)
          ltac:(rewrite (frame_getitem _ _ _ _ _ 3%nat) by pos; reflexivity).
  let_to (frame_of ["DTXSID"; "Smiles"; Model_Module; "Metabolite_INCHIKEY"]
            (times_compared MolFromSmiles MolToInchi InchiToInchiKey)
            (filter is_metabolite E))
         ltac:(rewrite series_notnull_rows;
               rewrite (frame_select _ _ _ E HE);
               rewrite (filter_ext_in _ is_metabolite E)
                 by (intros e He; destruct (is_metabolite e) eqn:Me;
                     [now rewrite (key_not_missing _ (Hp e He Me))
                     |reflexivity]);
               apply frame_ext; intros e He; apply filter_In in He;
               destruct He as [_ Me]; unfold times_compared;
               now rewrite Me).
  (* df = df.drop_duplicates() *)
  let_to (frame_of ["DTXSID"; "Smiles"; Model_Module; "Metabolite_INCHIKEY"]
            (times_compared MolFromSmiles MolToInchi InchiToInchiKey) kept)
         ltac:(apply frame_drop_duplicates).
  assert (Hk : forallb (fun e : nat * times_entry =>
                          parses MolFromSmiles (structure (snd e))) kept = true).
  { apply forallb_forall. intros e He.
    destruct (kept_are_metabolites e He) as [H1 H2]. now apply Hp. }
  (* df[['Formula','[M+H]']] = SMILES_to_MW(df.Smiles) *)
  bind_to (map (fun e : nat * times_entry => (fst e, structure (snd e))) kept)
          ltac:(rewrite (frame_getitem _ _ _ _ _ 1%nat) by pos; reflexivity).
  rewrite (SMILES_to_MW_checked _ _ _ _ _ proton Hproton), series_all_rows, Hk.
  rewrite !series_map_rows.
  bind_to (map (fun e : nat * times_entry =>
                  (fst e, formula_cell MolFromSmiles CalcMolFormula
                                       (structure (snd e)))) kept,
           map (fun e : nat * times_entry =>
                  (fst e, mass_cell MolFromSmiles ExactMolWt (ExactMolWt proton)
                                    (structure (snd e)))) kept)
          ltac:(reflexivity).
  let_to (frame_of ["DTXSID"; "Smiles"; Model_Module; "Metabolite_INCHIKEY";
                    "Formula"]
            (fun e : nat * times_entry =>
               [carried (snd e); structure (snd e); Num 1;
                key (structure (snd e));
                formula_cell MolFromSmiles CalcMolFormula (structure (snd e))])
            kept)
         ltac:(cbn [fst snd];
               rewrite (frame_setitem_all _ _ _ kept HK);
               assert (P : position "Formula"
                             ["DTXSID"; "Smiles"; Model_Module;
                              "Metabolite_INCHIKEY"] = None) by pos;
               place P).
  let_to (frame_of ["DTXSID"; "Smiles"; Model_Module; "Metabolite_INCHIKEY";
                    "Formula"; "[M+H]"]
            (fun e : nat * times_entry =>
               [carried (snd e); structure (snd e); Num 1;
                key (structure (snd e));
                formula_cell MolFromSmiles CalcMolFormula (structure (snd e));
                mass_cell MolFromSmiles ExactMolWt (ExactMolWt proton)
                          (structure (snd e))])
            kept)
         ltac:(cbn [fst snd];
               rewrite (frame_setitem_all _ _ _ kept HK);
               assert (P : position "[M+H]"
                             ["DTXSID"; "Smiles"; Model_Module;
                              "Metabolite_INCHIKEY"; "Formula"] = None) by pos;
               place P).
  (* df['Clean_SMILES'] = clean_SMILES(df['Smiles']) *)
  bind_to (map (fun e : nat * times_entry => (fst e, structure (snd e))) kept)
          ltac:(rewrite (frame_getitem _ _ _ _ _ 1%nat) by pos; reflexivity).
  rewrite clean_SMILES_checked, series_all_rows, Hk, series_map_rows.
  bind_to (map (fun e : nat * times_entry =>
                  (fst e, clean_cell MolFromSmiles MolToSmiles
                                     (structure (snd e)))) kept)
          ltac:(reflexivity).
  let_to (frame_of ["DTXSID"; "Smiles"; Model_Module; "Metabolite_INCHIKEY";
                    "Formula"; "[M+H]"; "Clean_SMILES"]
            (fun e : nat * times_entry =>
               [carried (snd e); structure (snd e); Num 1;
                key (structure (snd e));
                formula_cell MolFromSmiles CalcMolFormula (structure (snd e));
                mass_cell MolFromSmiles ExactMolWt (ExactMolWt proton)
                          (structure (snd e));
                clean_cell MolFromSmiles MolToSmiles (structure (snd e))])
            kept)
         ltac:(rewrite (frame_setitem_all _ _ _ kept HK);
               assert (P : position "Clean_SMILES"
                             ["DTXSID"; "Smiles"; Model_Module;
                              "Metabolite_INCHIKEY"; "Formula"; "[M+H]"] = None)
                 by pos;
               place P).
  rewrite (frame_project _ _ _ _ _ [0; 3; 6; 4; 5; 2]%nat).
  - reflexivity.
  - cbn [mapM position]. rewrite ?String.eqb_refl. eval_eqb. fresh_eqb.
    reflexivity.
Qed.

End TimesRowsFacts.

(* ----------------------------------------------------------------- *)
(** ** What the adapter returns *)

(** X14.  [TIMES_cleanup] on any export whose metabolite rows (the rows
    between the header rows and the two trailing rows whose name is
    blank or missing) hold SMILES that RDKit parses.  It returns one row
    for every metabolite row, the first of those that are the same,
    under the label the row has in the file; the row holds the name
    carried forward from the named rows above it in the slice, the key,
    the clean SMILES, the formula and the mass of the structure, and
    the flag 1.  The named rows are never returned, and their SMILES
    is never parsed. *)
Theorem TIMES_cleanup_metabolite_rows
  (Mol : Type) (MolFromSmiles : string -> option Mol)
  (MolToInchi : Mol -> string) (InchiToInchiKey : string -> string)
  (MolToSmiles : Mol -> bool -> string) (ExactMolWt : Mol -> PyFloat.float)
  (CalcMolFormula : Mol -> string)
  (file : DataFrame) (Model_Module : string) (header : nat) (proton : Mol) :
  unique_index file = true ->
  has_column (rename file "Chem. Name" "DTXSID") "DTXSID" = true ->
  has_column (rename file "Chem. Name" "DTXSID") "Smiles" = true ->
  mem Model_Module times_columns = false ->
  MolFromSmiles "[H+]" = Some proton ->
  metabolites_parse MolFromSmiles file header = true ->
  let kept := times_kept MolFromSmiles MolToInchi InchiToInchiKey file header in
  TIMES_cleanup MolFromSmiles MolToInchi InchiToInchiKey MolToSmiles
                ExactMolWt CalcMolFormula file Model_Module header
  = Ok (frame_of (times_header Model_Module)
                 (times_row MolFromSmiles MolToInchi InchiToInchiKey MolToSmiles
                            ExactMolWt CalcMolFormula (ExactMolWt proton))
                 kept)
  /\ NoDup (map fst kept)
  /\ (forall e, In e kept ->
        In e (times_entries file header) /\ is_metabolite e = true)
  /\ (forall e, In e (times_entries file header) -> is_metabolite e = true ->
        exists k, In k kept
          /\ row_same (times_compared MolFromSmiles MolToInchi InchiToInchiKey e)
                      (times_compared MolFromSmiles MolToInchi InchiToInchiKey k)
             = true).
Proof.
  intros Hi Hn Hs Hm Hp Hparse kept. split; [|split; [|split]].
  - rewrite (TIMES_cleanup_rows Mol MolFromSmiles MolToInchi InchiToInchiKey
               MolToSmiles ExactMolWt CalcMolFormula file Model_Module header
               proton Hi Hn Hs Hm Hp).
    now rewrite Hparse.
  - now apply kept_labels.
  - intros e He. now apply (kept_are_metabolites _ MolFromSmiles MolToInchi
                              InchiToInchiKey file header).
  - intros e He Me.
    destruct (distinct_from_covers
                (fun a b => row_same
                              (times_compared MolFromSmiles MolToInchi
                                              InchiToInchiKey a)
                              (times_compared MolFromSmiles MolToInchi
                                              InchiToInchiKey b))
                (filter is_metabolite (times_entries file header)) [] e)
      as [C | [k [Hk Ek]]].
    + intros a. apply row_same_refl.
    + apply filter_In. now split.
    + discriminate.
    + now exists k.
Qed.

Lemma TIMES_cleanup_metabolite_rows_witness :
  Toy.TIMES_cleanup times_export "TIMES_InVivo" 1
  = Ok (frame_of (times_header "TIMES_InVivo")
                 (times_row Toy.MolFromSmiles Toy.MolToInchi Toy.InchiToInchiKey
                            Toy.MolToSmiles Toy.ExactMolWt Toy.CalcMolFormula
                            (Toy.ExactMolWt "[H+]"))
                 (times_kept Toy.MolFromSmiles Toy.MolToInchi Toy.InchiToInchiKey
                             times_export 1)).
Proof.
  apply (TIMES_cleanup_metabolite_rows
           Toy.Mol Toy.MolFromSmiles Toy.MolToInchi Toy.InchiToInchiKey
           Toy.MolToSmiles Toy.ExactMolWt Toy.CalcMolFormula
           times_export "TIMES_InVivo" 1 "[H+]");
    reflexivity.
Defined.

(** X15.  One metabolite row whose SMILES is not a string that RDKit parses
    makes [TIMES_cleanup] raise: nothing is returned, for any parent of
    the export. *)
Theorem TIMES_cleanup_parse_failure
  (Mol : Type) (MolFromSmiles : string -> option Mol)
  (MolToInchi : Mol -> string) (InchiToInchiKey : string -> string)
  (MolToSmiles : Mol -> bool -> string) (ExactMolWt : Mol -> PyFloat.float)
  (CalcMolFormula : Mol -> string)
  (file : DataFrame) (Model_Module : string) (header : nat) (proton : Mol) :
  unique_index file = true ->
  has_column (rename file "Chem. Name" "DTXSID") "DTXSID" = true ->
  has_column (rename file "Chem. Name" "DTXSID") "Smiles" = true ->
  mem Model_Module times_columns = false ->
  MolFromSmiles "[H+]" = Some proton ->
  metabolites_parse MolFromSmiles file header = false ->
  TIMES_cleanup MolFromSmiles MolToInchi InchiToInchiKey MolToSmiles
                ExactMolWt CalcMolFormula file Model_Module header
  = Raise ArgumentError.
Proof.
  intros Hi Hn Hs Hm Hp Hparse.
  rewrite (TIMES_cleanup_rows Mol MolFromSmiles MolToInchi InchiToInchiKey
             MolToSmiles ExactMolWt CalcMolFormula file Model_Module header
             proton Hi Hn Hs Hm Hp).
  now rewrite Hparse.
Qed.

Lemma TIMES_cleanup_parse_failure_witness :
  Toy.TIMES_cleanup broken_export "TIMES_InVivo" 1 = Raise ArgumentError.
Proof.
  apply (TIMES_cleanup_parse_failure
           Toy.Mol Toy.MolFromSmiles Toy.MolToInchi Toy.InchiToInchiKey
           Toy.MolToSmiles Toy.ExactMolWt Toy.CalcMolFormula
           broken_export "TIMES_InVivo" 1 "[H+]");
    reflexivity.
Defined.

(** X16.  An export with no more rows than the header rows and the two
    trailing rows gives a table without rows. *)
Theorem TIMES_cleanup_short_export
  (Mol : Type) (MolFromSmiles : string -> option Mol)
  (MolToInchi : Mol -> string) (InchiToInchiKey : string -> string)
  (MolToSmiles : Mol -> bool -> string) (ExactMolWt : Mol -> PyFloat.float)
  (CalcMolFormula : Mol -> string)
  (file : DataFrame) (Model_Module : string) (header : nat) (proton : Mol) :
  unique_index file = true ->
  has_column (rename file "Chem. Name" "DTXSID") "DTXSID" = true ->
  has_column (rename file "Chem. Name" "DTXSID") "Smiles" = true ->
  mem Model_Module times_columns = false ->
  MolFromSmiles "[H+]" = Some proton ->
  (nrows file <= header + 2)%nat ->
  TIMES_cleanup MolFromSmiles MolToInchi InchiToInchiKey MolToSmiles
                ExactMolWt CalcMolFormula file Model_Module header
  = Ok (mkDF (times_header Model_Module) []).
Proof.
  intros Hi Hn Hs Hm Hp Hshort.
  rewrite (TIMES_cleanup_rows Mol MolFromSmiles MolToInchi InchiToInchiKey
             MolToSmiles ExactMolWt CalcMolFormula file Model_Module header
             proton Hi Hn Hs Hm Hp).
  assert (S : times_entries file header = []).
  { unfold times_entries, times_slice. unfold nrows in Hshort.
    replace (List.length (body file) - 2 - header)%nat with O by lia.
    reflexivity. }
  unfold metabolites_parse, times_kept. rewrite S. reflexivity.
Qed.

Lemma TIMES_cleanup_short_export_witness :
  Toy.TIMES_cleanup empty_export "TIMES_InVivo" 1
  = Ok (mkDF (times_header "TIMES_InVivo") []).
Proof.
  apply (TIMES_cleanup_short_export
           Toy.Mol Toy.MolFromSmiles Toy.MolToInchi Toy.InchiToInchiKey
           Toy.MolToSmiles Toy.ExactMolWt Toy.CalcMolFormula
           empty_export "TIMES_InVivo" 1 "[H+]");
    first [reflexivity | simpl; lia].
Defined.

(** X17.  An export without the column of the names, under either of its two
    names, or without the column [Smiles], makes [TIMES_cleanup] raise
    [KeyError]. *)
Theorem TIMES_cleanup_missing_column
  (Mol : Type) (MolFromSmiles : string -> option Mol)
  (MolToInchi : Mol -> string) (InchiToInchiKey : string -> string)
  (MolToSmiles : Mol -> bool -> string) (ExactMolWt : Mol -> PyFloat.float)
  (CalcMolFormula : Mol -> string)
  (file : DataFrame) (Model_Module : string) (header : nat) :
  has_column (rename file "Chem. Name" "DTXSID") "DTXSID"
  && has_column (rename file "Chem. Name" "DTXSID") "Smiles" = false ->
  exists k,
    TIMES_cleanup MolFromSmiles MolToInchi InchiToInchiKey MolToSmiles
                  ExactMolWt CalcMolFormula file Model_Module header
    = Raise (KeyError k).
Proof.
  intros H. unfold TIMES_cleanup, project. cbn [mapM].
  destruct (has_column (rename file "Chem. Name" "DTXSID") "DTXSID") eqn:Hn.
  - destruct (position_has_column _ _ Hn) as [j Hj]. rewrite Hj.
    simpl in H. rewrite (position_absent _ _ H). eexists. reflexivity.
  - rewrite (position_absent _ _ Hn). eexists. reflexivity.
Qed.

Lemma TIMES_cleanup_missing_column_witness :
  exists k, Toy.TIMES_cleanup nameless_export "TIMES_InVivo" 1
            = Raise (KeyError k).
Proof.
  apply (TIMES_cleanup_missing_column
           Toy.Mol Toy.MolFromSmiles Toy.MolToInchi Toy.InchiToInchiKey
           Toy.MolToSmiles Toy.ExactMolWt Toy.CalcMolFormula
           nameless_export "TIMES_InVivo" 1).
  reflexivity.
Defined.

(* ----------------------------------------------------------------- *)
(** ** The forward fill, block by block *)

Lemma carry_app (l1 l2 : list (nat * (cell * cell))) (last : cell) :
  exists last', carry last (l1 ++ l2) = carry last l1 ++ carry last' l2.
Proof.
  revert last. induction l1 as [|[i [n s]] l1 IH]; intros last; simpl.
  - now exists last.
  - destruct (IH (if isna (blank_to_missing n) then last else blank_to_missing n))
      as [last' E].
    exists last'. now rewrite E.
Qed.

(** The rows without a name that follow a row keep what was carried to
    them. *)
Lemma carry_unnamed (mids rest : list (nat * (cell * cell))) (last : cell) :
  forallb unnamed mids = true ->
  carry last (mids ++ rest)
  = map (fun r => (fst r, mk_entry (fst (snd r)) (snd (snd r)) last)) mids
    ++ carry last rest.
Proof.
  induction mids as [|[i [n s]] mids IH]; simpl; [reflexivity|].
  intros H. apply andb_true_iff in H. destruct H as [H1 H2].
  unfold unnamed in H1. simpl in H1. rewrite H1. now rewrite (IH H2).
Qed.

Lemma same_string (s : string) (c : cell) : same (Str s) c = true -> c = Str s.
Proof.
  unfold same. destruct c as [t|z|b|[sg| sg | |sg m e]]; simpl; try discriminate.
  intros H. apply String.eqb_eq in H. now subst.
Qed.

Section TimesBlocks.

Variable Mol : Type.
Variable MolFromSmiles : string -> option Mol.
Variable MolToInchi : Mol -> string.
Variable InchiToInchiKey : string -> string.
Variable MolToSmiles : Mol -> bool -> string.
Variable ExactMolWt : Mol -> PyFloat.float.
Variable CalcMolFormula : Mol -> string.

Variable file : DataFrame.
Variable Model_Module : string.
Variable header : nat.
Variable proton : Mol.

Hypothesis Hindex : unique_index file = true.
Hypothesis Hname :
  has_column (rename file "Chem. Name" "DTXSID") "DTXSID" = true.
Hypothesis Hsmiles :
  has_column (rename file "Chem. Name" "DTXSID") "Smiles" = true.
Hypothesis Hmodule : mem Model_Module times_columns = false.
Hypothesis Hproton : MolFromSmiles "[H+]" = Some proton.
Hypothesis Hparse : metabolites_parse MolFromSmiles file header = true.

Local Abbreviation key := (key_cell MolFromSmiles MolToInchi InchiToInchiKey).

(** A metabolite row of the export is returned, itself or a row that
    is the same: under the name carried to it, with the key of its
    structure. *)
Lemma metabolite_returned (e : nat * times_entry) :
  In e (times_entries file header) -> is_metabolite e = true ->
  exists out,
    TIMES_cleanup MolFromSmiles MolToInchi InchiToInchiKey MolToSmiles
                  ExactMolWt CalcMolFormula file Model_Module header = Ok out
    /\ exists k, In k (body out)
         /\ same (nth 0 (snd k) NaN) (carried (snd e)) = true
         /\ nth 1 (snd k) NaN = key (structure (snd e)).
Proof.
  intros He Me.
  rewrite (TIMES_cleanup_rows Mol MolFromSmiles MolToInchi InchiToInchiKey
             MolToSmiles ExactMolWt CalcMolFormula file Model_Module header
             proton Hindex Hname Hsmiles Hmodule Hproton).
  rewrite Hparse. eexists. split; [reflexivity|].
  destruct (distinct_from_covers
              (fun a b => row_same
                            (times_compared MolFromSmiles MolToInchi
                                            InchiToInchiKey a)
                            (times_compared MolFromSmiles MolToInchi
                                            InchiToInchiKey b))
              (filter is_metabolite (times_entries file header)) [] e)
    as [C | [k [Hk Ek]]].
  - intros a. apply row_same_refl.
  - apply filter_In. now split.
  - discriminate.
  - exists (fst k, times_row MolFromSmiles MolToInchi InchiToInchiKey
                             MolToSmiles ExactMolWt CalcMolFormula
                             (ExactMolWt proton) k).
    split; [|split].
    + unfold frame_of. simpl.
      apply (in_map (fun e => (fst e, times_row MolFromSmiles MolToInchi
                                        InchiToInchiKey MolToSmiles ExactMolWt
                                        CalcMolFormula (ExactMolWt proton) e))).
      exact Hk.
    + unfold times_compared in Ek. cbn [row_same] in Ek.
      apply andb_true_iff in Ek. destruct Ek as [Ek _].
      simpl. now rewrite same_sym.
    + unfold times_compared in Ek. cbn [row_same] in Ek.
      apply andb_true_iff in Ek. destruct Ek as [_ Ek].
      apply andb_true_iff in Ek. destruct Ek as [_ Ek].
      apply andb_true_iff in Ek. destruct Ek as [_ Ek].
      apply andb_true_iff in Ek. destruct Ek as [Ek _].
      assert (P : parses MolFromSmiles (structure (snd e)) = true).
      { unfold metabolites_parse in Hparse. rewrite forallb_forall in Hparse.
        apply Hparse. apply filter_In. now split. }
      simpl. unfold key_cell, parses in *.
      destruct (molecule MolFromSmiles (structure (snd e))) as [m|];
        [|discriminate].
      simpl in *. now apply same_string in Ek.
Qed.

End TimesBlocks.

(** X18.  The forward fill on any export.  The metabolite rows that follow a
    named row of the slice, up to the next named row, are returned under
    the name of that row, however many they are; the metabolite rows
    that come before the first named row of the slice are returned
    without a name, since the rows above the slice are not looked at. *)
Theorem TIMES_cleanup_carries_names
  (Mol : Type) (MolFromSmiles : string -> option Mol)
  (MolToInchi : Mol -> string) (InchiToInchiKey : string -> string)
  (MolToSmiles : Mol -> bool -> string) (ExactMolWt : Mol -> PyFloat.float)
  (CalcMolFormula : Mol -> string)
  (file : DataFrame) (Model_Module : string) (header : nat) (proton : Mol) :
  unique_index file = true ->
  has_column (rename file "Chem. Name" "DTXSID") "DTXSID" = true ->
  has_column (rename file "Chem. Name" "DTXSID") "Smiles" = true ->
  mem Model_Module times_columns = false ->
  MolFromSmiles "[H+]" = Some proton ->
  metabolites_parse MolFromSmiles file header = true ->
  exists out,
    TIMES_cleanup MolFromSmiles MolToInchi InchiToInchiKey MolToSmiles
                  ExactMolWt CalcMolFormula file Model_Module header = Ok out
    /\ (forall above i name smiles mids below,
          times_named file header
          = above ++ (i, (name, smiles)) :: mids ++ below ->
          unnamed (i, (name, smiles)) = false ->
          forallb unnamed mids = true ->
          forall r, In r mids ->
            exists k, In k (body out)
              /\ same (nth 0 (snd k) NaN) name = true
              /\ nth 1 (snd k) NaN
                 = key_cell MolFromSmiles MolToInchi InchiToInchiKey (snd (snd r)))
    /\ (forall leading below,
          times_named file header = leading ++ below ->
          forallb unnamed leading = true ->
          forall r, In r leading ->
            exists k, In k (body out)
              /\ isna (nth 0 (snd k) NaN) = true
              /\ nth 1 (snd k) NaN
                 = key_cell MolFromSmiles MolToInchi InchiToInchiKey (snd (snd r))).
Proof.
  intros Hi Hn Hs Hm Hp Hparse.
  assert (R : exists out,
             TIMES_cleanup MolFromSmiles MolToInchi InchiToInchiKey MolToSmiles
                           ExactMolWt CalcMolFormula file Model_Module header
             = Ok out).
  { rewrite (TIMES_cleanup_rows Mol MolFromSmiles MolToInchi InchiToInchiKey
               MolToSmiles ExactMolWt CalcMolFormula file Model_Module header
               proton Hi Hn Hs Hm Hp).
    rewrite Hparse. eexists. reflexivity. }
  destruct R as [out R]. exists out. split; [exact R|].
  assert (M : forall e, In e (times_entries file header) ->
                        is_metabolite e = true ->
                        exists k, In k (body out)
                          /\ same (nth 0 (snd k) NaN) (carried (snd e)) = true
                          /\ nth 1 (snd k) NaN
                             = key_cell MolFromSmiles MolToInchi InchiToInchiKey
                                        (structure (snd e))).
  { intros e He Me.
    destruct (metabolite_returned Mol MolFromSmiles MolToInchi InchiToInchiKey
                MolToSmiles ExactMolWt CalcMolFormula file Model_Module header
                proton Hi Hn Hs Hm Hp Hparse e He Me) as [out' [R' K]].
    rewrite R in R'. injection R' as <-. exact K. }
  split.
  - intros above i name smiles mids below D Hnamed Hmids r Hr.
    assert (He : In (fst r, mk_entry (fst (snd r)) (snd (snd r))
                                     (blank_to_missing name))
                    (times_entries file header)).
    { unfold times_entries. fold (times_named file header). rewrite D.
      destruct (carry_app above ((i, (name, smiles)) :: mids ++ below) NaN)
        as [last E].
      rewrite E. apply in_or_app. right. simpl.
      unfold unnamed in Hnamed. simpl in Hnamed. rewrite Hnamed.
      right. rewrite (carry_unnamed mids below _ Hmids).
      apply in_or_app. left.
      apply (in_map (fun r => (fst r, mk_entry (fst (snd r)) (snd (snd r))
                                               (blank_to_missing name)))).
      exact Hr. }
    assert (Me : is_metabolite (fst r, mk_entry (fst (snd r)) (snd (snd r))
                                                (blank_to_missing name)) = true).
    { rewrite forallb_forall in Hmids. apply (Hmids r Hr). }
    destruct (M _ He Me) as [k [Hk [K1 K2]]].
    exists k. split; [exact Hk|]. split; [|exact K2].
    simpl in K1. unfold unnamed, blank_to_missing in *. simpl in Hnamed.
    destruct (py_eq name (Str " ")); [discriminate|exact K1].
  - intros leading below D Hlead r Hr.
    assert (He : In (fst r, mk_entry (fst (snd r)) (snd (snd r)) NaN)
                    (times_entries file header)).
    { unfold times_entries. fold (times_named file header). rewrite D.
      rewrite (carry_unnamed leading below _ Hlead).
      apply in_or_app. left.
      apply (in_map (fun r => (fst r, mk_entry (fst (snd r)) (snd (snd r)) NaN))).
      exact Hr. }
    assert (Me : is_metabolite (fst r, mk_entry (fst (snd r)) (snd (snd r)) NaN)
                 = true).
    { rewrite forallb_forall in Hlead. apply (Hlead r Hr). }
    destruct (M _ He Me) as [k [Hk [K1 K2]]].
    exists k. split; [exact Hk|]. split; [|exact K2].
    simpl in K1. unfold same in K1.
    destruct (nth 0 (snd k) NaN) as [t|z|b|[sg| sg | |sg m e]];
      simpl in K1; try discriminate. reflexivity.
Qed.

Lemma TIMES_cleanup_carries_names_witness :
  exists out,
    Toy.TIMES_cleanup times_export "TIMES_InVivo" 1 = Ok out
    /\ nrows out = 2%nat.
Proof.
  destruct (TIMES_cleanup_carries_names
              Toy.Mol Toy.MolFromSmiles Toy.MolToInchi Toy.InchiToInchiKey
              Toy.MolToSmiles Toy.ExactMolWt Toy.CalcMolFormula
              times_export "TIMES_InVivo" 1 "[H+]"
              eq_refl eq_refl eq_refl eq_refl eq_refl eq_refl)
    as [out [E _]].
  exists out. split; [exact E|].
  vm_compute in E. injection E as <-. reflexivity.
Defined.

(* ================================================================= *)
(** * [ChemReg_cleanup] *)

Lemma frame_of_body (cols : list string) (rows : list (nat * list cell)) :
  mkDF cols rows = frame_of cols snd rows.
Proof.
  unfold frame_of. f_equal. rewrite <- (map_id rows) at 1.
  apply map_ext. now intros [i r].
Qed.

Lemma position_app (l1 l2 : list string) (c : string) :
  position c (l1 ++ l2)
  = match position c l1 with
    | Some j => Some j
    | None => match position c l2 with
              | Some k => Some (List.length l1 + k)%nat
              | None => None
              end
    end.
Proof.
  induction l1 as [|c' l1 IH]; simpl.
  - now destruct (position c l2).
  - destruct (String.eqb c' c); [reflexivity|]. rewrite IH.
    destruct (position c l1); [reflexivity|]. now destruct (position c l2).
Qed.

Lemma position_renamed_new (cols : list string) (old new : string) :
  mem new cols = false ->
  position new (map (fun c => if String.eqb c old then new else c) cols)
  = position old cols.
Proof.
  unfold mem. induction cols as [|c cols IH]; simpl; [reflexivity|].
  intros H. apply orb_false_iff in H. destruct H as [H1 H2].
  destruct (String.eqb c old) eqn:E.
  - now rewrite String.eqb_refl.
  - rewrite String.eqb_sym, H1. now rewrite (IH H2).
Qed.

Lemma position_renamed_other (cols : list string) (old new c : string) :
  c <> old -> c <> new ->
  position c (map (fun c => if String.eqb c old then new else c) cols)
  = position c cols.
Proof.
  intros H1 H2. induction cols as [|c' cols IH]; simpl; [reflexivity|].
  rewrite IH. destruct (String.eqb c' old) eqn:E.
  - apply String.eqb_eq in E. subst c'.
    replace (String.eqb new c) with false
      by (symmetry; apply String.eqb_neq; congruence).
    replace (String.eqb old c) with false
      by (symmetry; apply String.eqb_neq; congruence).
    reflexivity.
  - reflexivity.
Qed.

Lemma frame_setitem_list {X : Type} (cols : list string)
  (g : nat * X -> list cell) (E : list (nat * X)) (c : string)
  (v : nat * X -> cell) :
  setitem_list (frame_of cols g E) c (map v E)
  = frame_of (with_column cols c) (fun e => put cols c (v e) (g e)) E.
Proof.
  unfold setitem_list, frame_of, with_column, put. simpl.
  destruct (position c cols) as [j|]; f_equal;
    rewrite combine_map_same, map_map; reflexivity.
Qed.

(** The cells of a row of the file after the three columns that the
    adapter adds. *)
Lemma added_cells (x : list cell) (a b c : cell) (n : nat) :
  List.length x = n ->
  nth n (((x ++ [a]) ++ [b]) ++ [c]) NaN = a
  /\ nth (n + 1) (((x ++ [a]) ++ [b]) ++ [c]) NaN = b
  /\ nth (n + 2) (((x ++ [a]) ++ [b]) ++ [c]) NaN = c
  /\ forall j, (j < n)%nat -> nth j (((x ++ [a]) ++ [b]) ++ [c]) NaN = nth j x NaN.
Proof.
  intros L. repeat split.
  - rewrite app_nth1 by (rewrite !length_app; simpl; lia).
    rewrite app_nth1 by (rewrite !length_app; simpl; lia).
    rewrite app_nth2 by lia. now replace (n - List.length x)%nat with O by lia.
  - rewrite app_nth1 by (rewrite !length_app; simpl; lia).
    rewrite app_nth2 by (rewrite !length_app; simpl; lia).
    rewrite length_app. simpl.
    now replace (n + 1 - (List.length x + 1))%nat with O by lia.
  - rewrite app_nth2 by (rewrite !length_app; simpl; lia).
    rewrite !length_app. simpl.
    now replace (n + 2 - (List.length x + 1 + 1))%nat with O by lia.
  - intros j Hj. rewrite !app_nth1 by (rewrite ?length_app; simpl; lia).
    reflexivity.
Qed.

Section ChemRegFacts.

Variable Mol : Type.
Variable MolFromSmiles : string -> option Mol.
Variable MolToSmiles : Mol -> bool -> string.
Variable MolToInchiKey : Mol -> string.

Variable file : DataFrame.
Variables jP jS : nat.

Hypothesis Hindex : unique_index file = true.
Hypothesis Hwf : well_formed file = true.
Hypothesis HP : position "Parent" (columns file) = Some jP.
Hypothesis HS : position "Structure_SMILES" (columns file) = Some jS.
Hypothesis Hfresh :
  forallb (fun c => negb (has_column file c)) chemreg_made = true.

Local Abbreviation cols' :=
  (map (fun c => if String.eqb c "Parent" then "DTXSID" else c) (columns file)).
Local Abbreviation E := (with_structure file).
Local Abbreviation smiles := (fun r : nat * list cell => nth jS (snd r) NaN).
Local Abbreviation key_of_row :=
  (fun r : nat * list cell =>
     of_molecule (fun m => Str (MolToInchiKey m))
                 (molecule MolFromSmiles (smiles r))).

Lemma made_fresh (c : string) :
  In c chemreg_made -> mem c (columns file) = false.
Proof.
  intros H. rewrite forallb_forall in Hfresh. specialize (Hfresh c H).
  apply negb_true_iff in Hfresh. now rewrite <- has_column_mem.
Qed.

Lemma renamed_parent : position "DTXSID" cols' = Some jP.
Proof.
  rewrite position_renamed_new; [exact HP|].
  apply made_fresh. simpl. tauto.
Qed.

Lemma renamed_structure : position "Structure_SMILES" cols' = Some jS.
Proof. rewrite position_renamed_other; [exact HS| |]; discriminate. Qed.

Lemma renamed_fresh (c : string) :
  In c ["Clean_SMILES"; "Metabolite_INCHIKEY"; "Reported"] ->
  position c cols' = None.
Proof.
  intros H. rewrite position_renamed_other.
  - apply position_absent. apply made_fresh. simpl in *. tauto.
  - simpl in H. intuition (subst; discriminate).
  - simpl in H. intuition (subst; discriminate).
Qed.

Lemma structure_cell (r : nat * list cell) : structure_of file r = smiles r.
Proof. unfold structure_of, field, cell_at. now rewrite HS. Qed.

Lemma parent_cell (r : nat * list cell) : field file "Parent" r = nth jP (snd r) NaN.
Proof. unfold field, cell_at. now rewrite HP. Qed.

Lemma with_structure_labels : NoDup (map fst E).
Proof.
  unfold with_structure. apply labels_filter_NoDup.
  now apply unique_index_NoDup.
Qed.

Lemma with_structure_string (r : nat * list cell) :
  In r E -> is_string (smiles r) = true.
Proof.
  intros H. unfold with_structure in H. apply filter_In in H.
  destruct H as [_ H]. now rewrite structure_cell in H.
Qed.

Lemma with_structure_width (r : nat * list cell) :
  In r E -> List.length (snd r) = List.length (columns file).
Proof.
  intros H. unfold with_structure in H. apply filter_In in H.
  destruct H as [H _]. now apply well_formed_row.
Qed.

(** What [ChemReg_cleanup] returns, whatever the rows of the file. *)
Lemma ChemReg_cleanup_rows :
  ChemReg_cleanup MolFromSmiles MolToSmiles MolToInchiKey file
  = if structures_parse MolFromSmiles file
    then Ok (frame_of chemreg_header
                      (reported_row MolFromSmiles MolToSmiles MolToInchiKey file)
                      E)
    else Raise ArgumentError.
Proof.
  pose proof with_structure_labels as HE.
  pose proof (unique_index_NoDup file Hindex) as HB.
  pose proof renamed_parent as PD.
  pose proof renamed_structure as PS.
  pose proof (renamed_fresh "Clean_SMILES" ltac:(simpl; tauto)) as PC.
  pose proof (renamed_fresh "Metabolite_INCHIKEY" ltac:(simpl; tauto)) as PK.
  pose proof (renamed_fresh "Reported" ltac:(simpl; tauto)) as PR.
  cbv delta [ChemReg_cleanup] beta.
  let_to (frame_of cols' snd (body file))
         ltac:(unfold rename; apply frame_of_body).
  bind_to (map (fun r : nat * list cell => (fst r, smiles r)) (body file))
          ltac:(now rewrite (frame_getitem _ _ _ _ _ jS PS)).
  let_to (frame_of cols' snd E)
         ltac:(rewrite series_map_rows;
               rewrite (frame_select _ _ _ (body file) HB);
               unfold with_structure; f_equal; apply filter_ext;
               intros r; now rewrite structure_cell).
  bind_to (map (fun r : nat * list cell => (fst r, smiles r)) E)
          ltac:(now rewrite (frame_getitem _ _ _ _ _ jS PS)).
  bind_to (map (fun r : nat * list cell => molecule MolFromSmiles (smiles r)) E)
          ltac:(unfold values; rewrite map_map; cbn [snd];
                rewrite (mapM_ok _ (molecule MolFromSmiles));
                [now rewrite map_map|];
                intros x Hx; apply in_map_iff in Hx;
                destruct Hx as [r [<- Hr]];
                pose proof (with_structure_string r Hr) as Sr;
                now destruct (nth jS (snd r) NaN)).
  bind_to (map (fun r : nat * list cell => (fst r, smiles r)) E)
          ltac:(now rewrite (frame_getitem _ _ _ _ _ jS PS)).
  rewrite clean_SMILES_checked, series_all_rows.
  replace (forallb (fun e : nat * list cell => parses MolFromSmiles (smiles e)) E)
    with (structures_parse MolFromSmiles file)
    by (unfold structures_parse; apply forallb_agree; intros r;
        now rewrite structure_cell).
  destruct (structures_parse MolFromSmiles file) eqn:Hparse; [|reflexivity].
  assert (Hp : forall r, In r E -> parses MolFromSmiles (smiles r) = true).
  { intros r Hr. unfold structures_parse in Hparse.
    rewrite forallb_forall in Hparse. rewrite <- structure_cell.
    now apply Hparse. }
  rewrite series_map_rows.
  bind_to (map (fun r : nat * list cell =>
                  (fst r, clean_cell MolFromSmiles MolToSmiles (smiles r))) E)
          ltac:(reflexivity).
  let_to (frame_of (cols' ++ ["Clean_SMILES"])
            (fun r : nat * list cell =>
               snd r ++ [clean_cell MolFromSmiles MolToSmiles (smiles r)]) E)
         ltac:(rewrite (frame_setitem_all _ _ _ E HE);
               unfold with_column, put; now rewrite PC).
  bind_to (map key_of_row E)
          ltac:(rewrite (mapM_ok _ (of_molecule (fun m => Str (MolToInchiKey m))));
                [now rewrite map_map|];
                intros x Hx; apply in_map_iff in Hx;
                destruct Hx as [r [<- Hr]];
                pose proof (Hp r Hr) as Pr; unfold parses in Pr;
                now destruct (molecule MolFromSmiles (nth jS (snd r) NaN))).
  let_to (frame_of ((cols' ++ ["Clean_SMILES"]) ++ ["Metabolite_INCHIKEY"])
            (fun r : nat * list cell =>
               (snd r ++ [clean_cell MolFromSmiles MolToSmiles (smiles r)])
               ++ [key_of_row r]) E)
         ltac:(rewrite (frame_setitem_list _ _ E);
               unfold with_column, put; rewrite position_app, PK;
               cbn [position]; eval_eqb; reflexivity).
  let_to (frame_of (((cols' ++ ["Clean_SMILES"]) ++ ["Metabolite_INCHIKEY"])
                    ++ ["Reported"])
            (fun r : nat * list cell =>
               ((snd r ++ [clean_cell MolFromSmiles MolToSmiles (smiles r)])
                ++ [key_of_row r]) ++ [Num 1]) E)
         ltac:(rewrite frame_setitem_const;
               unfold with_column, put; rewrite !position_app, PR;
               cbn [position]; eval_eqb; reflexivity).
  set (n := List.length cols').
  rewrite (frame_project _ _ _ _ _ [jP; n + 1; n + 0; n + 2]%nat).
  - f_equal. apply frame_ext. intros r Hr. cbn [map].
    assert (W : List.length (snd r) = n).
    { unfold n. rewrite length_map. now apply with_structure_width. }
    destruct (added_cells (snd r)
                (clean_cell MolFromSmiles MolToSmiles (smiles r))
                (key_of_row r) (Num 1) n W) as [A0 [A1 [A2 A3]]].
    rewrite Nat.add_0_r, A0, A1, A2, A3.
    + unfold reported_row. now rewrite structure_cell, parent_cell.
    + unfold n. rewrite length_map. now apply (position_bound _ "Parent").
  - cbn [mapM]. rewrite !position_app, PD, PK, PC, PR.
    cbn [position]. eval_eqb. cbn [bind length Nat.add].
    rewrite !length_app. fold n. cbn [length].
    rewrite ?Nat.add_0_r, <- ?Nat.add_assoc. reflexivity.
Qed.

End ChemRegFacts.

(** X19.  [ChemReg_cleanup] on any file of reported metabolites that has a
    row.  It returns
    one row for every row of the file that holds a structure (a string),
    in the order and under the labels of the file: the parent, the key
    and the clean SMILES of the structure, and the flag [Reported] set
    to 1.  The rows without a structure are left out, and nothing else
    is: a metabolite listed twice is returned twice.  One structure that
    RDKit does not parse makes the adapter raise. *)
Theorem ChemReg_cleanup_reported
  (Mol : Type) (MolFromSmiles : string -> option Mol)
  (MolToSmiles : Mol -> bool -> string) (MolToInchiKey : Mol -> string)
  (file : DataFrame) :
  (0 < nrows file)%nat ->
  unique_index file = true ->
  well_formed file = true ->
  has_column file "Parent" = true ->
  has_column file "Structure_SMILES" = true ->
  forallb (fun c => negb (has_column file c)) chemreg_made = true ->
  ChemReg_cleanup MolFromSmiles MolToSmiles MolToInchiKey file
  = if structures_parse MolFromSmiles file
    then Ok (frame_of chemreg_header
                      (reported_row MolFromSmiles MolToSmiles MolToInchiKey file)
                      (with_structure file))
    else Raise ArgumentError.
Proof.
  intros _ Hi Hw HP HS Hf.
  destruct (position_has_column file "Parent" HP) as [jP PP].
  destruct (position_has_column file "Structure_SMILES" HS) as [jS PS].
  now apply (ChemReg_cleanup_rows Mol MolFromSmiles MolToSmiles MolToInchiKey
               file jP jS).
Qed.

Lemma ChemReg_cleanup_reported_witness :
  ChemReg_cleanup Toy.MolFromSmiles Toy.MolToSmiles Toy_MolToInchiKey chemreg_file
  = Ok (mkDF chemreg_header
             [ (0%nat, [Str "P1"; Str "KEY:InChI=CC"; Str "CC"; Num 1]);
               (2%nat, [Str "P2"; Str "KEY:InChI=CCO"; Str "CCO"; Num 1]);
               (3%nat, [Str "P1"; Str "KEY:InChI=CC"; Str "CC"; Num 1]) ])
  /\ ChemReg_cleanup Toy.MolFromSmiles Toy.MolToSmiles Toy_MolToInchiKey
                     chemreg_broken
     = Raise ArgumentError.
Proof.
  split.
  - rewrite (ChemReg_cleanup_reported Toy.Mol Toy.MolFromSmiles Toy.MolToSmiles
               Toy_MolToInchiKey chemreg_file);
      first [reflexivity | unfold nrows; simpl; lia].
  - rewrite (ChemReg_cleanup_reported Toy.Mol Toy.MolFromSmiles Toy.MolToSmiles
               Toy_MolToInchiKey chemreg_broken);
      first [reflexivity | unfold nrows; simpl; lia].
Defined.

(* ================================================================= *)
(** * Further properties of the extended aggregator *)

Lemma setitem_with_columns (df : DataFrame) (c : string)
  (f : nat * list cell -> cell) :
  columns (setitem_with df c f) = with_column (columns df) c.
Proof.
  unfold setitem_with, with_column. now destruct (position c (columns df)).
Qed.

Lemma with_column_In (cols : list string) (c c' : string) :
  In c' (with_column cols c) <-> In c' cols \/ c' = c.
Proof.
  unfold with_column. destruct (position c cols) as [j|] eqn:P.
  - split; [tauto|]. intros [H | ->]; [exact H|].
    rewrite <- (position_nth cols c j P). apply nth_In.
    now apply (position_bound cols c).
  - rewrite in_app_iff. simpl. intuition congruence.
Qed.

Lemma drop_columns (df d : DataFrame) (labels : list string) :
  drop df labels = Ok d ->
  columns d = filter (fun c => negb (mem c labels)) (columns df)
  /\ map fst (body d) = map fst (body df).
Proof.
  unfold drop. destruct (find _ labels); [discriminate|].
  intros E. injection E as <-. simpl. split; [reflexivity|].
  now rewrite map_map.
Qed.

Lemma setitem_with_labels (df : DataFrame) (c : string)
  (f : nat * list cell -> cell) :
  map fst (body (setitem_with df c f)) = map fst (body df).
Proof.
  rewrite setitem_with_body, map_map. apply map_ext. intros r.
  apply updated_row_label.
Qed.

Section ExtendedColumns.

Variable Mol : Type.
Variable MolFromSmiles : string -> option Mol.
Variable ExactMolWt : Mol -> PyFloat.float.
Variable CalcMolFormula : Mol -> string.

Lemma molecular_columns_shape (agg out : DataFrame) :
  molecular_columns MolFromSmiles ExactMolWt CalcMolFormula agg = Ok out ->
  columns out = with_column (with_column (columns agg) "[M+H]") "Formula"
  /\ map fst (body out) = map fst (body agg).
Proof.
  unfold molecular_columns. intros E.
  apply bind_Ok in E. destruct E as [smiles [_ E]].
  apply bind_Ok in E. destruct E as [molList [_ E]].
  apply bind_Ok in E. destruct E as [nulls [_ E]].
  apply bind_Ok in E. destruct E as [mH [_ E]].
  apply bind_Ok in E. destruct E as [masses [_ E]].
  apply bind_Ok in E. destruct E as [formulas [_ E]].
  injection E as <-. unfold setitem.
  now rewrite !setitem_with_columns, !setitem_with_labels.
Qed.

End ExtendedColumns.

(** X20.  The table that [aggregate_DFs_extended] returns, whatever the tables
    and the keys: it has the columns [SMILES], [[M+H]] and [Formula], no
    column whose name contains [Clean_SMILES] (the suffixed columns of
    the merges are dropped with it), and the labels [0 .. n-1]. *)
Theorem aggregate_DFs_extended_shape
  (Mol : Type) (MolFromSmiles : string -> option Mol)
  (ExactMolWt : Mol -> PyFloat.float) (CalcMolFormula : Mol -> string)
  (DF_list : list DataFrame) (on : list string) (out : DataFrame) :
  aggregate_DFs_extended MolFromSmiles ExactMolWt CalcMolFormula DF_list on
  = Ok (Some out) ->
  (forall c, In c (columns out) -> contains "Clean_SMILES" c = false)
  /\ has_column out "SMILES" = true
  /\ has_column out "[M+H]" = true
  /\ has_column out "Formula" = true
  /\ map fst (body out) = seq 0 (nrows out).
Proof.
  destruct DF_list as [|first [|second others]]; try discriminate.
  unfold aggregate_DFs_extended.
  destruct (foldM _ (second :: others) first) as [agg|e]; [|discriminate].
  cbn [bind]. cbv zeta.
  destruct (forallb _ _); [discriminate|].
  set (tmp := filter (contains "Clean_SMILES") (columns agg)).
  set (mode := map _ _).
  destruct (drop (setitem agg "SMILES" mode) tmp) as [d|e] eqn:D;
    [|discriminate].
  cbn [bind].
  destruct (molecular_columns MolFromSmiles ExactMolWt CalcMolFormula _)
    as [r|e] eqn:M; [|discriminate].
  cbn [bind]. intros E. injection E as <-.
  destruct (molecular_columns_shape _ _ _ _ _ _ M) as [C L].
  destruct (drop_columns _ _ _ D) as [Cd Ld].
  change (columns (drop_duplicates d)) with (columns d) in C.
  unfold setitem in Cd. rewrite setitem_with_columns in Cd.
  assert (S : In "SMILES" (columns d)).
  { rewrite Cd. apply filter_In. split.
    - apply with_column_In. now right.
    - apply negb_true_iff. apply mem_false. unfold tmp. intros H.
      apply filter_In in H. destruct H as [_ H]. vm_compute in H. discriminate. }
  repeat split.
  - intros c Hc. rewrite C in Hc.
    apply with_column_In in Hc. destruct Hc as [Hc | ->]; [|reflexivity].
    apply with_column_In in Hc. destruct Hc as [Hc | ->]; [|reflexivity].
    rewrite Cd in Hc. apply filter_In in Hc. destruct Hc as [Hc N].
    apply with_column_In in Hc. destruct Hc as [Hc | ->]; [|reflexivity].
    apply negb_true_iff in N. apply mem_false in N.
    destruct (contains "Clean_SMILES" c) eqn:K; [|reflexivity].
    exfalso. apply N. unfold tmp. apply filter_In. now split.
  - rewrite has_column_mem. apply mem_In. rewrite C.
    apply with_column_In. left. apply with_column_In. now left.
  - rewrite has_column_mem. apply mem_In. rewrite C.
    apply with_column_In. left. apply with_column_In. now right.
  - rewrite has_column_mem. apply mem_In. rewrite C.
    apply with_column_In. now right.
  - unfold nrows. rewrite <- (length_map fst (body r)), L.
    unfold drop_duplicates, reset_index. simpl.
    now rewrite map_fst_combine_seq, length_seq.
Qed.

Lemma aggregate_DFs_extended_shape_witness :
  exists out,
    Toy.aggregate_DFs_extended [toolbox_output; meteor_output] default_on
    = Ok (Some out)
    /\ columns out = ["DTXSID"; "Metabolite_INCHIKEY"; "ToolBox"; "Meteor";
                      "SMILES"; "[M+H]"; "Formula"]
    /\ has_column out "SMILES" = true.
Proof.
  eexists. split; [vm_compute; reflexivity|]. split; [reflexivity|].
  apply (aggregate_DFs_extended_shape
           Toy.Mol Toy.MolFromSmiles Toy.ExactMolWt Toy.CalcMolFormula
           [toolbox_output; meteor_output] default_on).
  vm_compute. reflexivity.
Defined.

(* ----------------------------------------------------------------- *)
(** ** The consensus of a row *)

Lemma largest_count {A : Type} (count : A -> nat) (l : list A) :
  (forall y, In y l -> (count y <= fold_right Nat.max O (map count l))%nat)
  /\ (l <> [] -> exists x, In x l /\ count x = fold_right Nat.max O (map count l)).
Proof.
  induction l as [|a l [IH1 IH2]]; simpl.
  - split; [intros y []|congruence].
  - split.
    + intros y [<- | Hy]; [lia|]. specialize (IH1 y Hy). lia.
    + intros _. destruct l as [|b l].
      * exists a. simpl. split; [now left|lia].
      * destruct IH2 as [x [Hx Ex]]; [discriminate|].
        destruct (Nat.le_gt_cases (fold_right Nat.max O (map count (b :: l)))
                                  (count a)) as [H | H].
        -- exists a. split; [now left|]. simpl in *. lia.
        -- exists x. split; [now right|]. simpl in *. lia.
Qed.

Lemma smallest_mode_In (modes : list cell) :
  (forall c, In c modes -> isna c = false) -> modes <> [] ->
  In (fold_right (fun c acc => if isna acc then c
                               else if cell_ltb c acc then c else acc)
                 NaN modes) modes.
Proof.
  induction modes as [|c modes IH]; intros P N; [congruence|]. simpl.
  destruct modes as [|c' modes].
  - simpl. now left.
  - assert (I : In (fold_right (fun c acc => if isna acc then c
                                            else if cell_ltb c acc then c else acc)
                              NaN (c' :: modes)) (c' :: modes)).
    { apply IH; [|discriminate]. intros x Hx. apply P. now right. }
    destruct (isna _); [now left|].
    destruct (cell_ltb c _); [now left|now right].
Qed.

(** X21.  The column [SMILES] of the extended aggregator holds, for a row
    with a [Clean_SMILES] value, one of the values of the row that are
    not missing, and one that no other value of the row outnumbers. *)
Theorem consensus_is_most_frequent (cells : list cell) :
  existsb (fun c => negb (isna c)) cells = true ->
  In (row_mode cells) cells
  /\ isna (row_mode cells) = false
  /\ forall c, In c cells -> isna c = false ->
       (occurrences c cells <= occurrences (row_mode cells) cells)%nat.
Proof.
  intros H. unfold row_mode, occurrences. cbv zeta.
  set (present := filter (fun c => negb (isna c)) cells).
  set (count := fun c => List.length (filter (same c) present)).
  set (best := fold_right Nat.max O (map count present)).
  set (modes := filter (fun c => Nat.eqb (count c) best) present).
  assert (Np : present <> []).
  { apply existsb_exists in H. destruct H as [c [Hc Pc]].
    intros E. assert (I : In c present) by (apply filter_In; now split).
    rewrite E in I. destruct I. }
  destruct (largest_count count present) as [Le Ex].
  destruct (Ex Np) as [x [Hx Bx]].
  assert (Nm : modes <> []).
  { intros E. assert (I : In x modes).
    { apply filter_In. split; [exact Hx|]. now apply Nat.eqb_eq. }
    rewrite E in I. destruct I. }
  assert (Pm : forall c, In c modes -> isna c = false).
  { intros c Hc. apply filter_In in Hc. destruct Hc as [Hc _].
    apply filter_In in Hc. destruct Hc as [_ Hc]. now apply negb_true_iff. }
  pose proof (smallest_mode_In modes Pm Nm) as I.
  set (m := fold_right _ NaN modes) in *.
  split; [|split].
  - apply filter_In in I. destruct I as [I _].
    apply filter_In in I. tauto.
  - now apply Pm.
  - intros c Hc Pc. apply filter_In in I. destruct I as [_ Bm].
    apply Nat.eqb_eq in Bm. change (count c <= count m)%nat. rewrite Bm.
    apply Le. apply filter_In. split; [exact Hc|]. now rewrite Pc.
Qed.

Lemma consensus_is_most_frequent_witness :
  row_mode [Str "CC"; NaN; Str "CCO"; Str "CC"] = Str "CC"
  /\ In (row_mode [Str "CC"; NaN; Str "CCO"; Str "CC"])
        [Str "CC"; NaN; Str "CCO"; Str "CC"].
Proof.
  split; [reflexivity|].
  apply (consensus_is_most_frequent [Str "CC"; NaN; Str "CCO"; Str "CC"]).
  reflexivity.
Defined.

(* ================================================================= *)
(** * [CTS_cleanup] *)

Lemma frame_dropna {X : Type} (cols : list string) (g : nat * X -> list cell)
  (E : list (nat * X)) :
  dropna (frame_of cols g E)
  = frame_of cols g (filter (fun e => forallb (fun c => negb (isna c)) (g e)) E).
Proof.
  unfold dropna, frame_of. simpl. f_equal. now rewrite filter_map_comm.
Qed.

Lemma set_nth_app (x l : list cell) (k : nat) (v : cell) :
  set_nth (List.length x + k) v (x ++ l) = x ++ set_nth k v l.
Proof. induction x as [|a x IH]; simpl; [reflexivity|]. now rewrite IH. Qed.

(** [series.apply(lambda x: d[x])] raises [KeyError] on the first key
    that the dict does not have. *)
Lemma series_apply_lookup (d : string -> option cell) (s : Series string) :
  series_apply (dict_getitem d) s
  = match find (fun k => match d k with Some _ => false | None => true end)
               (values s) with
    | Some k => Raise (KeyError k)
    | None => Ok (series_map (fun k => match d k with
                                       | Some v => v
                                       | None => NaN
                                       end) s)
    end.
Proof.
  unfold series_apply, series_map, values, dict_getitem.
  induction s as [|[i k] s IH]; simpl; [reflexivity|].
  destruct (d k) as [v|]; simpl; [|reflexivity].
  rewrite IH. now destruct (find _ (map snd s)).
Qed.

Lemma cts_carry_labels (rows : list (nat * (list cell * cell * cell)))
  (lastP lastD : cell) :
  map fst (cts_carry lastP lastD rows) = map fst rows.
Proof.
  revert lastP lastD.
  induction rows as [|[i [[x p] d]] rows IH]; intros lastP lastD; simpl;
    [reflexivity|].
  now rewrite IH.
Qed.

Lemma cts_carry_raw (rows : list (nat * (list cell * cell * cell)))
  (lastP lastD : cell) :
  map (fun e => (fst e, cts_cells (snd e)
                        ++ [parent_raw (snd e); name_raw (snd e)]))
      (cts_carry lastP lastD rows)
  = map (fun r => (fst r, fst (fst (snd r)) ++ [snd (fst (snd r)); snd (snd r)]))
        rows.
Proof.
  revert lastP lastD.
  induction rows as [|[i [[x p] d]] rows IH]; intros lastP lastD; simpl;
    [reflexivity|].
  now rewrite IH.
Qed.

Lemma ffill_parents (rows : list (nat * (list cell * cell * cell)))
  (lastP lastD : cell) :
  ffill_from lastP
    (map (fun e => (fst e, parent_raw (snd e))) (cts_carry lastP lastD rows))
  = map (fun e => (fst e, parent_smiles (snd e))) (cts_carry lastP lastD rows).
Proof.
  revert lastP lastD.
  induction rows as [|[i [[x p] d]] rows IH]; intros lastP lastD; simpl;
    [reflexivity|].
  destruct (isna p); simpl; now rewrite IH.
Qed.

Lemma ffill_names (rows : list (nat * (list cell * cell * cell)))
  (lastP lastD : cell) :
  ffill_from lastD
    (map (fun e => (fst e, name_raw (snd e))) (cts_carry lastP lastD rows))
  = map (fun e => (fst e, parent_name (snd e))) (cts_carry lastP lastD rows).
Proof.
  revert lastP lastD.
  induction rows as [|[i [[x p] d]] rows IH]; intros lastP lastD; simpl;
    [reflexivity|].
  destruct (isna d); simpl; now rewrite IH.
Qed.

Lemma cts_carry_cells (rows : list (nat * (list cell * cell * cell)))
  (lastP lastD : cell) (e : nat * cts_entry) :
  In e (cts_carry lastP lastD rows) ->
  In (fst e, cts_cells (snd e)) (map (fun r => (fst r, fst (fst (snd r)))) rows).
Proof.
  revert lastP lastD.
  induction rows as [|[i [[x p] d]] rows IH]; intros lastP lastD; simpl;
    [tauto|].
  intros [<- | H]; [now left|]. right. now apply (IH _ _ H).
Qed.

Section CTSFacts.

Variable Mol : Type.
Variable MolFromSmiles : string -> option Mol.
Variable MolToInchi : Mol -> string.
Variable InchiToInchiKey : string -> string.
Variable MolToSmiles : Mol -> bool -> string.

Variable cols : list string.
Variable rows : list (nat * list cell).
Variable dictDTXSID : string -> option cell.
Variables jr js : nat.

Local Abbreviation file := (mkDF cols rows).

Hypothesis Hindex : unique_index file = true.
Hypothesis Hwf : well_formed file = true.
Hypothesis Hr : position "routes" cols = Some jr.
Hypothesis Hs : position "smiles" cols = Some js.
Hypothesis Hfresh : forallb (fun c => negb (mem c cols)) cts_made = true.

Local Abbreviation smi := (fun r : nat * list cell => nth js (snd r) NaN).
Local Abbreviation isP := (fun r : nat * list cell => isna (nth jr (snd r) NaN)).
Local Abbreviation esmi :=
  (fun e : nat * cts_entry => nth js (cts_cells (snd e)) NaN).
Local Abbreviation E :=
  (cts_entries MolFromSmiles MolToInchi InchiToInchiKey file dictDTXSID).
Local Abbreviation kept :=
  (cts_kept MolFromSmiles MolToInchi InchiToInchiKey file dictDTXSID).
Local Abbreviation pkey := (parent_key MolFromSmiles MolToInchi InchiToInchiKey).
Local Abbreviation pname :=
  (name_of MolFromSmiles MolToInchi InchiToInchiKey dictDTXSID).
Local Abbreviation key := (key_cell MolFromSmiles MolToInchi InchiToInchiKey).
Local Abbreviation clean := (clean_cell MolFromSmiles MolToSmiles).

Lemma cts_fresh (c : string) : In c cts_made -> position c cols = None.
Proof.
  intros H. rewrite forallb_forall in Hfresh. specialize (Hfresh c H).
  apply negb_true_iff in Hfresh. now apply position_absent.
Qed.

Lemma smiles_field (r : nat * list cell) : field file "smiles" r = smi r.
Proof. unfold field, cell_at. simpl. now rewrite Hs. Qed.

Lemma routes_parent (r : nat * list cell) : is_parent file r = isP r.
Proof. unfold is_parent, field, cell_at. simpl. now rewrite Hr. Qed.

Lemma parents_filter : cts_parents file = filter isP rows.
Proof.
  unfold cts_parents. simpl. apply filter_ext. intros r. apply routes_parent.
Qed.

Lemma entries_labels_cts : NoDup (map fst E).
Proof.
  unfold cts_entries. rewrite cts_carry_labels, map_map. simpl.
  now apply (unique_index_NoDup file).
Qed.

Lemma entry_width (e : nat * cts_entry) :
  In e E -> List.length (cts_cells (snd e)) = List.length cols.
Proof.
  intros H. unfold cts_entries in H. apply cts_carry_cells in H.
  rewrite map_map in H. simpl in H. apply in_map_iff in H.
  destruct H as [r [Er Hr']]. injection Er as _ <-.
  now apply (well_formed_row file).
Qed.

Lemma entry_smiles_cell (e : nat * cts_entry) :
  entry_smiles file e = esmi e.
Proof. unfold entry_smiles. now rewrite smiles_field. Qed.

Lemma sliced_entries :
  frame_of (cols ++ ["Parent_SMILES"; "DTXSID"])
           (fun r : nat * list cell =>
              snd r ++ [if isP r then smi r else NaN;
                        if isP r then pname (smi r) else NaN]) rows
  = frame_of (cols ++ ["Parent_SMILES"; "DTXSID"])
             (fun e : nat * cts_entry =>
                cts_cells (snd e) ++ [parent_raw (snd e); name_raw (snd e)]) E.
Proof.
  unfold frame_of, cts_entries. f_equal.
  rewrite cts_carry_raw, map_map. apply map_ext. intros r. simpl.
  now rewrite routes_parent, smiles_field.
Qed.

(** What [CTS_cleanup] returns, whatever the rows of the file. *)
Lemma CTS_cleanup_rows :
  CTS_cleanup MolFromSmiles MolToInchi InchiToInchiKey MolToSmiles
              file dictDTXSID
  = Returned
      (if parents_parse MolFromSmiles file then
         match unknown_parent MolFromSmiles MolToInchi InchiToInchiKey
                              file dictDTXSID with
         | Some k => Raise (KeyError k)
         | None =>
             if kept_parse MolFromSmiles MolToInchi InchiToInchiKey
                           file dictDTXSID
             then Ok (frame_of cts_header
                               (cts_row MolFromSmiles MolToInchi InchiToInchiKey
                                        MolToSmiles file)
                               kept)
             else Raise ArgumentError
         end
       else Raise ArgumentError).
Proof.
  pose proof (unique_index_NoDup file Hindex) as HB. simpl in HB.
  pose proof entries_labels_cts as HE.
  assert (HK : NoDup (map fst kept))
    by (unfold cts_kept; now apply labels_filter_NoDup).
  pose proof (cts_fresh "Parent_SMILES" ltac:(simpl; tauto)) as F1.
  pose proof (cts_fresh "DTXSID" ltac:(simpl; tauto)) as F2.
  pose proof (cts_fresh "Metabolite_INCHIKEY" ltac:(simpl; tauto)) as F3.
  pose proof (cts_fresh "Clean_SMILES" ltac:(simpl; tauto)) as F4.
  pose proof (cts_fresh "CTS" ltac:(simpl; tauto)) as F5.
  cbv beta iota delta [CTS_cleanup getattr columns body].
  rewrite Hr. cbv beta iota.
  let_to (map (fun r : nat * list cell => (fst r, isP r)) rows)
         ltac:(apply series_isnull_rows).
  rewrite Hs. cbv beta iota. f_equal.
  let_to (map (fun r : nat * list cell => (fst r, smi r)) (filter isP rows))
         ltac:(rewrite (series_select_rows _ rows HB); reflexivity).
  (* the parents *)
  rewrite (series_apply_checked _ (parses MolFromSmiles)
             (fun c => match molecule MolFromSmiles c with
                       | Some m => MolToInchi m
                       | None => ""
                       end))
    by (intros [x|z|b|x]; try reflexivity; unfold parses; simpl;
        now destruct (MolFromSmiles x)).
  rewrite series_all_rows.
  replace (parents_parse MolFromSmiles file)
    with (forallb (fun e : nat * list cell => parses MolFromSmiles (smi e))
                  (filter isP rows))
    by (unfold parents_parse; rewrite parents_filter;
        apply forallb_agree; intros r; now rewrite smiles_field).
  destruct (forallb (fun e : nat * list cell => parses MolFromSmiles (smi e))
                    (filter isP rows)) eqn:Hparents; [|reflexivity].
  assert (Hpp : forall r, In r (filter isP rows) ->
                          parses MolFromSmiles (smi r) = true).
  { intros r Hr'. rewrite forallb_forall in Hparents. now apply Hparents. }
  rewrite series_map_rows.
  bind_to (map (fun r : nat * list cell =>
                  (fst r, match molecule MolFromSmiles (smi r) with
                          | Some m => MolToInchi m
                          | None => ""
                          end)) (filter isP rows))
          ltac:(reflexivity).
  bind_to (map (fun r : nat * list cell => (fst r, pkey (smi r)))
               (filter isP rows))
          ltac:(rewrite (series_apply_ok _ InchiToInchiKey) by reflexivity;
                rewrite map_map; f_equal; apply map_ext_in; intros r Hr';
                cbn [fst snd]; unfold parent_key;
                pose proof (Hpp r Hr') as Pr; unfold parses in Pr;
                now destruct (molecule MolFromSmiles (nth js (snd r) NaN))).
  rewrite series_apply_lookup.
  replace (unknown_parent MolFromSmiles MolToInchi InchiToInchiKey file
                          dictDTXSID)
    with (find (fun k => match dictDTXSID k with
                         | Some _ => false
                         | None => true
                         end)
               (values (map (fun r : nat * list cell => (fst r, pkey (smi r)))
                            (filter isP rows))))
    by (unfold unknown_parent, values; rewrite parents_filter, map_map;
        f_equal; apply map_ext; intros r; cbn [snd];
        now rewrite smiles_field).
  destruct (find _ (values _)) as [k|]; [reflexivity|].
  rewrite series_map_rows.
  bind_to (map (fun r : nat * list cell => (fst r, pname (smi r)))
               (filter isP rows))
          ltac:(reflexivity).
  (* the two columns of the parents *)
  let_to (frame_of (cols ++ ["Parent_SMILES"])
            (fun r : nat * list cell => snd r ++ [if isP r then smi r else NaN])
            rows)
         ltac:(rewrite (frame_of_body cols rows);
               rewrite (frame_setitem_part _ _ _ rows HB);
               unfold with_column, put; now rewrite F1).
  let_to (frame_of (cols ++ ["Parent_SMILES"; "DTXSID"])
            (fun e : nat * cts_entry =>
               cts_cells (snd e) ++ [parent_raw (snd e); name_raw (snd e)]) E)
         ltac:(rewrite (frame_setitem_part _ _ _ rows HB);
               unfold with_column, put; rewrite position_app, F2;
               cbn [position]; eval_eqb;
               rewrite <- sliced_entries, <- app_assoc; cbn [app];
               apply frame_ext; intros r _; now rewrite <- app_assoc).
  assert (P1 : position "Parent_SMILES" (cols ++ ["Parent_SMILES"; "DTXSID"])
               = Some (List.length cols + 0)%nat)
    by (rewrite position_app, F1; cbn [position]; eval_eqb; reflexivity).
  assert (P2 : position "DTXSID" (cols ++ ["Parent_SMILES"; "DTXSID"])
               = Some (List.length cols + 1)%nat)
    by (rewrite position_app, F2; cbn [position]; eval_eqb; reflexivity).
  bind_to (map (fun e : nat * cts_entry => (fst e, parent_raw (snd e))) E)
          ltac:(rewrite (frame_getitem _ _ _ _ _ _ P1); f_equal;
                apply map_ext_in; intros e He;
                rewrite <- (entry_width e He);
                now rewrite app_nth2_plus).
  bind_to (map (fun e : nat * cts_entry => (fst e, name_raw (snd e))) E)
          ltac:(rewrite (frame_getitem _ _ _ _ _ _ P2); f_equal;
                apply map_ext_in; intros e He;
                rewrite <- (entry_width e He);
                now rewrite app_nth2_plus).
  (* the forward fill *)
  let_to (frame_of (cols ++ ["Parent_SMILES"; "DTXSID"])
            (fun e : nat * cts_entry =>
               cts_cells (snd e) ++ [parent_smiles (snd e); name_raw (snd e)]) E)
         ltac:(unfold ffill, cts_entries; rewrite ffill_parents;
               fold E;
               rewrite (frame_setitem_all _ _ _ E HE);
               unfold with_column, put; rewrite P1;
               apply frame_ext; intros e He;
               rewrite <- (entry_width e He);
               now rewrite set_nth_app).
  let_to (frame_of (cols ++ ["Parent_SMILES"; "DTXSID"])
            (fun e : nat * cts_entry =>
               cts_cells (snd e)
               ++ [parent_smiles (snd e); parent_name (snd e)]) E)
         ltac:(unfold ffill, cts_entries; rewrite ffill_names;
               fold E;
               rewrite (frame_setitem_all _ _ _ E HE);
               unfold with_column, put; rewrite P2;
               apply frame_ext; intros e He;
               rewrite <- (entry_width e He);
               now rewrite set_nth_app).
  (* dropna *)
  let_to (frame_of (cols ++ ["Parent_SMILES"; "DTXSID"])
            (fun e : nat * cts_entry =>
               cts_cells (snd e)
               ++ [parent_smiles (snd e); parent_name (snd e)]) kept)
         ltac:(apply frame_dropna).
  assert (Wk : forall e, In e kept ->
                         List.length (cts_cells (snd e)) = List.length cols).
  { intros e He. apply entry_width. unfold cts_kept in He.
    apply filter_In in He. tauto. }
  assert (Bs : (js < List.length cols)%nat)
    by (now apply (position_bound cols "smiles")).
  assert (P3 : position "smiles" (cols ++ ["Parent_SMILES"; "DTXSID"])
               = Some js) by (now rewrite position_app, Hs).
  bind_to (map (fun e : nat * cts_entry => (fst e, esmi e)) kept)
          ltac:(rewrite (frame_getitem _ _ _ _ _ _ P3); f_equal;
                apply map_ext_in; intros e He;
                rewrite app_nth1 by (rewrite (Wk e He); lia);
                reflexivity).
  rewrite SMILES_to_InchiKey_stereo, series_all_rows.
  replace (kept_parse MolFromSmiles MolToInchi InchiToInchiKey file dictDTXSID)
    with (forallb (fun e : nat * cts_entry => parses MolFromSmiles (esmi e))
                  kept)
    by (unfold kept_parse; apply forallb_agree; intros e;
        now rewrite entry_smiles_cell).
  destruct (forallb (fun e : nat * cts_entry => parses MolFromSmiles (esmi e))
                    kept) eqn:Hkept; [|reflexivity].
  rewrite series_map_rows.
  bind_to (map (fun e : nat * cts_entry => (fst e, key (esmi e))) kept)
          ltac:(reflexivity).
  let_to (frame_of (cols ++ ["Parent_SMILES"; "DTXSID"; "Metabolite_INCHIKEY"])
            (fun e : nat * cts_entry =>
               cts_cells (snd e)
               ++ [parent_smiles (snd e); parent_name (snd e); key (esmi e)])
            kept)
         ltac:(rewrite (frame_setitem_all _ _ _ kept HK);
               unfold with_column, put; rewrite position_app, F3;
               cbn [position]; eval_eqb;
               rewrite <- app_assoc; cbn [app];
               apply frame_ext; intros e _; now rewrite <- app_assoc).
  assert (P4 : position "smiles"
                 (cols ++ ["Parent_SMILES"; "DTXSID"; "Metabolite_INCHIKEY"])
               = Some js) by (now rewrite position_app, Hs).
  bind_to (map (fun e : nat * cts_entry => (fst e, esmi e)) kept)
          ltac:(rewrite (frame_getitem _ _ _ _ _ _ P4); f_equal;
                apply map_ext_in; intros e He;
                rewrite app_nth1 by (rewrite (Wk e He); lia);
                reflexivity).
  rewrite clean_SMILES_checked, series_all_rows, Hkept, series_map_rows.
  bind_to (map (fun e : nat * cts_entry => (fst e, clean (esmi e))) kept)
          ltac:(reflexivity).
  let_to (frame_of (cols ++ ["Parent_SMILES"; "DTXSID"; "Metabolite_INCHIKEY";
                             "Clean_SMILES"])
            (fun e : nat * cts_entry =>
               cts_cells (snd e)
               ++ [parent_smiles (snd e); parent_name (snd e); key (esmi e);
                   clean (esmi e)])
            kept)
         ltac:(rewrite (frame_setitem_all _ _ _ kept HK);
               unfold with_column, put; rewrite position_app, F4;
               cbn [position]; eval_eqb;
               rewrite <- app_assoc; cbn [app];
               apply frame_ext; intros e _; now rewrite <- app_assoc).
  let_to (frame_of (cols ++ ["Parent_SMILES"; "DTXSID"; "Metabolite_INCHIKEY";
                             "Clean_SMILES"; "CTS"])
            (fun e : nat * cts_entry =>
               cts_cells (snd e)
               ++ [parent_smiles (snd e); parent_name (snd e); key (esmi e);
                   clean (esmi e); Num 1])
            kept)
         ltac:(rewrite frame_setitem_const;
               unfold with_column, put; rewrite position_app, F5;
               cbn [position]; eval_eqb;
               rewrite <- app_assoc; cbn [app];
               apply frame_ext; intros e _; now rewrite <- app_assoc).
  rewrite (frame_project _ _ _ _ _
             [List.length cols + 1; List.length cols + 2;
              List.length cols + 3; List.length cols + 4]%nat).
  - f_equal. apply frame_ext. intros e He. cbn [map].
    rewrite <- (Wk e He), !app_nth2_plus. cbn [nth].
    unfold cts_row. now rewrite entry_smiles_cell.
  - cbn [mapM]. rewrite !position_app, F2, F3, F4, F5.
    cbn [position]. eval_eqb. reflexivity.
Qed.

End CTSFacts.

Lemma missing_cell_In (x : list cell) (j : nat) :
  (j < List.length x)%nat -> isna (nth j x NaN) = true ->
  forallb (fun c => negb (isna c)) x = false.
Proof.
  intros B N. apply not_true_is_false. intros A.
  rewrite forallb_forall in A.
  specialize (A (nth j x NaN) (nth_In x NaN B)). now rewrite N in A.
Qed.

(** X22.  [CTS_cleanup] on any file, once the SMILES of its parent rows (the
    rows without a route) parse, the dict knows their keys, and the
    SMILES of the rows that are kept parse.  The rows kept are those
    without a missing cell, in any column of the file, that come after a
    parent row; each is returned under its label with the name that the
    dict has for the nearest parent row above it, the key and the clean
    SMILES of its structure, and the flag 1.  No parent row is
    returned, and no returned row lacks a parent name. *)
Theorem CTS_cleanup_metabolite_rows
  (Mol : Type) (MolFromSmiles : string -> option Mol)
  (MolToInchi : Mol -> string) (InchiToInchiKey : string -> string)
  (MolToSmiles : Mol -> bool -> string)
  (file : DataFrame) (dictDTXSID : string -> option cell) :
  unique_index file = true ->
  well_formed file = true ->
  has_column file "routes" = true ->
  has_column file "smiles" = true ->
  forallb (fun c => negb (has_column file c)) cts_made = true ->
  parents_parse MolFromSmiles file = true ->
  unknown_parent MolFromSmiles MolToInchi InchiToInchiKey file dictDTXSID = None ->
  kept_parse MolFromSmiles MolToInchi InchiToInchiKey file dictDTXSID = true ->
  let kept := cts_kept MolFromSmiles MolToInchi InchiToInchiKey file dictDTXSID in
  CTS_cleanup MolFromSmiles MolToInchi InchiToInchiKey MolToSmiles file dictDTXSID
  = Returned (Ok (frame_of cts_header
                           (cts_row MolFromSmiles MolToInchi InchiToInchiKey
                                    MolToSmiles file)
                           kept))
  /\ (forall e, In e kept ->
        is_parent file (fst e, cts_cells (snd e)) = false
        /\ isna (parent_name (snd e)) = false
        /\ forallb (fun c => negb (isna c)) (cts_cells (snd e)) = true).
Proof.
  destruct file as [cols rows].
  intros Hi Hw Hr Hs Hf Pp Up Kp kept.
  destruct (position_has_column _ _ Hr) as [jr Pr].
  destruct (position_has_column _ _ Hs) as [js Ps].
  simpl in Pr, Ps.
  assert (Hf' : forallb (fun c => negb (mem c cols)) cts_made = true).
  { rewrite forallb_forall in *. intros c Hc. specialize (Hf c Hc).
    now rewrite has_column_mem in Hf. }
  split.
  - rewrite (CTS_cleanup_rows Mol MolFromSmiles MolToInchi InchiToInchiKey
               MolToSmiles cols rows dictDTXSID jr js Hi Hw Pr Ps Hf').
    now rewrite Pp, Up, Kp.
  - intros e He. unfold kept, cts_kept in He. apply filter_In in He.
    destruct He as [He C]. unfold cts_complete in C.
    rewrite forallb_app in C. apply andb_true_iff in C. destruct C as [C1 C2].
    simpl in C2. apply andb_true_iff in C2. destruct C2 as [_ C2].
    apply andb_true_iff in C2. destruct C2 as [C2 _].
    apply negb_true_iff in C2. repeat split; try assumption.
    pose proof (entry_width Mol MolFromSmiles MolToInchi InchiToInchiKey
                  cols rows dictDTXSID Hw e He) as W.
    unfold is_parent, field, cell_at. simpl. rewrite Pr.
    destruct (isna (nth jr (cts_cells (snd e)) NaN)) eqn:N; [|reflexivity].
    rewrite (missing_cell_In (cts_cells (snd e)) jr) in C1; [discriminate| |exact N].
    rewrite W. now apply (position_bound cols "routes").
Qed.

Lemma CTS_cleanup_metabolite_rows_witness :
  CTS_cleanup Toy.MolFromSmiles Toy.MolToInchi Toy.InchiToInchiKey Toy.MolToSmiles
              cts_file cts_dict
  = Returned
      (Ok (mkDF cts_header
                [ (2%nat, [Str "DTXSID_A"; Str "KEY:InChI=CCO"; Str "CCO"; Num 1]);
                  (5%nat, [Str "DTXSID_B"; Str "KEY:InChI=C"; Str "C"; Num 1]) ])).
Proof.
  destruct (CTS_cleanup_metabolite_rows
              Toy.Mol Toy.MolFromSmiles Toy.MolToInchi Toy.InchiToInchiKey
              Toy.MolToSmiles cts_file cts_dict
              eq_refl eq_refl eq_refl eq_refl eq_refl eq_refl eq_refl eq_refl)
    as [E _].
  rewrite E. reflexivity.
Defined.

(** X23.  The errors of [CTS_cleanup]: [AttributeError] on a file without a
    column [routes] or [smiles]; an error of RDKit when the SMILES of a
    parent row does not parse; [KeyError], with the key, for the first
    parent that the dict does not have; an error of RDKit when the
    SMILES of a row that is kept does not parse. *)
Theorem CTS_cleanup_errors
  (Mol : Type) (MolFromSmiles : string -> option Mol)
  (MolToInchi : Mol -> string) (InchiToInchiKey : string -> string)
  (MolToSmiles : Mol -> bool -> string)
  (file : DataFrame) (dictDTXSID : string -> option cell) :
  (has_column file "routes" = false ->
   CTS_cleanup MolFromSmiles MolToInchi InchiToInchiKey MolToSmiles
               file dictDTXSID = AttributeError "routes")
  /\ (has_column file "routes" = true -> has_column file "smiles" = false ->
      CTS_cleanup MolFromSmiles MolToInchi InchiToInchiKey MolToSmiles
                  file dictDTXSID = AttributeError "smiles")
  /\ (unique_index file = true ->
      well_formed file = true ->
      has_column file "routes" = true ->
      has_column file "smiles" = true ->
      forallb (fun c => negb (has_column file c)) cts_made = true ->
      (parents_parse MolFromSmiles file = false ->
       CTS_cleanup MolFromSmiles MolToInchi InchiToInchiKey MolToSmiles
                   file dictDTXSID = Returned (Raise ArgumentError))
      /\ (forall k,
            parents_parse MolFromSmiles file = true ->
            unknown_parent MolFromSmiles MolToInchi InchiToInchiKey
                           file dictDTXSID = Some k ->
            CTS_cleanup MolFromSmiles MolToInchi InchiToInchiKey MolToSmiles
                        file dictDTXSID = Returned (Raise (KeyError k)))
      /\ (parents_parse MolFromSmiles file = true ->
          unknown_parent MolFromSmiles MolToInchi InchiToInchiKey
                         file dictDTXSID = None ->
          kept_parse MolFromSmiles MolToInchi InchiToInchiKey file dictDTXSID
          = false ->
          CTS_cleanup MolFromSmiles MolToInchi InchiToInchiKey MolToSmiles
                      file dictDTXSID = Returned (Raise ArgumentError))).
Proof.
  destruct file as [cols rows]. split; [|split].
  - intros H. unfold CTS_cleanup, getattr. simpl.
    now rewrite (position_absent cols "routes") by exact H.
  - intros Hr H. destruct (position_has_column _ _ Hr) as [jr Pr]. simpl in Pr.
    cbv beta iota delta [CTS_cleanup getattr columns body]. rewrite Pr.
    cbv beta iota zeta.
    now rewrite (position_absent cols "smiles") by exact H.
  - intros Hi Hw Hr Hs Hf.
    destruct (position_has_column _ _ Hr) as [jr Pr].
    destruct (position_has_column _ _ Hs) as [js Ps].
    simpl in Pr, Ps.
    assert (Hf' : forallb (fun c => negb (mem c cols)) cts_made = true).
    { rewrite forallb_forall in *. intros c Hc. specialize (Hf c Hc).
      now rewrite has_column_mem in Hf. }
    rewrite (CTS_cleanup_rows Mol MolFromSmiles MolToInchi InchiToInchiKey
               MolToSmiles cols rows dictDTXSID jr js Hi Hw Pr Ps Hf').
    split; [|split].
    + now intros ->.
    + intros k -> ->. reflexivity.
    + now intros -> -> ->.
Qed.

Lemma CTS_cleanup_errors_witness :
  CTS_cleanup Toy.MolFromSmiles Toy.MolToInchi Toy.InchiToInchiKey Toy.MolToSmiles
              cts_nameless cts_dict = AttributeError "smiles"
  /\ CTS_cleanup Toy.MolFromSmiles Toy.MolToInchi Toy.InchiToInchiKey
                 Toy.MolToSmiles cts_file cts_short_dict
     = Returned (Raise (KeyError "KEY:InChI=CCO")).
Proof.
  destruct (CTS_cleanup_errors
              Toy.Mol Toy.MolFromSmiles Toy.MolToInchi Toy.InchiToInchiKey
              Toy.MolToSmiles cts_nameless cts_dict) as [_ [A _]].
  destruct (CTS_cleanup_errors
              Toy.Mol Toy.MolFromSmiles Toy.MolToInchi Toy.InchiToInchiKey
              Toy.MolToSmiles cts_file cts_short_dict) as [_ [_ B]].
  destruct (B eq_refl eq_refl eq_refl eq_refl eq_refl) as [_ [K _]].
  split.
  - apply A; reflexivity.
  - apply (K "KEY:InChI=CCO"); reflexivity.
Defined.

(* ================================================================= *)
(** * From the adapters to the metrics *)

Lemma drop_excluded_keeps (df : DataFrame) :
  columns (drop_excluded df)
  = filter (fun c => negb (mem c excludedColumns)) (columns df).
Proof.
  unfold drop_excluded, drop.
  destruct (find _ excludedColumns) as [c|] eqn:F; [|reflexivity].
  apply find_some in F. destruct F as [Hc N]. apply negb_true_iff in N.
  destruct Hc as [<- | []]. symmetry. apply filter_id. intros c Hc.
  apply negb_true_iff. unfold mem, excludedColumns. simpl.
  rewrite orb_false_r. apply String.eqb_neq. intros ->.
  rewrite has_column_mem in N. apply mem_false in N. contradiction.
Qed.

Section Pipeline.

Variables T C : DataFrame.
Variable Model_Module : string.

Hypothesis HT : columns T = times_header Model_Module.
Hypothesis HC : columns C = chemreg_header.
Hypothesis Hmodule : mem Model_Module ("Reported" :: "Markush" :: times_columns) = false.

Lemma module_fresh : mem Model_Module times_columns = false.
Proof.
  unfold mem in *. simpl in Hmodule. apply orb_false_iff in Hmodule.
  destruct Hmodule as [_ H]. apply orb_false_iff in H. tauto.
Qed.

Lemma module_not_reported : String.eqb Model_Module "Reported" = false.
Proof.
  unfold mem in *. simpl in Hmodule. apply orb_false_iff in Hmodule. tauto.
Qed.

Lemma module_not_markush : String.eqb Model_Module "Markush" = false.
Proof.
  unfold mem in *. simpl in Hmodule. apply orb_false_iff in Hmodule.
  destruct Hmodule as [_ H]. apply orb_false_iff in H. tauto.
Qed.

Ltac names :=
  unfold suffixed, mem, excludedColumns, default_on, times_header,
    chemreg_header, pipeline_columns;
  repeat (cbn [filter map app existsb negb orb andb forallb position];
          rewrite ?String.eqb_refl, ?module_not_reported;
          rewrite ?(String.eqb_sym "Reported" Model_Module), ?module_not_reported;
          eval_eqb;
          repeat match goal with
                 | |- context [String.eqb ?a Model_Module] =>
                     rewrite (fresh_column_l a Model_Module module_fresh)
                       by (simpl; tauto)
                 | |- context [String.eqb Model_Module ?b] =>
                     rewrite (fresh_column_r b Model_Module module_fresh)
                       by (simpl; tauto)
                 end).

Lemma times_kept_columns :
  columns (drop_excluded T)
  = ["DTXSID"; "Metabolite_INCHIKEY"; "Formula"; "[M+H]"; Model_Module].
Proof. rewrite drop_excluded_keeps, HT. names. reflexivity. Qed.

Lemma reported_kept_columns :
  columns (drop_excluded C) = ["DTXSID"; "Metabolite_INCHIKEY"; "Reported"].
Proof. rewrite drop_excluded_keeps, HC. names. reflexivity. Qed.

Lemma drop_excluded_no_rows (df : DataFrame) :
  body (drop_excluded df) = [] <-> body df = [].
Proof.
  pose proof (drop_excluded_nrows df) as N. unfold nrows in N.
  split; intros E; rewrite E in N; simpl in N;
    apply length_zero_iff_nil; lia.
Qed.

Lemma pipeline_aggregate :
  exists agg,
    aggregate_DFs [T; C] default_on = Ok (Some agg)
    /\ columns agg = match body T with
                     | [] => pipeline_columns_bare Model_Module
                     | _ :: _ => pipeline_columns Model_Module
                     end.
Proof.
  assert (KT : forallb (has_column (drop_excluded T)) default_on = true).
  { unfold has_column. rewrite times_kept_columns. names. reflexivity. }
  assert (KC : forallb (has_column (drop_excluded C)) default_on = true).
  { unfold has_column. rewrite reported_kept_columns. names. reflexivity. }
  assert (Hon : default_on <> []) by discriminate.
  rewrite (aggregate_two T C default_on).
  destruct (body T) as [|t rows] eqn:E.
  - rewrite (merge_ok_empty _ _ _ Hon (proj2 (drop_excluded_no_rows T) E) KT KC).
    cbn [bind]. eexists. split; [reflexivity|].
    cbn [columns drop_duplicates replace_nan_0].
    rewrite times_kept_columns, reported_kept_columns.
    unfold pipeline_columns_bare. names. reflexivity.
  - assert (N : body (drop_excluded T) <> []).
    { intros K. apply (proj1 (drop_excluded_no_rows T)) in K. congruence. }
    rewrite (merge_ok _ _ _ Hon N KT KC).
    cbn [bind]. eexists. split; [reflexivity|].
    cbn [columns drop_duplicates replace_nan_0].
    rewrite times_kept_columns, reported_kept_columns. names. reflexivity.
Qed.

End Pipeline.

(** X24.  The aggregate of a table that [TIMES_cleanup] returns and a table
    that [ChemReg_cleanup] returns is a table on which [calcPrecision]
    returns a value for the TIMES column, and on which [calcSensitivity]
    raises [KeyError]: the column [Markush] is made by [genLiteratureDF]
    only.  Its key columns come first, unless the TIMES table has no
    rows: they then come after the other columns of the TIMES table. *)
Theorem adapters_feed_precision (T C : DataFrame) (Model_Module : string) :
  columns T = times_header Model_Module ->
  columns C = chemreg_header ->
  mem Model_Module ("Reported" :: "Markush" :: times_columns) = false ->
  exists agg,
    aggregate_DFs [T; C] default_on = Ok (Some agg)
    /\ columns agg = match body T with
                     | [] => pipeline_columns_bare Model_Module
                     | _ :: _ => pipeline_columns Model_Module
                     end
    /\ (exists p, calcPrecision agg (Name Model_Module) = Ok p)
    /\ calcSensitivity agg (Name Model_Module) = Raise (KeyError "Markush").
Proof.
  intros HT HC Hm.
  destruct (pipeline_aggregate T C Model_Module HT HC Hm) as [agg [E Cagg]].
  exists agg. split; [exact E|]. split; [exact Cagg|].
  pose proof (module_fresh Model_Module Hm) as Fm.
  pose proof (module_not_reported Model_Module Hm) as Nr.
  assert (V : valid_selector agg (Name Model_Module) = true).
  { unfold valid_selector, has_column. rewrite Cagg.
    destruct (body T); cbn [pipeline_columns pipeline_columns_bare existsb];
      rewrite String.eqb_refl; now rewrite !orb_true_r. }
  assert (R : has_column agg "Reported" = true).
  { unfold has_column. rewrite Cagg.
    destruct (body T); cbn [pipeline_columns pipeline_columns_bare existsb];
      rewrite String.eqb_refl; now rewrite !orb_true_r. }
  assert (M : has_column agg "Markush" = false).
  { unfold has_column. rewrite Cagg.
    destruct (body T); cbn [pipeline_columns pipeline_columns_bare existsb];
      eval_eqb; rewrite (String.eqb_sym "Markush" Model_Module);
      now rewrite (module_not_markush Model_Module Hm). }
  split.
  - rewrite (calcPrecision_cases agg (Name Model_Module) V R).
    destruct (allPredicted agg (Name Model_Module) =? 0); eexists; reflexivity.
  - unfold calcSensitivity.
    rewrite (model_filter_rows agg (Name Model_Module) V). cbn [bind].
    rewrite (getitem_field agg "Reported" R). cbn [bind].
    now rewrite (getitem_absent agg "Markush" M).
Qed.

Lemma adapters_feed_precision_witness :
  (exists agg,
     aggregate_DFs [repeated_output; reported_output] default_on = Ok (Some agg)
     /\ columns agg = pipeline_columns "TIMES_InVivo"
     /\ (exists p, calcPrecision agg (Name "TIMES_InVivo") = Ok p)
     /\ calcSensitivity agg (Name "TIMES_InVivo") = Raise (KeyError "Markush"))
  /\ (exists agg,
        aggregate_DFs [times_nothing; reported_output] default_on = Ok (Some agg)
        /\ columns agg = pipeline_columns_bare "TIMES_InVivo"
        /\ (exists p, calcPrecision agg (Name "TIMES_InVivo") = Ok p)
        /\ calcSensitivity agg (Name "TIMES_InVivo") = Raise (KeyError "Markush")).
Proof.
  split.
  - apply (adapters_feed_precision repeated_output reported_output
                                   "TIMES_InVivo"); reflexivity.
  - apply (adapters_feed_precision times_nothing reported_output
                                   "TIMES_InVivo"); reflexivity.
Defined.
(* ================================================================= *)
(** * The sentinel of the extended aggregator *)

(* ----------------------------------------------------------------- *)
(** ** Cells picked by the name of their column *)

Lemma pick_length (keep : string -> bool) (cols : list string) (r : list cell) :
  List.length (pick keep cols r) = List.length (filter keep cols).
Proof.
  revert r. induction cols as [|c cols IH]; intros r; simpl; [reflexivity|].
  destruct (keep c); simpl; now rewrite IH.
Qed.

Lemma pick_app (keep : string -> bool) (cols1 cols2 : list string)
  (r1 r2 : list cell) :
  List.length r1 = List.length cols1 ->
  pick keep (cols1 ++ cols2) (r1 ++ r2) = pick keep cols1 r1 ++ pick keep cols2 r2.
Proof.
  revert r1. induction cols1 as [|c cols1 IH]; intros [|a r1] H; simpl in *;
    try discriminate; [reflexivity|].
  rewrite IH by lia. now destruct (keep c).
Qed.

Lemma pick_names (keep : string -> bool) (f : string -> string)
  (cols : list string) (r : list cell) :
  pick keep (map f cols) r = pick (fun c => keep (f c)) cols r.
Proof.
  revert r. induction cols as [|c cols IH]; intros r; simpl; [reflexivity|].
  now rewrite IH.
Qed.

Lemma pick_ext (keep keep' : string -> bool) (cols : list string) (r : list cell) :
  (forall c, In c cols -> keep c = keep' c) -> pick keep cols r = pick keep' cols r.
Proof.
  revert r. induction cols as [|c cols IH]; intros r H; simpl; [reflexivity|].
  rewrite (H c (or_introl eq_refl)), IH; [reflexivity|].
  intros c' Hc'. apply H. now right.
Qed.

Lemma pick_map (keep : string -> bool) (g : cell -> cell) (cols : list string)
  (r : list cell) :
  List.length r = List.length cols ->
  pick keep cols (map g r) = map g (pick keep cols r).
Proof.
  revert r. induction cols as [|c cols IH]; intros [|a r] H; simpl in *;
    try discriminate; [reflexivity|].
  rewrite IH by lia. now destruct (keep c).
Qed.

Lemma pick_pick (keep keep' : string -> bool) (cols : list string) (r : list cell) :
  pick keep (filter keep' cols) (pick keep' cols r)
  = pick (fun c => keep' c && keep c) cols r.
Proof.
  revert r. induction cols as [|c cols IH]; intros r; simpl; [reflexivity|].
  destruct (keep' c); simpl; now rewrite IH.
Qed.

Lemma pick_repeat (keep : string -> bool) (cols : list string) (n : nat) :
  pick keep cols (repeat NaN n) = repeat NaN (List.length (filter keep cols)).
Proof.
  revert n. induction cols as [|c cols IH]; intros n; simpl; [reflexivity|].
  assert (T : tl (repeat NaN n) = repeat NaN (Nat.pred n)) by (now destruct n).
  assert (H : hd NaN (repeat NaN n) = NaN) by (now destruct n).
  rewrite T, H, IH. now destruct (keep c).
Qed.

Lemma pick_computed (keep : string -> bool) (h : string -> cell)
  (cols : list string) :
  pick keep cols (map h cols) = map h (filter keep cols).
Proof.
  induction cols as [|c cols IH]; simpl; [reflexivity|].
  rewrite IH. now destruct (keep c).
Qed.

(* ----------------------------------------------------------------- *)
(** ** Names that contain [Clean_SMILES] *)

Lemma prefix_x (s : string) :
  String.prefix "Clean_SMILES" (s ++ "_x") = String.prefix "Clean_SMILES" s.
Proof.
  do 12 (destruct s as [|? s];
         [vm_compute; reflexivity
         | cbn [String.prefix String.append];
           match goal with
           | |- context [Ascii.ascii_dec ?b ?a] =>
               destruct (Ascii.ascii_dec b a); [|reflexivity]
           end]).
  destruct s; reflexivity.
Qed.

Lemma prefix_y (s : string) :
  String.prefix "Clean_SMILES" (s ++ "_y") = String.prefix "Clean_SMILES" s.
Proof.
  do 12 (destruct s as [|? s];
         [vm_compute; reflexivity
         | cbn [String.prefix String.append];
           match goal with
           | |- context [Ascii.ascii_dec ?b ?a] =>
               destruct (Ascii.ascii_dec b a); [|reflexivity]
           end]).
  destruct s; reflexivity.
Qed.

Lemma contains_x (c : string) :
  contains "Clean_SMILES" (c ++ "_x") = contains "Clean_SMILES" c.
Proof.
  induction c as [|a c IH]; [reflexivity|].
  change (String a c ++ "_x")%string with (String a (c ++ "_x")).
  cbn [contains]. rewrite IH. f_equal.
  exact (prefix_x (String a c)).
Qed.

Lemma contains_y (c : string) :
  contains "Clean_SMILES" (c ++ "_y") = contains "Clean_SMILES" c.
Proof.
  induction c as [|a c IH]; [reflexivity|].
  change (String a c ++ "_y")%string with (String a (c ++ "_y")).
  cbn [contains]. rewrite IH. f_equal.
  exact (prefix_y (String a c)).
Qed.

(** A suffix does not make a name one of the structure columns, nor
    does it hide one. *)
Lemma contains_suffixed_x (on others : list string) (c : string) :
  contains "Clean_SMILES" (suffixed on others "_x" c) = contains "Clean_SMILES" c.
Proof.
  unfold suffixed. destruct (negb (mem c on) && mem c others);
    [apply contains_x | reflexivity].
Qed.

Lemma contains_suffixed_y (on others : list string) (c : string) :
  contains "Clean_SMILES" (suffixed on others "_y" c) = contains "Clean_SMILES" c.
Proof.
  unfold suffixed. destruct (negb (mem c on) && mem c others);
    [apply contains_y | reflexivity].
Qed.

(* ----------------------------------------------------------------- *)
(** ** The consensus of strings *)

Lemma is_string_present (c : cell) : is_string c = true -> isna c = false.
Proof. now destruct c. Qed.

(** The most frequent of the values that are not missing is one of
    them. *)
Lemma row_mode_present (cells : list cell) :
  existsb (fun c => negb (isna c)) cells = true ->
  In (row_mode cells) (filter (fun c => negb (isna c)) cells).
Proof.
  intros E. unfold row_mode.
  set (present := filter (fun c => negb (isna c)) cells).
  set (count := fun c => List.length (filter (same c) present)).
  set (best := fold_right Nat.max O (map count present)).
  set (modes := filter (fun c => Nat.eqb (count c) best) present).
  assert (NP : present <> []).
  { apply existsb_exists in E. destruct E as [c [Hc Nc]].
    intros K. assert (I : In c present) by (apply filter_In; now split).
    rewrite K in I. destruct I. }
  assert (NM : modes <> []).
  { destruct (proj2 (largest_count count present) NP) as [x [Hx Ex]].
    intros K. assert (I : In x modes).
    { apply filter_In. split; [exact Hx|]. apply Nat.eqb_eq. exact Ex. }
    rewrite K in I. destruct I. }
  assert (PM : forall c, In c modes -> isna c = false).
  { intros c Hc. apply filter_In in Hc. destruct Hc as [Hc _].
    apply filter_In in Hc. destruct Hc as [_ Hc]. now apply negb_true_iff. }
  pose proof (smallest_mode_In modes PM NM) as I.
  apply filter_In in I. tauto.
Qed.

Lemma row_mode_string (cells : list cell) :
  forallb string_or_missing cells = true ->
  existsb is_string cells = true ->
  is_string (row_mode cells) = true.
Proof.
  intros G S.
  assert (E : existsb (fun c => negb (isna c)) cells = true).
  { apply existsb_exists in S. destruct S as [c [Hc Sc]].
    apply existsb_exists. exists c. split; [exact Hc|].
    now rewrite (is_string_present c Sc). }
  pose proof (row_mode_present cells E) as I.
  apply filter_In in I. destruct I as [I N].
  rewrite forallb_forall in G. specialize (G _ I).
  unfold string_or_missing in G. apply negb_true_iff in N.
  rewrite N, orb_false_r in G. exact G.
Qed.

(* ----------------------------------------------------------------- *)
(** ** The structures of a merged row *)

Lemma missing_cells (n : nat) : forallb string_or_missing (repeat NaN n) = true.
Proof. induction n as [|n IH]; [reflexivity | exact IH]. Qed.

Lemma computed_missing (h : string -> cell) (l : list string) :
  (forall c, In c l -> h c = NaN) -> map h l = repeat NaN (List.length l).
Proof.
  induction l as [|c l IH]; simpl; intros H; [reflexivity|].
  rewrite (H c (or_introl eq_refl)), IH; [reflexivity|].
  intros c' Hc'. apply H. now right.
Qed.

(** [replace(np.NaN, 0)] and then [replace(0, np.NaN)] leave a string
    and a missing value as they were. *)
Lemma restored (cells : list cell) :
  forallb string_or_missing cells = true ->
  map (fun c => if py_eq c (Num 0) then NaN else c) (map fill0 cells) = cells.
Proof.
  induction cells as [|c cells IH]; simpl; intros H; [reflexivity|].
  apply andb_true_iff in H. destruct H as [Hc H]. rewrite (IH H). f_equal.
  unfold string_or_missing in Hc.
  destruct c as [s|z|b|[s|s| |s m e]]; try discriminate; reflexivity.
Qed.

Lemma structures_held (df : DataFrame) (r : list cell) :
  has_structures df = true -> In r (map snd (body df)) ->
  forallb string_or_missing (structures df r) = true
  /\ existsb is_string (structures df r) = true.
Proof.
  unfold has_structures. rewrite forallb_forall. intros H Hr.
  apply in_map_iff in Hr. destruct Hr as [r0 [<- Hr]]. specialize (H r0 Hr).
  destruct (structures df (snd r0)) as [|c cells]; [discriminate|].
  split.
  - apply forallb_forall. intros x Hx. rewrite forallb_forall in H.
    unfold string_or_missing. now rewrite (H x Hx).
  - simpl in *. apply andb_true_iff in H. destruct H as [H _]. now rewrite H.
Qed.

Section Consensus.

Variables A B : DataFrame.
Variable on : list string.

Hypothesis HwA : well_formed A = true.
Hypothesis HwB : well_formed B = true.
Hypothesis HsA : has_structures A = true.
Hypothesis HsB : has_structures B = true.
Hypothesis Hkeys : plain_keys on = true.

Let holds := contains "Clean_SMILES".
Let other := fun c => negb (mem c on).
Let lcols := columns A.
Let rcols := columns B.

Lemma structure_not_key (c : string) : holds c = true -> other c = true.
Proof.
  intros H. unfold other. destruct (mem c on) eqn:M; [|reflexivity].
  apply mem_In in M. unfold plain_keys in Hkeys.
  rewrite forallb_forall in Hkeys. specialize (Hkeys c M).
  fold holds in Hkeys. now rewrite H in Hkeys.
Qed.

Lemma left_structures (l : list cell) :
  pick holds (map (suffixed on rcols "_x") lcols) l = structures A l.
Proof.
  rewrite pick_names. apply pick_ext. intros c _.
  apply contains_suffixed_x.
Qed.

Lemma left_other_structures (l : list cell) :
  pick holds (map (suffixed on rcols "_x") (filter other lcols)) l
  = pick holds (filter other lcols) l.
Proof.
  rewrite pick_names. apply pick_ext. intros c _.
  apply contains_suffixed_x.
Qed.

Lemma right_structures (r : list cell) :
  pick holds (map (suffixed on lcols "_y") rcols) r = structures B r.
Proof.
  rewrite pick_names. apply pick_ext. intros c _.
  apply contains_suffixed_y.
Qed.

Lemma right_other_structures (r : list cell) :
  pick holds (map (suffixed on lcols "_y") (filter other rcols))
       (pick other rcols r)
  = structures B r.
Proof.
  rewrite pick_names.
  rewrite (pick_ext _ holds) by (intros c _; apply contains_suffixed_y).
  rewrite pick_pick. apply pick_ext. intros c _.
  change (other c && holds c = holds c).
  destruct (holds c) eqn:H; [|apply andb_false_r].
  now rewrite (structure_not_key c H).
Qed.

Lemma right_other_missing (n : nat) :
  pick holds (map (suffixed on lcols "_y") (filter other rcols))
       (repeat NaN n)
  = repeat NaN (List.length (filter holds (filter other rcols))).
Proof.
  rewrite pick_names.
  rewrite (pick_ext _ holds) by (intros c _; apply contains_suffixed_y).
  apply pick_repeat.
Qed.

(** The cells of a merged row under the structure columns: the
    structures of the rows it is made of, and missing values. *)
Lemma merged_structures (m : DataFrame) (x : list cell) :
  merge A B on = Ok m -> In x (map snd (body m)) ->
  exists cells,
    pick holds (columns m) (map fill0 x) = map fill0 cells
    /\ forallb string_or_missing cells = true
    /\ existsb is_string cells = true.
Proof.
  intros M. destruct (merge_shared_keys _ _ _ _ M) as [Hon K].
  assert (CL : forallb (has_column A) on = true).
  { unfold shared_keys in K. rewrite forallb_forall in *. intros k Hk.
    specialize (K k Hk). now apply andb_true_iff in K. }
  assert (CR : forallb (has_column B) on = true).
  { unfold shared_keys in K. rewrite forallb_forall in *. intros k Hk.
    specialize (K k Hk). now apply andb_true_iff in K. }
  destruct (body A) as [|a0 rows0] eqn:EA;
    [rewrite (merge_ok_empty A B on Hon EA CL CR) in M
    |rewrite (merge_ok A B on Hon) in M by (assumption || congruence)];
    injection M as <-; cbn [columns body]; rewrite map_snd_reset_index;
    fold lcols rcols other; intros Hx.
  - apply in_map_iff in Hx. destruct Hx as [r [<- Hr]].
    pose proof (row_width B r HwB Hr) as RW. fold rcols in RW.
    destruct (structures_held B r HsB Hr) as [G S].
    exists (repeat NaN (List.length (filter holds (filter other lcols)))
            ++ structures B r).
    split; [|split].
    + unfold right_alone. fold other.
      rewrite pick_map
        by (rewrite !length_app, !length_map, repeat_length; lia).
      f_equal. rewrite pick_app by (now rewrite repeat_length, length_map).
      rewrite left_other_structures, pick_repeat. f_equal.
      apply right_structures.
    + now rewrite forallb_app, missing_cells.
    + rewrite existsb_app, S. apply orb_true_r.
  - unfold merge_rows in Hx. fold other in Hx.
    apply in_app_or in Hx. destruct Hx as [Hx|Hx].
    + apply in_flat_map in Hx. destruct Hx as [l [Hl Hx]].
      pose proof (row_width A l HwA Hl) as LW. fold lcols in LW.
      destruct (structures_held A l HsA Hl) as [G S].
      destruct (filter _ (map snd (body B))) as [|r0 matches] eqn:F.
      * destruct Hx as [<-|[]].
        exists (structures A l
                ++ repeat NaN (List.length (filter holds (filter other rcols)))).
        split; [|split].
        -- rewrite pick_map
             by (rewrite !length_app, !length_map, repeat_length; lia).
           f_equal. rewrite pick_app by (now rewrite length_map).
           now rewrite left_structures, right_other_missing.
        -- now rewrite forallb_app, G, missing_cells.
        -- now rewrite existsb_app, S.
      * rewrite <- F in Hx. apply in_map_iff in Hx.
        destruct Hx as [r [<- Hr]]. apply filter_In in Hr.
        destruct Hr as [Hr _].
        destruct (structures_held B r HsB Hr) as [G' S'].
        exists (structures A l ++ structures B r).
        split; [|split].
        -- rewrite pick_map
             by (rewrite !length_app, !length_map, pick_length; lia).
           f_equal. rewrite pick_app by (now rewrite length_map).
           now rewrite left_structures, right_other_structures.
        -- now rewrite forallb_app, G, G'.
        -- now rewrite existsb_app, S.
    + apply in_map_iff in Hx. destruct Hx as [r [<- Hr]].
      apply filter_In in Hr. destruct Hr as [Hr _].
      destruct (structures_held B r HsB Hr) as [G S].
      exists (repeat NaN (List.length (filter holds lcols)) ++ structures B r).
      split; [|split].
      * unfold right_only. fold other.
        rewrite pick_map
          by (rewrite !length_app, !length_map, pick_length; lia).
        f_equal. rewrite pick_app by (now rewrite !length_map).
        rewrite right_other_structures. f_equal.
        rewrite pick_names.
        rewrite (pick_ext _ holds) by (intros c _; apply contains_suffixed_x).
        rewrite pick_computed. apply computed_missing.
        intros c Hc. apply filter_In in Hc. destruct Hc as [_ Hc].
        apply structure_not_key in Hc. unfold other in Hc.
        apply negb_true_iff in Hc. rewrite Hc.
        now destruct (position c rcols).
      * now rewrite forallb_app, missing_cells.
      * rewrite existsb_app, S. apply orb_true_r.
Qed.

End Consensus.

(* ----------------------------------------------------------------- *)
(** ** The shape of a merge *)

Lemma merge_keys_shared (left right m : DataFrame) (on : list string) :
  merge left right on = Ok m ->
  on <> [] /\ forallb (has_column left) on = true
  /\ forallb (has_column right) on = true.
Proof.
  intros M. destruct (merge_shared_keys _ _ _ _ M) as [Hon K].
  split; [exact Hon|]. unfold shared_keys in K.
  split; rewrite forallb_forall in *; intros k Hk; specialize (K k Hk);
    now apply andb_true_iff in K.
Qed.

(** The rows of a merge of well-formed tables have one cell per
    column. *)
Lemma merge_well_formed (left right m : DataFrame) (on : list string) :
  well_formed left = true -> well_formed right = true ->
  merge left right on = Ok m -> well_formed m = true.
Proof.
  intros WL WR M. destruct (merge_keys_shared _ _ _ _ M) as [Hon [CL CR]].
  unfold well_formed. apply forallb_forall. intros x Hx. apply Nat.eqb_eq.
  assert (Hs : In (snd x) (map snd (body m))) by (now apply in_map).
  clear Hx. revert Hs.
  destruct (body left) as [|a0 rows0] eqn:EA;
    [rewrite (merge_ok_empty left right on Hon EA CL CR) in M
    |rewrite (merge_ok left right on Hon) in M by (assumption || congruence)];
    injection M as <-; cbn [columns body]; rewrite map_snd_reset_index;
    intros Hx; rewrite length_app, !length_map.
  - apply in_map_iff in Hx. destruct Hx as [r [<- Hr]].
    unfold right_alone. rewrite length_app, repeat_length.
    now rewrite (row_width right r WR Hr).
  - unfold merge_rows in Hx. apply in_app_or in Hx. destruct Hx as [Hx|Hx].
    + apply in_flat_map in Hx. destruct Hx as [l [Hl Hx]].
      pose proof (row_width left l WL Hl) as LW.
      destruct (filter _ (map snd (body right))) as [|r0 matches].
      * destruct Hx as [<-|[]]. rewrite length_app, repeat_length. lia.
      * apply in_map_iff in Hx. destruct Hx as [r [<- _]].
        rewrite length_app, pick_length. lia.
    + apply in_map_iff in Hx. destruct Hx as [r [<- _]].
      unfold right_only. now rewrite length_app, length_map, pick_length.
Qed.

(** A merge of two tables one of which has a row has a row. *)
Lemma merge_has_rows (left right m : DataFrame) (on : list string) :
  merge left right on = Ok m -> (0 < nrows left + nrows right)%nat ->
  body m <> [].
Proof.
  intros M. destruct (merge_keys_shared _ _ _ _ M) as [Hon [CL CR]].
  unfold nrows.
  destruct (body left) as [|a0 rows0] eqn:EA;
    [rewrite (merge_ok_empty left right on Hon EA CL CR) in M
    |rewrite (merge_ok left right on Hon) in M by (assumption || congruence)];
    injection M as <-; cbn [body]; intros N E;
    apply (f_equal (@List.length _)) in E;
    rewrite reset_index_length in E; simpl in E.
  - rewrite !length_map in E. simpl in N. lia.
  - unfold merge_rows in E. rewrite EA in E. cbn [map flat_map] in E.
    rewrite !length_app in E.
    destruct (filter _ (map snd (body right))); simpl in E; lia.
Qed.

Lemma merge_labels (left right m : DataFrame) (on : list string) :
  merge left right on = Ok m -> unique_index (replace_nan_0 m) = true.
Proof.
  intros M. destruct (merge_keys_shared _ _ _ _ M) as [Hon [CL CR]].
  unfold unique_index, replace_nan_0. cbn [body]. rewrite map_map. cbn [fst].
  destruct (body left) as [|a0 rows0] eqn:EA;
    [rewrite (merge_ok_empty left right on Hon EA CL CR) in M
    |rewrite (merge_ok left right on Hon) in M by (assumption || congruence)];
    injection M as <-; cbn [body]; unfold reset_index;
    rewrite map_fst_combine_seq; apply distinct_labels_seq.
Qed.

Lemma well_formed_filled (df : DataFrame) :
  well_formed df = true -> well_formed (replace_nan_0 df) = true.
Proof.
  unfold well_formed, replace_nan_0. cbn [columns body].
  rewrite !forallb_forall. intros H r Hr.
  apply in_map_iff in Hr. destruct Hr as [r0 [<- Hr0]]. cbn [snd].
  rewrite length_map. now apply H.
Qed.

(* ----------------------------------------------------------------- *)
(** ** Dropping columns and duplicates *)

Lemma drop_known (df : DataFrame) (labels : list string) :
  (forall c, In c labels -> has_column df c = true) ->
  drop df labels
  = Ok (mkDF (filter (fun c => negb (mem c labels)) (columns df))
             (map (fun r => (fst r, pick (fun c => negb (mem c labels))
                                         (columns df) (snd r))) (body df))).
Proof.
  intros H. unfold drop.
  rewrite (find_none (has_column df)); [reflexivity|].
  apply forallb_forall. exact H.
Qed.

(** A column that is kept holds what it held. *)
Lemma kept_cell (keep : string -> bool) (c : string) (cols : list string)
  (row : list cell) :
  keep c = true -> List.length row = List.length cols ->
  match position c (filter keep cols) with
  | Some j => nth j (pick keep cols row) NaN
  | None => NaN
  end
  = match position c cols with
    | Some j => nth j row NaN
    | None => NaN
    end.
Proof.
  intros K. revert row. induction cols as [|c0 cols IH]; intros [|a row] L;
    simpl in L; try discriminate; [reflexivity|].
  specialize (IH row ltac:(lia)). simpl.
  destruct (keep c0) eqn:K0; simpl.
  - destruct (String.eqb c0 c); [reflexivity|].
    destruct (position c (filter keep cols)), (position c cols); exact IH.
  - assert (N : String.eqb c0 c = false).
    { apply String.eqb_neq. intros ->. congruence. }
    rewrite N. destruct (position c cols); exact IH.
Qed.

Lemma well_formed_kept (keep : string -> bool) (df : DataFrame) :
  well_formed (mkDF (filter keep (columns df))
                    (map (fun r => (fst r, pick keep (columns df) (snd r)))
                         (body df))) = true.
Proof.
  unfold well_formed. cbn [columns body]. apply forallb_forall.
  intros r Hr. apply in_map_iff in Hr. destruct Hr as [r0 [<- _]].
  cbn [snd]. apply Nat.eqb_eq. apply pick_length.
Qed.

(** The rows that [drop_duplicates] keeps are rows of the table. *)
Lemma kept_rows (df : DataFrame) (r : nat * list cell) :
  In r (body (drop_duplicates df)) -> In (snd r) (map snd (body df)).
Proof.
  unfold drop_duplicates. cbn [body]. intros H.
  apply (in_map snd) in H. rewrite map_snd_reset_index in H.
  apply distinct_from_In in H. tauto.
Qed.

Lemma well_formed_distinct (df : DataFrame) :
  well_formed df = true -> well_formed (drop_duplicates df) = true.
Proof.
  intros W. unfold well_formed. apply forallb_forall. intros r Hr.
  apply kept_rows in Hr. apply in_map_iff in Hr.
  destruct Hr as [r0 [E Hr0]]. rewrite <- E.
  unfold well_formed in W. rewrite forallb_forall in W. now apply W.
Qed.

(* ----------------------------------------------------------------- *)
(** ** The extended aggregate of two tables *)

Lemma merge_returns (left right : DataFrame) (on : list string) :
  on <> [] -> shared_keys left right on = true ->
  exists m, merge left right on = Ok m.
Proof.
  intros Hon K.
  assert (CL : forallb (has_column left) on = true).
  { unfold shared_keys in K. rewrite forallb_forall in *. intros k Hk.
    specialize (K k Hk). now apply andb_true_iff in K. }
  assert (CR : forallb (has_column right) on = true).
  { unfold shared_keys in K. rewrite forallb_forall in *. intros k Hk.
    specialize (K k Hk). now apply andb_true_iff in K. }
  destruct (body left) as [|a0 rows0] eqn:EA.
  - eexists. now apply merge_ok_empty.
  - eexists. apply merge_ok; congruence.
Qed.

Lemma mem_kept_names (keep : string -> bool) (cols : list string) (c : string) :
  In c cols -> mem c (filter keep cols) = keep c.
Proof.
  intros H. destruct (keep c) eqn:K.
  - apply mem_In. apply filter_In. now split.
  - apply mem_false. intros I. apply filter_In in I. destruct I. congruence.
Qed.

Section Sentinel.

Variable Mol : Type.
Variable MolFromSmiles : string -> option Mol.
Variable ExactMolWt : Mol -> PyFloat.float.
Variable CalcMolFormula : Mol -> string.
Variable proton : Mol.
Variables A B : DataFrame.
Variable on : list string.

Hypothesis Hon : on <> [].
Hypothesis Hshared : shared_keys A B on = true.
Hypothesis HwA : well_formed A = true.
Hypothesis HwB : well_formed B = true.
Hypothesis HsA : has_structures A = true.
Hypothesis HsB : has_structures B = true.
Hypothesis Hkeys : plain_keys on = true.
Hypothesis Hrows : (0 < nrows A + nrows B)%nat.
Hypothesis Hproton : MolFromSmiles "[H+]" = Some proton.

Variable m : DataFrame.
Hypothesis Hm : merge A B on = Ok m.

Let agg := replace_nan_0 m.
Let holds := contains "Clean_SMILES".
Let tmp := filter holds (columns agg).
Let keep := fun c => negb (mem c tmp).

(** The consensus of a row of the merge. *)
Let consensus (r : nat * list cell) : cell :=
  row_mode (map (fun c => if py_eq c (Num 0) then NaN else c)
                (pick (fun c => mem c tmp) (columns agg) (snd r))).

Lemma consensus_string (r : nat * list cell) :
  In r (body agg) -> is_string (consensus r) = true.
Proof.
  intros Hr. unfold agg, replace_nan_0 in Hr. cbn [body] in Hr.
  apply in_map_iff in Hr. destruct Hr as [x [<- Hx]].
  unfold consensus. cbn [snd].
  rewrite (pick_ext _ holds)
    by (intros c Hc; now apply mem_kept_names).
  destruct (merged_structures A B on HwA HwB HsA HsB Hkeys m (snd x) Hm
              (in_map snd _ _ Hx)) as [cells [E [G S]]].
  change (columns agg) with (columns m). fold holds in E. rewrite E.
  rewrite (restored cells G). now apply row_mode_string.
Qed.

Let agg1 := setitem_with agg "SMILES" consensus.
Let agg2 :=
  mkDF (filter keep (columns agg1))
       (map (fun r => (fst r, pick keep (columns agg1) (snd r))) (body agg1)).

Lemma agg_well_formed : well_formed agg = true.
Proof.
  apply well_formed_filled. now apply (merge_well_formed A B m on).
Qed.

Lemma setitem_consensus :
  setitem agg "SMILES" (map (fun r => (fst r, consensus r)) (body agg)) = agg1.
Proof.
  unfold setitem. apply setitem_with_ext. intros r Hr.
  rewrite (loc_rows consensus (body agg) r); [reflexivity | | exact Hr].
  apply unique_index_NoDup. now apply (merge_labels A B m on).
Qed.

Lemma structure_columns_known (c : string) :
  In c tmp -> has_column agg1 c = true.
Proof.
  intros H. apply filter_In in H. destruct H as [H _].
  rewrite has_column_mem. apply mem_In. unfold agg1.
  rewrite setitem_with_columns. apply with_column_In. now left.
Qed.

Lemma consensus_kept : keep "SMILES" = true.
Proof.
  unfold keep. apply negb_true_iff. apply mem_false. intros H.
  apply filter_In in H. destruct H as [_ H]. vm_compute in H. discriminate.
Qed.

(** The column [SMILES] of the table that the molecular columns are
    computed from holds strings. *)
Lemma consensus_column : string_column (drop_duplicates agg2) "SMILES" = true.
Proof.
  unfold string_column. apply andb_true_iff. split.
  - rewrite has_column_mem. apply mem_In.
    change (columns (drop_duplicates agg2)) with (filter keep (columns agg1)).
    apply filter_In. split; [|apply consensus_kept].
    unfold agg1. rewrite setitem_with_columns. apply with_column_In. now right.
  - apply forallb_forall. intros r3 Hr3.
    apply kept_rows in Hr3. apply in_map_iff in Hr3.
    destruct Hr3 as [r2 [E2 Hr2]]. unfold agg2 in Hr2. cbn [body] in Hr2.
    apply in_map_iff in Hr2. destruct Hr2 as [r1 [E1 Hr1]].
    assert (Hr1' := Hr1). unfold agg1 in Hr1'.
    rewrite setitem_with_body in Hr1'.
    apply in_map_iff in Hr1'. destruct Hr1' as [r0 [E0 Hr0]].
    assert (W1 : well_formed agg1 = true).
    { apply well_formed_setitem_with. apply agg_well_formed. }
    pose proof (well_formed_row agg1 r1 W1 Hr1) as L1.
    replace (field (drop_duplicates agg2) "SMILES" r3)
      with (field agg1 "SMILES" r1).
    + rewrite <- E0. unfold agg1.
      rewrite (field_setitem_with_same agg "SMILES" consensus agg_well_formed
                 r0 Hr0).
      now apply consensus_string.
    + unfold field, cell_at.
      change (columns (drop_duplicates agg2)) with (filter keep (columns agg1)).
      rewrite <- E2, <- E1. cbn [snd]. symmetry.
      apply kept_cell; [apply consensus_kept | exact L1].
Qed.

Lemma extended_two :
  aggregate_DFs_extended MolFromSmiles ExactMolWt CalcMolFormula [A; B] on
  = (r <- molecular_columns MolFromSmiles ExactMolWt CalcMolFormula
                            (drop_duplicates agg2) ;;
     Ok (Some r)).
Proof.
  unfold aggregate_DFs_extended. cbn [foldM]. rewrite Hm. cbn [bind].
  fold agg. cbv zeta. fold holds. fold tmp.
  rewrite map_map. cbn [fst snd].
  change (map (fun x : nat * list cell =>
                 (fst x,
                  row_mode (map (fun c => if py_eq c (Num 0) then NaN else c)
                                (pick (fun c => mem c tmp) (columns agg)
                                      (snd x))))) (body agg))
    with (map (fun r => (fst r, consensus r)) (body agg)).
  assert (N : forallb (fun p : nat * cell => isna (snd p))
                      (map (fun r => (fst r, consensus r)) (body agg)) = false).
  { pose proof (merge_has_rows A B m on Hm Hrows) as R.
    destruct (body m) as [|x rows] eqn:E; [congruence|].
    assert (Hx : In (fst x, map fill0 (snd x)) (body agg)).
    { unfold agg, replace_nan_0. cbn [body]. rewrite E. now left. }
    apply not_true_is_false. intros K. rewrite forallb_forall in K.
    specialize (K _ (in_map (fun r => (fst r, consensus r)) _ _ Hx)).
    cbn [snd] in K.
    pose proof (consensus_string _ Hx) as S.
    apply is_string_present in S. congruence. }
  rewrite N, setitem_consensus.
  rewrite (drop_known agg1 tmp structure_columns_known). cbn [bind].
  reflexivity.
Qed.

(** What [aggregate_DFs_extended] returns for the two tables. *)
Lemma extended_rows :
  exists R,
    aggregate_DFs_extended MolFromSmiles ExactMolWt CalcMolFormula [A; B] on
    = Ok (Some R)
    /\ forall r, In r (body R) ->
         exists s, field R "SMILES" r = Str s
           /\ match MolFromSmiles s with
              | None =>
                  field R "[M+H]" r = Str "Incompatible SMILES"
                  /\ field R "Formula" r = Str "Incompatible SMILES"
              | Some mol =>
                  field R "[M+H]" r
                  = Flt (PyFloat.add (ExactMolWt mol) (ExactMolWt proton))
                  /\ field R "Formula" r = Str (CalcMolFormula mol)
              end.
Proof.
  assert (W : well_formed (drop_duplicates agg2) = true).
  { apply well_formed_distinct. apply well_formed_kept. }
  destruct (molecular_columns_rows Mol MolFromSmiles ExactMolWt CalcMolFormula
              proton (drop_duplicates agg2)
              (drop_duplicates_unique_index agg2) W consensus_column Hproton)
    as [R [E [_ H]]].
  exists R. split; [rewrite extended_two, E; reflexivity|].
  intros r' Hr'. destruct (H r' Hr') as [r [Hr [_ [F1 [F2 F3]]]]].
  pose proof consensus_column as S. unfold string_column in S.
  apply andb_true_iff in S. destruct S as [_ S].
  rewrite forallb_forall in S. specialize (S r Hr).
  destruct (field (drop_duplicates agg2) "SMILES" r) as [s| | |];
    try discriminate.
  exists s. split; [exact F1|]. rewrite F2, F3.
  destruct (MolFromSmiles s); split; reflexivity.
Qed.

End Sentinel.



(** The guard covers the strings that RDKit does not parse, and nothing
    else: a row that holds no structure has a missing consensus, on
    which [MolFromSmiles] raises, and the call fails. *)
Lemma structureless_row_raises :
  has_structures unstructured_output = false
  /\ Toy.aggregate_DFs_extended [toolbox_output; unstructured_output] default_on
     = Raise ArgumentError.
Proof. split; vm_compute; reflexivity. Qed.
